(* ===== verification/_CoqProject ===== *)
-Q . S2P
Prelude.v
ByteCodec.v
Stream.v
ConstantPool.v
Records.v
ClassFile.v
ParserFaults.v
Encode.v
Executor.v
Roundtrip.v
Canonical.v
Malformed.v
Hello.v
Cursor.v
Store.v
Termination.v
Lookup.v
Header.v
Opcodes.v
Refinement.v
EndToEnd.v
Scenarios.v
Abstract.v
Heap.v
Destructors.v
Strict.v
Lifetime.v
Preserved.v
Tight.v
MainStrict.v
