(* ===== verification/Prelude.v ===== *)
(** * ZeraVM: a verification development

    ZeraVM ([src/src/main.cpp], one file of 686 lines) reads one Java class
    file and interprets the bytecode of its static method [main].  It has
    two halves: a parser ([swapEndianness], [ConstantPoolEntry],
    [ConstantPool], [AttributeInfo], [FieldEntry], [MethodEntry],
    [JavaClassFile]) and an interpreter ([JavaExecutor], [main]).  The
    parser fills a [JavaClassFile] from an [ifstream]; the interpreter
    keeps a pointer to that object, looks methods and attributes up by
    name through the constant pool, and walks the bytes of a Code
    attribute with a cursor.

    ** The files

    The model, one file per part of the program, in dependency order:

    - [Prelude] (this file): the ways the process can end ([fault]), the
      state-and-fault monad [M] every operation is written in, the
      predicates the theorems are stated with ([keeps], [faults_in],
      [returns], [below], [stateless]) with their structural rules, the
      class [Lens] of a component of the state with [implements], and
      the tactics and the hint database [zera] of the library.
    - [ByteCodec]: [swapEndianness] (main.cpp 7-18) on the object
      representation of an unsigned integer.  The host is little-endian:
      a [w]-byte value [v] lies in memory as [le_split w v].
    - [Stream]: the [ifstream] with the two output channels, as the
      record [IO].  [stream.read] is [stream_fill]: it delivers what the
      stream still holds, at most the bytes asked for, and a read that
      came short leaves the stream empty for good.  What a short read
      means depends on the destination: [stream_read], [read_u16] and
      [read_u32] are reads into a variable without initialiser that the
      next statement uses; [read_u16_over] is the read into a member
      that has one.  The class [Readable] is the interface between the
      [read] methods and the array loops of the constructors,
      [ReadableLaws] what the loops need.
    - [ConstantPool]: [ConstantPoolEntry] (a tag and a union, 53-160),
      its [read] and [operator<<], the [ConstantPool] constructor and the
      indexing [entries[idx - 1]] (162-192).
    - [Records]: [AttributeInfo], [FieldEntry], [MethodEntry], their
      [read] methods, [MethodEntry::get_attribute] and the two
      [operator<<] (194-300).
    - [ClassFile]: the two headers, the [JavaClassFile] constructor and
      [get_method] (20-34, 302-412).
    - [Encode]: a writer of the class file format, from section 6 of the
      specification; the program has none.
    - [Executor]: [CodeAttribute], the opcodes, the [Action] hierarchy,
      and [JavaExecutor]: [get_method], [get_code_attribute], [get_code],
      [step] (as [execute] followed by the final [cursor++]), [run], and
      [main] (414-686).
    - [Heap]: the free store: the blocks that are live, each with the
      form of the new-expression that made it, and the two
      delete-expressions.  Its operations are the rules of the language
      for [new] and [delete], which the program relies on; no line of
      the program defines them.
    - [Destructors]: the seven destructors (155-159, 181-185, 211-213,
      247-249, 297-299, 380-391, 498) and the blocks the constructor of a
      class file has taken when it returns.
    - [Strict]: [step], [run] and [main] once more, on the machine with
      its heap: with the allocation of every [Action], the destructors
      of the local entries of [step] at the end of each block, the
      opening of the file by name and the destructors of [executor] and
      [file] at [return 0].

    The theorems, one file per subject:

    - [ParserFaults]: the ways the parser can end the process.
    - [Roundtrip]: the readers are inverse to the writers of [Encode].
    - [Canonical]: the converse: what a reader took from the stream is
      the encoding of what it returned, unless the stream ended first.
    - [Malformed]: files that are no class files: another magic number,
      a file cut after the headers, an attribute without its payload.
    - [Hello]: the class file of the specification's example and its run.
    - [Cursor]: the cursor arithmetic of [step]; the faults of every
      operation; the call depth is only fuel.
    - [Store]: what [run] may change in the class file.
    - [Termination]: the loop of [run] ends.
    - [Lookup]: [get_method] and [get_attribute] return the first match.
    - [Header]: the in-place swap of the Code attribute's header.
    - [Opcodes]: the effect of each branch of [step].
    - [Refinement]: an instruction-level semantics and the proof that the
      loop of [run] implements it.
    - [EndToEnd]: [main], from the bytes of the file to the exit status.
    - [Scenarios]: runs of whole class files through [main].
    - [Abstract]: the interpreter as a machine on the action stack and
      [cout] alone, and the proof that instructions, loop and [main]
      implement it on code without INVOKESTATIC.
    - [Lifetime]: that [Strict] refines [Executor].
    - [Preserved]: what a strict run leaves as it was, in the machine
      and in the heap.
    - [Tight]: the strict [run] against [run] on a class file whose pool
      is as [read] left it: the only fault the destructors add.
    - [MainStrict]: what the destructors make of LDC and of [main].

    ** How state and effects are modelled

    Every operation is a function in the monad [M S A := S -> outcome S A].
    An [outcome] is [Ok a s] (the call returned [a] in state [s]) or
    [Fault f s]: the process ended, [s] holding the output written until
    then.  The parser's state is [IO] (unread bytes, [cout], [cerr]); the
    interpreter's state is [Machine]: the class file, the action stack and
    the [IO].  The class file is part of the mutable state because
    [get_code_attribute] swaps the header of a Code attribute in place
    each time it is called: the buffer is shared by every later call.  The
    action stack is a member of the executor, so it is one stack for all
    nested calls of [run].  Pointers into the class file are indices (a
    method, an attribute of it, an offset: [BufPtr]); the null pointer is
    [None].  Arrays made with [new T[n]] are lists of length [n]; the
    elements of [interfaces] are [option]s, [None] where the stream ended
    before the element was written, and the bytes of an attribute are the
    beginning of its buffer that the stream filled.  A union is a sum
    type that remembers the member last written.  The members of this
    union are structs of [uint16_t]s, so a field read through another
    member is defined where both start with the same types (the common
    initial sequence): [first_u16] and [second_u16] say where.

    The program is modelled in two layers.  [Executor] is the program
    with every destructor taken as doing nothing: what it computes when
    no object is ever destroyed.  [Strict] adds the free store and runs
    the destructors where C++ runs them.  Its state is [World], the
    [Machine] and the [Heap], and for [main] the [Process]: the files by
    name, the channels and the heap.  A block of the heap is named after
    the pointer member that holds it ([loc]), which the program assigns
    once; the records keep their arrays by value as before, and a
    destructor is given the name of the block beside the record.  The
    blocks a constructor takes are entered in the heap when it returns.
    [Lifetime.run_d_refines] and [MainStrict.main_d_refines] relate the
    two layers, so the theorems on [Executor] are theorems on every
    strict run that does not end in a destructor.

    ** Faults

    [Exit c] is a call of [exit(c)] (its diagnostic is already on [cout]
    or [cerr]).  [Terminate] is an uncaught C++ exception.  [Undefined u]
    marks an execution on which the C++ standard defines nothing that the
    development relies on: an index outside an array, a read of a union
    member that shares no initial sequence with the one [read] stored, a
    null dereference, [top()] of an empty stack, the use of a variable
    that a short [stream.read] left unwritten, a [delete] of what
    [new[]] made, a [delete] of a pointer to no live object.  The model
    stops there; the theorems say nothing about what the binary does
    after such a point.

    The program never tests the stream, so the end of the file shows
    only in what the destinations hold.  The two headers, the tag and the
    members of a pool entry, the length and the characters of a Utf8
    string and the fields of the three records have no initialiser and
    are used by the statement after the read: a short read there is
    [Undefined UninitializedRead].  The three counts [fields_count],
    [methods_count] and [attributes_count] are initialised to 0 and keep
    what a short read left in them; the elements of [interfaces] and the
    bytes of an attribute's buffer are not looked at by the constructor,
    and stay unwritten.  In the Utf8 loop the variable [tmp] lives
    across the iterations and keeps the character read last.

    ** Fuel

    Two faults are not behaviours of the program.  [run] calls itself
    through INVOKESTATIC without a bound, so the model takes a bound on
    the call depth: [run depth] is [CallDepth] when the nesting exceeds
    it.  [Cursor.run_depth_mono] shows that the bound is only fuel: a run
    that ends otherwise ends the same way with any larger bound.  The
    [while] loop of [run] gets [S (length buf)] iterations, [buf] the
    buffer of the Code attribute, and is [LoopFuel] beyond; every step
    that returns moves the cursor forward inside the buffer, so that
    bound is never reached ([Termination.run_never_LoopFuel]).  The
    decoder of [Abstract] takes the length of the buffer as fuel; each
    instruction is at least one byte, so it is enough
    ([Abstract.straight_code_decodes]).

    ** What the theorems show

    - [ByteCodec]: [swapEndianness] is the byte reversal its loop
      computes, an involution on the values of its type, and turns the
      host's reading of the bytes of the file into their big-endian value.
    - [ConstantPool], [Records], [ClassFile]: each reader takes bytes
      from the front of the stream only; what it returns is well formed
      (fields in range, counts equal to lengths, tag and union member in
      agreement, no more bytes in a buffer than its length field says);
      a tag outside the six decoded ends the process; a pool
      has an entry exactly at the indices from 1 to its count less one; a
      wrong magic number returns before the pool is read, with [ok]
      false; the interface indices are stored unswapped.
    - [ParserFaults]: the constructor ends the process by [exit(1)], by
      the exception of an allocation or by the use of a variable that a
      read past the end of the file left unwritten, and in no other way.
    - [Roundtrip]: [read] of each record is a left inverse of its writer
      ([Encode.Codec]), the array loops lift this to arrays, and the
      constructor reads the file of an encodable class back.  A class is
      encodable when it is well formed, its fields are in the range of
      their widths, and it is [whole]: no element of [interfaces] and no
      byte of a buffer is unwritten.
    - [Canonical]: [took bs io io'] says that the bytes [bs] were taken
      from the front of the stream and nothing was printed; [fed bs io
      io'] that they were, or that the stream ended first: then all of
      it was taken and it was shorter than [bs].  Every reader was fed
      the encoding of the value it returned (the class [Canonical],
      beside [Encode.Codec]), the array loops the encodings of their
      elements, the constructor the file of the class it returned.  A
      class read from a stream that did not end is whole.  So the byte
      strings that the constructor accepts whatever follows them are
      exactly the files of the encodable classes; the encoding is a
      prefix code; and reading is idempotent through the writer.
    - [Malformed]: a file that ends after [header2] is accepted as a
      class without fields, methods and attributes, whatever its pool
      and headers are, and [main] ends with the message of a missing
      method and status 1; so it does on a file with another magic
      number, after the line of the constructor; an attribute is
      returned with as much of its payload as the file holds.
    - [Cursor], [Opcodes]: for every opcode, by how much [step] moves the
      cursor and what it does to stack and output, the branches that end
      the process included.
    - [Store], [Header]: [run] changes the class file only in the eight
      header bytes of method attributes; after [get_code_attribute] the
      header reads as the file format means it; a second call undoes the
      first, so a method entered twice runs with a byte-swapped
      [code_length].
    - [Termination]: the loop of [run] ends within its fuel.
    - [Lookup]: the two searches by name return the first match, and
      [nullptr] exactly when nothing matches.
    - [Refinement]: [fetch] decodes an instruction and [sem] gives its
      effect, neither mentioning the cursor; [exec] is the big-step
      relation of a method's code; the loop of [run] and [run] itself
      compute what [exec] derives; [exec] is deterministic, and defined
      on every code without INVOKESTATIC that consists of whole
      instructions.
    - [EndToEnd]: on the file of a class, [main] ends as [exec] says the
      code of its method [main] ends.
    - [Abstract]: the instructions write the action stack and [cout] and
      read the constant pool, and nothing else.  [asem] is the effect of
      an instruction on the pair of stack and output ([Abs], a component
      of [Machine] through the lens [abs_of], [with_abs]); [decode]
      turns the code of a method into the list of its instructions, and
      decides the predicate [decodes] of [Refinement].  Every
      instruction but INVOKESTATIC implements its abstract effect, fault
      for fault; the loop of [run] on straight code is the fold [aseq]
      of the effects over the decoded list; [main] on the file of such
      a class ends as the fold ends; a straight program that does not
      return 0 ends in [exit(1)] or in one of four undefined
      behaviours.  INVOKESTATIC is outside these theorems, because a
      call writes the class file (the header of the callee), which is
      no part of the abstract state; [EndToEnd.main_refines] covers it.
    - [Destructors]: the destructors of [AttributeInfo], [FieldEntry]
      and [MethodEntry] give back exactly what [read] took; the
      destructor of a pool entry frees nothing, and on an entry with the
      tag String reads a union member that is not there; the destructors
      of the pool and of the class file delete arrays with [delete], so
      that of a class file never returns.
    - [Lifetime]: the strict [run] refines [run]: it ends as [run] ends,
      in the same machine, or before it in the destructor of a local
      entry; its loop ends within the same fuel.
    - [Preserved]: a strict run changes the machine as [run] does and
      frees no [Action]: each one allocated is leaked.  The invariants
      are proved once, in a section over a relation on worlds that the
      liftings keep.
    - [Tight]: on a class file whose pool is well formed, as the
      constructor leaves it, the strict [run] ends as [run] ends, result
      and machine the same, or in the one fault the destructors add: the
      read of [Utf8.bytes] in the destructor of a local entry that holds
      a String, with [run] going on from the machine it stopped in.  The
      heap changes in blocks of [Action]s only, so every block the
      constructor made stays allocated in the form it was made in.
    - [MainStrict]: the strict [main] ends in the fault [main] ends in,
      with the same output; or in the destructor of a local entry, with
      a beginning of that output; or, where [main] returns 0, with the
      same output in the destructor of [file].  LDC of a string constant
      ends in the destructor of its local copy, the example of the
      specification included; [main] returns only the status 1 of a
      missing argument; a file that is not there is read as an empty
      one, without a diagnostic.
    - [Hello], [Scenarios]: the theorems above at concrete files: the
      example of the specification, a method invoked twice, a callee
      that prints its caller's constant, code that ends inside an
      instruction, a file that is not a class file, a file cut short.

    ** Not modelled

    A big-endian host.  The member [filename] of [JavaClassFile]: the
    constructor copies its argument there and nothing reads it, so the
    record of the model has no such field and the name is the argument
    of [new] alone.  The value of a variable that was not written: the
    model says that it was not, and stops where it is used.  A stream
    that ends inside the two bytes of an interface index: the element is
    then unwritten as a whole.  The branch of [if (!stream)] in the constructor:
    the test is on the pointer [new] returned, which is not null, so
    the branch cannot be taken.  The text [operator<<] of
    [AttributeInfo] writes for a pointer: it depends on the allocator
    and is a parameter of [AttributeInfo.show].  The storage inside
    [std::string], [std::stack] and [ifstream], which their own
    destructors manage.  A [new] that fails for lack of memory: every
    allocation succeeds, but that of an array of negative length.  The
    state of the heap after a fault: the process has ended.  What the
    binary does after undefined behaviour: the model stops at the first
    such point and says which it is. *)

From Stdlib Require Import ZArith List String Lia.
From stdpp Require Import base tactics option list strings pretty.
From Stdlib Require Strings.Byte.
From coqutil Require Import Byte.

#[local] Open Scope Z_scope.

#[export] Instance byte_eq_dec : EqDecision byte := Strings.Byte.byte_eq_dec.

(** ** Faults *)

Inductive ub_kind : Type :=
| UninitializedRead
| PoolIndex (idx : Z)
| ArrayIndex (i : nat)
| UnionMember
| NullPointer
| EmptyStack
| BadCast
| CodeIndex (cursor : nat)
| AttributeHeader
| MismatchedDelete
| InvalidDelete.

Inductive fault : Type :=
| Exit (code : Z)
| Terminate
| Undefined (u : ub_kind)
| CallDepth
| LoopFuel.

#[export] Instance ub_kind_eq_dec : EqDecision ub_kind.
Proof. solve_decision. Defined.

#[export] Instance fault_eq_dec : EqDecision fault.
Proof. solve_decision. Defined.

(** ** The monad *)

Inductive outcome (S A : Type) : Type :=
| Ok (a : A) (s : S)
| Fault (f : fault) (s : S).
Arguments Ok {S A} a s.
Arguments Fault {S A} f s.

#[export] Instance outcome_eq_dec {S A} `{EqDecision S, EqDecision A} :
  EqDecision (outcome S A).
Proof. solve_decision. Defined.

Definition M (S A : Type) : Type := S -> outcome S A.

Definition ret {S A} (a : A) : M S A := fun s => Ok a s.

Definition bind {S A B} (m : M S A) (k : A -> M S B) : M S B :=
  fun s => match m s with
           | Ok a s' => k a s'
           | Fault f s' => Fault f s'
           end.

Definition fail {S A} (f : fault) : M S A := fun s => Fault f s.

Definition get {S} : M S S := fun s => Ok s s.

Definition gets {S A} (p : S -> A) : M S A := fun s => Ok (p s) s.

Definition put {S} (s : S) : M S unit := fun _ => Ok tt s.

Definition modify {S} (f : S -> S) : M S unit := fun s => Ok tt (f s).

(** [or_ub u o]: the value of [o], or undefined behaviour [u]. *)
Definition or_ub {S A} (u : ub_kind) (o : option A) : M S A :=
  match o with
  | Some a => ret a
  | None => fail (Undefined u)
  end.

(** [zoom]: run an operation on a component of the state. *)
Definition zoom {S T A} (proj : S -> T) (upd : T -> S -> S) (m : M T A) : M S A :=
  fun s => match m (proj s) with
           | Ok a t => Ok a (upd t s)
           | Fault f t => Fault f (upd t s)
           end.

(** The state an outcome ends in, whether it returned or not. *)
Definition final {S A} (o : outcome S A) : S :=
  match o with Ok _ s => s | Fault _ s => s end.

Definition is_Ok {S A} (o : outcome S A) : bool :=
  match o with Ok _ _ => true | Fault _ _ => false end.

(** The fault an outcome ended in, if it did. *)
Definition fault_of {S A} (o : outcome S A) : option fault :=
  match o with Ok _ _ => None | Fault f _ => Some f end.

Declare Scope m_scope.
Delimit Scope m_scope with M.
Bind Scope m_scope with M.

Notation "x <- c1 ;; c2" := (bind c1 (fun x => c2))
  (at level 100, c1 at next level, right associativity) : m_scope.
Notation "c1 ;; c2" := (bind c1 (fun _ => c2))
  (at level 100, right associativity) : m_scope.

#[local] Open Scope m_scope.

(** [replicateM n m]: the loop [for (i = 0; i < n; i++) arr[i] = m()]. *)
Fixpoint replicateM {S A} (n : nat) (m : M S A) : M S (list A) :=
  match n with
  | O => ret []
  | Datatypes.S n' => a <- m ;; l <- replicateM n' m ;; ret (a :: l)
  end.

(** ** Arrays indexed by a C integer *)

(** [index l i] is [l[i]]: defined only for [0 <= i < length l]. *)
Definition index {A} (l : list A) (i : Z) : option A :=
  if decide (0 <= i) then l !! Z.to_nat i else None.

(** ** Printing numbers as [operator<<] does *)

Definition dec (z : Z) : string := pretty z.
#[global] Arguments dec : simpl never.

(** ** Hoare triples and state relations *)

(** [triple P m Q E]: from a state satisfying [P], [m] either returns a
    value and a state related by [Q] or ends in a fault and state related
    by [E]. *)
Definition triple {S A} (P : S -> Prop) (m : M S A)
  (Q : A -> S -> Prop) (E : fault -> S -> Prop) : Prop :=
  forall s, P s -> match m s with
                   | Ok a s' => Q a s'
                   | Fault f s' => E f s'
                   end.

(** [keeps R m]: whatever [m] does, its final state is [R]-related to its
    initial state. *)
Definition keeps {S A} (R : S -> S -> Prop) (m : M S A) : Prop :=
  forall s, R s (final (m s)).

(** ** Tactics *)

(** Unfold the monad's operations in the goal and the hypotheses. *)
Ltac munfold :=
  unfold bind, ret, fail, get, gets, put, modify, or_ub, zoom in *.

(** Case on the first outcome a [bind] scrutinises. *)
Ltac mcase :=
  match goal with
  | |- context [match ?m ?s with Ok _ _ => _ | Fault _ _ => _ end] =>
      let E := fresh "E" in destruct (m s) eqn:E; simpl
  | H : context [match ?m ?s with Ok _ _ => _ | Fault _ _ => _ end] |- _ =>
      let E := fresh "E" in destruct (m s) eqn:E; simpl in H
  end.

Create HintDb zera discriminated.
Create Rewrite HintDb m.

(** ** Laws *)

Section Laws.
Context {S A B C : Type}.
Implicit Types (s : S) (m : M S A) (k : A -> M S B) (h : B -> M S C).

Lemma bind_ret_l (a : A) k s : bind (ret a) k s = k a s.
Proof. reflexivity. Qed.

Lemma bind_ret_r m s : bind m ret s = m s.
Proof. unfold bind. by destruct (m s). Qed.

Lemma bind_assoc m k h s : bind (bind m k) h s = bind m (fun a => bind (k a) h) s.
Proof. unfold bind. by destruct (m s). Qed.

Lemma bind_fail (f : fault) k s : bind (fail f) k s = Fault f s.
Proof. reflexivity. Qed.

Lemma bind_ext m (k k' : A -> M S B) s :
  (forall a s', k a s' = k' a s') -> bind m k s = bind m k' s.
Proof. intros H. unfold bind. by destruct (m s). Qed.

Lemma bind_Ok m k s a s' : m s = Ok a s' -> bind m k s = k a s'.
Proof. unfold bind. by intros ->. Qed.

Lemma bind_Fault m k s f s' : m s = Fault f s' -> bind m k s = Fault f s'.
Proof. unfold bind. by intros ->. Qed.

Lemma bind_Ok_inv m k s b s2 :
  bind m k s = Ok b s2 -> exists a s1, m s = Ok a s1 /\ k a s1 = Ok b s2.
Proof. unfold bind. destruct (m s) as [a s1|]; [eauto | done]. Qed.

Lemma bind_Fault_inv m k s f s2 :
  bind m k s = Fault f s2 ->
  m s = Fault f s2 \/ exists a s1, m s = Ok a s1 /\ k a s1 = Fault f s2.
Proof. unfold bind. destruct (m s) as [a s1|]; [eauto | intros [= -> ->]; eauto]. Qed.

Lemma or_ub_Some (u : ub_kind) (a : A) s :
  or_ub u (Some a) s = Ok a s.
Proof. reflexivity. Qed.

Lemma or_ub_Ok_inv (u : ub_kind) (o : option A) s a s' :
  or_ub u o s = Ok a s' -> o = Some a /\ s' = s.
Proof. destruct o; cbv; intros [= <- <-] || intros [=]; done. Qed.

End Laws.

#[export] Hint Rewrite @bind_ret_l @bind_fail @or_ub_Some : m.

(** Invert a hypothesis [bind m k s = Ok b s']. *)
Ltac inv_bind H :=
  let a := fresh "a" in
  let s := fresh "s" in
  let Hm := fresh "Hm" in
  apply bind_Ok_inv in H; destruct H as (a & s & Hm & H).

Section Triples.
Context {S A B : Type}.
Implicit Types (P : S -> Prop) (m : M S A) (k : A -> M S B)
  (E : fault -> S -> Prop) (R : S -> S -> Prop).

Lemma triple_ret P (a : A) (Q : A -> S -> Prop) E :
  (forall s, P s -> Q a s) -> triple P (ret a) Q E.
Proof. intros H s Hs. by apply H. Qed.

Lemma triple_fail P (f : fault) (Q : A -> S -> Prop) E :
  (forall s, P s -> E f s) -> triple P (fail f) Q E.
Proof. intros H s Hs. by apply H. Qed.

Lemma triple_bind P m k (Q : A -> S -> Prop) (Q' : B -> S -> Prop) E :
  triple P m Q E -> (forall a, triple (Q a) (k a) Q' E) ->
  triple P (bind m k) Q' E.
Proof.
  intros Hm Hk s Hs. specialize (Hm s Hs). unfold bind.
  destruct (m s) as [a s1|f s1]; [by apply Hk | done].
Qed.

Lemma triple_conseq P P' m (Q Q' : A -> S -> Prop) E E' :
  triple P' m Q' E' -> (forall s, P s -> P' s) ->
  (forall a s, Q' a s -> Q a s) -> (forall f s, E' f s -> E f s) ->
  triple P m Q E.
Proof.
  intros Hm HP HQ HE s Hs. specialize (Hm s (HP s Hs)).
  destruct (m s); auto.
Qed.

Lemma keeps_ret R `{!Reflexive R} (a : A) : keeps R (ret a).
Proof. intros s. simpl. reflexivity. Qed.

Lemma keeps_fail R `{!Reflexive R} (f : fault) : keeps R (@fail S A f).
Proof. intros s. simpl. reflexivity. Qed.

Lemma keeps_bind R `{!Transitive R} m k :
  keeps R m -> (forall a, keeps R (k a)) -> keeps R (bind m k).
Proof.
  intros Hm Hk s. specialize (Hm s). unfold bind.
  destruct (m s) as [a s1|f s1]; simpl in *; [|done].
  etrans; [exact Hm | apply Hk].
Qed.

(** The same, with the continuation only on the states [m] can return. *)
Lemma keeps_bind_Ok R `{!Transitive R} m k :
  keeps R m -> (forall s a s', m s = Ok a s' -> R s' (final (k a s'))) ->
  keeps R (bind m k).
Proof.
  intros Hm Hk s. specialize (Hm s). unfold bind.
  destruct (m s) as [a s1|f s1] eqn:E; simpl in *; [|done].
  etrans; [exact Hm | by eapply Hk].
Qed.

Lemma keeps_or_ub R `{!Reflexive R} (u : ub_kind) (o : option A) :
  keeps R (or_ub u o).
Proof. destruct o; [by apply keeps_ret | by apply keeps_fail]. Qed.

Lemma keeps_get R `{!Reflexive R} : keeps R (@get S).
Proof. intros s. simpl. reflexivity. Qed.

Lemma keeps_Ok R m s a s' : keeps R m -> m s = Ok a s' -> R s s'.
Proof. intros H E. specialize (H s). by rewrite E in H. Qed.

Lemma keeps_Fault R m s f s' : keeps R m -> m s = Fault f s' -> R s s'.
Proof. intros H E. specialize (H s). by rewrite E in H. Qed.

End Triples.

Lemma keeps_replicateM {S A} (R : S -> S -> Prop) `{!PreOrder R}
  (n : nat) (m : M S A) :
  keeps R m -> keeps R (replicateM n m).
Proof.
  intros Hm. induction n as [|n IH]; simpl.
  - apply keeps_ret, _.
  - apply (keeps_bind R); [done |]; intros a.
    apply (keeps_bind R); [done |]; intros l. apply keeps_ret, _.
Qed.

Lemma replicateM_length {S A} (n : nat) (m : M S A) s l s' :
  replicateM n m s = Ok l s' -> length l = n.
Proof.
  revert s l s'. induction n as [|n IH]; simpl; intros s l s' H.
  - by inv H.
  - inv_bind H. inv_bind H. inv H. simpl. f_equal. eauto.
Qed.

Lemma replicateM_Forall {S A} (P : A -> Prop) (n : nat) (m : M S A) :
  (forall s a s', m s = Ok a s' -> P a) ->
  forall s l s', replicateM n m s = Ok l s' -> Forall P l.
Proof.
  intros Hm. induction n as [|n IH]; simpl; intros s l s' H.
  - inv H. constructor.
  - inv_bind H. inv_bind H. inv H. constructor; eauto.
Qed.

(** ** Indexing *)

Lemma index_Some {A} (l : list A) (i : Z) (a : A) :
  index l i = Some a <-> 0 <= i /\ l !! Z.to_nat i = Some a.
Proof. unfold index. case_decide; intuition (done || lia). Qed.

Lemma index_lt {A} (l : list A) (i : Z) (a : A) :
  index l i = Some a -> 0 <= i < Z.of_nat (length l).
Proof.
  intros [Hi Hl]%index_Some. apply lookup_lt_Some in Hl. lia.
Qed.

Lemma index_None {A} (l : list A) (i : Z) :
  index l i = None <-> i < 0 \/ Z.of_nat (length l) <= i.
Proof.
  unfold index. case_decide; [rewrite lookup_ge_None|]; split; try lia; auto.
Qed.

Lemma index_of_nat {A} (l : list A) (n : nat) :
  index l (Z.of_nat n) = l !! n.
Proof. unfold index. case_decide; [by rewrite Nat2Z.id | lia]. Qed.

(** ** Strings *)

Lemma string_app_cons (x : Ascii.ascii) (a b : string) :
  String x a +:+ b = String x (a +:+ b).
Proof. reflexivity. Qed.

Lemma string_app_nil_l (b : string) : EmptyString +:+ b = b.
Proof. reflexivity. Qed.

Lemma string_app_nil_r (a : string) : a +:+ EmptyString = a.
Proof. induction a as [|x a IH]; [done | by rewrite string_app_cons, IH]. Qed.

Lemma string_app_assoc (a b c : string) : (a +:+ b) +:+ c = a +:+ (b +:+ c).
Proof. induction a as [|x a IH]; [done | by rewrite !string_app_cons, IH]. Qed.

Lemma string_app_length (a b : string) :
  String.length (a +:+ b) = (String.length a + String.length b)%nat.
Proof. induction a as [|x a IH]; [done | rewrite string_app_cons; simpl; by rewrite IH]. Qed.

#[export] Hint Rewrite string_app_cons string_app_nil_l string_app_nil_r
  string_app_length : m.

(** ** Inversion of successful runs *)

Section Inversion.
Context {S A : Type}.

Lemma ret_Ok_inv (a v : A) (s s' : S) : ret a s = Ok v s' -> v = a /\ s' = s.
Proof. by intros [= <- <-]. Qed.

Lemma get_Ok_inv (s v s' : S) : get s = Ok v s' -> v = s /\ s' = s.
Proof. by intros [= <- <-]. Qed.

Lemma modify_Ok_inv (g : S -> S) (s : S) v s' :
  modify g s = Ok v s' -> s' = g s.
Proof. by intros [= <- <-]. Qed.

Lemma put_Ok_inv (s0 s : S) v s' : put s0 s = Ok v s' -> s' = s0.
Proof. by intros [= <- <-]. Qed.

Lemma fail_Ok_inv (f : fault) (s : S) (v : A) s' : fail f s = Ok v s' -> False.
Proof. done. Qed.

End Inversion.

(** Take apart every hypothesis that says a composed operation returned. *)
Ltac inv_ok :=
  repeat match goal with
  | H : bind _ _ _ = Ok _ _ |- _ => apply bind_Ok_inv in H as (? & ? & ? & ?)
  | H : ret _ _ = Ok _ _ |- _ => apply ret_Ok_inv in H as [? ?]; subst
  | H : get _ = Ok _ _ |- _ => apply get_Ok_inv in H as [? ?]; subst
  | H : modify _ _ = Ok _ _ |- _ => apply modify_Ok_inv in H; subst
  | H : put _ _ = Ok _ _ |- _ => apply put_Ok_inv in H; subst
  | H : fail _ _ = Ok _ _ |- _ => destruct (fail_Ok_inv _ _ _ _ H)
  | H : or_ub _ _ _ = Ok _ _ |- _ => apply or_ub_Ok_inv in H as [? ?]; subst
  end.

(** ** Which faults, which values *)

(** [faults_in P m]: every fault [m] ends in satisfies [P]. *)
Definition faults_in {S A} (P : fault -> Prop) (m : M S A) : Prop :=
  forall s f s', m s = Fault f s' -> P f.

(** [returns Q m]: every value [m] returns satisfies [Q]. *)
Definition returns {S A} (Q : A -> Prop) (m : M S A) : Prop :=
  forall s a s', m s = Ok a s' -> Q a.

(** [below m1 m2]: [m2] behaves as [m1] wherever [m1] does not run out of
    call depth.  This is the order in which more fuel is more defined. *)
Definition below {S A} (m1 m2 : M S A) : Prop :=
  forall s, (forall s', m1 s <> Fault CallDepth s') -> m2 s = m1 s.

Section Structural.
Context {S A B : Type}.
Implicit Types (m : M S A) (k : A -> M S B) (P : fault -> Prop).

Lemma faults_in_ret P (a : A) : faults_in P (@ret S A a).
Proof. by intros s f s'. Qed.

Lemma faults_in_fail P (f : fault) : P f -> faults_in P (@fail S A f).
Proof. intros H s f' s' [= <- <-]. done. Qed.

Lemma faults_in_bind P m k :
  faults_in P m -> (forall a, faults_in P (k a)) -> faults_in P (bind m k).
Proof.
  intros Hm Hk s f s' [H|(a & s1 & _ & H)]%bind_Fault_inv; [by eapply Hm | by eapply Hk].
Qed.

Lemma faults_in_or_ub P (u : ub_kind) (o : option A) :
  P (Undefined u) -> faults_in P (@or_ub S A u o).
Proof. intros H. destruct o; [apply faults_in_ret | by apply faults_in_fail]. Qed.

Lemma faults_in_get P : faults_in P (@get S).
Proof. by intros s f s'. Qed.

Lemma faults_in_modify P (g : S -> S) : faults_in P (modify g).
Proof. by intros s f s'. Qed.

Lemma faults_in_put P (s0 : S) : faults_in P (put s0).
Proof. by intros s f s'. Qed.

Lemma returns_ret (Q : A -> Prop) (a : A) : Q a -> returns Q (@ret S A a).
Proof. intros H s a' s' [= <- <-]. done. Qed.

Lemma returns_fail (Q : A -> Prop) (f : fault) : returns Q (@fail S A f).
Proof. by intros s a s'. Qed.

Lemma returns_bind (Q : B -> Prop) m k :
  (forall a, returns Q (k a)) -> returns Q (bind m k).
Proof. intros Hk s b s' (a & s1 & _ & H)%bind_Ok_inv. by eapply Hk. Qed.

Lemma below_refl m : below m m.
Proof. by intros s _. Qed.

Lemma below_trans (m1 m2 m3 : M S A) : below m1 m2 -> below m2 m3 -> below m1 m3.
Proof.
  intros H12 H23 s H. rewrite <- (H12 s H). apply H23.
  intros s'. by rewrite (H12 s H).
Qed.

Lemma below_CallDepth m : below (fail CallDepth) m.
Proof. intros s H. by destruct (H s). Qed.

Lemma below_bind (m1 m2 : M S A) (k1 k2 : A -> M S B) :
  below m1 m2 -> (forall a, below (k1 a) (k2 a)) ->
  below (bind m1 k1) (bind m2 k2).
Proof.
  intros Hm Hk s H. unfold bind in *.
  rewrite (Hm s); [|intros s' E; rewrite E in H; by eapply H].
  destruct (m1 s) as [a s1|f s1]; [by apply Hk | done].
Qed.

End Structural.

#[export] Instance below_preorder {S A} : PreOrder (@below S A).
Proof. split; [exact below_refl | exact below_trans]. Qed.

(** Prove [keeps R m] along the structure of [m]. *)
Ltac keeps_with R :=
  repeat first
    [ solve [ eauto with zera ]
    | apply (keeps_bind R); [| intros ]
    | apply (keeps_ret R)
    | apply (keeps_fail R)
    | apply (keeps_or_ub R)
    | apply (keeps_get R)
    | match goal with |- keeps _ (if ?x then _ else _) => destruct x end
    | match goal with |- keeps _ (match ?x with _ => _ end) => destruct x end ].

(** Prove [faults_in P m] along the structure of [m]; [tac] proves [P f]
    for the faults of the leaves. *)
Ltac faults_in_with tac :=
  repeat first
    [ solve [ eauto with zera ]
    | apply faults_in_bind; [| intros ]
    | apply faults_in_ret
    | apply faults_in_get
    | apply faults_in_modify
    | apply faults_in_put
    | apply faults_in_fail; solve [tac]
    | apply faults_in_or_ub; solve [tac]
    | match goal with |- faults_in _ (if ?x then _ else _) => destruct x end
    | match goal with |- faults_in _ (match ?x with _ => _ end) => destruct x end ].

(** Prove [returns Q m] along the structure of [m]. *)
Ltac returns_with tac :=
  repeat first
    [ apply returns_bind; intros
    | apply returns_fail
    | apply returns_ret; solve [tac]
    | match goal with |- returns _ (if ?x then _ else _) => destruct x end
    | match goal with |- returns _ (match ?x with _ => _ end) => destruct x end ].

(** Prove [below m1 m2] for two terms of the same shape. *)
Ltac below_struct :=
  repeat first
    [ solve [ eauto with zera ]
    | apply below_refl
    | apply below_bind; [| intros ]
    | match goal with
      | |- below (if ?x then _ else _) (if ?x then _ else _) => destruct x
      | |- below (match ?x with _ => _ end) (match ?x with _ => _ end) => destruct x
      end ].

(** ** Computations that neither read nor write the state *)

(** The outcome of [o], in state [s]. *)
Definition at_state {S S' A} (o : outcome S A) (s : S') : outcome S' A :=
  match o with Ok a _ => Ok a s | Fault f _ => Fault f s end.

(** [m] gives the same answer in every state and leaves the state alone. *)
Definition stateless {S A} (m : M S A) : Prop :=
  forall s s', m s' = at_state (m s) s'.

Section Stateless.
Context {S A B : Type}.

Lemma stateless_ret (a : A) : stateless (@ret S A a).
Proof. by intros s s'. Qed.

Lemma stateless_fail (f : fault) : stateless (@fail S A f).
Proof. by intros s s'. Qed.

Lemma stateless_or_ub u (o : option A) : stateless (@or_ub S A u o).
Proof. intros s s'. by destruct o. Qed.

Lemma stateless_bind (m : M S A) (k : A -> M S B) :
  stateless m -> (forall a, stateless (k a)) -> stateless (bind m k).
Proof.
  intros Hm Hk s s'. unfold bind. rewrite (Hm s s').
  destruct (m s) as [a s1|f s1]; simpl; [|done].
  rewrite (Hk a s1 s'). by destruct (k a s1).
Qed.

Lemma stateless_Ok (m : M S A) s a s1 s' :
  stateless m -> m s = Ok a s1 -> m s' = Ok a s'.
Proof. intros Hm H. by rewrite (Hm s s'), H. Qed.

End Stateless.

(** ** Operations on a component of the state *)

Section Zoom.
Context {S T A : Type} (proj : S -> T) (upd : T -> S -> S).

Lemma zoom_Ok (m : M T A) s a t :
  m (proj s) = Ok a t -> zoom proj upd m s = Ok a (upd t s).
Proof. unfold zoom. by intros ->. Qed.

Lemma zoom_Fault (m : M T A) s f t :
  m (proj s) = Fault f t -> zoom proj upd m s = Fault f (upd t s).
Proof. unfold zoom. by intros ->. Qed.

Lemma zoom_Ok_inv (m : M T A) s a s' :
  zoom proj upd m s = Ok a s' -> exists t, m (proj s) = Ok a t /\ s' = upd t s.
Proof. unfold zoom. destruct (m (proj s)) as [b t|]; [|done]. intros [= <- <-]. eauto. Qed.

Lemma zoom_Fault_inv (m : M T A) s f s' :
  zoom proj upd m s = Fault f s' -> exists t, m (proj s) = Fault f t /\ s' = upd t s.
Proof. unfold zoom. destruct (m (proj s)) as [|g t]; [done|]. intros [= <- <-]. eauto. Qed.

Lemma zoom_cases s (m : M T A) :
  (exists a t, zoom proj upd m s = Ok a (upd t s)) \/
  (exists f t, zoom proj upd m s = Fault f (upd t s)).
Proof. unfold zoom. destruct (m (proj s)); eauto. Qed.

Lemma faults_in_zoom P (m : M T A) : faults_in P m -> faults_in P (zoom proj upd m).
Proof. intros H s f s' (t & E & _)%zoom_Fault_inv. by eapply H. Qed.

End Zoom.

(** ** Lenses

    A component of the state that can be read and replaced.  Over a lens
    [zoom] is a morphism of the monad, so an operation on the whole state
    is shown to be an operation on the component along its structure. *)

Class Lens {S T : Type} (proj : S -> T) (upd : T -> S -> S) : Prop := {
  proj_upd t s : proj (upd t s) = t;
  upd_proj s : upd (proj s) s = s;
  upd_upd t t' s : upd t' (upd t s) = upd t' s;
}.

(** [P] does not depend on the component. *)
Class Frame {S T : Type} (upd : T -> S -> S) (P : S -> Prop) : Prop :=
  frame t s : P s -> P (upd t s).

(** [m] does on the whole state what [v] does on the component, from
    every state where [P] holds. *)
Definition implements {S T A} (proj : S -> T) (upd : T -> S -> S) (P : S -> Prop)
    (m : M S A) (v : M T A) : Prop :=
  forall s, P s -> m s = zoom proj upd v s.

Section Lens.
Context {S T : Type} (proj : S -> T) (upd : T -> S -> S) (P : S -> Prop).
Context `{!Lens proj upd, !Frame upd P}.

Lemma zoom_ret {A} (a : A) s : zoom proj upd (ret a) s = Ok a s.
Proof. unfold zoom, ret. by rewrite upd_proj. Qed.

Lemma zoom_fail {A} f s : zoom proj upd (@fail T A f) s = Fault f s.
Proof. unfold zoom, fail. by rewrite upd_proj. Qed.

Lemma zoom_or_ub {A} u (o : option A) s : zoom proj upd (or_ub u o) s = or_ub u o s.
Proof. destruct o; [apply zoom_ret | apply zoom_fail]. Qed.

Lemma zoom_bind {A B} (v : M T A) (k : A -> M T B) s :
  zoom proj upd (bind v k) s = bind (zoom proj upd v) (fun a => zoom proj upd (k a)) s.
Proof.
  unfold zoom, bind. destruct (v (proj s)) as [a t|f t]; [|done].
  rewrite proj_upd. by destruct (k a t); rewrite upd_upd.
Qed.

Lemma implements_ret {A} (a : A) : implements proj upd P (ret a) (ret a).
Proof. intros s _. by rewrite zoom_ret. Qed.

Lemma implements_fail {A} f : implements proj upd P (@fail S A f) (fail f).
Proof. intros s _. by rewrite zoom_fail. Qed.

Lemma implements_or_ub {A} u (o : option A) :
  implements proj upd P (or_ub u o) (or_ub u o).
Proof. intros s _. by rewrite zoom_or_ub. Qed.

Lemma implements_bind {A B} (m : M S A) (k : A -> M S B) v kv :
  implements proj upd P m v -> (forall a, implements proj upd P (k a) (kv a)) ->
  implements proj upd P (bind m k) (bind v kv).
Proof.
  intros Hm Hk s Hs. rewrite zoom_bind. unfold bind at 1 2. rewrite (Hm s Hs).
  destruct (zoom_cases proj upd s v) as [(a & t & ->)|(f & t & ->)]; [|done].
  apply Hk, frame, Hs.
Qed.

(** An operation that returns [a] and leaves the state alone needs no
    counterpart on the component. *)
Lemma implements_const {A B} (m : M S A) (a : A) (k : A -> M S B) v :
  (forall s, P s -> m s = Ok a s) -> implements proj upd P (k a) v ->
  implements proj upd P (bind m k) v.
Proof. intros Hm Hk s Hs. rewrite (bind_Ok _ _ _ _ _ (Hm s Hs)). by apply Hk. Qed.

End Lens.

(** ** Operations that do not return *)

Section Stuck.
Context {S A B : Type}.

Lemma bind_stuck_l (m : M S A) (k : A -> M S B) s :
  is_Ok (m s) = false -> is_Ok (bind m k s) = false.
Proof. unfold bind. by destruct (m s). Qed.

Lemma bind_stuck_r (m : M S A) (k : A -> M S B) s :
  (forall a s', m s = Ok a s' -> is_Ok (k a s') = false) ->
  is_Ok (bind m k s) = false.
Proof. unfold bind. destruct (m s); [eauto | done]. Qed.

Lemma is_Ok_false (m : M S A) s a s' : is_Ok (m s) = false -> m s <> Ok a s'.
Proof. by intros H E; rewrite E in H. Qed.

End Stuck.

(** Prove [stateless m] along the structure of [m]. *)
Ltac stateless_struct :=
  repeat first
    [ solve [ eauto with zera ]
    | apply stateless_bind; [| intros ]
    | apply stateless_ret
    | apply stateless_fail
    | apply stateless_or_ub
    | match goal with |- stateless (if ?x then _ else _) => destruct x end
    | match goal with |- stateless (match ?x with _ => _ end) => destruct x end ].
