(* ===== verification/ByteCodec.v ===== *)
(** * ByteCodec: [swapEndianness] (main.cpp 7-18)

    The template copies the [sizeof(T)] bytes of its argument in reverse
    order.  A value of an unsigned type of [w] bytes is represented on the
    (little-endian) host by [le_split w v]; [le_combine] reads a
    representation back.  [be_combine] is the reference: the value of a
    byte string read most significant byte first, which is what the class
    file format means by a [u2] or [u4]. *)

From Stdlib Require Import ZArith List Lia.
From stdpp Require Import base tactics list.
From coqutil Require Import Byte Word.LittleEndianList Z.ZLib Z.prove_Zeq_bitwise.
From S2P Require Import Prelude.

#[local] Open Scope Z_scope.

(** The loop [for (i = 0; i < sizeof(T); ++i) dest[i] = src[sizeof(T) - i - 1]]
    on the representation [src]. *)
Definition swap_loop (src : list byte) : list byte :=
  let n := length src in
  map (fun i => nth (n - i - 1) src Byte.x00) (seq 0 n).

(** [swapEndianness<T>(value)] for an unsigned [T] of [w] bytes. *)
Definition swapEndianness (w : nat) (value : Z) : Z :=
  le_combine (swap_loop (le_split w value)).

(** Reference: big-endian reading of a byte string. *)
Fixpoint be_acc (acc : Z) (bs : list byte) : Z :=
  match bs with
  | [] => acc
  | b :: t => be_acc (acc * 256 + byte.unsigned b) t
  end.

Definition be_combine (bs : list byte) : Z := be_acc 0 bs.

(** The range of an unsigned type of [w] bytes. *)
Definition in_range (w : nat) (v : Z) : Prop := 0 <= v < 2 ^ (8 * Z.of_nat w).

#[export] Instance in_range_dec w v : Decision (in_range w v).
Proof. unfold in_range. apply _. Defined.

#[global] Arguments swapEndianness : simpl never.
#[global] Arguments be_combine : simpl never.

(** ** The loop is list reversal *)

Lemma swap_loop_length src : length (swap_loop src) = length src.
Proof. unfold swap_loop. by rewrite length_map, length_seq. Qed.

Lemma swap_loop_rev src : swap_loop src = rev src.
Proof.
  apply (nth_ext _ _ Byte.x00 Byte.x00).
  - by rewrite swap_loop_length, length_rev.
  - intros i Hi. rewrite swap_loop_length in Hi. unfold swap_loop.
    rewrite (nth_indep _ _ (nth (length src - 0 - 1) src Byte.x00))
      by (by rewrite length_map, length_seq).
    rewrite (map_nth (fun i => nth (length src - i - 1) src Byte.x00)).
    rewrite seq_nth, rev_nth by done. f_equal. lia.
Qed.

(** ** Arithmetic reading of [le_combine] *)

Lemma le_combine_cons b bs :
  le_combine (b :: bs) = byte.unsigned b + 256 * le_combine bs.
Proof.
  change (le_combine (b :: bs))
    with (Z.lor (byte.unsigned b) (Z.shiftl (le_combine bs) 8)).
  rewrite Z.shiftl_mul_pow2 by lia.
  rewrite <- (byte.wrap_unsigned b). unfold byte.wrap.
  rewrite <- Z.add_nocarry_lor; [change (2 ^ 8) with 256; lia|].
  rewrite <- Z.shiftl_mul_pow2, <- Z.land_ones by lia. prove_Zeq_bitwise.
Qed.

Lemma le_combine_snoc bs b :
  le_combine (bs ++ [b]) =
  le_combine bs + byte.unsigned b * 2 ^ (8 * Z.of_nat (length bs)).
Proof.
  induction bs as [|a bs IH]; cbn [app length].
  - rewrite !le_combine_cons, le_combine_nil. change (2 ^ _) with 1. lia.
  - rewrite !le_combine_cons, IH, Nat2Z.inj_succ.
    replace (8 * Z.succ (Z.of_nat (length bs))) with (8 + 8 * Z.of_nat (length bs)) by lia.
    rewrite Z.pow_add_r by lia. change (2 ^ 8) with 256. lia.
Qed.

Lemma be_acc_rev acc bs :
  be_acc acc bs = acc * 2 ^ (8 * Z.of_nat (length bs)) + le_combine (rev bs).
Proof.
  revert acc. induction bs as [|b bs IH]; intros acc; cbn [be_acc rev length].
  - rewrite le_combine_nil. change (2 ^ _) with 1. lia.
  - rewrite IH, le_combine_snoc, length_rev, Nat2Z.inj_succ.
    replace (8 * Z.succ (Z.of_nat (length bs))) with (8 + 8 * Z.of_nat (length bs)) by lia.
    rewrite Z.pow_add_r by lia. change (2 ^ 8) with 256. lia.
Qed.

Lemma be_combine_rev bs : be_combine bs = le_combine (rev bs).
Proof. unfold be_combine. rewrite be_acc_rev. lia. Qed.

Lemma be_combine_bound bs : in_range (length bs) (be_combine bs).
Proof.
  rewrite be_combine_rev. unfold in_range. rewrite <- (length_rev bs).
  apply le_combine_bound.
Qed.

Lemma be_acc_app acc bs1 bs2 :
  be_acc acc (bs1 ++ bs2) = be_acc (be_acc acc bs1) bs2.
Proof. revert acc. induction bs1 as [|b bs1 IH]; intros acc; cbn [app be_acc]; auto. Qed.

Lemma be_combine_app bs1 bs2 :
  be_combine (bs1 ++ bs2) =
  be_combine bs1 * 2 ^ (8 * Z.of_nat (length bs2)) + be_combine bs2.
Proof.
  unfold be_combine. rewrite be_acc_app.
  rewrite (be_acc_rev (be_acc 0 bs1)), (be_acc_rev 0 bs2). lia.
Qed.

(** ** [swapEndianness] *)

Lemma swapEndianness_rev w v : swapEndianness w v = le_combine (rev (le_split w v)).
Proof. unfold swapEndianness. by rewrite swap_loop_rev. Qed.

(** Reading [w] wire bytes into a host integer and swapping it gives the
    big-endian value of the bytes. *)
Lemma swapEndianness_wire bs :
  swapEndianness (length bs) (le_combine bs) = be_combine bs.
Proof. by rewrite swapEndianness_rev, split_le_combine, be_combine_rev. Qed.

Lemma swapEndianness_bound w v : in_range w (swapEndianness w v).
Proof.
  rewrite swapEndianness_rev. unfold in_range.
  pose proof (le_combine_bound (rev (le_split w v))) as H.
  by rewrite length_rev, length_le_split in H.
Qed.

Lemma swapEndianness_mod w v :
  swapEndianness w (swapEndianness w v) = v mod 2 ^ (8 * Z.of_nat w).
Proof.
  rewrite !swapEndianness_rev.
  rewrite (split_le_combine' (rev (le_split w v)))
    by (by rewrite length_rev, length_le_split).
  rewrite rev_involutive, le_combine_split. f_equal. f_equal. lia.
Qed.

Lemma swapEndianness_cancel w v :
  in_range w v -> swapEndianness w (swapEndianness w v) = v.
Proof. intros H. rewrite swapEndianness_mod. by apply Z.mod_small. Qed.

Lemma swapEndianness_inj w v1 v2 :
  in_range w v1 -> in_range w v2 ->
  swapEndianness w v1 = swapEndianness w v2 -> v1 = v2.
Proof.
  intros H1 H2 E. apply (f_equal (swapEndianness w)) in E.
  by rewrite !swapEndianness_cancel in E.
Qed.

(** The two-byte case, as arithmetic on the value. *)
Lemma swapEndianness_u16 v :
  in_range 2 v -> swapEndianness 2 v = (v mod 256) * 256 + v / 256.
Proof.
  unfold in_range. change (2 ^ _) with 65536. intros H.
  rewrite swapEndianness_rev.
  change (le_split 2 v) with [byte.of_Z v; byte.of_Z (Z.shiftr v 8)].
  cbn [rev app]. rewrite !le_combine_cons, le_combine_nil, !byte.unsigned_of_Z.
  unfold byte.wrap. rewrite !Z.shiftr_div_pow2 by lia.
  change (2 ^ 8) with 256.
  assert (0 <= v / 256 < 256)
    by (split; [apply Z.div_pos | apply Z.div_lt_upper_bound]; lia).
  rewrite (Z.mod_small (v / 256)) by done. lia.
Qed.

(** What [swapEndianness] does to the representation: a host integer whose
    bytes are [bs] becomes the host integer whose bytes are [rev bs]. *)
Lemma swapEndianness_le_combine bs :
  swapEndianness (length bs) (le_combine bs) = le_combine (rev bs).
Proof. by rewrite swapEndianness_rev, split_le_combine. Qed.

(** ** What [swapEndianness] promises *)

(** C14: [swapEndianness] is its own inverse on the values of its type:
    swapping a [w]-byte value twice gives the value back. *)
Theorem swapEndianness_involutive w v :
  in_range w v -> swapEndianness w (swapEndianness w v) = v.
Proof. apply swapEndianness_cancel. Qed.

(** C15: a host integer whose object representation is the bytes [bs] of
    the file becomes, swapped, the big-endian value of [bs]: the value the
    class file format gives to the field. *)
Theorem swapEndianness_big_endian bs :
  swapEndianness (length bs) (le_combine bs) = be_combine bs.
Proof. apply swapEndianness_wire. Qed.

(** The loop [dest[i] = src[sizeof(T) - i - 1]] of [swapEndianness]
    computes the reversal of the bytes of its argument. *)
Theorem swap_loop_reverses src : swap_loop src = rev src.
Proof. apply swap_loop_rev. Qed.

(** Swapping a value without its range first reduces it to the width:
    two swaps of any integer give the integer modulo [2 ^ (8 * w)]. *)
Theorem swapEndianness_wraps w v :
  swapEndianness w (swapEndianness w v) = v mod 2 ^ (8 * Z.of_nat w).
Proof. apply swapEndianness_mod. Qed.

Lemma swapEndianness_involutive_witness :
  in_range 4 0xCAFEBABE /\
  swapEndianness 4 (swapEndianness 4 0xCAFEBABE) = 0xCAFEBABE.
Proof.
  split; [by vm_compute | apply (swapEndianness_involutive 4); by vm_compute].
Defined.
