(* ===== verification/Stream.v ===== *)
(** * Stream: the input stream and the output channels

    [IO] is what the process shares with the outside: the bytes of the
    class file that the [ifstream] has not delivered yet, and the lines
    written to [cout] and [cerr].

    [stream.read(buf, n)] stores the bytes that are left, [n] at most;
    when they are fewer it sets [failbit], which the code never tests,
    and every later read stores nothing.  [stream_fill n] is that read:
    it returns the bytes stored and leaves the stream empty when they
    were fewer than [n], so that the reads after it find nothing either.
    What a short read means depends on what its destination held:
    - an object that was never written and that the next statement reads
      as a whole (the headers, the tag and the members of a pool entry,
      the fixed part of an attribute, a field or a method: main.cpp 91,
      94, 200, 201, 217-220, 312, 326): the statement after the read
      reads an indeterminate value.  [stream_read n] is the read with
      that use, and ends in [Undefined UninitializedRead];
    - a member with an initialiser ([fields_count], [methods_count],
      [attributes_count], main.cpp 341, 349, 357): the bytes that did
      not arrive keep their zeros.  [read_u16_over old] is that read;
    - memory that is read later or never (the buffer [info], main.cpp
      208, an element of [interfaces], 337, the [char tmp] of the Utf8
      loop, 116): the readers of [Records], [ClassFile] and
      [ConstantPool] use [stream_fill] and keep what arrived.

    [load w off buf] is the value of the [w]-byte unsigned field at byte
    offset [off] of the object whose representation is [buf].

    [Readable] is the interface of the [read] methods of the record types;
    [ReadableLaws] is what the array loops of the constructors rely on. *)

From Stdlib Require Import ZArith List String Lia.
From stdpp Require Import base tactics option list strings.
From coqutil Require Import Byte Word.LittleEndianList.
From S2P Require Import Prelude ByteCodec.

#[local] Open Scope Z_scope.
#[local] Open Scope m_scope.

Record IO : Type := mkIO {
  stream : list byte;
  cout : list string;
  cerr : list string;
}.

#[export] Instance IO_eq_dec : EqDecision IO.
Proof. solve_decision. Defined.

Definition set_stream (bs : list byte) (io : IO) : IO :=
  mkIO bs (cout io) (cerr io).

(** [stream.read(buf, n)]: the bytes it stores, all that is left when
    that is less than [n]. *)
Definition stream_fill (n : nat) : M IO (list byte) :=
  fun io => Ok (take n (stream io)) (set_stream (drop n (stream io)) io).

(** [stream.read(buf, n)] into an object that holds nothing yet, followed
    by a read of every byte of that object. *)
Definition stream_read (n : nat) : M IO (list byte) :=
  fun io =>
    if decide (n <= length (stream io))%nat
    then stream_fill n io
    else Fault (Undefined UninitializedRead) io.

(** [cout << line << endl] *)
Definition print_cout (line : string) : M IO unit :=
  modify (fun io => mkIO (stream io) (cout io ++ [line]) (cerr io)).

(** [cerr << line << endl] *)
Definition print_cerr (line : string) : M IO unit :=
  modify (fun io => mkIO (stream io) (cout io) (cerr io ++ [line])).

(** The field of [w] bytes at offset [off] of an object. *)
Definition load (w off : nat) (buf : list byte) : Z :=
  le_combine (take w (drop off buf)).

(** [stream.read((char* )&x, 1)] for a [uint8_t x]. *)
Definition read_u8 : M IO Z :=
  bs <- stream_read 1 ;; ret (load 1 0 bs).

(** [stream.read((char* )&x, 2); x = swapEndianness(x)] for a [uint16_t x]. *)
Definition read_u16 : M IO Z :=
  bs <- stream_read 2 ;; ret (swapEndianness 2 (load 2 0 bs)).

(** [stream.read((char* )&x, 4); x = swapEndianness(x)] for a [uint32_t x]. *)
Definition read_u32 : M IO Z :=
  bs <- stream_read 4 ;; ret (swapEndianness 4 (load 4 0 bs)).

(** The same for a [uint16_t x] that holds [old]: the bytes the stream
    does not deliver keep what they held. *)
Definition read_u16_over (old : Z) : M IO Z :=
  bs <- stream_fill 2 ;;
  ret (swapEndianness 2 (load 2 0 (bs ++ drop (length bs) (le_split 2 old)))).

#[global] Arguments load : simpl never.
#[global] Arguments stream_fill : simpl never.
#[global] Arguments stream_read : simpl never.

(** ** The interface of the [read] methods *)

Class Readable (A : Type) : Type := read : M IO A.
#[global] Hint Mode Readable ! : typeclass_instances.

(** [new T[n]; for (i = 0; i < n; i++) arr[i].read(stream)] *)
Definition read_array {A} `{Readable A} (n : nat) : M IO (list A) :=
  replicateM n read.

(** [reads io io']: [io'] is [io] after some bytes were taken from the front
    of the stream; [cout] is untouched and [cerr] has only grown. *)
Definition reads (io io' : IO) : Prop :=
  stream io' `suffix_of` stream io /\ cout io' = cout io /\
  cerr io `prefix_of` cerr io'.

Class ReadableLaws (A : Type) `{Readable A} : Prop :=
  read_forward : keeps reads (read (A := A)).

(** ** Lemmas *)

#[export] Instance reads_preorder : PreOrder reads.
Proof.
  split.
  - by intros io.
  - intros a b c (S1 & O1 & E1) (S2 & O2 & E2). repeat split.
    + by etrans.
    + congruence.
    + by etrans.
Qed.

Lemma stream_fill_app (bs rest : list byte) co ce :
  stream_fill (length bs) (mkIO (bs ++ rest) co ce) = Ok bs (mkIO rest co ce).
Proof.
  unfold stream_fill, set_stream. simpl.
  by rewrite take_app_length, drop_app_length.
Qed.

(** What a read returns: the bytes it took, and fewer than [n] only when
    it took all there was. *)
Lemma stream_fill_Ok n io bs io' :
  stream_fill n io = Ok bs io' ->
  stream io = bs ++ stream io' /\ cout io' = cout io /\ cerr io' = cerr io /\
  (length bs <= n)%nat /\ (length bs = n \/ stream io' = []).
Proof.
  unfold stream_fill. intros [= <- <-]. simpl.
  rewrite length_take, take_drop. repeat split; [lia|].
  destruct (decide (n <= length (stream io))%nat); [left; lia|].
  right. apply drop_ge. lia.
Qed.

(** At the end of the file a read stores nothing. *)
Lemma stream_fill_end n co ce :
  stream_fill n (mkIO [] co ce) = Ok [] (mkIO [] co ce).
Proof. unfold stream_fill, set_stream. simpl. by rewrite take_nil, drop_nil. Qed.

(** A read of more than is left takes what is left. *)
Lemma stream_fill_all n (bs : list byte) co ce :
  (length bs <= n)%nat -> stream_fill n (mkIO bs co ce) = Ok bs (mkIO [] co ce).
Proof.
  intros H. unfold stream_fill, set_stream. simpl.
  by rewrite take_ge, drop_ge by lia.
Qed.

Lemma stream_read_fill n io :
  (n <= length (stream io))%nat -> stream_read n io = stream_fill n io.
Proof. intros H. unfold stream_read. by rewrite decide_True. Qed.

Lemma stream_read_app (bs rest : list byte) co ce :
  stream_read (length bs) (mkIO (bs ++ rest) co ce) = Ok bs (mkIO rest co ce).
Proof.
  rewrite stream_read_fill by (simpl; rewrite length_app; lia).
  apply stream_fill_app.
Qed.

Lemma stream_read_Ok n io bs io' :
  stream_read n io = Ok bs io' ->
  length bs = n /\ stream io = bs ++ stream io' /\
  cout io' = cout io /\ cerr io' = cerr io.
Proof.
  unfold stream_read. case_decide; [|done].
  intros (Hs & ? & ? & ? & [?|E])%stream_fill_Ok; [done|].
  repeat split; try done. rewrite E, app_nil_r in Hs. rewrite Hs in *. lia.
Qed.

Lemma stream_read_short n io :
  (length (stream io) < n)%nat ->
  stream_read n io = Fault (Undefined UninitializedRead) io.
Proof. intros H. unfold stream_read. by rewrite decide_False by lia. Qed.

Lemma keeps_stream_fill n : keeps reads (stream_fill n).
Proof.
  intros io. repeat split; simpl; [|done].
  exists (take n (stream io)). by rewrite take_drop.
Qed.

Lemma keeps_stream_read n : keeps reads (stream_read n).
Proof.
  intros io. unfold stream_read. case_decide; [apply keeps_stream_fill | done].
Qed.

Lemma keeps_print_cerr line : keeps reads (print_cerr line).
Proof. intros io. repeat split; simpl; [done | by apply prefix_app_r]. Qed.

Lemma load_all bs : load (length bs) 0 bs = le_combine bs.
Proof. unfold load. by rewrite drop_0, firstn_all. Qed.

Lemma load_app_l w bs rest :
  length bs = w -> load w 0 (bs ++ rest) = le_combine bs.
Proof. intros <-. unfold load. by rewrite drop_0, take_app_length. Qed.

Lemma load_drop w off bs :
  load w off bs = load w 0 (drop off bs).
Proof. unfold load. by rewrite drop_0. Qed.

Lemma load_bound w off buf : 0 <= load w off buf < 2 ^ (8 * Z.of_nat w).
Proof.
  unfold load. pose proof (le_combine_bound (take w (drop off buf))) as H.
  rewrite length_take in H. split; [lia|].
  eapply Z.lt_le_trans; [apply H|]. apply Z.pow_le_mono_r; lia.
Qed.

(** A swapped field is the big-endian value of the bytes it was read from. *)
Lemma load_be w off buf :
  (off + w <= length buf)%nat ->
  swapEndianness w (load w off buf) = be_combine (take w (drop off buf)).
Proof.
  intros H. unfold load.
  rewrite <- (swapEndianness_wire (take w (drop off buf))).
  f_equal. rewrite length_take, length_drop. lia.
Qed.

(** A field read with [read_u16] or [read_u32] is the big-endian value of
    the next bytes of the file. *)
Lemma read_u16_be (bs rest : list byte) co ce :
  length bs = 2%nat ->
  read_u16 (mkIO (bs ++ rest) co ce) = Ok (be_combine bs) (mkIO rest co ce).
Proof.
  intros H. unfold read_u16. rewrite <- H at 1.
  rewrite (bind_Ok _ _ _ _ _ (stream_read_app _ _ _ _)). unfold ret.
  by rewrite <- H, load_all, swapEndianness_wire.
Qed.

Lemma read_u32_be (bs rest : list byte) co ce :
  length bs = 4%nat ->
  read_u32 (mkIO (bs ++ rest) co ce) = Ok (be_combine bs) (mkIO rest co ce).
Proof.
  intros H. unfold read_u32. rewrite <- H at 1.
  rewrite (bind_Ok _ _ _ _ _ (stream_read_app _ _ _ _)). unfold ret.
  by rewrite <- H, load_all, swapEndianness_wire.
Qed.

Lemma read_u8_byte (b : byte) rest co ce :
  read_u8 (mkIO (b :: rest) co ce) = Ok (byte.unsigned b) (mkIO rest co ce).
Proof.
  unfold read_u8.
  rewrite (bind_Ok _ _ _ _ _ (stream_read_app [b] rest co ce)). unfold ret.
  change 1%nat with (length [b]). by rewrite load_all, le_combine_1.
Qed.

(** Where the stream holds the two bytes, nothing of [old] is left. *)
Lemma read_u16_over_full old io :
  (2 <= length (stream io))%nat -> read_u16_over old io = read_u16 io.
Proof.
  intros H. unfold read_u16_over, read_u16, bind.
  rewrite stream_read_fill by done. unfold stream_fill, ret.
  rewrite length_take, Nat.min_l, drop_ge, app_nil_r by (rewrite ?length_le_split; lia).
  done.
Qed.

Lemma read_u16_over_be old (bs rest : list byte) co ce :
  length bs = 2%nat ->
  read_u16_over old (mkIO (bs ++ rest) co ce) = Ok (be_combine bs) (mkIO rest co ce).
Proof.
  intros H. rewrite read_u16_over_full by (simpl; rewrite length_app; lia).
  by apply read_u16_be.
Qed.

(** At the end of the file the member keeps its bytes, and they are
    swapped all the same. *)
Lemma read_u16_over_end old co ce :
  in_range 2 old ->
  read_u16_over old (mkIO [] co ce) = Ok (swapEndianness 2 old) (mkIO [] co ce).
Proof.
  intros H. unfold read_u16_over.
  rewrite (bind_Ok _ _ _ _ _ (stream_fill_end 2 co ce)). unfold ret.
  cbn [length drop app]. rewrite drop_0. pose proof (load_all (le_split 2 old)) as E.
  rewrite length_le_split in E. rewrite E, le_combine_split.
  f_equal. f_equal. unfold in_range in H. apply Z.mod_small. simpl in *. lia.
Qed.

Lemma read_u16_over_range old io v io' :
  read_u16_over old io = Ok v io' -> in_range 2 v.
Proof. intros H. inv_bind H. inv H. apply swapEndianness_bound. Qed.

Lemma read_u8_range io v io' : read_u8 io = Ok v io' -> in_range 1 v.
Proof. intros H. inv_bind H. inv H. apply load_bound. Qed.

Lemma read_u16_range io v io' : read_u16 io = Ok v io' -> in_range 2 v.
Proof. intros H. inv_bind H. inv H. apply swapEndianness_bound. Qed.

Lemma read_u32_range io v io' : read_u32 io = Ok v io' -> in_range 4 v.
Proof. intros H. inv_bind H. inv H. apply swapEndianness_bound. Qed.

Lemma keeps_read_u8 : keeps reads read_u8.
Proof.
  apply (keeps_bind reads); [apply keeps_stream_read | intros; apply keeps_ret, _].
Qed.

Lemma keeps_read_u16 : keeps reads read_u16.
Proof.
  apply (keeps_bind reads); [apply keeps_stream_read | intros; apply keeps_ret, _].
Qed.

Lemma keeps_read_u32 : keeps reads read_u32.
Proof.
  apply (keeps_bind reads); [apply keeps_stream_read | intros; apply keeps_ret, _].
Qed.

Lemma keeps_read_u16_over old : keeps reads (read_u16_over old).
Proof.
  apply (keeps_bind reads); [apply keeps_stream_fill | intros; apply keeps_ret, _].
Qed.

#[export] Hint Resolve keeps_stream_fill keeps_stream_read keeps_read_u8
  keeps_read_u16 keeps_read_u16_over keeps_read_u32 keeps_print_cerr : zera.

(** Solve a goal [keeps reads m] by following the structure of [m]. *)
Ltac keeps_reads :=
  repeat first
    [ apply (keeps_bind reads); [| intros ]
    | apply (keeps_ret reads)
    | apply (keeps_fail reads)
    | apply (keeps_or_ub reads)
    | apply (keeps_replicateM reads)
    | solve [ eauto with zera ]
    | match goal with |- keeps _ (if ?x then _ else _) => destruct x end
    | match goal with |- keeps _ (match ?x with _ => _ end) => destruct x end ].

(** ** Client of the interface: the array loop *)

Section ReadArray.
Context {A : Type} `{ReadableLaws A}.

Lemma read_array_forward n : keeps reads (read_array (A := A) n).
Proof. apply (keeps_replicateM reads), read_forward. Qed.

Lemma read_array_length n io l io' :
  read_array (A := A) n io = Ok l io' -> length l = n.
Proof. apply replicateM_length. Qed.

End ReadArray.

#[export] Hint Resolve read_array_forward : zera.

(** ** Progress: the weaker relation that also lets [cout] grow *)

Definition progress (io io' : IO) : Prop :=
  stream io' `suffix_of` stream io /\ cout io `prefix_of` cout io' /\
  cerr io `prefix_of` cerr io'.

#[export] Instance progress_preorder : PreOrder progress.
Proof.
  split.
  - by intros io.
  - intros a b c (S1 & O1 & E1) (S2 & O2 & E2). repeat split; by etrans.
Qed.

Lemma reads_progress io io' : reads io io' -> progress io io'.
Proof. intros (S1 & O1 & E1). repeat split; [done | by rewrite O1 | done]. Qed.

Lemma keeps_weaken {S A} (R R' : S -> S -> Prop) (m : M S A) :
  (forall s s', R s s' -> R' s s') -> keeps R m -> keeps R' m.
Proof. intros HR Hm s. apply HR, Hm. Qed.

Lemma keeps_progress_of_reads {A} (m : M IO A) : keeps reads m -> keeps progress m.
Proof. apply keeps_weaken, reads_progress. Qed.

Lemma keeps_print_cout line : keeps progress (print_cout line).
Proof. intros io. repeat split; simpl; [done | by apply prefix_app_r | done]. Qed.

#[export] Hint Resolve keeps_print_cout : zera.

(** Solve a goal [keeps progress m] by following the structure of [m]. *)
Ltac keeps_progress :=
  repeat first
    [ apply keeps_progress_of_reads; solve [ eauto with zera | keeps_reads ]
    | apply (keeps_bind progress); [| intros ]
    | apply (keeps_ret progress)
    | apply (keeps_fail progress)
    | apply (keeps_or_ub progress)
    | solve [ eauto with zera ]
    | match goal with |- keeps _ (if ?x then _ else _) => destruct x end
    | match goal with |- keeps _ (match ?x with _ => _ end) => destruct x end ].
