(* ===== verification/ConstantPool.v ===== *)
(** * ConstantPool: constant-pool entries and the pool (main.cpp 20-25, 36-192)

    A [ConstantPoolEntry] is a tag byte and a union.  The union is the
    inductive [cp_union], one constructor per member; which member is
    active is part of the value.  The members are structs, and a field
    may be read through a member that is not the active one where both
    structs start with the same types up to that field (their common
    initial sequence): the first [uint16_t] through [Class],
    [Reference], [String], [NameAndType] and [Utf8] alike, the second
    through [Reference] and [NameAndType].  Any other read of a member
    that is not active, the pointer [Utf8.bytes] of an entry that holds
    no Utf8 above all, has no value in the model ([None], turned into
    [Undefined UnionMember] by the callers).  [ConstantPoolEntry_read] is
    [ConstantPoolEntry::read], branch for branch; [ConstantPoolEntry_show]
    is [operator<<]; [ConstantPool_new] is the constructor of the pool and
    [entry_at] the expression [entries[idx - 1]] found wherever the program
    follows a constant-pool index. *)

From Stdlib Require Import ZArith List String Ascii Lia.
From stdpp Require Import base tactics option list strings.
From coqutil Require Import Byte Word.LittleEndianList.
From S2P Require Import Prelude ByteCodec Stream.

#[local] Open Scope Z_scope.
#[local] Open Scope string_scope.
#[local] Open Scope m_scope.

(** ** Data *)

(** [struct JavaClassHeader1] (packed, 10 bytes). *)
Record JavaClassHeader1 : Type := mkHeader1 {
  magic : Z;
  minor : Z;
  major : Z;
  constantPoolCount : Z;
}.

(** [enum ConstantPoolTypes : uint8_t] *)
Inductive ConstantPoolTypes : Type :=
| CP_Utf8 | CP_Class | CP_Fieldref | CP_Methodref | CP_InterfaceMethodref
| CP_String | CP_Integer | CP_Float | CP_Long | CP_Double | CP_NameAndType
| CP_MethodHandle | CP_MethodType | CP_InvokeDynamic.

Definition tag_value (t : ConstantPoolTypes) : Z :=
  match t with
  | CP_Utf8 => 1
  | CP_Class => 7
  | CP_Fieldref => 9
  | CP_Methodref => 10
  | CP_InterfaceMethodref => 11
  | CP_String => 8
  | CP_Integer => 3
  | CP_Float => 4
  | CP_Long => 5
  | CP_Double => 6
  | CP_NameAndType => 12
  | CP_MethodHandle => 15
  | CP_MethodType => 16
  | CP_InvokeDynamic => 18
  end.

(** The anonymous union of [struct ConstantPoolEntry]. *)
Inductive cp_union : Type :=
| U_Class (name_index : Z)
| U_Reference (class_index name_and_type_index : Z)
| U_String (string_index : Z)
| U_Numeric (number_bytes : Z)
| U_LongNumeric (low_number_bytes high_number_bytes : Z)
| U_NameAndType (name_idx descriptor_idx : Z)
| U_Utf8 (length : Z) (bytes : string).

Record ConstantPoolEntry : Type := mkEntry {
  tag : Z;
  data : cp_union;
}.

#[export] Instance ConstantPoolTypes_eq_dec : EqDecision ConstantPoolTypes.
Proof. solve_decision. Defined.

#[export] Instance cp_union_eq_dec : EqDecision cp_union.
Proof. solve_decision. Defined.

#[export] Instance ConstantPoolEntry_eq_dec : EqDecision ConstantPoolEntry.
Proof. solve_decision. Defined.

(** [tag == ConstantPoolTypes::t] *)
Definition tag_is (tag : Z) (t : ConstantPoolTypes) : bool :=
  Z.eqb tag (tag_value t).

(** ** Reads of union members *)

(** The first field of a member whose struct starts with a [uint16_t]:
    it is there whichever of these members is the active one. *)
Definition first_u16 (d : cp_union) : option Z :=
  match d with
  | U_Class i | U_Reference i _ | U_String i | U_NameAndType i _ | U_Utf8 i _ => Some i
  | U_Numeric _ | U_LongNumeric _ _ => None
  end.

(** The second field of a member whose struct is two [uint16_t]. *)
Definition second_u16 (d : cp_union) : option Z :=
  match d with
  | U_Reference _ n | U_NameAndType _ n => Some n
  | _ => None
  end.

Definition Class_name_index (e : ConstantPoolEntry) : option Z :=
  first_u16 (data e).

Definition Reference_class_index (e : ConstantPoolEntry) : option Z :=
  first_u16 (data e).

Definition Reference_name_and_type_index (e : ConstantPoolEntry) : option Z :=
  second_u16 (data e).

Definition String_string_index (e : ConstantPoolEntry) : option Z :=
  first_u16 (data e).

Definition NameAndType_name_idx (e : ConstantPoolEntry) : option Z :=
  first_u16 (data e).

Definition NameAndType_descriptor_idx (e : ConstantPoolEntry) : option Z :=
  second_u16 (data e).

Definition Utf8_bytes (e : ConstantPoolEntry) : option string :=
  match data e with U_Utf8 _ s => Some s | _ => None end.

(** ** [ConstantPoolEntry::read] *)

(** [stream.read((char* )&tmp, 1)] for the [char tmp] of the Utf8 branch,
    which holds [tmp]: the character read, or at the end of the file
    what it held.  [None] is the variable before anything was stored
    in it. *)
Definition read_char (tmp : option ascii) : M IO (option ascii) :=
  bs <- stream_fill 1 ;;
  ret (from_option Some tmp (ascii_of_byte <$> head bs)).

(** The loop of the Utf8 branch: [n] times, read into [tmp] and append
    [tmp].  [tmp] is declared before the loop, so at the end of the file
    the character read last is appended again and again. *)
Fixpoint read_chars (n : nat) (tmp : option ascii) (bytes : string) : M IO string :=
  match n with
  | O => ret bytes
  | S n' =>
      tmp <- read_char tmp ;;
      c <- or_ub UninitializedRead tmp ;;
      read_chars n' (Some c) (bytes ++ String c EmptyString)
  end.

Definition unknown_tag_message (tag : Z) : string :=
  "Error: Unknown constant pool element with tag: " ++ dec tag.

Definition ConstantPoolEntry_read : M IO ConstantPoolEntry :=
  tag <- read_u8 ;;
  if tag_is tag CP_Methodref then
    buf <- stream_read 4 ;;
    ret (mkEntry tag (U_Reference (swapEndianness 2 (load 2 0 buf))
                                  (swapEndianness 2 (load 2 2 buf))))
  else if tag_is tag CP_Class then
    buf <- stream_read 2 ;;
    ret (mkEntry tag (U_Class (swapEndianness 2 (load 2 0 buf))))
  else if tag_is tag CP_NameAndType then
    buf <- stream_read 4 ;;
    ret (mkEntry tag (U_NameAndType (swapEndianness 2 (load 2 0 buf))
                                    (swapEndianness 2 (load 2 2 buf))))
  else if tag_is tag CP_Utf8 then
    length <- read_u16 ;;
    bytes <- read_chars (Z.to_nat length) None EmptyString ;;
    ret (mkEntry tag (U_Utf8 length bytes))
  else if tag_is tag CP_Fieldref then
    buf <- stream_read 4 ;;
    ret (mkEntry tag (U_Reference (swapEndianness 2 (load 2 0 buf))
                                  (swapEndianness 2 (load 2 2 buf))))
  else if tag_is tag CP_String then
    buf <- stream_read 2 ;;
    ret (mkEntry tag (U_String (swapEndianness 2 (load 2 0 buf))))
  else
    print_cerr (unknown_tag_message tag) ;;
    fail (Exit 1).

#[export] Instance ConstantPoolEntry_Readable : Readable ConstantPoolEntry :=
  ConstantPoolEntry_read.

(** ** [operator<<] for an entry *)

Definition dquote : string := String (ascii_of_nat 34) EmptyString.

Definition ConstantPoolEntry_show (info : ConstantPoolEntry) : option string :=
  let s := "<ConstantPoolEntry = TAG: " ++ dec (tag info) ++ "; " in
  let close (s : string) := Some (s ++ ">") in
  if tag_is (tag info) CP_Fieldref then close (s ++ "Field reference")
  else if tag_is (tag info) CP_Methodref then close (s ++ "Method reference")
  else if tag_is (tag info) CP_String then
    match String_string_index info with
    | Some i => close (s ++ "String@" ++ dec (i - 1))
    | None => None
    end
  else if tag_is (tag info) CP_Class then close (s ++ "Class")
  else if tag_is (tag info) CP_NameAndType then close (s ++ "Name and type")
  else if tag_is (tag info) CP_Utf8 then
    match Utf8_bytes info with
    | Some b => close (s ++ "Utf8; Value = " ++ dquote ++ b ++ dquote)
    | None => None
    end
  else close s.

(** ** The pool *)

Record ConstantPool : Type := mkPool {
  entries : list ConstantPoolEntry;
}.

#[export] Instance ConstantPool_eq_dec : EqDecision ConstantPool.
Proof. solve_decision. Defined.

(** [ConstantPool::ConstantPool(stream, header)].  [new T[-1]] throws. *)
Definition ConstantPool_new (header : JavaClassHeader1) : M IO ConstantPool :=
  let n := (constantPoolCount header - 1)%Z in
  if Z.ltb n 0 then fail Terminate
  else es <- read_array (Z.to_nat n) ;; ret (mkPool es).

(** [entries[idx - 1]] *)
Definition entry_at (pool : ConstantPool) (idx : Z) : option ConstantPoolEntry :=
  index (entries pool) (idx - 1)%Z.

(** [entries[idx - 1].Utf8.bytes], the way every name is resolved. *)
Definition utf8_at (pool : ConstantPool) (idx : Z) : option string :=
  entry_at pool idx ≫= Utf8_bytes.

(** [ConstantPool::get_name_by_index]: indexes with [idx], not [idx - 1]. *)
Definition get_name_by_index (pool : ConstantPool) (idx : Z) : option string :=
  index (entries pool) idx ≫= Utf8_bytes.

(** ** Well-formed entries *)

(** The tag names the active member and every field is in its type's range. *)
Definition entry_wf (e : ConstantPoolEntry) : Prop :=
  match data e with
  | U_Class i => tag e = 7 /\ in_range 2 i
  | U_Reference c n => (tag e = 9 \/ tag e = 10) /\ in_range 2 c /\ in_range 2 n
  | U_String i => tag e = 8 /\ in_range 2 i
  | U_NameAndType n d => tag e = 12 /\ in_range 2 n /\ in_range 2 d
  | U_Utf8 len s => tag e = 1 /\ in_range 2 len /\ String.length s = Z.to_nat len
  | U_Numeric _ | U_LongNumeric _ _ => False
  end.

#[export] Instance entry_wf_dec e : Decision (entry_wf e).
Proof. unfold entry_wf. destruct (data e); apply _. Defined.

Definition pool_wf (pool : ConstantPool) : Prop := Forall entry_wf (entries pool).

#[export] Instance pool_wf_dec pool : Decision (pool_wf pool).
Proof. unfold pool_wf. apply _. Defined.

(** The tags [read] accepts. *)
Definition known_tag (tag : Z) : bool :=
  tag_is tag CP_Methodref || tag_is tag CP_Class || tag_is tag CP_NameAndType
  || tag_is tag CP_Utf8 || tag_is tag CP_Fieldref || tag_is tag CP_String.

(** [entries[idx - 1]] and union-member reads inside an operation: what has
    no value is undefined behaviour. *)
Definition pool_entry {S} (pool : ConstantPool) (idx : Z) : M S ConstantPoolEntry :=
  or_ub (PoolIndex idx) (entry_at pool idx).

Definition member {S A} (o : option A) : M S A := or_ub UnionMember o.

Definition pool_utf8 {S} (pool : ConstantPool) (idx : Z) : M S string :=
  e <- pool_entry pool idx ;; member (Utf8_bytes e).

(** The text of a byte string, as [std::string] holds it. *)
Definition string_of_bytes (bs : list byte) : string :=
  string_of_list_ascii (ascii_of_byte <$> bs).

(** ** Lemmas on tags *)

Lemma tag_is_spec tag t : reflect (tag = tag_value t) (tag_is tag t).
Proof. apply Z.eqb_spec. Qed.

Lemma tag_value_inj t1 t2 : tag_value t1 = tag_value t2 -> t1 = t2.
Proof. by destruct t1, t2. Qed.

Lemma tag_value_range t : in_range 1 (tag_value t).
Proof. destruct t; by compute. Qed.

(** Case on every [tag_is] test of the goal or of hypothesis [H]. *)
Ltac case_tags :=
  repeat match goal with
  | |- context [tag_is ?x ?t] => destruct (tag_is_spec x t)
  | H : context [tag_is ?x ?t] |- _ => destruct (tag_is_spec x t)
  end.

(** ** The Utf8 loop *)

Lemma string_of_bytes_cons b bs :
  string_of_bytes (b :: bs) = String (ascii_of_byte b) (string_of_bytes bs).
Proof. reflexivity. Qed.

Lemma string_of_bytes_app bs1 bs2 :
  string_of_bytes (bs1 ++ bs2) = string_of_bytes bs1 ++ string_of_bytes bs2.
Proof.
  induction bs1 as [|b bs1 IH]; [done|].
  cbn [app]. by rewrite !string_of_bytes_cons, string_app_cons, IH.
Qed.

Lemma string_of_bytes_length bs : String.length (string_of_bytes bs) = List.length bs.
Proof.
  unfold string_of_bytes. induction bs as [|b bs IH]; simpl; [done | by f_equal].
Qed.

Lemma read_char_byte tmp b rest co ce :
  read_char tmp (mkIO (b :: rest) co ce) = Ok (Some (ascii_of_byte b)) (mkIO rest co ce).
Proof.
  unfold read_char.
  by rewrite (bind_Ok _ _ _ _ _ (stream_fill_app [b] rest co ce)).
Qed.

(** At the end of the file [tmp] keeps what it held. *)
Lemma read_char_end tmp co ce :
  read_char tmp (mkIO [] co ce) = Ok tmp (mkIO [] co ce).
Proof.
  unfold read_char. by rewrite (bind_Ok _ _ _ _ _ (stream_fill_end 1 co ce)).
Qed.

Lemma read_chars_app bs tmp acc rest co ce :
  read_chars (List.length bs) tmp acc (mkIO (bs ++ rest) co ce) =
  Ok (acc ++ string_of_bytes bs) (mkIO rest co ce).
Proof.
  revert tmp acc. induction bs as [|b bs IH]; intros tmp acc; simpl.
  - unfold ret. f_equal. symmetry. apply string_app_nil_r.
  - rewrite (bind_Ok _ _ _ _ _ (read_char_byte tmp b _ co ce)).
    cbn [or_ub]. rewrite bind_ret_l, IH. by rewrite string_app_assoc.
Qed.

(** Past the end of the file the loop appends the character it read
    last. *)
Lemma read_chars_end n c acc co ce :
  read_chars n (Some c) acc (mkIO [] co ce) =
  Ok (acc ++ string_of_list_ascii (replicate n c)) (mkIO [] co ce).
Proof.
  revert acc. induction n as [|n IH]; intros acc; simpl.
  - unfold ret. f_equal. symmetry. apply string_app_nil_r.
  - rewrite (bind_Ok _ _ _ _ _ (read_char_end (Some c) co ce)).
    cbn [or_ub]. rewrite bind_ret_l, IH. by rewrite string_app_assoc.
Qed.

(** Where the file ends before the first character, the loop appends a
    variable that was never written. *)
Lemma read_chars_empty n acc co ce :
  read_chars (S n) None acc (mkIO [] co ce) =
  Fault (Undefined UninitializedRead) (mkIO [] co ce).
Proof. simpl. by rewrite (bind_Ok _ _ _ _ _ (read_char_end None co ce)). Qed.

Lemma read_chars_length n tmp acc io s io' :
  read_chars n tmp acc io = Ok s io' ->
  String.length s = (String.length acc + n)%nat.
Proof.
  revert tmp acc io. induction n as [|n IH]; intros tmp acc io H; simpl in H.
  - inv H. lia.
  - do 2 inv_bind H. apply IH in H. rewrite string_app_length in H. simpl in H. lia.
Qed.

Lemma keeps_read_char tmp : keeps reads (read_char tmp).
Proof. unfold read_char. keeps_reads. Qed.

Lemma keeps_read_chars n tmp acc : keeps reads (read_chars n tmp acc).
Proof.
  revert tmp acc. induction n as [|n IH]; intros tmp acc; simpl.
  - apply keeps_ret, _.
  - apply (keeps_bind reads); [apply keeps_read_char | intros].
    apply (keeps_bind reads); [apply (keeps_or_ub reads) | intros; apply IH].
Qed.

#[export] Hint Resolve keeps_read_char keeps_read_chars : zera.

(** ** [read] *)

#[export] Instance ConstantPoolEntry_ReadableLaws : ReadableLaws ConstantPoolEntry.
Proof.
  unfold ReadableLaws, read, ConstantPoolEntry_Readable, ConstantPoolEntry_read.
  keeps_reads.
Qed.

Lemma load2_range off buf : in_range 2 (swapEndianness 2 (load 2 off buf)).
Proof. apply swapEndianness_bound. Qed.

#[export] Hint Resolve load2_range read_u16_range read_u32_range read_u8_range : zera.

(** Whatever [read] returns is well formed. *)
Lemma ConstantPoolEntry_read_wf io e io' :
  ConstantPoolEntry_read io = Ok e io' -> entry_wf e.
Proof.
  unfold ConstantPoolEntry_read. intros H. inv_bind H.
  case_tags;
    try solve [inv_bind H; inv H; unfold entry_wf; simpl; eauto 6 with zera].
  - inv_bind H. inv_bind H. inv H. unfold entry_wf. simpl.
    split; [done|]. split; [eauto with zera|].
    match goal with H : read_chars _ _ _ _ = _ |- _ => by apply read_chars_length in H end.
Qed.

(** C30: a tag outside the six that [read] handles: one line on [cerr], then
    [exit(1)], with exactly the tag byte consumed. *)
Theorem ConstantPoolEntry_read_unknown b rest co ce :
  known_tag (byte.unsigned b) = false ->
  ConstantPoolEntry_read (mkIO (b :: rest) co ce) =
  Fault (Exit 1) (mkIO rest co (ce ++ [unknown_tag_message (byte.unsigned b)])).
Proof.
  unfold known_tag, ConstantPoolEntry_read. intros H.
  rewrite (bind_Ok _ _ _ _ _ (read_u8_byte b rest co ce)).
  repeat (apply orb_false_elim in H; destruct H as [H ?]).
  by repeat match goal with H : tag_is _ _ = false |- _ => rewrite H; clear H end.
Qed.

Lemma entry_wf_known e : entry_wf e -> known_tag (tag e) = true.
Proof.
  unfold entry_wf, known_tag. destruct (data e); try done.
  all: intros [Ht _]; try destruct Ht as [Ht|Ht]; by rewrite Ht.
Qed.

Lemma ConstantPoolEntry_read_known io e io' :
  ConstantPoolEntry_read io = Ok e io' -> known_tag (tag e) = true.
Proof. intros H. eapply entry_wf_known, ConstantPoolEntry_read_wf, H. Qed.

(** ** The pool *)

Lemma ConstantPool_new_forward header : keeps reads (ConstantPool_new header).
Proof. unfold ConstantPool_new. keeps_reads. Qed.

#[export] Hint Resolve ConstantPool_new_forward : zera.

Lemma ConstantPool_new_Ok header io pool io' :
  ConstantPool_new header io = Ok pool io' ->
  1 <= constantPoolCount header /\
  Z.of_nat (List.length (entries pool)) = constantPoolCount header - 1 /\
  pool_wf pool.
Proof.
  unfold ConstantPool_new. destruct (Z.ltb_spec (constantPoolCount header - 1) 0); [done|].
  intros H'. inv_bind H'. inv H'. simpl. split; [lia|]. split.
  - apply read_array_length in Hm. lia.
  - eapply replicateM_Forall; [|exact Hm]. intros ???. apply ConstantPoolEntry_read_wf.
Qed.

(** A pool count of zero makes the constructor ask for an array of
    [-1] entries: the allocation throws and the process terminates before
    anything is read. *)
Theorem ConstantPool_new_zero header io :
  constantPoolCount header <= 0 -> ConstantPool_new header io = Fault Terminate io.
Proof.
  intros H. unfold ConstantPool_new.
  by destruct (Z.ltb_spec (constantPoolCount header - 1) 0); [|lia].
Qed.

(** ** Indexing the pool *)

Lemma entry_at_Some pool idx e :
  entry_at pool idx = Some e <->
  1 <= idx /\ entries pool !! Z.to_nat (idx - 1) = Some e.
Proof. unfold entry_at. rewrite index_Some. intuition lia. Qed.

Lemma entry_at_None pool idx :
  entry_at pool idx = None <->
  idx <= 0 \/ Z.of_nat (List.length (entries pool)) < idx.
Proof. unfold entry_at. rewrite index_None. lia. Qed.

Lemma entry_at_is_Some pool idx :
  is_Some (entry_at pool idx) <->
  1 <= idx <= Z.of_nat (List.length (entries pool)).
Proof.
  rewrite <- not_eq_None_Some, entry_at_None. lia.
Qed.

Lemma entry_at_wf pool idx e :
  pool_wf pool -> entry_at pool idx = Some e -> entry_wf e.
Proof.
  intros Hwf [_ H]%entry_at_Some.
  eapply Forall_lookup_1; [exact Hwf | exact H].
Qed.

(** ** [operator<<] *)

(** [operator<<] reads only the union member that the tag selects
    when the entry is well formed, as every entry read from a file is. *)
Theorem ConstantPoolEntry_show_total e :
  entry_wf e -> is_Some (ConstantPoolEntry_show e).
Proof.
  unfold entry_wf, ConstantPoolEntry_show, String_string_index, first_u16, Utf8_bytes.
  destruct e as [t d]; simpl. destruct d; simpl; intros H; case_tags;
    simpl in *; try done; lia.
Qed.

(** ** What the pool promises *)

(** C29: the pool built from a header holds an entry at the one-based index
    [idx] exactly when [1 <= idx < constantPoolCount]; outside that range
    the unchecked [entries[idx - 1]] of the code reads out of bounds. *)
Theorem pool_lookup_range header io pool io' idx :
  ConstantPool_new header io = Ok pool io' ->
  is_Some (entry_at pool idx) <-> 1 <= idx < constantPoolCount header.
Proof.
  intros (_ & Hlen & _)%ConstantPool_new_Ok. rewrite entry_at_is_Some. lia.
Qed.

(** C40: every entry of a pool built by the constructor is well formed:
    its tag is one of the six decoded and its union holds the member of
    that tag, each index within sixteen bits. *)
Theorem pool_lookup_wf header io pool io' idx e :
  ConstantPool_new header io = Ok pool io' ->
  entry_at pool idx = Some e -> entry_wf e.
Proof. intros (_ & _ & Hwf)%ConstantPool_new_Ok. by apply entry_at_wf. Qed.

(** The pool constructor only takes bytes from the front of the
    stream: what is left is a suffix of what was there, [cout] is untouched
    and [cerr] has at most grown. *)
Theorem ConstantPool_new_reads header : keeps reads (ConstantPool_new header).
Proof. apply ConstantPool_new_forward. Qed.

(** ** The theorems on a pool of two entries *)

(** [Class 2; Utf8 "A"] *)
Definition two_entries : list byte :=
  [Byte.x07; Byte.x00; Byte.x02; Byte.x01; Byte.x00; Byte.x01; Byte.x41].

Definition two_entries_pool : ConstantPool :=
  mkPool [mkEntry 7 (U_Class 2); mkEntry 1 (U_Utf8 1 "A")].

Lemma ConstantPoolEntry_read_unknown_witness :
  ConstantPoolEntry_read (mkIO [Byte.x03; Byte.x00] [] []) =
  Fault (Exit 1) (mkIO [Byte.x00] [] ["Error: Unknown constant pool element with tag: 3"]).
Proof. apply (ConstantPoolEntry_read_unknown Byte.x03 [Byte.x00] [] []). by vm_compute. Defined.

Lemma ConstantPool_new_zero_witness :
  ConstantPool_new (mkHeader1 0xCAFEBABE 0 52 0) (mkIO two_entries [] []) =
  Fault Terminate (mkIO two_entries [] []).
Proof. apply ConstantPool_new_zero. by vm_compute. Defined.

Lemma ConstantPoolEntry_show_total_witness :
  is_Some (ConstantPoolEntry_show (mkEntry 8 (U_String 5))).
Proof. apply ConstantPoolEntry_show_total. by vm_compute. Defined.

Lemma pool_lookup_range_witness :
  is_Some (entry_at two_entries_pool 2) <-> 1 <= 2 < 3.
Proof.
  apply (pool_lookup_range (mkHeader1 0xCAFEBABE 0 52 3) (mkIO two_entries [] [])
           two_entries_pool (mkIO [] [] []) 2).
  by vm_compute.
Defined.

Lemma pool_lookup_wf_witness : entry_wf (mkEntry 1 (U_Utf8 1 "A")).
Proof.
  apply (pool_lookup_wf (mkHeader1 0xCAFEBABE 0 52 3) (mkIO two_entries [] [])
           two_entries_pool (mkIO [] [] []) 2); by vm_compute.
Defined.
