(* ===== verification/Records.v ===== *)
(** * Records: attributes, fields and methods (main.cpp 194-300)

    [AttributeInfo], [FieldEntry] and [MethodEntry] are length-prefixed
    records; each has a [read] that fills it from the stream.  An array
    allocated with [new T[n]] is a list, and a pointer into it is an
    index.  The buffer [info] of an attribute is the list of the bytes
    the read stored in it: [attribute_length] bytes were allocated, and
    where the file ended before, the list is shorter and the rest of
    the buffer was never written.  [wf] is what every record read from
    a stream satisfies; [full] adds that no buffer was cut short.  [MethodEntry.get_attribute] is the linear search by name
    through the constant pool; it returns the index of the first match
    ([Some i], the pointer [&attributes[i]]) or [None] ([nullptr]).  The
    two [operator<<] are [MethodEntry.show] and [AttributeInfo.show]. *)

From Stdlib Require Import ZArith List String Ascii Lia.
From stdpp Require Import base tactics option list strings.
From coqutil Require Import Byte Word.LittleEndianList.
From S2P Require Import Prelude ByteCodec Stream ConstantPool.

#[local] Open Scope Z_scope.
#[local] Open Scope m_scope.

(** The character [endl] writes. *)
Definition newline : string := String (ascii_of_nat 10) EmptyString.

(** ** [struct AttributeInfo] *)

Module AttributeInfo.

Record t : Type := mk {
  attribute_name_index : Z;
  attribute_length : Z;
  info : list byte;
}.

Definition read : M IO t :=
  b2 <- stream_read 2 ;;
  b4 <- stream_read 4 ;;
  let attribute_name_index := swapEndianness 2 (load 2 0 b2) in
  let attribute_length := swapEndianness 4 (load 4 0 b4) in
  info <- stream_fill (Z.to_nat attribute_length) ;;
  ret (mk attribute_name_index attribute_length info).

Definition wf (a : t) : Prop :=
  in_range 2 (attribute_name_index a) /\ in_range 4 (attribute_length a) /\
  Z.of_nat (length (info a)) <= attribute_length a.

(** The whole buffer was read. *)
Definition full (a : t) : Prop :=
  in_range 2 (attribute_name_index a) /\ in_range 4 (attribute_length a) /\
  Z.of_nat (length (info a)) = attribute_length a.

(** [operator<<]: what it appends to the stream.  [data] is the text of
    the pointer [info.info]; it depends on where the allocator put the
    buffer, so it is a parameter.  [endl] and the newline of the first
    literal end three lines; the fourth is left open. *)
Definition show (data : string) (info : t) : string :=
  ("====" +:+ newline +:+ "NAME INDEX: " +:+ dec (attribute_name_index info)
   +:+ newline +:+ "LEN: " +:+ dec (attribute_length info)
   +:+ newline +:+ "DATA: @" +:+ data)%string.

End AttributeInfo.

#[export] Instance AttributeInfo_eq_dec : EqDecision AttributeInfo.t.
Proof. solve_decision. Defined.

#[export] Instance AttributeInfo_Readable : Readable AttributeInfo.t :=
  AttributeInfo.read.

#[export] Instance AttributeInfo_wf_dec a : Decision (AttributeInfo.wf a).
Proof. unfold AttributeInfo.wf. apply _. Defined.

#[export] Instance AttributeInfo_full_dec a : Decision (AttributeInfo.full a).
Proof. unfold AttributeInfo.full. apply _. Defined.

(** ** [struct FieldEntry] *)

Module FieldEntry.

Record t : Type := mk {
  access_flags : Z;
  name_index : Z;
  descriptor_index : Z;
  attributes_count : Z;
  attributes : list AttributeInfo.t;
}.

Definition read : M IO t :=
  b1 <- stream_read 2 ;;
  b2 <- stream_read 2 ;;
  b3 <- stream_read 2 ;;
  b4 <- stream_read 2 ;;
  let access_flags := swapEndianness 2 (load 2 0 b1) in
  let name_index := swapEndianness 2 (load 2 0 b2) in
  let descriptor_index := swapEndianness 2 (load 2 0 b3) in
  let attributes_count := swapEndianness 2 (load 2 0 b4) in
  attributes <- read_array (Z.to_nat attributes_count) ;;
  ret (mk access_flags name_index descriptor_index attributes_count attributes).

Definition wf (f : t) : Prop :=
  in_range 2 (access_flags f) /\ in_range 2 (name_index f) /\
  in_range 2 (descriptor_index f) /\ in_range 2 (attributes_count f) /\
  Z.of_nat (length (attributes f)) = attributes_count f /\
  Forall AttributeInfo.wf (attributes f).

Definition full (f : t) : Prop :=
  in_range 2 (access_flags f) /\ in_range 2 (name_index f) /\
  in_range 2 (descriptor_index f) /\ in_range 2 (attributes_count f) /\
  Z.of_nat (length (attributes f)) = attributes_count f /\
  Forall AttributeInfo.full (attributes f).

End FieldEntry.

#[export] Instance FieldEntry_eq_dec : EqDecision FieldEntry.t.
Proof. solve_decision. Defined.

#[export] Instance FieldEntry_Readable : Readable FieldEntry.t := FieldEntry.read.

#[export] Instance FieldEntry_wf_dec f : Decision (FieldEntry.wf f).
Proof. unfold FieldEntry.wf. apply _. Defined.

#[export] Instance FieldEntry_full_dec f : Decision (FieldEntry.full f).
Proof. unfold FieldEntry.full. apply _. Defined.

(** ** [struct MethodEntry] *)

Module MethodEntry.

Record t : Type := mk {
  access_flags : Z;
  name_index : Z;
  descriptor_index : Z;
  attributes_count : Z;
  attributes : list AttributeInfo.t;
}.

Definition read : M IO t :=
  b1 <- stream_read 2 ;;
  b2 <- stream_read 2 ;;
  b3 <- stream_read 2 ;;
  b4 <- stream_read 2 ;;
  let access_flags := swapEndianness 2 (load 2 0 b1) in
  let name_index := swapEndianness 2 (load 2 0 b2) in
  let descriptor_index := swapEndianness 2 (load 2 0 b3) in
  let attributes_count := swapEndianness 2 (load 2 0 b4) in
  attributes <- read_array (Z.to_nat attributes_count) ;;
  ret (mk access_flags name_index descriptor_index attributes_count attributes).

(** The loop of [get_attribute], from index [i], with [n] iterations left.
    [pool] is a pointer: [None] is [nullptr]. *)
Fixpoint get_attribute_loop {S} (pool : option ConstantPool) (m : t)
    (name : string) (n i : nat) : M S (option nat) :=
  match n with
  | O => ret None
  | Datatypes.S n' =>
      p <- or_ub NullPointer pool ;;
      a <- or_ub (ArrayIndex i) (attributes m !! i) ;;
      aname <- pool_utf8 p (AttributeInfo.attribute_name_index a) ;;
      if String.eqb aname name then ret (Some i)
      else get_attribute_loop pool m name n' (Datatypes.S i)
  end.

Definition get_attribute {S} (m : t) (pool : option ConstantPool)
    (name : string) : M S (option nat) :=
  get_attribute_loop pool m name (Z.to_nat (attributes_count m)) 0.

(** [operator<<] *)
Definition show (info : t) : string :=
  ("<Method = AccessFlags: " +:+ dec (access_flags info) +:+ "; NameIndex: "
   +:+ dec (name_index info) +:+ "; DescriptorIndex: "
   +:+ dec (descriptor_index info) +:+ "; AttributesCount: "
   +:+ dec (attributes_count info) +:+ ">")%string.

Definition wf (m : t) : Prop :=
  in_range 2 (access_flags m) /\ in_range 2 (name_index m) /\
  in_range 2 (descriptor_index m) /\ in_range 2 (attributes_count m) /\
  Z.of_nat (length (attributes m)) = attributes_count m /\
  Forall AttributeInfo.wf (attributes m).

Definition full (m : t) : Prop :=
  in_range 2 (access_flags m) /\ in_range 2 (name_index m) /\
  in_range 2 (descriptor_index m) /\ in_range 2 (attributes_count m) /\
  Z.of_nat (length (attributes m)) = attributes_count m /\
  Forall AttributeInfo.full (attributes m).

End MethodEntry.

#[export] Instance MethodEntry_eq_dec : EqDecision MethodEntry.t.
Proof. solve_decision. Defined.

#[export] Instance MethodEntry_Readable : Readable MethodEntry.t := MethodEntry.read.

#[export] Instance MethodEntry_wf_dec m : Decision (MethodEntry.wf m).
Proof. unfold MethodEntry.wf. apply _. Defined.

#[export] Instance MethodEntry_full_dec m : Decision (MethodEntry.full m).
Proof. unfold MethodEntry.full. apply _. Defined.

(** ** The readers are forward-only *)

#[export] Instance AttributeInfo_ReadableLaws : ReadableLaws AttributeInfo.t.
Proof.
  unfold ReadableLaws, read, AttributeInfo_Readable, AttributeInfo.read.
  keeps_reads.
Qed.

#[export] Instance FieldEntry_ReadableLaws : ReadableLaws FieldEntry.t.
Proof.
  unfold ReadableLaws, read, FieldEntry_Readable, FieldEntry.read.
  keeps_reads.
Qed.

#[export] Instance MethodEntry_ReadableLaws : ReadableLaws MethodEntry.t.
Proof.
  unfold ReadableLaws, read, MethodEntry_Readable, MethodEntry.read.
  keeps_reads.
Qed.

(** ** What the readers return is well formed *)

Lemma load4_range off buf : in_range 4 (swapEndianness 4 (load 4 off buf)).
Proof. apply swapEndianness_bound. Qed.

#[export] Hint Resolve load4_range : zera.

Lemma AttributeInfo_read_wf io a io' :
  AttributeInfo.read io = Ok a io' -> AttributeInfo.wf a.
Proof.
  unfold AttributeInfo.read. intros H. do 3 inv_bind H. inv H.
  repeat split; simpl; try apply swapEndianness_bound.
  match goal with H : stream_fill _ _ = Ok _ _ |- _ =>
    apply stream_fill_Ok in H as (_ & _ & _ & ? & _) end.
  pose proof (swapEndianness_bound 4 (load 4 0 a1)) as [? _]. lia.
Qed.

(** ** Records that were read whole *)

Lemma AttributeInfo_full_wf a : AttributeInfo.full a -> AttributeInfo.wf a.
Proof. unfold AttributeInfo.full, AttributeInfo.wf. intuition lia. Qed.

Lemma attributes_full_wf l : Forall AttributeInfo.full l -> Forall AttributeInfo.wf l.
Proof. intros H. eapply Forall_impl; [exact H | apply AttributeInfo_full_wf]. Qed.

Lemma FieldEntry_full_wf f : FieldEntry.full f -> FieldEntry.wf f.
Proof.
  unfold FieldEntry.full, FieldEntry.wf. intuition auto using attributes_full_wf.
Qed.

Lemma MethodEntry_full_wf m : MethodEntry.full m -> MethodEntry.wf m.
Proof.
  unfold MethodEntry.full, MethodEntry.wf. intuition auto using attributes_full_wf.
Qed.

(** A read that left something in the stream was not cut short. *)
Lemma AttributeInfo_read_full io a io' :
  AttributeInfo.read io = Ok a io' -> stream io' <> [] -> AttributeInfo.full a.
Proof.
  unfold AttributeInfo.read. intros H Hne. do 3 inv_bind H. inv H.
  repeat split; simpl; try apply swapEndianness_bound.
  match goal with H : stream_fill _ _ = Ok _ _ |- _ =>
    apply stream_fill_Ok in H as (_ & _ & _ & _ & [->|?]); [|done] end.
  pose proof (swapEndianness_bound 4 (load 4 0 a1)) as [? _]. lia.
Qed.

Lemma read_attributes_wf n io l io' :
  read_array (A := AttributeInfo.t) n io = Ok l io' ->
  length l = n /\ Forall AttributeInfo.wf l.
Proof.
  intros H. split; [by apply read_array_length in H|].
  eapply replicateM_Forall; [|exact H]. intros ???. apply AttributeInfo_read_wf.
Qed.

Lemma FieldEntry_read_wf io f io' :
  FieldEntry.read io = Ok f io' -> FieldEntry.wf f.
Proof.
  unfold FieldEntry.read. intros H. do 5 inv_bind H. inv H.
  match goal with H : read_array _ _ = Ok _ _ |- _ =>
    apply read_attributes_wf in H as [Hl Hf] end.
  repeat split; simpl; try apply swapEndianness_bound; [|done].
  pose proof (swapEndianness_bound 2 (load 2 0 a2)) as [? _]. lia.
Qed.

Lemma MethodEntry_read_wf io m io' :
  MethodEntry.read io = Ok m io' -> MethodEntry.wf m.
Proof.
  unfold MethodEntry.read. intros H. do 5 inv_bind H. inv H.
  match goal with H : read_array _ _ = Ok _ _ |- _ =>
    apply read_attributes_wf in H as [Hl Hf] end.
  repeat split; simpl; try apply swapEndianness_bound; [|done].
  pose proof (swapEndianness_bound 2 (load 2 0 a2)) as [? _]. lia.
Qed.

Lemma read_fields_wf n io l io' :
  read_array (A := FieldEntry.t) n io = Ok l io' ->
  length l = n /\ Forall FieldEntry.wf l.
Proof.
  intros H. split; [by apply read_array_length in H|].
  eapply replicateM_Forall; [|exact H]. intros ???. apply FieldEntry_read_wf.
Qed.

Lemma read_methods_wf n io l io' :
  read_array (A := MethodEntry.t) n io = Ok l io' ->
  length l = n /\ Forall MethodEntry.wf l.
Proof.
  intros H. split; [by apply read_array_length in H|].
  eapply replicateM_Forall; [|exact H]. intros ???. apply MethodEntry_read_wf.
Qed.
