(* ===== verification/ClassFile.v ===== *)
(** * ClassFile: the class file and its constructor (main.cpp 29-34, 302-412)

    [JavaClassFile.new] is the constructor: one forward pass over the
    stream.  Members that the C++ leaves unset on the early return (a
    wrong magic number) are [None]: the array pointers are [nullptr],
    [header2] is indeterminate.  The test [if (!stream)] of the source
    compares the pointer returned by [new], which is never null, so that
    branch is dead and has no counterpart here; a file that cannot be
    opened is an empty stream.  The member [filename] (main.cpp 394) is
    never assigned and never read (line 320 prints the parameter of the
    constructor), so the record has no field for it.

    The constructor never tests the stream.  Where the file ends inside
    a header or a record, the next statement reads what was never
    written ([stream_read]).  Where it ends after [header2], the three
    counts keep the zeros of their initialisers ([read_u16_over 0]), an
    element of [interfaces] stays unwritten ([None]: nothing reads it
    afterwards), the constructor goes on to its end and sets [ok].
    [JavaClassFile.get_method] is the linear search for a method by
    name. *)

From Stdlib Require Import ZArith List String Ascii Lia.
From stdpp Require Import base tactics option list strings.
From coqutil Require Import Byte Word.LittleEndianList.
From S2P Require Import Prelude ByteCodec Stream ConstantPool Records.

#[local] Open Scope Z_scope.
#[local] Open Scope m_scope.

(** [struct JavaClassHeader2] (packed, 8 bytes). *)
Record JavaClassHeader2 : Type := mkHeader2 {
  access_flags : Z;
  this_class : Z;
  super_class : Z;
  interfaces_count : Z;
}.

#[export] Instance JavaClassHeader1_eq_dec : EqDecision JavaClassHeader1.
Proof. solve_decision. Defined.

#[export] Instance JavaClassHeader2_eq_dec : EqDecision JavaClassHeader2.
Proof. solve_decision. Defined.

Definition JAVA_MAGIC : Z := 0xCAFEBABE.

Module JavaClassFile.

Record t : Type := mk {
  ok : bool;
  header1 : JavaClassHeader1;
  header2 : option JavaClassHeader2;
  const_pool : option ConstantPool;
  interfaces : option (list (option Z));
  fields_count : Z;
  fields : option (list FieldEntry.t);
  methods_count : Z;
  methods : option (list MethodEntry.t);
  attributes_count : Z;
  attributes : option (list AttributeInfo.t);
}.

(** The members as their default initialisers leave them. *)
Definition initial (header1 : JavaClassHeader1) : t :=
  mk false header1 None None None 0 None 0 None 0 None.

(** [stream->read((char* )&(interfaces[i]), 2)]: read and not swapped.
    The element comes from [new uint16_t[n]]; a read that does not fill
    it leaves it without a value. *)
Definition read_interface : M IO (option Z) :=
  bs <- stream_fill 2 ;;
  ret (if decide (length bs = 2%nat) then Some (load 2 0 bs) else None).

Definition not_a_class_message (filename : string) : string :=
  (filename +:+ ": not a Java Class file!")%string.

(** The constructor after the magic number was accepted (main.cpp 324-365). *)
Definition new_body (header1 : JavaClassHeader1) : M IO t :=
  const_pool <- ConstantPool_new header1 ;;
  buf <- stream_read 8 ;;
  let header2 :=
    mkHeader2 (swapEndianness 2 (load 2 0 buf)) (swapEndianness 2 (load 2 2 buf))
              (swapEndianness 2 (load 2 4 buf)) (swapEndianness 2 (load 2 6 buf)) in
  interfaces <-
    (if negb (interfaces_count header2 =? 0)
     then l <- replicateM (Z.to_nat (interfaces_count header2)) read_interface ;;
          ret (Some l)
     else ret None) ;;
  fields_count <- read_u16_over (fields_count (initial header1)) ;;
  fields <- read_array (Z.to_nat fields_count) ;;
  methods_count <- read_u16_over (methods_count (initial header1)) ;;
  methods <- read_array (Z.to_nat methods_count) ;;
  attributes_count <- read_u16_over (attributes_count (initial header1)) ;;
  attributes <- read_array (Z.to_nat attributes_count) ;;
  ret (mk true header1 (Some header2) (Some const_pool) interfaces
          fields_count (Some fields) methods_count (Some methods)
          attributes_count (Some attributes)).

(** [JavaClassFile::JavaClassFile(filename)] *)
Definition new (filename : string) : M IO t :=
  buf <- stream_read 10 ;;
  let header1 :=
    mkHeader1 (swapEndianness 4 (load 4 0 buf)) (swapEndianness 2 (load 2 4 buf))
              (swapEndianness 2 (load 2 6 buf)) (swapEndianness 2 (load 2 8 buf)) in
  if negb (magic header1 =? JAVA_MAGIC) then
    print_cout (not_a_class_message filename) ;;
    ret (initial header1)
  else new_body header1.

(** The loop of [get_method], from index [i], with [n] iterations left. *)
Fixpoint get_method_loop {S} (klass : t) (name : string) (n i : nat)
    : M S (option nat) :=
  match n with
  | O => ret None
  | Datatypes.S n' =>
      ms <- or_ub NullPointer (methods klass) ;;
      m <- or_ub (ArrayIndex i) (ms !! i) ;;
      p <- or_ub NullPointer (const_pool klass) ;;
      mname <- pool_utf8 p (MethodEntry.name_index m) ;;
      if String.eqb mname name then ret (Some i)
      else get_method_loop klass name n' (Datatypes.S i)
  end.

(** [JavaClassFile::get_method(name)]: [Some i] is [&methods[i]]. *)
Definition get_method {S} (klass : t) (name : string) : M S (option nat) :=
  get_method_loop klass name (Z.to_nat (methods_count klass)) 0.

(** The invariant of a class file. *)
Definition wf (k : t) : Prop :=
  if ok k then
    magic (header1 k) = JAVA_MAGIC /\
    (exists p, const_pool k = Some p /\ pool_wf p /\
       Z.of_nat (length (entries p)) = constantPoolCount (header1 k) - 1) /\
    (exists h, header2 k = Some h /\
       match interfaces k with
       | Some l => Z.of_nat (length l) = interfaces_count h /\ interfaces_count h <> 0
       | None => interfaces_count h = 0
       end) /\
    (exists l, fields k = Some l /\ Z.of_nat (length l) = fields_count k /\
       Forall FieldEntry.wf l) /\
    (exists l, methods k = Some l /\ Z.of_nat (length l) = methods_count k /\
       Forall MethodEntry.wf l) /\
    (exists l, attributes k = Some l /\ Z.of_nat (length l) = attributes_count k /\
       Forall AttributeInfo.wf l)
  else
    k = initial (header1 k) /\ magic (header1 k) <> JAVA_MAGIC.

End JavaClassFile.

#[export] Instance JavaClassFile_eq_dec : EqDecision JavaClassFile.t.
Proof. solve_decision. Defined.

(** ** The constructor is forward-only *)

Lemma keeps_read_interface : keeps reads JavaClassFile.read_interface.
Proof. unfold JavaClassFile.read_interface. keeps_reads. Qed.

#[export] Hint Resolve keeps_read_interface : zera.

Lemma new_body_reads header1 : keeps reads (JavaClassFile.new_body header1).
Proof. unfold JavaClassFile.new_body. keeps_reads. Qed.

#[export] Hint Resolve new_body_reads : zera.

(** The constructor reads the stream strictly forward: what is left
    of it afterwards is a suffix of what was there, and [cout] and [cerr]
    have only grown. *)
Theorem JavaClassFile_new_progress filename :
  keeps progress (JavaClassFile.new filename).
Proof. unfold JavaClassFile.new. keeps_progress. Qed.

(** ** A wrong magic number *)

(** The header as the constructor decodes it from its ten bytes. *)
Definition header1_of (hdr : list byte) : JavaClassHeader1 :=
  mkHeader1 (be_combine (take 4 hdr)) (be_combine (take 2 (drop 4 hdr)))
            (be_combine (take 2 (drop 6 hdr))) (be_combine (take 2 (drop 8 hdr))).

Lemma new_header1 hdr :
  length hdr = 10%nat ->
  mkHeader1 (swapEndianness 4 (load 4 0 hdr)) (swapEndianness 2 (load 2 4 hdr))
            (swapEndianness 2 (load 2 6 hdr)) (swapEndianness 2 (load 2 8 hdr))
  = header1_of hdr.
Proof.
  intros H. unfold header1_of. rewrite !load_be by lia. by rewrite drop_0.
Qed.

(** C17: with a magic number other than [0xCAFEBABE] the constructor reads the
    ten bytes of the first header and nothing else, writes one line to
    [cout] and returns an object with [ok = false] and every other member
    at its default. *)
Theorem new_bad_magic filename hdr rest co ce :
  length hdr = 10%nat ->
  magic (header1_of hdr) <> JAVA_MAGIC ->
  JavaClassFile.new filename (mkIO (hdr ++ rest) co ce) =
  Ok (JavaClassFile.initial (header1_of hdr))
     (mkIO rest (co ++ [JavaClassFile.not_a_class_message filename]) ce).
Proof.
  intros Hlen Hm. unfold JavaClassFile.new. rewrite <- Hlen at 1.
  rewrite (bind_Ok _ _ _ _ _ (stream_read_app _ _ _ _)).
  rewrite new_header1 by done.
  by destruct (Z.eqb_spec (magic (header1_of hdr)) JAVA_MAGIC).
Qed.

(** ** The invariant *)

Lemma replicateM_read_interface_length n io l io' :
  replicateM n JavaClassFile.read_interface io = Ok l io' -> length l = n.
Proof. apply replicateM_length. Qed.

Lemma interfaces_wf (count : Z) io (o : option (list (option Z))) io' :
  0 <= count ->
  (if negb (count =? 0)
   then l <- replicateM (Z.to_nat count) JavaClassFile.read_interface ;; ret (Some l)
   else ret None) io = Ok o io' ->
  match o with
  | Some l => Z.of_nat (length l) = count /\ count <> 0
  | None => count = 0
  end.
Proof.
  intros Hc H. destruct (Z.eqb_spec count 0) as [E|E]; simpl in H.
  - by inv H.
  - inv_bind H. inv H. apply replicateM_length in Hm. split; [lia | done].
Qed.

Lemma new_body_wf header1 io k io' :
  magic header1 = JAVA_MAGIC ->
  JavaClassFile.new_body header1 io = Ok k io' -> JavaClassFile.wf k.
Proof.
  unfold JavaClassFile.new_body. intros Hmagic H. do 9 inv_bind H. inv H.
  unfold JavaClassFile.wf. cbn [JavaClassFile.ok].
  repeat match goal with
  | H : ConstantPool_new _ _ = Ok _ _ |- _ => apply ConstantPool_new_Ok in H as (? & ? & ?)
  | H : read_array (A := FieldEntry.t) _ _ = Ok _ _ |- _ => apply read_fields_wf in H as [? ?]
  | H : read_array (A := MethodEntry.t) _ _ = Ok _ _ |- _ => apply read_methods_wf in H as [? ?]
  | H : read_array (A := AttributeInfo.t) _ _ = Ok _ _ |- _ => apply read_attributes_wf in H as [? ?]
  | H : read_u16_over _ _ = Ok _ _ |- _ => apply read_u16_over_range in H as [? _]
  | H : (if negb _ then _ else _) _ = Ok _ _ |- _ =>
      apply interfaces_wf in H; [|apply swapEndianness_bound]
  end.
  split; [done|]. split; [eauto|]. split; [eauto|].
  repeat split; eexists; (split; [done|]); simpl; (split; [lia | done]).
Qed.

(** Whatever the constructor returns satisfies the invariant. *)
Lemma new_wf filename io k io' :
  JavaClassFile.new filename io = Ok k io' -> JavaClassFile.wf k.
Proof.
  unfold JavaClassFile.new. intros H. inv_bind H.
  match type of H with context [Z.eqb ?a ?b] => destruct (Z.eqb_spec a b) as [Hmagic|Hmagic] end;
    cbn [negb] in H.
  - by eapply new_body_wf.
  - inv_bind H. inv H. unfold JavaClassFile.wf. by cbn.
Qed.

(** [ok] is set exactly when the magic number was right. *)
Theorem new_ok_magic filename io k io' :
  JavaClassFile.new filename io = Ok k io' ->
  JavaClassFile.ok k = true <-> magic (JavaClassFile.header1 k) = JAVA_MAGIC.
Proof.
  intros H%new_wf. unfold JavaClassFile.wf in H.
  destruct (JavaClassFile.ok k); [destruct H as [H _]; by split|].
  destruct H as [_ H]. split; [done | by intros ?].
Qed.

(** ** Interface indices are stored unswapped *)

(** C39: an interface index the stream holds in full is stored as the
    host reads its two bytes, without the swap every other field gets: the
    element is written, and its value is the byte swap of the index in the
    file. *)
Theorem read_interface_le bs rest co ce :
  length bs = 2%nat ->
  JavaClassFile.read_interface (mkIO (bs ++ rest) co ce) =
  Ok (Some (swapEndianness 2 (be_combine bs))) (mkIO rest co ce).
Proof.
  intros H. unfold JavaClassFile.read_interface. rewrite <- H at 1.
  rewrite (bind_Ok _ _ _ _ _ (stream_fill_app _ _ _ _)). unfold ret.
  rewrite decide_True by done. do 2 f_equal.
  rewrite <- H at 1. rewrite load_all, <- H, <- swapEndianness_wire.
  rewrite swapEndianness_cancel; [done|]. apply le_combine_bound.
Qed.

(** At the end of the file the element stays as [new] left it. *)
Lemma read_interface_end co ce :
  JavaClassFile.read_interface (mkIO [] co ce) = Ok None (mkIO [] co ce).
Proof.
  unfold JavaClassFile.read_interface.
  by rewrite (bind_Ok _ _ _ _ _ (stream_fill_end 2 co ce)).
Qed.

(** ** What the constructor promises *)

(** C16: whatever the constructor returns satisfies the invariant of the
    class file: with [ok] set, the pool and the three arrays are allocated,
    each array as long as its count field says and every record in it well
    formed (an entry of the pool holds the member of its tag, the bytes of
    an attribute are a beginning of a buffer of [attribute_length] bytes);
    without, every member is at its default. *)
Theorem JavaClassFile_new_wf filename io k io' :
  JavaClassFile.new filename io = Ok k io' -> JavaClassFile.wf k.
Proof. apply new_wf. Qed.

(** ** The theorems on the smallest class file *)

(** Magic, version 52.0, an empty pool, no interfaces, fields, methods or
    attributes. *)
Definition empty_class : list byte :=
  [Byte.xca; Byte.xfe; Byte.xba; Byte.xbe; Byte.x00; Byte.x00; Byte.x00; Byte.x34;
   Byte.x00; Byte.x01] ++ repeat Byte.x00 14.

Definition empty_class_file : JavaClassFile.t :=
  JavaClassFile.mk true (mkHeader1 JAVA_MAGIC 0 52 1) (Some (mkHeader2 0 0 0 0))
    (Some (mkPool [])) None 0 (Some []) 0 (Some []) 0 (Some []).

Lemma empty_class_parses :
  JavaClassFile.new "Empty.class" (mkIO empty_class [] []) =
  Ok empty_class_file (mkIO [] [] []).
Proof. by vm_compute. Qed.

Lemma new_bad_magic_witness :
  JavaClassFile.new "Empty.class" (mkIO (repeat Byte.x00 10 ++ [Byte.x01]) [] []) =
  Ok (JavaClassFile.initial (mkHeader1 0 0 0 0))
     (mkIO [Byte.x01] ["Empty.class: not a Java Class file!"] []).
Proof.
  apply (new_bad_magic "Empty.class" (repeat Byte.x00 10) [Byte.x01] [] []);
    by vm_compute.
Defined.

Lemma new_ok_magic_witness :
  JavaClassFile.ok empty_class_file = true <->
  magic (JavaClassFile.header1 empty_class_file) = JAVA_MAGIC.
Proof.
  apply (new_ok_magic "Empty.class" (mkIO empty_class [] []) empty_class_file
           (mkIO [] [] [])).
  by vm_compute.
Defined.

Lemma JavaClassFile_new_wf_witness : JavaClassFile.wf empty_class_file.
Proof.
  apply (JavaClassFile_new_wf "Empty.class" (mkIO empty_class [] []) empty_class_file
           (mkIO [] [] [])).
  by vm_compute.
Defined.

Lemma read_interface_le_witness :
  JavaClassFile.read_interface (mkIO [Byte.x00; Byte.x05; Byte.x07] [] []) =
  Ok (Some 0x0500) (mkIO [Byte.x07] [] []).
Proof.
  apply (read_interface_le [Byte.x00; Byte.x05] [Byte.x07] [] []). by vm_compute.
Defined.
