(* ===== verification/ParserFaults.v ===== *)
(** * ParserFaults: the ways the parser can end

    The constructor of [JavaClassFile] and everything it calls can stop
    the process in three ways and no other: [exit(1)] on a constant pool
    tag that [ConstantPoolEntry::read] does not decode, the exception of
    [new ConstantPoolEntry[-1]] on a pool count of zero, and a read past
    the end of the file whose destination is then used unwritten.  In
    particular no index is out of range and no union member is misread
    while a file is parsed.  The reads whose destination is not used,
    or holds a value already, end in no fault at all. *)

From Stdlib Require Import ZArith List String Ascii Lia.
From stdpp Require Import base tactics option list strings.
From coqutil Require Import Byte Word.LittleEndianList.
From S2P Require Import Prelude ByteCodec Stream ConstantPool Records ClassFile.

#[local] Open Scope Z_scope.
#[local] Open Scope m_scope.

(** The faults of the parser. *)
Definition parser_fault (f : fault) : Prop :=
  f = Exit 1 \/ f = Terminate \/ f = Undefined UninitializedRead.

#[export] Instance parser_fault_dec f : Decision (parser_fault f).
Proof. unfold parser_fault. apply _. Defined.

(** The one fault of a reader of fixed-size fields. *)
Definition short_read (f : fault) : Prop := f = Undefined UninitializedRead.

Lemma short_read_parser f : short_read f -> parser_fault f.
Proof. intros ->. right. by right. Qed.

Lemma faults_in_weaken {S A} (P Q : fault -> Prop) (m : M S A) :
  (forall f, P f -> Q f) -> faults_in P m -> faults_in Q m.
Proof. intros HPQ Hm s f s' H. eapply HPQ, Hm, H. Qed.

Lemma faults_in_replicateM {S A} P (m : M S A) n :
  faults_in P m -> faults_in P (replicateM n m).
Proof.
  intros Hm. induction n as [|n IH]; simpl; [apply faults_in_ret|].
  apply faults_in_bind; [done|]. intros a.
  apply faults_in_bind; [done|]. intros l. apply faults_in_ret.
Qed.

Lemma stream_read_faults n : faults_in short_read (stream_read n).
Proof. intros io f io'. unfold stream_read. case_decide; [done|]. by intros [= <- _]. Qed.

(** The read itself ends in no fault. *)
Lemma stream_fill_faults P n : faults_in P (stream_fill n).
Proof. by intros io f io'. Qed.

#[export] Hint Resolve stream_read_faults stream_fill_faults : zera.

(** Prove [faults_in P m] for a reader [m], [P] being [short_read] or
    [parser_fault]. *)
Ltac reader_faults :=
  repeat first
    [ solve [ eauto with zera ]
    | apply (faults_in_weaken short_read parser_fault _ short_read_parser);
      solve [ eauto with zera ]
    | apply faults_in_replicateM
    | apply faults_in_bind; [| intros ]
    | apply faults_in_ret
    | apply faults_in_modify
    | apply faults_in_fail; solve [ unfold parser_fault, short_read; auto ]
    | apply faults_in_or_ub; solve [ unfold parser_fault, short_read; auto ]
    | match goal with |- faults_in _ (if ?x then _ else _) => destruct x end
    | match goal with |- faults_in _ (match ?x with _ => _ end) => destruct x end ].

Lemma read_u8_faults : faults_in short_read read_u8.
Proof. unfold read_u8. reader_faults. Qed.

Lemma read_u16_faults : faults_in short_read read_u16.
Proof. unfold read_u16. reader_faults. Qed.

Lemma read_u32_faults : faults_in short_read read_u32.
Proof. unfold read_u32. reader_faults. Qed.

Lemma read_u16_over_faults P old : faults_in P (read_u16_over old).
Proof. unfold read_u16_over. reader_faults. Qed.

Lemma read_char_faults P tmp : faults_in P (read_char tmp).
Proof. unfold read_char. reader_faults. Qed.

#[export] Hint Resolve read_u8_faults read_u16_faults read_u32_faults
  read_u16_over_faults read_char_faults : zera.

Lemma read_chars_faults n tmp acc : faults_in short_read (read_chars n tmp acc).
Proof.
  revert tmp acc. induction n as [|n IH]; intros tmp acc; simpl; reader_faults.
Qed.

#[export] Hint Resolve read_chars_faults : zera.

Lemma ConstantPoolEntry_read_faults : faults_in parser_fault ConstantPoolEntry_read.
Proof. unfold ConstantPoolEntry_read, print_cerr. reader_faults. Qed.

Lemma AttributeInfo_read_faults : faults_in short_read AttributeInfo.read.
Proof. unfold AttributeInfo.read. reader_faults. Qed.

#[export] Hint Resolve ConstantPoolEntry_read_faults AttributeInfo_read_faults : zera.

Lemma FieldEntry_read_faults : faults_in short_read FieldEntry.read.
Proof. unfold FieldEntry.read, read_array, read, AttributeInfo_Readable. reader_faults. Qed.

Lemma MethodEntry_read_faults : faults_in short_read MethodEntry.read.
Proof. unfold MethodEntry.read, read_array, read, AttributeInfo_Readable. reader_faults. Qed.

Lemma ConstantPool_new_faults header : faults_in parser_fault (ConstantPool_new header).
Proof.
  unfold ConstantPool_new, read_array, read, ConstantPoolEntry_Readable. reader_faults.
Qed.

Lemma read_interface_faults P : faults_in P JavaClassFile.read_interface.
Proof. unfold JavaClassFile.read_interface. reader_faults. Qed.

#[export] Hint Resolve FieldEntry_read_faults MethodEntry_read_faults
  ConstantPool_new_faults read_interface_faults : zera.

Lemma new_body_faults header1 : faults_in parser_fault (JavaClassFile.new_body header1).
Proof.
  unfold JavaClassFile.new_body, read_array, read, FieldEntry_Readable,
    MethodEntry_Readable, AttributeInfo_Readable.
  reader_faults.
Qed.

#[export] Hint Resolve new_body_faults : zera.

Lemma new_faults filename : faults_in parser_fault (JavaClassFile.new filename).
Proof. unfold JavaClassFile.new, print_cout. reader_faults. Qed.

(** ** What the parser promises *)

(** C28: the constructor ends the process in three ways only: [exit(1)]
    on an unknown constant pool tag, the exception of the allocation on a
    pool count of zero, and the use of a variable that a read past the end
    of the file left unwritten.  It never indexes out of range and never
    reads a union member other than the one it wrote. *)
Theorem JavaClassFile_new_faults filename :
  faults_in parser_fault (JavaClassFile.new filename).
Proof. apply new_faults. Qed.

(** The only fault of [MethodEntry::read], as of the readers of the other
    records of fixed layout, is the read past the end of the file. *)
Theorem MethodEntry_read_short : faults_in short_read MethodEntry.read.
Proof. apply MethodEntry_read_faults. Qed.
