(* ===== verification/Encode.v ===== *)
(** * Encode: the wire format, as a serializer

    The source has no writer; the functions here follow section 6 of the
    specification (every multi-byte integer most significant byte first,
    the sections in the order the constructor reads them).  They serve two
    purposes: the round-trip theorems of [Roundtrip] state that the readers decode
    exactly this format, and the examples build their class files with
    them.  [Writable] is the writing half of the interface whose reading
    half is [Stream.Readable]; [Codec] is the law that relates the two. *)

From Stdlib Require Import ZArith List String Ascii Lia.
From stdpp Require Import base tactics option list strings.
From coqutil Require Import Byte Word.LittleEndianList.
From S2P Require Import Prelude ByteCodec Stream ConstantPool Records ClassFile.

#[local] Open Scope Z_scope.
#[local] Open Scope m_scope.

(** ** Writers *)

(** A [w]-byte unsigned integer, most significant byte first. *)
Definition write_be (w : nat) (v : Z) : list byte := rev (le_split w v).

Definition write_u8 (v : Z) : list byte := write_be 1 v.
Definition write_u16 (v : Z) : list byte := write_be 2 v.
Definition write_u32 (v : Z) : list byte := write_be 4 v.

Definition bytes_of_string (s : string) : list byte :=
  byte_of_ascii <$> list_ascii_of_string s.

Class Writable (A : Type) : Type := write : A -> list byte.
#[global] Hint Mode Writable ! : typeclass_instances.

(** The law of a reader and a writer of the same type: on the values the
    predicate [wf] admits, reading what was written gives the value back
    and leaves exactly the bytes that followed it. *)
Class Codec (A : Type) `{Readable A, Writable A} (wf : A -> Prop) : Prop :=
  read_write : forall (a : A) (rest : list byte) (co ce : list string),
    wf a -> read (mkIO (write a ++ rest) co ce) = Ok a (mkIO rest co ce).

Definition write_array {A} `{Writable A} (l : list A) : list byte :=
  concat (write <$> l).

Definition write_union (d : cp_union) : list byte :=
  match d with
  | U_Class i => write_u16 i
  | U_Reference c n => write_u16 c ++ write_u16 n
  | U_String i => write_u16 i
  | U_Numeric n => write_u32 n
  | U_LongNumeric lo hi => write_u32 hi ++ write_u32 lo
  | U_NameAndType n d => write_u16 n ++ write_u16 d
  | U_Utf8 len s => write_u16 len ++ bytes_of_string s
  end.

#[export] Instance ConstantPoolEntry_Writable : Writable ConstantPoolEntry :=
  fun e => write_u8 (tag e) ++ write_union (data e).

#[export] Instance AttributeInfo_Writable : Writable AttributeInfo.t :=
  fun a => write_u16 (AttributeInfo.attribute_name_index a) ++
           write_u32 (AttributeInfo.attribute_length a) ++ AttributeInfo.info a.

#[export] Instance FieldEntry_Writable : Writable FieldEntry.t :=
  fun f => write_u16 (FieldEntry.access_flags f) ++
           write_u16 (FieldEntry.name_index f) ++
           write_u16 (FieldEntry.descriptor_index f) ++
           write_u16 (FieldEntry.attributes_count f) ++
           write_array (FieldEntry.attributes f).

#[export] Instance MethodEntry_Writable : Writable MethodEntry.t :=
  fun m => write_u16 (MethodEntry.access_flags m) ++
           write_u16 (MethodEntry.name_index m) ++
           write_u16 (MethodEntry.descriptor_index m) ++
           write_u16 (MethodEntry.attributes_count m) ++
           write_array (MethodEntry.attributes m).

Definition write_header1 (h : JavaClassHeader1) : list byte :=
  write_u32 (magic h) ++ write_u16 (minor h) ++ write_u16 (major h) ++
  write_u16 (constantPoolCount h).

Definition write_header2 (h : JavaClassHeader2) : list byte :=
  write_u16 (access_flags h) ++ write_u16 (this_class h) ++
  write_u16 (super_class h) ++ write_u16 (interfaces_count h).

Definition default {A} (o : option (list A)) : list A :=
  match o with Some l => l | None => [] end.

(** An element of [interfaces]; one that holds no value is written as
    zero. *)
Definition write_interface (o : option Z) : list byte :=
  write_u16 (from_option id 0 o).

(** A whole class file.  Members that are absent contribute nothing. *)
Definition write_class (k : JavaClassFile.t) : list byte :=
  write_header1 (JavaClassFile.header1 k) ++
  write_array (default (entries <$> JavaClassFile.const_pool k)) ++
  from_option write_header2 [] (JavaClassFile.header2 k) ++
  concat (write_interface <$> default (JavaClassFile.interfaces k)) ++
  write_u16 (JavaClassFile.fields_count k) ++
  write_array (default (JavaClassFile.fields k)) ++
  write_u16 (JavaClassFile.methods_count k) ++
  write_array (default (JavaClassFile.methods k)) ++
  write_u16 (JavaClassFile.attributes_count k) ++
  write_array (default (JavaClassFile.attributes k)).

(** The payload of a Code attribute: the eight-byte header, the code, an
    empty exception table and no attributes. *)
Definition write_code (max_stack max_locals : Z) (code : list byte) : list byte :=
  write_u16 max_stack ++ write_u16 max_locals ++
  write_u32 (Z.of_nat (length code)) ++ code ++ write_u16 0 ++ write_u16 0.
