(* ===== verification/Executor.v ===== *)
(** * Executor: the bytecode interpreter (main.cpp 414-686)

    The state of the interpreter is [Machine]: the class file the
    executor's [klass] pointer refers to, the executor's [action_stack]
    and the process's [IO].  The class file is in the state because
    [get_code_attribute] writes to it: it views the first eight bytes of
    the Code attribute's buffer as a [struct CodeAttribute] and swaps the
    three fields in place, every time it is called.

    Pointers are indices: a [MethodEntry*] is [option nat] (an index into
    [methods], [None] for [nullptr]); a [CodeAttribute*] is a [BufPtr],
    the method and attribute whose [info] buffer it points into, and a
    [uint8_t*] into the code is a [BufPtr] with an offset.  Reads through
    them go to the current state of the buffer.

    [step] takes the recursive call [run] as a parameter; [run] ties the
    knot by recursion on the call depth it is given as fuel.  The [while]
    loop of [run] is [run_loop], by recursion on a bound that
    [run_loop_fuel] shows sufficient: the size of the code buffer. *)

From Stdlib Require Import ZArith List String Ascii HexString Lia.
From stdpp Require Import base tactics option list strings.
From coqutil Require Import Byte Word.LittleEndianList.
From S2P Require Import Prelude ByteCodec Stream ConstantPool Records ClassFile.

#[local] Open Scope Z_scope.
#[local] Open Scope m_scope.

(** ** Data *)

(** [struct CodeAttribute] (packed, 8 bytes): offsets 0, 2 and 4. *)
Record CodeAttribute : Type := mkCodeAttribute {
  max_stack : Z;
  max_locals : Z;
  code_length : Z;
}.

Definition sizeof_CodeAttribute : nat := 8.

(** [enum JavaOpCodes : uint8_t] *)
Inductive JavaOpCodes : Type :=
| GETSTATIC | SIPUSH | LDC | ILOAD_1 | INVOKEVIRTUAL | INVOKESTATIC | RETURN.

Definition opcode_value (o : JavaOpCodes) : Z :=
  match o with
  | GETSTATIC => 0xB2
  | SIPUSH => 0x11
  | LDC => 0x12
  | ILOAD_1 => 0x1b
  | INVOKEVIRTUAL => 0xB6
  | INVOKESTATIC => 0xB8
  | RETURN => 0xB1
  end.

(** [op == o] *)
Definition op_is (op : Z) (o : JavaOpCodes) : bool := Z.eqb op (opcode_value o).

(** [enum ActionID] *)
Inductive ActionID : Type := STATIC | CONSTANT.

(** [struct Action] and its three derived structs. *)
Inductive Action : Type :=
| StaticAction (id : ActionID) (class_name name : string)
| ConstantAction (id : ActionID) (entry : ConstantPoolEntry)
| ValueAction (id : ActionID) (entry : Z).

#[export] Instance JavaOpCodes_eq_dec : EqDecision JavaOpCodes.
Proof. solve_decision. Defined.

#[export] Instance ActionID_eq_dec : EqDecision ActionID.
Proof. solve_decision. Defined.

#[export] Instance Action_eq_dec : EqDecision Action.
Proof. solve_decision. Defined.

(** [class JavaExecutor] with the object its [klass] points to, and the
    process's channels. *)
Record Machine : Type := mkMachine {
  klass : JavaClassFile.t;
  action_stack : list Action;
  io : IO;
}.

#[export] Instance Machine_eq_dec : EqDecision Machine.
Proof. solve_decision. Defined.

(** A pointer into the [info] buffer of attribute [buf_attr] of method
    [buf_method], [buf_off] bytes from its start. *)
Record BufPtr : Type := mkBufPtr {
  buf_method : nat;
  buf_attr : nat;
  buf_off : nat;
}.

(** ** The store: attribute buffers of the class file *)

Definition method_at (k : JavaClassFile.t) (m : nat) : option MethodEntry.t :=
  JavaClassFile.methods k ≫= (.!! m).

Definition info_at (k : JavaClassFile.t) (m a : nat) : option (list byte) :=
  me ← method_at k m; at' ← MethodEntry.attributes me !! a; Some (AttributeInfo.info at').

Definition set_attr_info (buf : list byte) (a : AttributeInfo.t) : AttributeInfo.t :=
  AttributeInfo.mk (AttributeInfo.attribute_name_index a)
                   (AttributeInfo.attribute_length a) buf.

Definition set_method_info (a : nat) (buf : list byte) (me : MethodEntry.t)
    : MethodEntry.t :=
  MethodEntry.mk (MethodEntry.access_flags me) (MethodEntry.name_index me)
    (MethodEntry.descriptor_index me) (MethodEntry.attributes_count me)
    (alter (set_attr_info buf) a (MethodEntry.attributes me)).

Definition set_info (m a : nat) (buf : list byte) (k : JavaClassFile.t)
    : JavaClassFile.t :=
  JavaClassFile.mk (JavaClassFile.ok k) (JavaClassFile.header1 k)
    (JavaClassFile.header2 k) (JavaClassFile.const_pool k)
    (JavaClassFile.interfaces k) (JavaClassFile.fields_count k)
    (JavaClassFile.fields k) (JavaClassFile.methods_count k)
    (alter (set_method_info a buf) m <$> JavaClassFile.methods k)
    (JavaClassFile.attributes_count k) (JavaClassFile.attributes k).

(** Write the [w]-byte value [v] at offset [off] of a buffer. *)
Definition store (w off : nat) (v : Z) (buf : list byte) : list byte :=
  take off buf ++ le_split w v ++ drop (off + w) buf.

(** ** Primitive operations on the machine *)

(** [cout << line << endl] *)
Definition print (line : string) : M Machine unit :=
  modify (fun s => mkMachine (klass s) (action_stack s)
                     (mkIO (stream (io s)) (cout (io s) ++ [line]) (cerr (io s)))).

(** [action_stack.push(a)] *)
Definition push (a : Action) : M Machine unit :=
  modify (fun s => mkMachine (klass s) (a :: action_stack s) (io s)).

(** [action_stack.top()] *)
Definition top : M Machine Action :=
  s <- get ;; or_ub EmptyStack (head (action_stack s)).

(** [action_stack.pop()] *)
Definition pop : M Machine unit :=
  s <- get ;;
  match action_stack s with
  | [] => fail (Undefined EmptyStack)
  | _ :: rest => put (mkMachine (klass s) rest (io s))
  end.

(** [klass->const_pool], dereferenced. *)
Definition the_pool : M Machine ConstantPool :=
  s <- get ;; or_ub NullPointer (JavaClassFile.const_pool (klass s)).

(** The buffer a pointer points into, as it is now. *)
Definition buffer (p : BufPtr) : M Machine (list byte) :=
  s <- get ;; or_ub NullPointer (info_at (klass s) (buf_method p) (buf_attr p)).

(** [codeptr[cursor]] *)
Definition code_byte (codeptr : BufPtr) (cursor : nat) : M Machine Z :=
  buf <- buffer codeptr ;;
  b <- or_ub (CodeIndex cursor) (buf !! (buf_off codeptr + cursor)%nat) ;;
  ret (byte.unsigned b).

(** [swapEndianness( *((uint16_t* )(codeptr + cursor)))] *)
Definition code_u16 (codeptr : BufPtr) (cursor : nat) : M Machine Z :=
  b0 <- code_byte codeptr cursor ;;
  b1 <- code_byte codeptr (cursor + 1) ;;
  ret (swapEndianness 2 (le_combine [byte.of_Z b0; byte.of_Z b1])).

(** A field of the [CodeAttribute] a pointer refers to, as it is now. *)
Definition code_attribute (codeattr : BufPtr) : M Machine CodeAttribute :=
  buf <- buffer codeattr ;;
  if decide (sizeof_CodeAttribute <= length buf)%nat
  then ret (mkCodeAttribute (load 2 0 buf) (load 2 2 buf) (load 4 4 buf))
  else fail (Undefined AttributeHeader).

(** ** [JavaExecutor] *)

(** [JavaExecutor::get_method] *)
Definition get_method (method_name : string) : M Machine (option nat) :=
  s <- get ;; JavaClassFile.get_method (klass s) method_name.

(** [entry->get_attribute(klass->const_pool, "Code")] for a non-null [entry]. *)
Definition get_Code (m : nat) : M Machine (option nat) :=
  s <- get ;;
  me <- or_ub NullPointer (method_at (klass s) m) ;;
  MethodEntry.get_attribute me (JavaClassFile.const_pool (klass s)) "Code".

(** The three assignments [codeattr->f = swapEndianness(codeattr->f)]. *)
Definition swap_header (buf : list byte) : list byte :=
  let buf := store 2 0 (swapEndianness 2 (load 2 0 buf)) buf in
  let buf := store 2 2 (swapEndianness 2 (load 2 2 buf)) buf in
  store 4 4 (swapEndianness 4 (load 4 4 buf)) buf.

(** [JavaExecutor::get_code_attribute] *)
Definition get_code_attribute (entry : option nat) (method_name : string)
    : M Machine BufPtr :=
  match entry with
  | None =>
      print "Exception: Trying to get Code Attribute from nullptr method!" ;;
      print ("           Method name: " +:+ method_name) ;;
      fail (Exit 1)
  | Some m =>
      codeattr_raw <- get_Code m ;;
      a <- or_ub NullPointer codeattr_raw ;;
      let codeattr := mkBufPtr m a 0 in
      buf <- buffer codeattr ;;
      if decide (sizeof_CodeAttribute <= length buf)%nat then
        modify (fun s => mkMachine (set_info m a (swap_header buf) (klass s))
                           (action_stack s) (io s)) ;;
        ret codeattr
      else fail (Undefined AttributeHeader)
  end.

(** [JavaExecutor::get_code] *)
Definition get_code (method : option nat) : M Machine BufPtr :=
  m <- or_ub NullPointer method ;;
  codeattr_raw <- get_Code m ;;
  a <- or_ub NullPointer codeattr_raw ;;
  ret (mkBufPtr m a sizeof_CodeAttribute).

(** The six pool entries that GETSTATIC, INVOKEVIRTUAL and INVOKESTATIC
    fetch for the reference at [idx] (main.cpp 514-521, 563-570, 601-608). *)
Record Resolved : Type := mkResolved {
  r_entry : ConstantPoolEntry;
  r_class_index : ConstantPoolEntry;
  r_classname_index : ConstantPoolEntry;
  r_name_type_index : ConstantPoolEntry;
  r_name : ConstantPoolEntry;
  r_descriptor : ConstantPoolEntry;
}.

Definition resolve (idx : Z) : M Machine Resolved :=
  pool <- the_pool ;;
  entry <- pool_entry pool idx ;;
  ci <- member (Reference_class_index entry) ;;
  class_index <- pool_entry pool ci ;;
  ni <- member (Class_name_index class_index) ;;
  classname_index <- pool_entry pool ni ;;
  nti <- member (Reference_name_and_type_index entry) ;;
  name_type_index <- pool_entry pool nti ;;
  n <- member (NameAndType_name_idx name_type_index) ;;
  name <- pool_entry pool n ;;
  d <- member (NameAndType_descriptor_idx name_type_index) ;;
  descriptor <- pool_entry pool d ;;
  ret (mkResolved entry class_index classname_index name_type_index name descriptor).

(** [cout << label << entry << endl] *)
Definition print_entry (label : string) (e : ConstantPoolEntry) : M Machine unit :=
  text <- member (ConstantPoolEntry_show e) ;;
  print (label +:+ text).

(** The branches of [step] for the opcode [op] read at [cursor]
    (main.cpp 503-647): returns [cursor] as the branch leaves it. *)
Definition execute (run : string -> M Machine unit) (codeptr : BufPtr)
    (cursor : nat) (op : Z) : M Machine nat :=
  if op_is op GETSTATIC then
    let cursor := S cursor in
    idx <- code_u16 codeptr cursor ;;
    let cursor := S cursor in
    r <- resolve idx ;;
    class_name <- member (Utf8_bytes (r_classname_index r)) ;;
    name <- member (Utf8_bytes (r_name r)) ;;
    push (StaticAction STATIC class_name name) ;;
    ret cursor
  else if op_is op LDC then
    let cursor := S cursor in
    idx <- code_byte codeptr cursor ;;
    pool <- the_pool ;;
    entry <- pool_entry pool idx ;;
    push (ConstantAction CONSTANT entry) ;;
    ret cursor
  else if op_is op INVOKEVIRTUAL then
    let cursor := S cursor in
    idx <- code_u16 codeptr cursor ;;
    let cursor := S cursor in
    r <- resolve idx ;;
    class_name <- member (Utf8_bytes (r_classname_index r)) ;;
    (if String.eqb class_name "java/io/PrintStream" then
       name <- member (Utf8_bytes (r_name r)) ;;
       if String.eqb name "println" then
         action <- top ;;
         match action with
         | ConstantAction _ entry =>
             si <- member (String_string_index entry) ;;
             pool <- the_pool ;;
             text <- pool_utf8 pool si ;;
             print text ;;
             pop
         | _ => fail (Undefined BadCast)
         end
       else ret tt
     else ret tt) ;;
    ret cursor
  else if op_is op INVOKESTATIC then
    print "Invoke static!" ;;
    let cursor := S cursor in
    idx <- code_u16 codeptr cursor ;;
    let cursor := S cursor in
    r <- resolve idx ;;
    print_entry "Class: " (r_entry r) ;;
    print_entry "Class index: " (r_class_index r) ;;
    print_entry "Class name: " (r_classname_index r) ;;
    print_entry "Name and type: " (r_name_type_index r) ;;
    print_entry "|- Name: " (r_name r) ;;
    print_entry "|- Descriptor: " (r_descriptor r) ;;
    name <- member (Utf8_bytes (r_name r)) ;;
    run name ;;
    ret cursor
  else if op_is op SIPUSH then
    let cursor := S cursor in
    sh1 <- code_byte codeptr cursor ;;
    let cursor := S cursor in
    sh2 <- code_byte codeptr cursor ;;
    let num := Z.lor (Z.shiftl sh1 8) sh2 in
    print ("Number is: " +:+ dec num) ;;
    push (ValueAction CONSTANT num) ;;
    ret cursor
  else if op_is op ILOAD_1 then
    print "Iload 1!" ;;
    print "Need a local variable array!" ;;
    fail (Exit 1)
  else if op_is op RETURN then
    print "Return!" ;;
    ret cursor
  else
    print ("Unknown instruction: " +:+ HexString.of_Z op) ;;
    fail (Exit 1).

(** [JavaExecutor::step]: returns the new value of [cursor]. *)
Definition step (run : string -> M Machine unit) (codeptr : BufPtr) (cursor : nat)
    : M Machine nat :=
  op <- code_byte codeptr cursor ;;
  cursor <- execute run codeptr cursor op ;;
  ret (S cursor).

(** The [while] loop of [run], with [fuel] iterations allowed. *)
Fixpoint run_loop (fuel : nat) (run : string -> M Machine unit)
    (codeattr code : BufPtr) (cursor : nat) : M Machine unit :=
  match fuel with
  | O => fail LoopFuel
  | S fuel' =>
      ca <- code_attribute codeattr ;;
      if Z.of_nat cursor <? code_length ca then
        cursor <- step run code cursor ;;
        run_loop fuel' run codeattr code cursor
      else ret tt
  end.

(** [JavaExecutor::run], with calls nested at most [depth] deep. *)
Fixpoint run (depth : nat) (method_name : string) : M Machine unit :=
  match depth with
  | O => fail CallDepth
  | S depth' =>
      let cursor := O in
      method <- get_method method_name ;;
      codeattr <- get_code_attribute method method_name ;;
      ca <- code_attribute codeattr ;;
      print ("[" +:+ method_name +:+ "] Length of LVA: " +:+ dec (max_locals ca)) ;;
      code <- get_code method ;;
      buf <- buffer code ;;
      run_loop (S (length buf)) (run depth') codeattr code cursor
  end.

(** ** [main] *)

(** Run an interpreter operation on a fresh executor for [file]. *)
Definition with_executor {A} (file : JavaClassFile.t) (m : M Machine A) : M IO A :=
  fun i => match m (mkMachine file [] i) with
           | Ok a s => Ok a (io s)
           | Fault f s => Fault f (io s)
           end.

(** [main(argc, argv)]: returns the exit status. *)
Definition main (depth : nat) (argv : list string) : M IO Z :=
  if (Z.of_nat (length argv) <? 2) then
    print_cout "Too few arguments!" ;;
    ret 1
  else
    filename <- or_ub (ArrayIndex 1) (argv !! 1%nat) ;;
    file <- JavaClassFile.new filename ;;
    with_executor file (run depth "main") ;;
    ret 0.

#[global] Arguments store : simpl never.
#[global] Arguments swap_header : simpl never.

(** ** The header swap *)

Lemma le_split_swap bs :
  le_split (length bs) (swapEndianness (length bs) (le_combine bs)) = rev bs.
Proof.
  rewrite swapEndianness_le_combine. apply split_le_combine'. apply length_rev.
Qed.

Lemma le_split_swap2 a b :
  le_split 2 (swapEndianness 2 (le_combine [a; b])) = [b; a].
Proof. exact (le_split_swap [a; b]). Qed.

Lemma le_split_swap4 a b c d :
  le_split 4 (swapEndianness 4 (le_combine [a; b; c; d])) = [d; c; b; a].
Proof. exact (le_split_swap [a; b; c; d]). Qed.

(** A buffer of at least eight bytes, byte by byte. *)
Lemma header_bytes (buf : list byte) :
  (sizeof_CodeAttribute <= length buf)%nat ->
  exists b0 b1 b2 b3 b4 b5 b6 b7 rest,
    buf = b0 :: b1 :: b2 :: b3 :: b4 :: b5 :: b6 :: b7 :: rest.
Proof.
  unfold sizeof_CodeAttribute. intros H.
  destruct buf as [|b0 [|b1 [|b2 [|b3 [|b4 [|b5 [|b6 [|b7 rest]]]]]]]];
    simpl in H; try lia.
  by exists b0, b1, b2, b3, b4, b5, b6, b7, rest.
Qed.

(** [swap_header] reverses each of the three fields and nothing else. *)
Lemma swap_header_cons (b0 b1 b2 b3 b4 b5 b6 b7 : byte) (rest : list byte) :
  swap_header (b0 :: b1 :: b2 :: b3 :: b4 :: b5 :: b6 :: b7 :: rest) =
  b1 :: b0 :: b3 :: b2 :: b7 :: b6 :: b5 :: b4 :: rest.
Proof.
  change (swap_header _) with
    (le_split 2 (swapEndianness 2 (le_combine [b0; b1])) ++
     le_split 2 (swapEndianness 2 (le_combine [b2; b3])) ++
     le_split 4 (swapEndianness 4 (le_combine [b4; b5; b6; b7])) ++ rest).
  by rewrite !le_split_swap2, le_split_swap4.
Qed.

(** Destructure a buffer known to hold a header. *)
Ltac header_bytes H :=
  apply header_bytes in H as (? & ? & ? & ? & ? & ? & ? & ? & ? & ->).

Lemma swap_header_length buf :
  (sizeof_CodeAttribute <= length buf)%nat ->
  length (swap_header buf) = length buf.
Proof. intros H. header_bytes H. by rewrite swap_header_cons. Qed.

(** Swapping twice restores the buffer. *)
Lemma swap_header_involutive buf :
  (sizeof_CodeAttribute <= length buf)%nat ->
  swap_header (swap_header buf) = buf.
Proof. intros H. header_bytes H. by rewrite !swap_header_cons. Qed.

(** The bytes after the header, among them the code, are never written. *)
Lemma swap_header_drop buf :
  (sizeof_CodeAttribute <= length buf)%nat ->
  drop sizeof_CodeAttribute (swap_header buf) = drop sizeof_CodeAttribute buf.
Proof. intros H. header_bytes H. by rewrite swap_header_cons. Qed.

(** The view of a header: what [codeattr->f] reads from a buffer. *)
Definition view (buf : list byte) : CodeAttribute :=
  mkCodeAttribute (load 2 0 buf) (load 2 2 buf) (load 4 4 buf).

(** The header of a Code attribute as the class file format defines it. *)
Definition wire_view (buf : list byte) : CodeAttribute :=
  mkCodeAttribute (be_combine (take 2 buf)) (be_combine (take 2 (drop 2 buf)))
                  (be_combine (take 4 (drop 4 buf))).

(** After one swap the view is the header the file format means. *)
Lemma view_swap_header buf :
  (sizeof_CodeAttribute <= length buf)%nat ->
  view (swap_header buf) = wire_view buf.
Proof.
  intros H. header_bytes H. rewrite swap_header_cons.
  unfold view, wire_view, load. cbn [take drop firstn skipn].
  by rewrite !be_combine_rev.
Qed.

(** Without a swap, or after two, each field reads as the byte swap of
    what the file format means. *)
Lemma view_unswapped buf :
  (sizeof_CodeAttribute <= length buf)%nat ->
  view buf =
  mkCodeAttribute (swapEndianness 2 (max_stack (wire_view buf)))
                  (swapEndianness 2 (max_locals (wire_view buf)))
                  (swapEndianness 4 (code_length (wire_view buf))).
Proof.
  intros H. header_bytes H.
  unfold view, wire_view, load. cbn [take drop firstn skipn max_stack max_locals code_length].
  rewrite !be_combine_rev, <- !swapEndianness_le_combine. cbn [length].
  by rewrite !swapEndianness_cancel by apply le_combine_bound.
Qed.
