(* ===== verification/Roundtrip.v ===== *)
(** * Roundtrip: the readers decode the class file format

    [Encode] writes a class file the way section 6 of the specification
    lays it out.  This file proves that the readers of the program are
    inverse to those writers: each [read] method is a [Codec] for its
    record ([read] of what [write] wrote is the value, with exactly the
    bytes that followed left on the stream), the array loops lift a codec
    to arrays, and the constructor of [JavaClassFile] reads back a whole
    class, with one exception that the theorem states: the interface
    indices come back byte-swapped.  The files in question are those of
    the [encodable] classes: well formed, every integer within its
    field, and [whole], that is with every buffer as long as its length
    field says and every interface index present, as [write_class]
    cannot write a buffer that was never filled. *)

From Stdlib Require Import ZArith List String Ascii Lia.
From stdpp Require Import base tactics option list strings.
From coqutil Require Import Byte Word.LittleEndianList.
From S2P Require Import Prelude ByteCodec Stream ConstantPool Records ClassFile.
From S2P Require Import Encode.

#[local] Open Scope Z_scope.
#[local] Open Scope m_scope.

(** ** Integers *)

Lemma write_be_length w v : length (write_be w v) = w.
Proof. unfold write_be. by rewrite length_rev, length_le_split. Qed.

Lemma le_combine_split_small w v : in_range w v -> le_combine (le_split w v) = v.
Proof.
  intros H. rewrite le_combine_split. apply Z.mod_small.
  by replace (Z.of_nat w * 8) with (8 * Z.of_nat w) by lia.
Qed.

Lemma be_combine_write_be w v : in_range w v -> be_combine (write_be w v) = v.
Proof.
  intros H. unfold write_be.
  by rewrite be_combine_rev, rev_involutive, le_combine_split_small.
Qed.

(** A field written big-endian, read by the host and swapped. *)
Lemma load_write_be w v post :
  in_range w v -> swapEndianness w (load w 0 (write_be w v ++ post)) = v.
Proof.
  intros H. rewrite load_app_l by apply write_be_length.
  rewrite <- (write_be_length w v) at 1.
  by rewrite swapEndianness_wire, be_combine_write_be.
Qed.

(** The same field read without the swap. *)
Lemma load_write_be_raw w v post :
  load w 0 (write_be w v ++ post) = swapEndianness w v.
Proof.
  rewrite load_app_l by apply write_be_length. unfold write_be.
  by rewrite swapEndianness_rev.
Qed.

Lemma load_skip w off pre post :
  length pre = off -> load w off (pre ++ post) = load w 0 post.
Proof. intros <-. by rewrite load_drop, drop_app_length. Qed.

Lemma stream_read_exact n (bs rest : list byte) co ce :
  length bs = n -> stream_read n (mkIO (bs ++ rest) co ce) = Ok bs (mkIO rest co ce).
Proof. intros <-. apply stream_read_app. Qed.

Lemma stream_fill_exact n (bs rest : list byte) co ce :
  length bs = n -> stream_fill n (mkIO (bs ++ rest) co ce) = Ok bs (mkIO rest co ce).
Proof. intros <-. apply stream_fill_app. Qed.

Lemma read_u8_write v rest co ce :
  in_range 1 v -> read_u8 (mkIO (write_u8 v ++ rest) co ce) = Ok v (mkIO rest co ce).
Proof.
  intros H. unfold read_u8, write_u8.
  rewrite (bind_Ok _ _ _ _ _ (stream_read_exact 1 _ rest co ce (write_be_length 1 v))).
  unfold ret. f_equal. rewrite <- (app_nil_r (write_be 1 v)).
  rewrite load_write_be_raw. change (swapEndianness 1 v) with (le_combine (le_split 1 v)).
  by apply le_combine_split_small.
Qed.

Lemma read_u16_write v rest co ce :
  in_range 2 v -> read_u16 (mkIO (write_u16 v ++ rest) co ce) = Ok v (mkIO rest co ce).
Proof.
  intros H. unfold write_u16. rewrite read_u16_be by apply write_be_length.
  by rewrite be_combine_write_be.
Qed.

Lemma read_u16_over_write old v rest co ce :
  in_range 2 v ->
  read_u16_over old (mkIO (write_u16 v ++ rest) co ce) = Ok v (mkIO rest co ce).
Proof.
  intros H. unfold write_u16. rewrite read_u16_over_be by apply write_be_length.
  by rewrite be_combine_write_be.
Qed.

Lemma read_u32_write v rest co ce :
  in_range 4 v -> read_u32 (mkIO (write_u32 v ++ rest) co ce) = Ok v (mkIO rest co ce).
Proof.
  intros H. unfold write_u32. rewrite read_u32_be by apply write_be_length.
  by rewrite be_combine_write_be.
Qed.

(** ** Strings *)

Lemma bytes_of_string_length s : length (bytes_of_string s) = String.length s.
Proof.
  unfold bytes_of_string. rewrite length_fmap.
  induction s as [|a s IH]; simpl; [done | by f_equal].
Qed.

Lemma string_of_bytes_of_string s : string_of_bytes (bytes_of_string s) = s.
Proof.
  induction s as [|a s IH]; [done|].
  change (bytes_of_string (String a s)) with (byte_of_ascii a :: bytes_of_string s).
  by rewrite string_of_bytes_cons, ascii_of_byte_of_ascii, IH.
Qed.

Lemma read_chars_write s n rest co ce :
  String.length s = n ->
  read_chars n None EmptyString (mkIO (bytes_of_string s ++ rest) co ce) =
  Ok s (mkIO rest co ce).
Proof.
  intros <-. rewrite <- bytes_of_string_length, read_chars_app.
  by rewrite string_of_bytes_of_string, string_app_nil_l.
Qed.

(** ** Arrays *)

Section Arrays.
Context {A : Type} `{Codec A wf}.

Lemma read_array_write (l : list A) n rest co ce :
  Forall wf l -> length l = n ->
  read_array n (mkIO (write_array l ++ rest) co ce) = Ok l (mkIO rest co ce).
Proof.
  intros Hwf <-. unfold read_array, write_array.
  induction Hwf as [|a l Ha _ IH]; [done|].
  cbn [length replicateM fmap list_fmap concat]. rewrite <- app_assoc.
  rewrite (bind_Ok _ _ _ _ _ (read_write a _ co ce Ha)).
  by rewrite (bind_Ok _ _ _ _ _ IH).
Qed.

End Arrays.

(** ** Fields of a buffer *)

Lemma load_write_be_nil w v :
  in_range w v -> swapEndianness w (load w 0 (write_be w v)) = v.
Proof. intros H. rewrite <- (app_nil_r (write_be w v)). by apply load_write_be. Qed.

Lemma load_skip_field w off w' v post :
  (w' <= off)%nat -> load w off (write_be w' v ++ post) = load w (off - w') post.
Proof.
  intros H. rewrite (load_drop w off), (load_drop w (off - w')). f_equal.
  rewrite drop_app_ge by (rewrite write_be_length; lia).
  by rewrite write_be_length.
Qed.

(** Evaluate every field [swapEndianness w (load w off buf)] of a buffer
    that is a sequence of written integers. *)
Ltac fields :=
  unfold write_u8, write_u16, write_u32;
  repeat first
    [ rewrite load_write_be by done
    | rewrite load_write_be_nil by done
    | rewrite load_skip_field by (cbn; lia); cbn [Nat.sub] ].

(** Run a [stream.read] that takes exactly the next written integer. *)
Ltac take_field :=
  match goal with
  | |- context [bind (stream_read ?n) _ (mkIO (write_be ?w ?v ++ ?rest) ?co ?ce)] =>
      rewrite (bind_Ok _ _ _ _ _
                 (stream_read_exact n (write_be w v) rest co ce (write_be_length w v)))
  end.

(** Run a [stream.read] that takes the prefix [bs] of the stream. *)
Ltac take_bytes bs :=
  match goal with
  | |- context [bind (stream_read ?n) _ (mkIO (bs ++ ?rest) ?co ?ce)] =>
      rewrite (bind_Ok _ _ _ _ _ (stream_read_exact n bs rest co ce
                 ltac:(rewrite ?length_app, ?write_be_length; lia)))
  end.

(** Run the read of a literal tag byte. *)
Ltac take_tag :=
  match goal with
  | |- context [bind read_u8 _ (mkIO (write_u8 ?t ++ ?rest) ?co ?ce)] =>
      let H := fresh in
      assert (in_range 1 t) as H by (unfold in_range; simpl; lia);
      rewrite (bind_Ok _ _ _ _ _ (read_u8_write t rest co ce H)); clear H
  end.

(** Decide the tests [tag == X] for a literal tag. *)
Ltac decide_tags :=
  repeat match goal with
  | |- context [tag_is ?x ?t] =>
      let b := eval vm_compute in (tag_is x t) in change (tag_is x t) with b
  end;
  cbv iota.

(** ** The records *)

#[export] Instance ConstantPoolEntry_Codec : Codec ConstantPoolEntry entry_wf.
Proof.
  intros [t d] rest co ce Hwf.
  unfold read, write, ConstantPoolEntry_Readable, ConstantPoolEntry_Writable,
    ConstantPoolEntry_read, entry_wf in *.
  cbn [tag data] in *. rewrite <- app_assoc.
  destruct d; try done; cbn [write_union];
    repeat match goal with H : _ /\ _ |- _ => destruct H | H : _ \/ _ |- _ => destruct H end;
    subst t; take_tag; decide_tags; unfold write_u16.
  - take_field. unfold ret. by fields.
  - take_bytes (write_be 2 class_index ++ write_be 2 name_and_type_index).
    unfold ret. by fields.
  - take_bytes (write_be 2 class_index ++ write_be 2 name_and_type_index).
    unfold ret. by fields.
  - take_field. unfold ret. by fields.
  - take_bytes (write_be 2 name_idx ++ write_be 2 descriptor_idx).
    unfold ret. by fields.
  - rewrite <- app_assoc.
    rewrite (bind_Ok _ _ _ _ _ (read_u16_write _ _ co ce ltac:(done))).
    by rewrite (bind_Ok _ _ _ _ _ (read_chars_write _ _ _ co ce ltac:(done))).
Qed.

#[export] Instance AttributeInfo_Codec : Codec AttributeInfo.t AttributeInfo.full.
Proof.
  intros [ni len info] rest co ce (Hn & Hl & Hi).
  unfold read, write, AttributeInfo_Readable, AttributeInfo_Writable, AttributeInfo.read.
  cbn [AttributeInfo.attribute_name_index AttributeInfo.attribute_length
       AttributeInfo.info] in *.
  unfold write_u16, write_u32. rewrite <- !app_assoc. do 2 take_field.
  fields. rewrite (bind_Ok _ _ _ _ _ (stream_fill_exact (Z.to_nat len) info rest co ce ltac:(lia))).
  done.
Qed.

#[export] Instance FieldEntry_Codec : Codec FieldEntry.t FieldEntry.full.
Proof.
  intros [af ni di cnt attrs] rest co ce (? & ? & ? & ? & Hl & Hwf).
  unfold read, write, FieldEntry_Readable, FieldEntry_Writable, FieldEntry.read.
  cbn [FieldEntry.access_flags FieldEntry.name_index FieldEntry.descriptor_index
       FieldEntry.attributes_count FieldEntry.attributes] in *.
  unfold write_u16. rewrite <- !app_assoc. do 4 take_field. fields.
  by rewrite (bind_Ok _ _ _ _ _ (read_array_write attrs (Z.to_nat cnt) rest co ce Hwf ltac:(lia))).
Qed.

#[export] Instance MethodEntry_Codec : Codec MethodEntry.t MethodEntry.full.
Proof.
  intros [af ni di cnt attrs] rest co ce (? & ? & ? & ? & Hl & Hwf).
  unfold read, write, MethodEntry_Readable, MethodEntry_Writable, MethodEntry.read.
  cbn [MethodEntry.access_flags MethodEntry.name_index MethodEntry.descriptor_index
       MethodEntry.attributes_count MethodEntry.attributes] in *.
  unfold write_u16. rewrite <- !app_assoc. do 4 take_field. fields.
  by rewrite (bind_Ok _ _ _ _ _ (read_array_write attrs (Z.to_nat cnt) rest co ce Hwf ltac:(lia))).
Qed.

(** ** The parts of a class file *)

Definition header1_ranges (h : JavaClassHeader1) : Prop :=
  in_range 4 (magic h) /\ in_range 2 (minor h) /\ in_range 2 (major h) /\
  in_range 2 (constantPoolCount h).

Definition header2_ranges (h : JavaClassHeader2) : Prop :=
  in_range 2 (access_flags h) /\ in_range 2 (this_class h) /\
  in_range 2 (super_class h) /\ in_range 2 (interfaces_count h).

Lemma write_header1_length h : length (write_header1 h) = 10%nat.
Proof.
  unfold write_header1, write_u16, write_u32. by rewrite !length_app, !write_be_length.
Qed.

Lemma write_header2_length h : length (write_header2 h) = 8%nat.
Proof. unfold write_header2, write_u16. by rewrite !length_app, !write_be_length. Qed.

Lemma header1_fields h :
  header1_ranges h ->
  let buf := write_header1 h in
  mkHeader1 (swapEndianness 4 (load 4 0 buf)) (swapEndianness 2 (load 2 4 buf))
            (swapEndianness 2 (load 2 6 buf)) (swapEndianness 2 (load 2 8 buf)) = h.
Proof.
  intros (? & ? & ? & ?). destruct h. unfold write_header1. cbn in *. by fields.
Qed.

Lemma header2_fields h :
  header2_ranges h ->
  let buf := write_header2 h in
  mkHeader2 (swapEndianness 2 (load 2 0 buf)) (swapEndianness 2 (load 2 2 buf))
            (swapEndianness 2 (load 2 4 buf)) (swapEndianness 2 (load 2 6 buf)) = h.
Proof.
  intros (? & ? & ? & ?). destruct h. unfold write_header2. cbn in *. by fields.
Qed.

Lemma ConstantPool_new_write header pool rest co ce :
  pool_wf pool ->
  Z.of_nat (length (entries pool)) = constantPoolCount header - 1 ->
  ConstantPool_new header (mkIO (write_array (entries pool) ++ rest) co ce) =
  Ok pool (mkIO rest co ce).
Proof.
  intros Hwf Hlen. unfold ConstantPool_new.
  destruct (Z.ltb_spec (constantPoolCount header - 1) 0); [lia|].
  rewrite (bind_Ok _ _ _ _ _ (read_array_write (entries pool)
    (Z.to_nat (constantPoolCount header - 1)) rest co ce Hwf ltac:(lia))).
  by destruct pool.
Qed.

(** The indices of the interfaces come back as the host reads them. *)
(** An element of [interfaces] with its two bytes swapped. *)
Definition swap_index (o : option Z) : option Z :=
  fmap (M := option) (swapEndianness 2) o.

Lemma read_interface_write v rest co ce :
  JavaClassFile.read_interface (mkIO (write_u16 v ++ rest) co ce) =
  Ok (Some (swapEndianness 2 v)) (mkIO rest co ce).
Proof.
  unfold JavaClassFile.read_interface, write_u16.
  rewrite (bind_Ok _ _ _ _ _ (stream_fill_exact 2 _ rest co ce (write_be_length 2 v))).
  unfold ret. rewrite decide_True by apply write_be_length.
  rewrite <- (app_nil_r (write_be 2 v)). by rewrite load_write_be_raw.
Qed.

Lemma read_interfaces_write (l : list (option Z)) rest co ce :
  Forall is_Some l ->
  replicateM (length l) JavaClassFile.read_interface
    (mkIO (concat (write_interface <$> l) ++ rest) co ce) =
  Ok (swap_index <$> l) (mkIO rest co ce).
Proof.
  induction 1 as [|o l [v ->] _ IH]; [done|].
  cbn [length replicateM fmap list_fmap concat]. rewrite <- app_assoc.
  unfold write_interface at 1. cbn [from_option id].
  rewrite (bind_Ok _ _ _ _ _ (read_interface_write v _ co ce)).
  by rewrite (bind_Ok _ _ _ _ _ IH).
Qed.

(** ** The class file *)

(** A class no part of which was cut short by the end of a file: every
    interface index has a value and every buffer its full length. *)
Definition whole (k : JavaClassFile.t) : Prop :=
  Forall is_Some (default (JavaClassFile.interfaces k)) /\
  Forall FieldEntry.full (default (JavaClassFile.fields k)) /\
  Forall MethodEntry.full (default (JavaClassFile.methods k)) /\
  Forall AttributeInfo.full (default (JavaClassFile.attributes k)).

#[export] Instance whole_dec k : Decision (whole k).
Proof. unfold whole. apply _. Defined.

(** The class files [write_class] writes: those the constructor accepts,
    every integer within the width of its field and nothing cut short. *)
Definition encodable (k : JavaClassFile.t) : Prop :=
  JavaClassFile.ok k = true /\ JavaClassFile.wf k /\
  header1_ranges (JavaClassFile.header1 k) /\
  from_option header2_ranges True (JavaClassFile.header2 k) /\
  in_range 2 (JavaClassFile.fields_count k) /\
  in_range 2 (JavaClassFile.methods_count k) /\
  in_range 2 (JavaClassFile.attributes_count k) /\
  whole k.

(** The class as the constructor holds it: each interface index swapped. *)
Definition read_back (k : JavaClassFile.t) : JavaClassFile.t :=
  JavaClassFile.mk (JavaClassFile.ok k) (JavaClassFile.header1 k)
    (JavaClassFile.header2 k) (JavaClassFile.const_pool k)
    (fmap (M := list) swap_index <$> JavaClassFile.interfaces k)
    (JavaClassFile.fields_count k) (JavaClassFile.fields k)
    (JavaClassFile.methods_count k) (JavaClassFile.methods k)
    (JavaClassFile.attributes_count k) (JavaClassFile.attributes k).

Lemma interfaces_write (h : JavaClassHeader2) (o : option (list (option Z)))
    rest co ce :
  match o with
  | Some l => Z.of_nat (length l) = interfaces_count h /\ interfaces_count h <> 0
  | None => interfaces_count h = 0
  end ->
  Forall is_Some (default o) ->
  (if negb (interfaces_count h =? 0)
   then l <- replicateM (Z.to_nat (interfaces_count h)) JavaClassFile.read_interface ;;
        ret (Some l)
   else ret None)
    (mkIO (concat (write_interface <$> default o) ++ rest) co ce) =
  Ok (fmap (M := list) swap_index <$> o) (mkIO rest co ce).
Proof.
  destruct o as [l|]; cbn [default].
  - intros [Hl Hne] Hs. destruct (Z.eqb_spec (interfaces_count h) 0); [done|].
    cbn [negb]. replace (Z.to_nat (interfaces_count h)) with (length l) by lia.
    by rewrite (bind_Ok _ _ _ _ _ (read_interfaces_write l rest co ce Hs)).
  - by intros -> _.
Qed.

Lemma new_body_write h1 h2 pool ifs fc fs mc ms ac ats rest co ce :
  let k := JavaClassFile.mk true h1 (Some h2) (Some pool) ifs fc (Some fs)
                            mc (Some ms) ac (Some ats) in
  encodable k ->
  JavaClassFile.new_body h1
    (mkIO (write_array (entries pool) ++ write_header2 h2 ++
           concat (write_interface <$> default ifs) ++
           write_u16 fc ++ write_array fs ++ write_u16 mc ++ write_array ms ++
           write_u16 ac ++ write_array ats ++ rest) co ce) =
  Ok (read_back k) (mkIO rest co ce).
Proof.
  intros k (_ & Hwf & _ & Hh2 & Hfc & Hmc & Hac & Hi & Hfs & Hms & Hats).
  destruct Hwf as (_ & (? & [= <-] & Hp & Hpl) & (? & [= <-] & Hifs) &
    (? & [= <-] & Hfl & _) & (? & [= <-] & Hml & _) & (? & [= <-] & Hal & _)).
  cbn in Hh2, Hfc, Hmc, Hac, Hpl, Hfl, Hml, Hal, Hi, Hfs, Hms, Hats.
  unfold JavaClassFile.new_body.
  rewrite (bind_Ok _ _ _ _ _ (ConstantPool_new_write h1 pool _ co ce Hp Hpl)).
  rewrite (bind_Ok _ _ _ _ _ (stream_read_exact 8 _ _ co ce (write_header2_length h2))).
  cbv zeta. rewrite (header2_fields h2 Hh2).
  rewrite (bind_Ok _ _ _ _ _ (interfaces_write h2 ifs _ co ce Hifs Hi)).
  rewrite (bind_Ok _ _ _ _ _ (read_u16_over_write _ fc _ co ce Hfc)).
  rewrite (bind_Ok _ _ _ _ _ (read_array_write fs (Z.to_nat fc) _ co ce Hfs ltac:(lia))).
  rewrite (bind_Ok _ _ _ _ _ (read_u16_over_write _ mc _ co ce Hmc)).
  rewrite (bind_Ok _ _ _ _ _ (read_array_write ms (Z.to_nat mc) _ co ce Hms ltac:(lia))).
  rewrite (bind_Ok _ _ _ _ _ (read_u16_over_write _ ac _ co ce Hac)).
  by rewrite (bind_Ok _ _ _ _ _ (read_array_write ats (Z.to_nat ac) _ co ce Hats ltac:(lia))).
Qed.

Lemma encodable_shape k :
  encodable k ->
  exists h2 pool fs ms ats,
    k = JavaClassFile.mk true (JavaClassFile.header1 k) (Some h2) (Some pool)
          (JavaClassFile.interfaces k) (JavaClassFile.fields_count k) (Some fs)
          (JavaClassFile.methods_count k) (Some ms)
          (JavaClassFile.attributes_count k) (Some ats) /\
    magic (JavaClassFile.header1 k) = JAVA_MAGIC.
Proof.
  intros (Hok & Hwf & _). destruct k; cbn in *. subst. cbn in Hwf.
  destruct Hwf as (? & (? & -> & _) & (? & -> & _) & (? & -> & _) & (? & -> & _) &
    (? & -> & _)).
  eauto 10.
Qed.

Lemma class_read_back filename k rest co ce :
  encodable k ->
  JavaClassFile.new filename (mkIO (write_class k ++ rest) co ce) =
  Ok (read_back k) (mkIO rest co ce).
Proof.
  intros He. destruct (encodable_shape k He) as (h2 & pool & fs & ms & ats & Hk & Hm).
  pose proof He as (_ & _ & Hh1 & _). rewrite Hk in He |- *.
  set (h1 := JavaClassFile.header1 k) in *. clearbody h1. clear Hk.
  unfold write_class, JavaClassFile.new.
  cbn [JavaClassFile.header1 JavaClassFile.const_pool JavaClassFile.header2
       JavaClassFile.interfaces JavaClassFile.fields_count JavaClassFile.fields
       JavaClassFile.methods_count JavaClassFile.methods
       JavaClassFile.attributes_count JavaClassFile.attributes
       default from_option fmap option_fmap option_map].
  rewrite <- !app_assoc.
  rewrite (bind_Ok _ _ _ _ _ (stream_read_exact 10 _ _ co ce (write_header1_length h1))).
  cbv zeta. rewrite (header1_fields h1 Hh1), Hm, Z.eqb_refl. cbn [negb].
  by apply new_body_write.
Qed.

(** ** What the readers promise *)

(** C9: the constructor decodes the class file format: reading the file
    that [write_class] writes for an encodable class (well formed, whole,
    every field in the range of its width) gives that class back, consumes
    exactly the bytes of the file and prints nothing, except that each
    interface index comes back with its two bytes swapped. *)
Theorem class_round_trip filename k rest co ce :
  encodable k ->
  JavaClassFile.new filename (mkIO (write_class k ++ rest) co ce) =
  Ok (read_back k) (mkIO rest co ce).
Proof. apply class_read_back. Qed.

(** For a class that implements no interface the constructor is the
    exact inverse of the writer. *)
Theorem class_round_trip_exact filename k rest co ce :
  encodable k -> JavaClassFile.interfaces k = None ->
  JavaClassFile.new filename (mkIO (write_class k ++ rest) co ce) =
  Ok k (mkIO rest co ce).
Proof.
  intros He Hi. rewrite class_read_back by done. unfold read_back. rewrite Hi.
  destruct k; cbn in *. by subst.
Qed.

(** [ConstantPoolEntry::read] decodes what the format prescribes for
    an entry of each of its six tags and takes exactly its bytes. *)
Theorem entry_round_trip (e : ConstantPoolEntry) rest co ce :
  entry_wf e ->
  ConstantPoolEntry_read (mkIO (write e ++ rest) co ce) = Ok e (mkIO rest co ce).
Proof. apply (read_write (A := ConstantPoolEntry)). Qed.

(** [MethodEntry::read] decodes a method with its attributes, each
    attribute's payload as long as its length field says. *)
Theorem method_round_trip (m : MethodEntry.t) rest co ce :
  MethodEntry.full m ->
  MethodEntry.read (mkIO (write m ++ rest) co ce) = Ok m (mkIO rest co ce).
Proof. apply (read_write (A := MethodEntry.t)). Qed.

(** ** The theorems on two small classes *)

(** A class with one interface, index 5, one Utf8 constant and one method
    with one attribute of three bytes. *)
Definition small_class : JavaClassFile.t :=
  JavaClassFile.mk true (mkHeader1 JAVA_MAGIC 0 52 2) (Some (mkHeader2 1 0 0 1))
    (Some (mkPool [mkEntry 1 (U_Utf8 1 "A")])) (Some [Some 5]) 0 (Some [])
    1 (Some [MethodEntry.mk 9 1 1 1 [AttributeInfo.mk 1 3 [Byte.x2a; Byte.x2b; Byte.x2c]]])
    0 (Some []).

(** Prove [encodable] of a literal class. *)
Ltac solve_encodable :=
  unfold encodable, whole, JavaClassFile.wf, header1_ranges, header2_ranges,
    pool_wf, entry_wf, MethodEntry.wf, AttributeInfo.wf, MethodEntry.full,
    AttributeInfo.full, in_range;
  cbn;
  repeat first [ split | eexists | apply Forall_nil_2 | apply Forall_cons_2 | lia
               | done | left; reflexivity | right; reflexivity ].

Lemma small_class_encodable : encodable small_class.
Proof. solve_encodable. Qed.

Lemma empty_class_encodable : encodable empty_class_file.
Proof. solve_encodable. Qed.

Lemma class_round_trip_witness :
  JavaClassFile.new "A.class" (mkIO (write_class small_class ++ [Byte.xff]) [] []) =
  Ok (read_back small_class) (mkIO [Byte.xff] [] []).
Proof.
  apply (class_round_trip "A.class" small_class [Byte.xff] [] []).
  exact small_class_encodable.
Defined.

Lemma class_round_trip_exact_witness :
  JavaClassFile.new "Empty.class" (mkIO (write_class empty_class_file ++ []) [] []) =
  Ok empty_class_file (mkIO [] [] []).
Proof.
  apply (class_round_trip_exact "Empty.class" empty_class_file [] [] []);
    [exact empty_class_encodable | done].
Defined.

Lemma entry_round_trip_witness :
  ConstantPoolEntry_read
    (mkIO (write (mkEntry 12 (U_NameAndType 7 8)) ++ [Byte.x01]) [] []) =
  Ok (mkEntry 12 (U_NameAndType 7 8)) (mkIO [Byte.x01] [] []).
Proof.
  apply (entry_round_trip (mkEntry 12 (U_NameAndType 7 8)) [Byte.x01] [] []).
  by vm_compute.
Defined.

Lemma method_round_trip_witness :
  MethodEntry.read
    (mkIO (write (MethodEntry.mk 9 1 1 1 [AttributeInfo.mk 1 2 [Byte.x2a; Byte.xb1]])
           ++ []) [] []) =
  Ok (MethodEntry.mk 9 1 1 1 [AttributeInfo.mk 1 2 [Byte.x2a; Byte.xb1]]) (mkIO [] [] []).
Proof.
  apply (method_round_trip
           (MethodEntry.mk 9 1 1 1 [AttributeInfo.mk 1 2 [Byte.x2a; Byte.xb1]]) [] [] []).
  apply (bool_decide_unpack _). by vm_compute.
Defined.

(** The interface index 5 of [small_class] is read back as [0x0500]. *)
Lemma small_class_interfaces :
  JavaClassFile.interfaces (read_back small_class) = Some [Some 0x0500].
Proof. by vm_compute. Qed.
