(* ===== verification/Canonical.v ===== *)
(** * Canonical: what was read is what is written

    [Roundtrip] shows that the readers decode what the writers of [Encode]
    write.  This file shows the converse: the bytes a reader took from
    the stream are the encoding of the value it returned, unless the
    file ended first.  [took] is the relation between the stream before
    and after a read that found its bytes; [ran_out] is the same for a
    read that found the end of the file; [fed] is one or the other, and
    [Canonical] is the law of a reader and a writer of the same type,
    beside [Encode.Codec].  The array loops lift it, and the
    constructor of a class file satisfies it up to the byte order of
    the interface indices.

    The constructor does not test the stream, so it accepts files that
    are cut short after [header2] (see [Malformed]); a class it returns
    while bytes are left on the stream is [whole].  Together with
    [Roundtrip] this makes the constructor and the writer inverse to
    each other on the byte strings that are accepted whatever follows
    them: these are the encodings of the encodable classes, and each is
    the encoding of one class only. *)

From Stdlib Require Import ZArith List String Ascii Lia.
From stdpp Require Import base tactics option list strings.
From coqutil Require Import Byte Word.LittleEndianList.
From S2P Require Import Prelude ByteCodec Stream ConstantPool Records ClassFile.
From S2P Require Import Encode Roundtrip.

#[local] Open Scope Z_scope.
#[local] Open Scope m_scope.

(** ** The bytes an operation took *)

(** [took bs io io']: between [io] and [io'] the bytes [bs] were taken
    from the front of the stream, and nothing was printed. *)
Definition took (bs : list byte) (io io' : IO) : Prop :=
  stream io = bs ++ stream io' /\ cout io' = cout io /\ cerr io' = cerr io.

(** [ran_out bs io io']: the file ended before [bs] was complete: all
    that was left was taken, it was less than [bs], and nothing was
    printed. *)
Definition ran_out (bs : list byte) (io io' : IO) : Prop :=
  stream io' = [] /\ (length (stream io) < length bs)%nat /\
  cout io' = cout io /\ cerr io' = cerr io.

Definition fed (bs : list byte) (io io' : IO) : Prop :=
  took bs io io' \/ ran_out bs io io'.

(** The law of a reader and a writer of the same type, from the reader's
    side: what [read] took is what [write] writes for the value, or the
    file was shorter than that. *)
Class Canonical (A : Type) `{Readable A, Writable A} : Prop :=
  read_fed : forall io (a : A) io', read io = Ok a io' -> fed (write a) io io'.

Lemma took_nil io : took [] io io.
Proof. by repeat split. Qed.

Lemma took_app bs1 bs2 io io1 io2 :
  took bs1 io io1 -> took bs2 io1 io2 -> took (bs1 ++ bs2) io io2.
Proof.
  intros (S1 & O1 & E1) (S2 & O2 & E2). repeat split; [|congruence..].
  by rewrite S1, S2, app_assoc.
Qed.

Lemma took_eq bs bs' io io' : took bs io io' -> bs = bs' -> took bs' io io'.
Proof. by intros H <-. Qed.

Lemma took_reads bs io io' : took bs io io' -> reads io io'.
Proof.
  intros (S1 & O1 & E1). repeat split; [by exists bs | done | by rewrite E1].
Qed.

(** The stream after is determined by the stream before and the bytes. *)
Lemma took_inj bs io io1 io2 : took bs io io1 -> took bs io io2 -> io1 = io2.
Proof.
  intros (S1 & O1 & E1) (S2 & O2 & E2). destruct io1, io2; simpl in *.
  rewrite S1 in S2. apply app_inv_head in S2. congruence.
Qed.

Lemma fed_took bs io io' : took bs io io' -> fed bs io io'.
Proof. by left. Qed.

Lemma fed_nil io : fed [] io io.
Proof. left. apply took_nil. Qed.

(** Once the file has ended, nothing more is taken. *)
Lemma fed_app bs1 bs2 io io1 io2 :
  fed bs1 io io1 -> fed bs2 io1 io2 -> fed (bs1 ++ bs2) io io2.
Proof.
  intros [H1|(S1 & L1 & O1 & E1)] [H2|(S2 & L2 & O2 & E2)].
  - left. by eapply took_app.
  - right. destruct H1 as (S1 & O1 & E1).
    repeat split; [done | | congruence..].
    rewrite S1, !length_app. lia.
  - right. destruct H2 as (S2 & O2 & E2). rewrite S1 in S2.
    symmetry in S2. apply app_eq_nil in S2 as [-> S2].
    repeat split; [done | | congruence..]. by rewrite app_nil_r.
  - right. repeat split; [done | | congruence..]. rewrite length_app. lia.
Qed.

Lemma fed_eq bs bs' io io' : fed bs io io' -> bs = bs' -> fed bs' io io'.
Proof. by intros H <-. Qed.

Lemma fed_reads bs io io' : fed bs io io' -> reads io io'.
Proof.
  intros [H|(S1 & _ & O1 & E1)]; [by eapply took_reads|].
  repeat split; [| done | by rewrite E1]. rewrite S1. apply suffix_nil.
Qed.

(** A read that left something on the stream found all its bytes. *)
Lemma fed_left bs io io' : fed bs io io' -> stream io' <> [] -> took bs io io'.
Proof. by intros [H|[? _]]. Qed.

(** ** Arrays *)

(** The array loop takes the encodings of its elements, in order. *)
Section Arrays.
Context {A : Type} `{Canonical A}.

Lemma read_array_fed n : forall io (l : list A) io',
  read_array n io = Ok l io' -> fed (write_array l) io io'.
Proof.
  unfold read_array, write_array.
  induction n as [|n IH]; intros io l io' Hr; simpl in Hr.
  - inv Hr. apply fed_nil.
  - inv_bind Hr. inv_bind Hr. inv Hr. cbn [fmap list_fmap concat].
    eapply fed_app; [by apply read_fed | by apply IH].
Qed.

End Arrays.

(** ** Integers *)

Lemma write_be_be_combine bs : write_be (length bs) (be_combine bs) = bs.
Proof.
  unfold write_be. rewrite be_combine_rev, <- (length_rev bs), split_le_combine.
  apply rev_involutive.
Qed.

(** The field of [w] bytes at [off], written back. *)
Lemma write_be_field w off buf :
  (off + w <= length buf)%nat ->
  write_be w (swapEndianness w (load w off buf)) = take w (drop off buf).
Proof.
  intros H. rewrite load_be by done.
  rewrite <- (write_be_be_combine (take w (drop off buf))) at 2.
  f_equal. rewrite length_take, length_drop. lia.
Qed.

Lemma write_be_whole w buf :
  length buf = w -> write_be w (swapEndianness w (load w 0 buf)) = buf.
Proof. intros <-. rewrite write_be_field by (simpl; lia). by rewrite drop_0, firstn_all. Qed.

Lemma stream_fill_took n io bs io' :
  stream_fill n io = Ok bs io' -> took bs io io'.
Proof. by intros (? & ? & ? & _)%stream_fill_Ok. Qed.

Lemma stream_read_took n io bs io' :
  stream_read n io = Ok bs io' -> took bs io io'.
Proof. by intros (_ & ? & ? & ?)%stream_read_Ok. Qed.

Lemma stream_read_field w io bs io' :
  stream_read w io = Ok bs io' ->
  took (write_be w (swapEndianness w (load w 0 bs))) io io'.
Proof.
  intros H. pose proof (stream_read_Ok _ _ _ _ H) as (Hl & _).
  rewrite (write_be_whole w bs Hl). by eapply stream_read_took.
Qed.

Lemma read_u8_took io v io' : read_u8 io = Ok v io' -> took (write_u8 v) io io'.
Proof.
  unfold read_u8. intros H. inv_bind H. inv H.
  pose proof (stream_read_Ok _ _ _ _ Hm) as (Hl & _).
  eapply took_eq; [by eapply stream_read_took|].
  unfold write_u8, write_be. rewrite <- Hl, load_all, split_le_combine.
  by destruct a as [|b [|]].
Qed.

Lemma read_u16_took io v io' : read_u16 io = Ok v io' -> took (write_u16 v) io io'.
Proof. unfold read_u16. intros H. inv_bind H. inv H. by apply stream_read_field. Qed.

Lemma read_u32_took io v io' : read_u32 io = Ok v io' -> took (write_u32 v) io io'.
Proof. unfold read_u32. intros H. inv_bind H. inv H. by apply stream_read_field. Qed.

(** A member that is overwritten: the two bytes, or the end of the
    file. *)
Lemma read_u16_over_fed old io v io' :
  read_u16_over old io = Ok v io' -> fed (write_u16 v) io io'.
Proof.
  intros H. destruct (decide (2 <= length (stream io))%nat) as [Hl|Hl].
  - rewrite read_u16_over_full in H by done. left.
    unfold read_u16 in H. inv_bind H. inv H.
    by apply (stream_read_field 2).
  - unfold read_u16_over in H. inv_bind H. inv H. right.
    apply stream_fill_Ok in Hm as (Hs & ? & ? & _ & [Hb|Hb]).
    + rewrite Hs, length_app in Hl. lia.
    + repeat split; try done. unfold write_u16. rewrite write_be_length. lia.
Qed.

(** ** Buffers with several fields *)

(** Replace a buffer of known length by its bytes. *)
Ltac bytes_of buf :=
  do 12 (try (destruct buf as [|? buf]; simpl in *; try (first [done | lia]))).

(** The fields of a buffer, written back in order, are the buffer. *)
Ltac whole_buffer :=
  unfold write_header1, write_header2, write_u16, write_u32;
  cbn [magic minor major constantPoolCount access_flags this_class super_class
       interfaces_count];
  rewrite !write_be_field by (simpl; lia);
  match goal with
  | Hl : length ?buf = _ |- _ => bytes_of buf
  end.

(** A buffer of two 16-bit fields. *)
Lemma two_fields buf io io' :
  stream_read 4 io = Ok buf io' ->
  took (write_u16 (swapEndianness 2 (load 2 0 buf)) ++
        write_u16 (swapEndianness 2 (load 2 2 buf))) io io'.
Proof.
  intros H. pose proof (stream_read_Ok _ _ _ _ H) as (Hl & _).
  eapply took_eq; [by eapply stream_read_took|]. whole_buffer.
Qed.

(** Prove [took w io io'] for the encoding [w] of one field from the read
    of that field in the context.  The cases are told apart by the
    shape of [w], never by unfolding a writer. *)
Ltac took_step :=
  match goal with
  | |- took (write_u8 _) _ _ => eapply read_u8_took; eassumption
  | |- took (write_u16 (swapEndianness 2 (load 2 0 ?b)) ++
             write_u16 (swapEndianness 2 (load 2 2 ?b))) _ _ =>
      eapply two_fields; eassumption
  | |- took (write_u16 (swapEndianness 2 (load 2 0 _))) _ _ =>
      eapply (stream_read_field 2); eassumption
  | |- took (write_u32 (swapEndianness 4 (load 4 0 _))) _ _ =>
      eapply (stream_read_field 4); eassumption
  | |- took (write_u16 _) _ _ => eapply read_u16_took; eassumption
  | |- took (write_u32 _) _ _ => eapply read_u32_took; eassumption
  | |- took ?bs _ _ =>
      is_var bs;
      first [ eapply stream_read_took; eassumption
            | eapply stream_fill_took; eassumption ]
  end.

(** The same for a sequence of fields, one read after the other; [tac]
    proves the parts that are no single field. *)
Ltac took_chain_with tac :=
  repeat first
    [ took_step
    | tac
    | match goal with
      | |- took (_ ++ _) _ _ => eapply took_app; [ first [ took_step | tac ] |]
      end ].

Ltac took_chain := took_chain_with fail.

(** The same for [fed]: each part was taken whole, or is one of the
    parts that the end of the file may cut. *)
Ltac fed_step :=
  first
    [ apply fed_took; took_step
    | match goal with
      | |- fed (write_array _) _ _ => eapply read_array_fed; eassumption
      | |- fed (write_u16 _) _ _ => eapply read_u16_over_fed; eassumption
      end ].

Ltac fed_chain_with tac :=
  repeat first
    [ fed_step
    | tac
    | match goal with
      | |- fed (_ ++ _) _ _ => eapply fed_app; [ first [ fed_step | tac ] |]
      end ].

Ltac fed_chain := fed_chain_with fail.

(** ** Strings *)

Lemma bytes_of_string_of_bytes bs : bytes_of_string (string_of_bytes bs) = bs.
Proof.
  induction bs as [|b bs IH]; [done|].
  rewrite string_of_bytes_cons.
  change (bytes_of_string (String ?a ?s)) with (byte_of_ascii a :: bytes_of_string s).
  by rewrite byte_of_ascii_of_byte, IH.
Qed.

Lemma bytes_of_string_app s1 s2 :
  bytes_of_string (s1 ++ s2) = bytes_of_string s1 ++ bytes_of_string s2.
Proof.
  induction s1 as [|a s1 IH]; [done|].
  change (bytes_of_string (String a s1 ++ s2))
    with (byte_of_ascii a :: bytes_of_string (s1 ++ s2)).
  by rewrite IH.
Qed.

(** The character in [tmp] after the read is the byte taken, or the file
    had ended. *)
Lemma read_char_fed tmp io c io' :
  read_char tmp io = Ok (Some c) io' -> fed [byte_of_ascii c] io io'.
Proof.
  unfold read_char. intros H. inv_bind H. inv H.
  pose proof (stream_fill_took _ _ _ _ Hm) as Ht.
  apply stream_fill_Ok in Hm as (Hs & ? & ? & Hl & Hb).
  destruct a as [|b [|]]; simpl in *; [| |lia].
  - right. destruct Hb as [|Hb]; [done|]. rewrite Hb in Hs.
    repeat split; try done. rewrite Hs. simpl. lia.
  - left. match goal with H : Some _ = Some c |- _ => injection H as <- end.
    by rewrite byte_of_ascii_of_byte.
Qed.

(** The loop of the Utf8 branch appends the characters of the bytes it
    took, and past the end of the file the last of them again. *)
Lemma read_chars_fed n : forall tmp acc io s io',
  read_chars n tmp acc io = Ok s io' ->
  exists s', s = (acc ++ s')%string /\ fed (bytes_of_string s') io io'.
Proof.
  induction n as [|n IH]; intros tmp acc io s io' H; simpl in H.
  - inv H. exists EmptyString. split; [by rewrite string_app_nil_r | apply fed_nil].
  - inv_bind H. inv_bind H. apply or_ub_Ok_inv in Hm0 as [-> ->].
    apply IH in H as (s' & -> & Ht).
    exists (String a0 s'). split; [by rewrite string_app_assoc|].
    change (bytes_of_string (String a0 s')) with ([byte_of_ascii a0] ++ bytes_of_string s').
    eapply fed_app; [by eapply read_char_fed | done].
Qed.

(** ** The records *)

#[export] Instance ConstantPoolEntry_Canonical : Canonical ConstantPoolEntry.
Proof.
  intros io e io'. unfold read, ConstantPoolEntry_Readable, ConstantPoolEntry_read.
  intros H. inv_bind H. unfold write, ConstantPoolEntry_Writable.
  case_tags; try solve [inv_bind H; inv H; cbn [tag data write_union]; fed_chain].
  inv_bind H. inv_bind H. inv H. cbn [tag data write_union].
  apply read_chars_fed in Hm1 as (s' & -> & Ht).
  fed_chain_with ltac:(idtac; match goal with |- fed (bytes_of_string _) _ _ => exact Ht end).
Qed.

#[export] Instance AttributeInfo_Canonical : Canonical AttributeInfo.t.
Proof.
  intros io a io'. unfold read, AttributeInfo_Readable, AttributeInfo.read.
  intros H. do 3 inv_bind H. inv H. unfold write, AttributeInfo_Writable.
  cbn [AttributeInfo.attribute_name_index AttributeInfo.attribute_length AttributeInfo.info].
  fed_chain.
Qed.

#[export] Instance FieldEntry_Canonical : Canonical FieldEntry.t.
Proof.
  intros io a io'. unfold read, FieldEntry_Readable, FieldEntry.read.
  intros H. do 5 inv_bind H. inv H. unfold write, FieldEntry_Writable.
  cbn [FieldEntry.access_flags FieldEntry.name_index FieldEntry.descriptor_index
       FieldEntry.attributes_count FieldEntry.attributes].
  fed_chain.
Qed.

#[export] Instance MethodEntry_Canonical : Canonical MethodEntry.t.
Proof.
  intros io a io'. unfold read, MethodEntry_Readable, MethodEntry.read.
  intros H. do 5 inv_bind H. inv H. unfold write, MethodEntry_Writable.
  cbn [MethodEntry.access_flags MethodEntry.name_index MethodEntry.descriptor_index
       MethodEntry.attributes_count MethodEntry.attributes].
  fed_chain.
Qed.

(** ** The class file *)

Lemma header1_took buf io io' :
  stream_read 10 io = Ok buf io' ->
  took (write_header1
          (mkHeader1 (swapEndianness 4 (load 4 0 buf)) (swapEndianness 2 (load 2 4 buf))
                     (swapEndianness 2 (load 2 6 buf)) (swapEndianness 2 (load 2 8 buf))))
       io io'.
Proof.
  intros H. pose proof (stream_read_Ok _ _ _ _ H) as (Hl & _).
  eapply took_eq; [by eapply stream_read_took|]. whole_buffer.
Qed.

Lemma header2_took buf io io' :
  stream_read 8 io = Ok buf io' ->
  took (write_header2
          (mkHeader2 (swapEndianness 2 (load 2 0 buf)) (swapEndianness 2 (load 2 2 buf))
                     (swapEndianness 2 (load 2 4 buf)) (swapEndianness 2 (load 2 6 buf))))
       io io'.
Proof.
  intros H. pose proof (stream_read_Ok _ _ _ _ H) as (Hl & _).
  eapply took_eq; [by eapply stream_read_took|]. whole_buffer.
Qed.


Lemma ConstantPool_new_fed header io pool io' :
  ConstantPool_new header io = Ok pool io' -> fed (write_array (entries pool)) io io'.
Proof.
  unfold ConstantPool_new. intros H.
  destruct (constantPoolCount header - 1 <? 0); [done|]. inv_bind H. inv H.
  by eapply read_array_fed.
Qed.

(** An interface index is kept as the host read it: its swap is the
    index the file holds.  An element that was not filled is where the
    file ended. *)
Lemma read_interface_fed io o io' :
  JavaClassFile.read_interface io = Ok o io' ->
  fed (write_interface (swap_index o)) io io'.
Proof.
  unfold JavaClassFile.read_interface. intros H. inv_bind H. inv H.
  case_decide as Hl.
  - left. unfold write_interface, swap_index. cbn [fmap option_fmap option_map from_option id].
    unfold write_u16. rewrite (write_be_whole 2 a Hl). by eapply stream_fill_took.
  - right. apply stream_fill_Ok in Hm as (Hs & ? & ? & ? & [?|Hb]); [done|].
    rewrite Hb, app_nil_r in Hs. repeat split; try done.
    unfold write_interface, write_u16. rewrite write_be_length, Hs. lia.
Qed.

Lemma read_interfaces_fed n : forall io l io',
  replicateM n JavaClassFile.read_interface io = Ok l io' ->
  fed (concat (write_interface <$> (swap_index <$> l))) io io'.
Proof.
  induction n as [|n IH]; intros io l io' H; simpl in H.
  - inv H. apply fed_nil.
  - inv_bind H. inv_bind H. inv H. cbn [fmap list_fmap concat].
    eapply fed_app; [by apply read_interface_fed | by apply IH].
Qed.

Lemma interfaces_fed (count : Z) io (o : option (list (option Z))) io' :
  (if negb (count =? 0)
   then l <- replicateM (Z.to_nat count) JavaClassFile.read_interface ;; ret (Some l)
   else ret None) io = Ok o io' ->
  fed (concat (write_interface <$> default (fmap (M := list) swap_index <$> o))) io io'.
Proof.
  destruct (negb (count =? 0)); intros H.
  - inv_bind H. inv H. by eapply read_interfaces_fed.
  - inv H. apply fed_nil.
Qed.

(** The parts of a class file that are no single field. *)
Ltac fed_part :=
  idtac;
  match goal with
  | |- fed (write_array (entries _)) _ _ => eapply ConstantPool_new_fed; eassumption
  | |- fed (write_header2 _) _ _ => apply fed_took; eapply header2_took; eassumption
  | |- fed (concat _) _ _ => eapply interfaces_fed; eassumption
  end.

Lemma new_body_fed header1 pre io k io' :
  took (write_header1 header1) pre io ->
  JavaClassFile.new_body header1 io = Ok k io' ->
  fed (write_class (read_back k)) pre io'.
Proof.
  unfold JavaClassFile.new_body. intros Hh H. do 9 inv_bind H. inv H.
  unfold write_class, read_back.
  cbn [JavaClassFile.header1 JavaClassFile.const_pool JavaClassFile.header2
       JavaClassFile.interfaces JavaClassFile.fields_count JavaClassFile.fields
       JavaClassFile.methods_count JavaClassFile.methods
       JavaClassFile.attributes_count JavaClassFile.attributes
       default from_option fmap option_fmap option_map].
  eapply fed_app; [apply fed_took; exact Hh|]. fed_chain_with fed_part.
Qed.

Lemma new_fed filename io k io' :
  JavaClassFile.new filename io = Ok k io' -> JavaClassFile.ok k = true ->
  fed (write_class (read_back k)) io io'.
Proof.
  unfold JavaClassFile.new. intros H Hok. inv_bind H.
  destruct (negb _).
  - inv_bind H. by inv H.
  - eapply new_body_fed; [by apply header1_took | done].
Qed.

(** ** A class that was read with bytes to spare *)

Lemma reads_nonempty io io' : reads io io' -> stream io' <> [] -> stream io <> [].
Proof.
  intros [[pre E] _] H E'. rewrite E' in E. symmetry in E.
  by apply app_eq_nil in E as [_ ?].
Qed.

(** In a loop that left something on the stream, every read did. *)
Lemma replicateM_spare {A} (P : A -> Prop) (m : M IO A) :
  keeps reads m ->
  (forall io a io', m io = Ok a io' -> stream io' <> [] -> P a) ->
  forall n io l io', replicateM n m io = Ok l io' -> stream io' <> [] -> Forall P l.
Proof.
  intros Hk Hm. induction n as [|n IH]; simpl; intros io l io' H Hne.
  - inv H. constructor.
  - inv_bind H. inv_bind H. inv H. constructor; [|by eapply IH].
    eapply Hm; [eassumption|]. eapply reads_nonempty; [|exact Hne].
    eapply keeps_Ok; [|eassumption]. by apply (keeps_replicateM reads).
Qed.

Lemma read_attributes_full n io l io' :
  read_array (A := AttributeInfo.t) n io = Ok l io' -> stream io' <> [] ->
  Forall AttributeInfo.full l.
Proof.
  apply (replicateM_spare AttributeInfo.full);
    [apply read_forward | apply AttributeInfo_read_full].
Qed.

Lemma FieldEntry_read_full io f io' :
  FieldEntry.read io = Ok f io' -> stream io' <> [] -> FieldEntry.full f.
Proof.
  intros H Hne. pose proof (FieldEntry_read_wf _ _ _ H) as (? & ? & ? & ? & ? & _).
  unfold FieldEntry.read in H. do 5 inv_bind H. inv H. cbn in *.
  unfold FieldEntry.full, MethodEntry.full. cbn. split_and!; try done.
  by eapply read_attributes_full.
Qed.

Lemma MethodEntry_read_full io m io' :
  MethodEntry.read io = Ok m io' -> stream io' <> [] -> MethodEntry.full m.
Proof.
  intros H Hne. pose proof (MethodEntry_read_wf _ _ _ H) as (? & ? & ? & ? & ? & _).
  unfold MethodEntry.read in H. do 5 inv_bind H. inv H. cbn in *.
  unfold FieldEntry.full, MethodEntry.full. cbn. split_and!; try done.
  by eapply read_attributes_full.
Qed.

Lemma read_interface_full io o io' :
  JavaClassFile.read_interface io = Ok o io' -> stream io' <> [] -> is_Some o.
Proof.
  unfold JavaClassFile.read_interface. intros H Hne. inv_bind H. inv H.
  apply stream_fill_Ok in Hm as (_ & _ & _ & _ & [Hl|?]); [|done].
  by rewrite decide_True.
Qed.

(** From the stream after an operation that returned to the stream
    before it. *)
Ltac spare_before :=
  repeat match goal with
  | H : ?m ?a = Ok _ ?b, Hne : stream ?b <> [] |- _ =>
      lazymatch goal with
      | _ : stream a <> [] |- _ => fail
      | _ => assert (stream a <> [])
               by (eapply reads_nonempty; [|exact Hne];
                   eapply (keeps_Ok reads m); [keeps_reads | exact H])
      end
  end.

Lemma new_body_whole header1 io k io' :
  JavaClassFile.new_body header1 io = Ok k io' -> stream io' <> [] -> whole k.
Proof.
  unfold JavaClassFile.new_body. intros H Hne. do 9 inv_bind H. inv H.
  spare_before. unfold whole. cbn.
  split; [|split; [|split]].
  - destruct (negb _); [|inv Hm1; constructor]. inv_bind Hm1. inv Hm1. cbn.
    eapply (replicateM_spare is_Some); eauto using read_interface_full with zera.
  - eapply (replicateM_spare FieldEntry.full); eauto using FieldEntry_read_full.
    apply read_forward.
  - eapply (replicateM_spare MethodEntry.full); eauto using MethodEntry_read_full.
    apply read_forward.
  - by eapply read_attributes_full.
Qed.

(** ** What the constructor returns can be written *)

Lemma read_interfaces_range n : forall io l io',
  replicateM n JavaClassFile.read_interface io = Ok l io' ->
  Forall (from_option (in_range 2) True) l.
Proof.
  apply replicateM_Forall. intros io v io' H.
  unfold JavaClassFile.read_interface in H. inv_bind H. inv H.
  case_decide; [apply load_bound | done].
Qed.

Definition interfaces_in_range (k : JavaClassFile.t) : Prop :=
  Forall (from_option (in_range 2) True) (default (JavaClassFile.interfaces k)).

Lemma swap_swap_interfaces (l : list (option Z)) :
  Forall (from_option (in_range 2) True) l -> swap_index <$> (swap_index <$> l) = l.
Proof.
  induction 1 as [|[v|] l Hv _ IH]; [done | |]; cbn [fmap list_fmap]; rewrite IH;
    [|done].
  unfold swap_index. cbn. by rewrite swapEndianness_cancel.
Qed.

(** On the classes the constructor returns, [read_back] is an involution. *)
Lemma read_back_involutive k :
  interfaces_in_range k -> read_back (read_back k) = k.
Proof.
  unfold interfaces_in_range, read_back. destruct k as [? ? ? ? [l|] ? ? ? ? ? ?]; cbn.
  - intros H. by rewrite swap_swap_interfaces.
  - done.
Qed.

Lemma wf_read_back k : JavaClassFile.wf k -> JavaClassFile.wf (read_back k).
Proof.
  unfold JavaClassFile.wf, read_back. destruct k as [[] ? ? ? [l|] ? ? ? ? ? ?]; cbn;
    try done.
  - by rewrite length_fmap.
  - by intros [[= ? ?] ?].
Qed.

Lemma whole_read_back k : whole k -> whole (read_back k).
Proof.
  unfold whole, read_back. destruct k as [? ? ? ? [l|] ? ? ? ? ? ?]; cbn; [|done].
  intros (Hi & ?). split; [|done]. apply Forall_fmap.
  eapply Forall_impl; [exact Hi|]. intros o [v ->]. by eexists.
Qed.

Lemma new_body_ranges header1 io k io' :
  JavaClassFile.new_body header1 io = Ok k io' ->
  JavaClassFile.header1 k = header1 /\
  from_option header2_ranges True (JavaClassFile.header2 k) /\
  in_range 2 (JavaClassFile.fields_count k) /\
  in_range 2 (JavaClassFile.methods_count k) /\
  in_range 2 (JavaClassFile.attributes_count k) /\
  interfaces_in_range k.
Proof.
  unfold JavaClassFile.new_body. intros H. do 9 inv_bind H. inv H.
  unfold interfaces_in_range, header2_ranges. cbn.
  split; [done|]. split; [auto 6 using swapEndianness_bound|].
  do 3 (split; [by eapply read_u16_over_range|]).
  destruct (negb _); [|inv Hm1; constructor].
  inv_bind Hm1. inv Hm1. by eapply read_interfaces_range.
Qed.

(** A class returned while bytes were left on the stream is the class of
    the bytes taken, whole and within every range. *)
Lemma new_spare filename io k io' :
  JavaClassFile.new filename io = Ok k io' -> JavaClassFile.ok k = true ->
  stream io' <> [] ->
  encodable (read_back k) /\ read_back (read_back k) = k /\
  took (write_class (read_back k)) io io'.
Proof.
  intros H Hok Hne. pose proof (new_wf _ _ _ _ H) as Hwf.
  pose proof (fed_left _ _ _ (new_fed _ _ _ _ H Hok) Hne) as Ht.
  unfold JavaClassFile.new in H. inv_bind H.
  destruct (negb _); [inv_bind H; by inv H|].
  pose proof (new_body_whole _ _ _ _ H Hne) as Hw.
  apply new_body_ranges in H as (Hh1 & Hh2 & Hf & Hm' & Ha & Hi).
  split; [|split; [by apply read_back_involutive | done]].
  unfold encodable. cbn [read_back JavaClassFile.ok JavaClassFile.header1
    JavaClassFile.header2 JavaClassFile.fields_count JavaClassFile.methods_count
    JavaClassFile.attributes_count].
  split; [done|]. split; [by apply wf_read_back|].
  split; [|by auto 6 using whole_read_back]. rewrite Hh1. unfold header1_ranges. cbn.
  auto 6 using swapEndianness_bound.
Qed.

(** The encoding is a prefix code: a stream starts with the encoding of
    one class at most. *)
Lemma write_class_prefix k1 k2 r1 r2 :
  encodable k1 -> encodable k2 ->
  write_class k1 ++ r1 = write_class k2 ++ r2 ->
  read_back k1 = read_back k2 /\ r1 = r2.
Proof.
  intros H1 H2 E.
  pose proof (class_read_back EmptyString k1 r1 [] [] H1) as P1.
  pose proof (class_read_back EmptyString k2 r2 [] [] H2) as P2.
  rewrite E, P2 in P1. split; congruence.
Qed.

(** The byte strings that are read as [k] whatever follows them. *)
Lemma accepted filename bs k co ce :
  (forall rest, JavaClassFile.new filename (mkIO (bs ++ rest) co ce) =
                Ok k (mkIO rest co ce)) /\ JavaClassFile.ok k = true <->
  exists k0, encodable k0 /\ k = read_back k0 /\ bs = write_class k0.
Proof.
  split.
  - intros [H Hok]. specialize (H [Byte.x00]). exists (read_back k).
    destruct (new_spare _ _ _ _ H Hok ltac:(done)) as (He & Hk & Ht & _).
    cbn in Ht. by apply app_inv_tail in Ht.
  - intros (k0 & He & -> & ->). split; [|by destruct He as [? _]].
    intros rest. by apply class_read_back.
Qed.

(** ** What the constructor promises, from the reader's side *)

(** C11: the bytes the constructor took from the stream are the file that
    [write_class] writes for the class it returned, the interface
    indices swapped back, or the stream ended before: then all of it was
    taken and it was shorter than that file.  So the constructor skips
    no byte, reads none twice and prints nothing when the magic number
    is right; and the only files it accepts that are no encoding of
    its result are files that are too short. *)
Theorem class_parse_print filename io k io' :
  JavaClassFile.new filename io = Ok k io' -> JavaClassFile.ok k = true ->
  fed (write_class (read_back k)) io io'.
Proof. apply new_fed. Qed.

(** C10: the byte strings the constructor accepts whatever follows them
    are the encodings of the encodable classes, and it returns the class
    whose encoding it took: [bs] is read as [k] with [ok] set, leaving
    what followed [bs], for every continuation of the stream, exactly
    when [bs] is the file of a class [k0] that is well formed and whole
    with every field in the range of its type, and [k] is [k0] with the
    interface indices byte-swapped. *)
Theorem accepted_iff_encoding filename bs k co ce :
  (forall rest, JavaClassFile.new filename (mkIO (bs ++ rest) co ce) =
                Ok k (mkIO rest co ce)) /\ JavaClassFile.ok k = true <->
  exists k0, encodable k0 /\ k = read_back k0 /\ bs = write_class k0.
Proof. apply accepted. Qed.

(** Reading is idempotent through the writer: what the constructor
    returned with bytes to spare, written and read again, is what it
    returned. *)
Theorem parse_print_parse filename io k io' rest co ce :
  JavaClassFile.new filename io = Ok k io' -> JavaClassFile.ok k = true ->
  stream io' <> [] ->
  JavaClassFile.new filename (mkIO (write_class (read_back k) ++ rest) co ce) =
  Ok k (mkIO rest co ce).
Proof.
  intros H Hok Hne. destruct (new_spare _ _ _ _ H Hok Hne) as (He & Hk & _).
  rewrite <- Hk at 2. by apply class_read_back.
Qed.

(** Two encodable classes with the same file are read back as the same
    class, and what follows the file is the same. *)
Theorem write_class_unambiguous k1 k2 r1 r2 :
  encodable k1 -> encodable k2 ->
  write_class k1 ++ r1 = write_class k2 ++ r2 ->
  read_back k1 = read_back k2 /\ r1 = r2.
Proof. apply write_class_prefix. Qed.

(** ** The theorems on a class *)

Lemma small_class_read :
  JavaClassFile.new "A.class" (mkIO (write_class small_class ++ [Byte.xff]) [] []) =
  Ok (read_back small_class) (mkIO [Byte.xff] [] []).
Proof. apply class_read_back, small_class_encodable. Qed.

Lemma class_parse_print_witness :
  fed (write_class (read_back (read_back small_class)))
      (mkIO (write_class small_class ++ [Byte.xff]) [] []) (mkIO [Byte.xff] [] []).
Proof.
  apply (class_parse_print "A.class" _ (read_back small_class));
    [exact small_class_read | reflexivity].
Defined.

Lemma parse_print_parse_witness :
  JavaClassFile.new "A.class"
    (mkIO (write_class (read_back (read_back small_class)) ++ []) [] []) =
  Ok (read_back small_class) (mkIO [] [] []).
Proof.
  apply (parse_print_parse "A.class"
           (mkIO (write_class small_class ++ [Byte.xff]) [] [])
           (read_back small_class) (mkIO [Byte.xff] [] []) [] [] []);
    [exact small_class_read | reflexivity | done].
Defined.

Lemma write_class_unambiguous_witness :
  read_back small_class = read_back small_class /\ [Byte.xff] = [Byte.xff].
Proof.
  apply (write_class_unambiguous small_class small_class [Byte.xff] [Byte.xff]);
    [exact small_class_encodable | exact small_class_encodable | reflexivity].
Defined.
