(* ===== verification/Malformed.v ===== *)
(** * Malformed: files that are no class files

    What the program does with a file of the wrong kind, from the first
    byte to the exit status.  Two kinds reach the interpreter:
    - a file with another magic number: the constructor reports it and
      returns, and [main] runs the executor all the same;
    - a file that ends after [header2]: the constructor never tests the
      stream, the counts of the fields, methods and attributes keep the
      zeros of their initialisers, and the constructor sets [ok].
    In both cases the class has no method, [run] finds no [main], and
    the process ends with the message of [get_code_attribute] and
    status 1.  A file that ends earlier, inside a header or a record,
    is read into memory that the next statement uses unwritten
    ([ParserFaults]). *)

From Stdlib Require Import ZArith List String Ascii Lia.
From stdpp Require Import base tactics option list strings.
From coqutil Require Import Byte Word.LittleEndianList.
From S2P Require Import Prelude ByteCodec Stream ConstantPool Records ClassFile.
From S2P Require Import Encode Executor Roundtrip.

#[local] Open Scope Z_scope.
#[local] Open Scope m_scope.

(** ** A class without methods *)

(** The two lines of [get_code_attribute] for a method that was not
    found. *)
Definition no_method_lines (method_name : string) : list string :=
  [ "Exception: Trying to get Code Attribute from nullptr method!";
    ("           Method name: " +:+ method_name)%string ].

(** [run] on a class whose [methods_count] is zero: the search is over
    before it looks at the table. *)
Lemma run_no_methods depth name k st bs co ce :
  JavaClassFile.methods_count k = 0 ->
  run (S depth) name (mkMachine k st (mkIO bs co ce)) =
  Fault (Exit 1) (mkMachine k st (mkIO bs (co ++ no_method_lines name) ce)).
Proof.
  intros H. set (s := mkMachine k st (mkIO bs co ce)).
  assert (get_method name s = Ok None s) as Hg.
  { unfold get_method, JavaClassFile.get_method, bind, get. cbn [klass s]. by rewrite H. }
  cbn [run]. rewrite (bind_Ok _ _ _ _ _ Hg). cbn [get_code_attribute].
  unfold bind, print, modify, fail, no_method_lines, s. cbn.
  by rewrite <- app_assoc.
Qed.

(** [main] once the constructor has returned such a class. *)
Lemma main_no_methods depth prog file k i bs co ce :
  JavaClassFile.new file i = Ok k (mkIO bs co ce) ->
  JavaClassFile.methods_count k = 0 ->
  main (S depth) [prog; file] i =
  Fault (Exit 1) (mkIO bs (co ++ no_method_lines "main") ce).
Proof.
  intros Hn Hm. unfold main. cbn [length]. change (Z.of_nat 2 <? 2) with false.
  cbv iota. cbn [lookup list_lookup or_ub]. rewrite bind_ret_l.
  rewrite (bind_Ok _ _ _ _ _ Hn). unfold with_executor, bind at 1.
  by rewrite run_no_methods.
Qed.

(** ** A file that ends after [header2] *)

(** The class the constructor makes of such a file: the elements of
    [interfaces] as [new] left them, no field, no method, no attribute. *)
Definition cut_class (h1 : JavaClassHeader1) (pool : ConstantPool)
    (h2 : JavaClassHeader2) : JavaClassFile.t :=
  JavaClassFile.mk true h1 (Some h2) (Some pool)
    (if interfaces_count h2 =? 0 then None
     else Some (replicate (Z.to_nat (interfaces_count h2)) None))
    0 (Some []) 0 (Some []) 0 (Some []).

(** The file: the two headers and the pool, and nothing after them. *)
Definition cut_file (h1 : JavaClassHeader1) (pool : ConstantPool)
    (h2 : JavaClassHeader2) : list byte :=
  write_header1 h1 ++ write_array (entries pool) ++ write_header2 h2.

Lemma read_interfaces_end n co ce :
  replicateM n JavaClassFile.read_interface (mkIO [] co ce) =
  Ok (replicate n None) (mkIO [] co ce).
Proof.
  induction n as [|n IH]; [done|]. cbn [replicateM replicate].
  rewrite (bind_Ok _ _ _ _ _ (read_interface_end co ce)).
  by rewrite (bind_Ok _ _ _ _ _ IH).
Qed.

Lemma new_cut filename h1 pool h2 co ce :
  header1_ranges h1 -> magic h1 = JAVA_MAGIC ->
  pool_wf pool -> Z.of_nat (length (entries pool)) = constantPoolCount h1 - 1 ->
  header2_ranges h2 ->
  JavaClassFile.new filename (mkIO (cut_file h1 pool h2) co ce) =
  Ok (cut_class h1 pool h2) (mkIO [] co ce).
Proof.
  intros Hh1 Hm Hp Hl Hh2. unfold cut_file, JavaClassFile.new.
  rewrite (bind_Ok _ _ _ _ _ (stream_read_exact 10 _ _ co ce (write_header1_length h1))).
  cbv zeta. rewrite (header1_fields h1 Hh1), Hm, Z.eqb_refl. cbn [negb].
  unfold JavaClassFile.new_body.
  rewrite (bind_Ok _ _ _ _ _ (ConstantPool_new_write h1 pool _ co ce Hp Hl)).
  rewrite <- (app_nil_r (write_header2 h2)).
  rewrite (bind_Ok _ _ _ _ _ (stream_read_exact 8 _ _ co ce (write_header2_length h2))).
  cbv zeta. rewrite (header2_fields h2 Hh2).
  assert ((if negb (interfaces_count h2 =? 0)
           then l <- replicateM (Z.to_nat (interfaces_count h2))
                       JavaClassFile.read_interface ;; ret (Some l)
           else ret None) (mkIO [] co ce) =
          Ok (JavaClassFile.interfaces (cut_class h1 pool h2)) (mkIO [] co ce)) as Hi.
  { cbn [cut_class JavaClassFile.interfaces].
    destruct (interfaces_count h2 =? 0); [done|]. cbn [negb].
    by rewrite (bind_Ok _ _ _ _ _ (read_interfaces_end _ co ce)). }
  rewrite (bind_Ok _ _ _ _ _ Hi). cbn [JavaClassFile.initial
    JavaClassFile.fields_count JavaClassFile.methods_count
    JavaClassFile.attributes_count].
  by rewrite !(bind_Ok _ _ _ _ _ (read_u16_over_end 0 co ce ltac:(done))).
Qed.

(** ** An attribute whose payload is cut *)

Lemma AttributeInfo_read_cut ni len (bs : list byte) co ce :
  in_range 2 ni -> in_range 4 len -> Z.of_nat (length bs) <= len ->
  AttributeInfo.read (mkIO (write_u16 ni ++ write_u32 len ++ bs) co ce) =
  Ok (AttributeInfo.mk ni len bs) (mkIO [] co ce).
Proof.
  intros Hn Hl Hb. unfold AttributeInfo.read, write_u16, write_u32.
  do 2 take_field. fields.
  by rewrite (bind_Ok _ _ _ _ _ (stream_fill_all (Z.to_nat len) bs co ce ltac:(lia))).
Qed.

(** ** What the program does with them *)

(** C33: a file that ends after [header2] is accepted: the constructor
    reads the three counts it does not find as zero, leaves the elements
    of [interfaces] unwritten and returns with [ok] set, a class without
    fields, methods and attributes.  Nothing is printed: the program has
    no diagnostic for a file that is cut short. *)
Theorem new_truncated filename h1 pool h2 co ce :
  header1_ranges h1 -> magic h1 = JAVA_MAGIC ->
  pool_wf pool -> Z.of_nat (length (entries pool)) = constantPoolCount h1 - 1 ->
  header2_ranges h2 ->
  JavaClassFile.new filename (mkIO (cut_file h1 pool h2) co ce) =
  Ok (cut_class h1 pool h2) (mkIO [] co ce).
Proof. apply new_cut. Qed.

(** C37: on such a file [main] runs the interpreter, which finds no
    method [main]: the process ends with status 1 and the message of a
    missing method, not with a message about the file. *)
Theorem main_truncated depth prog file h1 pool h2 co ce :
  header1_ranges h1 -> magic h1 = JAVA_MAGIC ->
  pool_wf pool -> Z.of_nat (length (entries pool)) = constantPoolCount h1 - 1 ->
  header2_ranges h2 ->
  main (S depth) [prog; file] (mkIO (cut_file h1 pool h2) co ce) =
  Fault (Exit 1) (mkIO [] (co ++ no_method_lines "main") ce).
Proof.
  intros. eapply main_no_methods; [by apply new_cut | done].
Qed.

(** C38: a file with another magic number: the constructor reads its
    ten bytes, reports it and returns, [main] runs the executor all the
    same, which finds no method [main] and exits with status 1; the
    rest of the file is never read. *)
Theorem main_bad_magic depth prog file hdr rest co ce :
  length hdr = 10%nat -> magic (header1_of hdr) <> JAVA_MAGIC ->
  main (S depth) [prog; file] (mkIO (hdr ++ rest) co ce) =
  Fault (Exit 1)
    (mkIO rest ((co ++ [JavaClassFile.not_a_class_message file]) ++
                no_method_lines "main") ce).
Proof.
  intros Hl Hm. eapply main_no_methods; [by apply new_bad_magic | done].
Qed.

(** An attribute whose payload the file does not hold in full is
    read all the same: [read] allocates [attribute_length] bytes, the
    stream fills as many as it has, and the attribute is returned with
    the rest of its buffer unwritten and the stream at its end. *)
Theorem AttributeInfo_read_truncated ni len (bs : list byte) co ce :
  in_range 2 ni -> in_range 4 len -> Z.of_nat (length bs) <= len ->
  AttributeInfo.read (mkIO (write_u16 ni ++ write_u32 len ++ bs) co ce) =
  Ok (AttributeInfo.mk ni len bs) (mkIO [] co ce).
Proof. apply AttributeInfo_read_cut. Qed.

(** ** The theorems on small files *)

(** Magic, version 52.0, an empty pool and [header2]: the first 18
    bytes of the smallest class file. *)
Lemma cut_file_empty :
  cut_file (mkHeader1 JAVA_MAGIC 0 52 1) (mkPool []) (mkHeader2 0 0 0 0) =
  take 18 empty_class.
Proof. by vm_compute. Qed.

(** The class made of a file cut after a [header2] that announces two
    interfaces. *)
Lemma cut_class_two :
  cut_class (mkHeader1 JAVA_MAGIC 0 52 1) (mkPool []) (mkHeader2 0 0 0 2) =
  JavaClassFile.mk true (mkHeader1 JAVA_MAGIC 0 52 1) (Some (mkHeader2 0 0 0 2))
    (Some (mkPool [])) (Some [None; None]) 0 (Some []) 0 (Some []) 0 (Some []).
Proof. reflexivity. Qed.

Lemma new_truncated_witness :
  JavaClassFile.new "Empty.class"
    (mkIO (cut_file (mkHeader1 JAVA_MAGIC 0 52 1) (mkPool []) (mkHeader2 0 0 0 2)) [] []) =
  Ok (cut_class (mkHeader1 JAVA_MAGIC 0 52 1) (mkPool []) (mkHeader2 0 0 0 2))
     (mkIO [] [] []).
Proof.
  apply (new_truncated "Empty.class" (mkHeader1 JAVA_MAGIC 0 52 1) (mkPool [])
           (mkHeader2 0 0 0 2) [] []);
    first [by apply Forall_nil | by vm_compute].
Defined.

Lemma main_truncated_witness :
  main 1 ["zeravm"; "Empty.class"]
    (mkIO (cut_file (mkHeader1 JAVA_MAGIC 0 52 1) (mkPool []) (mkHeader2 0 0 0 0)) [] []) =
  Fault (Exit 1) (mkIO [] ([] ++ no_method_lines "main") []).
Proof.
  apply (main_truncated 0 "zeravm" "Empty.class" (mkHeader1 JAVA_MAGIC 0 52 1)
           (mkPool []) (mkHeader2 0 0 0 0) [] []);
    first [by apply Forall_nil | by vm_compute].
Defined.

Lemma main_bad_magic_witness :
  main 1 ["zeravm"; "Main.class"] (mkIO (repeat Byte.x00 10 ++ [Byte.x01]) [] []) =
  Fault (Exit 1)
    (mkIO [Byte.x01] ["Main.class: not a Java Class file!";
              "Exception: Trying to get Code Attribute from nullptr method!";
              "           Method name: main"] []).
Proof.
  apply (main_bad_magic 0 "zeravm" "Main.class" (repeat Byte.x00 10) [Byte.x01] [] []);
    by vm_compute.
Defined.

Lemma AttributeInfo_read_truncated_witness :
  AttributeInfo.read (mkIO (write_u16 1 ++ write_u32 12 ++ [Byte.x00; Byte.x02]) [] []) =
  Ok (AttributeInfo.mk 1 12 [Byte.x00; Byte.x02]) (mkIO [] [] []).
Proof.
  apply (AttributeInfo_read_truncated 1 12 [Byte.x00; Byte.x02] [] []);
    by vm_compute.
Defined.
