(* ===== verification/Hello.v ===== *)
(** * Hello: a class file to run the theorems on

    [hello] is the class of the specification's example: one method [main]
    whose code is GETSTATIC System.out; LDC "Hi"; INVOKEVIRTUAL println;
    RETURN.  [hello_bytes] is the file, written with [Encode.write_class];
    [hello_machine] is the interpreter's state once the constructor has
    parsed it.  The building blocks ([utf8], [method], [class_file]) are
    shared by the examples of the later files. *)

From Stdlib Require Import ZArith List String Ascii Lia.
From stdpp Require Import base tactics option list strings.
From coqutil Require Import Byte Word.LittleEndianList.
From S2P Require Import Prelude ByteCodec Stream ConstantPool Records ClassFile.
From S2P Require Import Encode Executor.

#[local] Open Scope Z_scope.
#[local] Open Scope string_scope.

(** ** Building blocks *)

Definition utf8 (s : string) : ConstantPoolEntry :=
  mkEntry 1 (U_Utf8 (Z.of_nat (String.length s)) s).
Definition class_ (name_index : Z) : ConstantPoolEntry := mkEntry 7 (U_Class name_index).
Definition string_ (i : Z) : ConstantPoolEntry := mkEntry 8 (U_String i).
Definition fieldref (c n : Z) : ConstantPoolEntry := mkEntry 9 (U_Reference c n).
Definition methodref (c n : Z) : ConstantPoolEntry := mkEntry 10 (U_Reference c n).
Definition name_and_type (n d : Z) : ConstantPoolEntry := mkEntry 12 (U_NameAndType n d).

(** A method whose only attribute is its code. *)
Definition method (name_index descriptor_index code_name_index : Z)
    (code : list byte) : MethodEntry.t :=
  let payload := write_code 2 1 code in
  MethodEntry.mk 9 name_index descriptor_index 1
    [AttributeInfo.mk code_name_index (Z.of_nat (length payload)) payload].

(** A class with no interfaces, fields or class attributes. *)
Definition class_file (pool : list ConstantPoolEntry) (methods : list MethodEntry.t)
    : JavaClassFile.t :=
  JavaClassFile.mk true
    (mkHeader1 JAVA_MAGIC 0 52 (Z.of_nat (length pool) + 1))
    (Some (mkHeader2 33 2 4 0)) (Some (mkPool pool)) None
    0 (Some []) (Z.of_nat (length methods)) (Some methods) 0 (Some []).

(** The process's state at start: the file's bytes, nothing written. *)
Definition start (file : list byte) : IO := mkIO file [] [].

Definition argv : list string := ["zeravm"; "Main.class"].

(** ** [hello] *)

Definition hello_pool : list ConstantPoolEntry :=
  [ utf8 "Main";                         (* 1 *)
    class_ 1;                            (* 2 *)
    utf8 "java/lang/Object";             (* 3 *)
    class_ 3;                            (* 4 *)
    utf8 "java/lang/System";             (* 5 *)
    class_ 5;                            (* 6 *)
    utf8 "out";                          (* 7 *)
    utf8 "Ljava/io/PrintStream;";        (* 8 *)
    name_and_type 7 8;                   (* 9 *)
    fieldref 6 9;                        (* 10 *)
    utf8 "Hi";                           (* 11 *)
    string_ 11;                          (* 12 *)
    utf8 "java/io/PrintStream";          (* 13 *)
    class_ 13;                           (* 14 *)
    utf8 "println";                      (* 15 *)
    utf8 "(Ljava/lang/String;)V";        (* 16 *)
    name_and_type 15 16;                 (* 17 *)
    methodref 14 17;                     (* 18 *)
    utf8 "main";                         (* 19 *)
    utf8 "([Ljava/lang/String;)V";       (* 20 *)
    utf8 "Code" ].                       (* 21 *)

Definition hello_code : list byte :=
  [ Byte.xb2; Byte.x00; Byte.x0a;        (* GETSTATIC #10 *)
    Byte.x12; Byte.x0c;                  (* LDC #12 *)
    Byte.xb6; Byte.x00; Byte.x12;        (* INVOKEVIRTUAL #18 *)
    Byte.xb1 ].                          (* RETURN *)

Definition hello : JavaClassFile.t :=
  class_file hello_pool [method 19 20 21 hello_code].

Definition hello_bytes : list byte := write_class hello.

(** The interpreter's state when [main] calls [run]. *)
Definition hello_machine : Machine := mkMachine hello [] (start []).

(** The pointers [run] obtains for the method [main] of [hello]. *)
Definition hello_codeattr : BufPtr := mkBufPtr 0 0 0.
Definition hello_code_ptr : BufPtr := mkBufPtr 0 0 sizeof_CodeAttribute.

(** [hello] after [get_code_attribute] has swapped the header of its code. *)
Definition hello_running : Machine :=
  final (get_code_attribute (Some 0%nat) "main" hello_machine).

(** The constructor decodes [hello_bytes] to [hello]. *)
Lemma hello_parses :
  JavaClassFile.new "Main.class" (start hello_bytes) = Ok hello (start []).
Proof. by vm_compute. Qed.

(** The run of the specification's example. *)
Lemma hello_runs :
  main 1 argv (start hello_bytes) =
  Ok 0 (mkIO [] ["[main] Length of LVA: 1"; "Hi"; "Return!"] []).
Proof. by vm_compute. Qed.
