(* ===== verification/Cursor.v ===== *)
(** * Cursor: how [step] moves the instruction cursor

    [step] increments the cursor while it reads operands and once more at
    its end.  [insn_length] is the sum for each opcode; [step_cursor]
    states that a step that returns has advanced the cursor by exactly
    that much, whatever the nested call did.  The file also holds the
    operations of the interpreter that only read the state, the faults
    [step] can end in, and the monotonicity of [run] in its call depth. *)

From Stdlib Require Import ZArith List String Ascii Lia.
From stdpp Require Import base tactics option list strings.
From coqutil Require Import Byte Word.LittleEndianList.
From S2P Require Import Prelude ByteCodec Stream ConstantPool Records ClassFile.
From S2P Require Import Encode Executor Hello.

#[local] Open Scope Z_scope.
#[local] Open Scope m_scope.

(** The bytes an instruction occupies: the opcode and its operands. *)
Definition insn_length (op : Z) : nat :=
  if op_is op GETSTATIC then 3
  else if op_is op LDC then 2
  else if op_is op INVOKEVIRTUAL then 3
  else if op_is op INVOKESTATIC then 3
  else if op_is op SIPUSH then 3
  else 1.

(** The opcodes whose branch of [step] reaches the final [cursor++]. *)
Definition continues (op : Z) : bool :=
  op_is op GETSTATIC || op_is op LDC || op_is op INVOKEVIRTUAL
  || op_is op INVOKESTATIC || op_is op SIPUSH || op_is op RETURN.

(** ** Operations that leave the state as it is *)

Section ReadOnly.
Context {S : Type}.

Lemma pool_entry_pure pool idx : keeps (=) (@pool_entry S pool idx).
Proof. unfold pool_entry. keeps_with (@eq S). Qed.

Lemma member_pure {A} (o : option A) : keeps (=) (@member S A o).
Proof. unfold member. keeps_with (@eq S). Qed.

Lemma pool_utf8_pure pool idx : keeps (=) (@pool_utf8 S pool idx).
Proof.
  unfold pool_utf8. apply (keeps_bind eq); [apply pool_entry_pure|].
  intros. apply member_pure.
Qed.

Hint Resolve pool_entry_pure member_pure pool_utf8_pure : zera.

Lemma get_attribute_loop_pure pool me name n i :
  keeps (=) (@MethodEntry.get_attribute_loop S pool me name n i).
Proof.
  revert i. induction n as [|n IH]; intros i; simpl; keeps_with (@eq S).
Qed.

Lemma get_method_loop_pure k name n i :
  keeps (=) (@JavaClassFile.get_method_loop S k name n i).
Proof.
  revert i. induction n as [|n IH]; intros i; simpl; keeps_with (@eq S).
Qed.

End ReadOnly.

#[export] Hint Resolve pool_entry_pure member_pure pool_utf8_pure
  get_attribute_loop_pure get_method_loop_pure : zera.

Lemma the_pool_pure : keeps (=) the_pool.
Proof. unfold the_pool. keeps_with (@eq Machine). Qed.

Lemma buffer_pure p : keeps (=) (buffer p).
Proof. unfold buffer. keeps_with (@eq Machine). Qed.

#[export] Hint Resolve the_pool_pure buffer_pure : zera.

Lemma code_byte_pure p c : keeps (=) (code_byte p c).
Proof. unfold code_byte. keeps_with (@eq Machine). Qed.

#[export] Hint Resolve code_byte_pure : zera.

Lemma code_u16_pure p c : keeps (=) (code_u16 p c).
Proof. unfold code_u16. keeps_with (@eq Machine). Qed.

Lemma code_attribute_pure p : keeps (=) (code_attribute p).
Proof. unfold code_attribute. keeps_with (@eq Machine). Qed.

Lemma resolve_pure idx : keeps (=) (resolve idx).
Proof. unfold resolve. keeps_with (@eq Machine). Qed.

Lemma top_pure : keeps (=) top.
Proof. unfold top. keeps_with (@eq Machine). Qed.

Lemma get_method_pure name : keeps (=) (get_method name).
Proof.
  unfold get_method, JavaClassFile.get_method. keeps_with (@eq Machine).
Qed.

Lemma get_Code_pure m : keeps (=) (get_Code m).
Proof. unfold get_Code, MethodEntry.get_attribute. keeps_with (@eq Machine). Qed.

#[export] Hint Resolve code_u16_pure code_attribute_pure resolve_pure top_pure
  get_method_pure get_Code_pure : zera.

Lemma buffer_Ok p s buf s' :
  buffer p s = Ok buf s' <->
  s' = s /\ info_at (klass s) (buf_method p) (buf_attr p) = Some buf.
Proof.
  unfold buffer, bind, get, or_ub.
  destruct (info_at (klass s) (buf_method p) (buf_attr p)); simpl; unfold ret, fail;
    split; try intros [= <- <-]; try intros [-> [= <-]]; try done.
Qed.

(** What a successful [codeptr[cursor]] tells. *)
Lemma code_byte_Ok p c s v s' :
  code_byte p c s = Ok v s' ->
  s' = s /\
  exists buf b, info_at (klass s) (buf_method p) (buf_attr p) = Some buf /\
    buf !! (buf_off p + c)%nat = Some b /\ v = byte.unsigned b.
Proof.
  intros H. split; [symmetry; exact (keeps_Ok _ _ _ _ _ (code_byte_pure p c) H)|].
  unfold code_byte, buffer in H. inv_ok. eauto.
Qed.

(** ** The cursor *)

Lemma execute_cursor run codeptr cursor op :
  returns (fun c => S c = (cursor + insn_length op)%nat /\ continues op = true)
          (execute run codeptr cursor op).
Proof.
  unfold execute, insn_length, continues.
  returns_with ltac:(simpl; split; [lia | done]).
Qed.

Lemma step_cursor run codeptr cursor s cursor' s' :
  step run codeptr cursor s = Ok cursor' s' ->
  exists op, code_byte codeptr cursor s = Ok op s /\
    cursor' = (cursor + insn_length op)%nat /\ continues op = true.
Proof.
  unfold step. intros H. inv_ok.
  match goal with H : code_byte _ _ _ = _ |- _ =>
    pose proof (code_byte_Ok _ _ _ _ _ H) as [-> _] end.
  match goal with H : execute _ _ _ _ _ = _ |- _ =>
    apply execute_cursor in H as [? ?] end.
  eexists; split; [eassumption|]. split; [lia | done].
Qed.

Lemma insn_length_pos op : (1 <= insn_length op <= 3)%nat.
Proof. unfold insn_length. repeat case_match; lia. Qed.

(** ** The faults of a step *)

Definition not_LoopFuel (f : fault) : Prop := f <> LoopFuel.

Section Faults.
Context {S : Type}.

Lemma pool_entry_faults pool idx : faults_in not_LoopFuel (@pool_entry S pool idx).
Proof. unfold pool_entry. faults_in_with ltac:(done). Qed.

Lemma member_faults {A} (o : option A) : faults_in not_LoopFuel (@member S A o).
Proof. unfold member. faults_in_with ltac:(done). Qed.

Hint Resolve pool_entry_faults member_faults : zera.

Lemma pool_utf8_faults pool idx : faults_in not_LoopFuel (@pool_utf8 S pool idx).
Proof. unfold pool_utf8. faults_in_with ltac:(done). Qed.

Hint Resolve pool_utf8_faults : zera.

Lemma get_attribute_loop_faults pool me name n i :
  faults_in not_LoopFuel (@MethodEntry.get_attribute_loop S pool me name n i).
Proof.
  revert i. induction n as [|n IH]; intros i; simpl; faults_in_with ltac:(done).
Qed.

Lemma get_method_loop_faults k name n i :
  faults_in not_LoopFuel (@JavaClassFile.get_method_loop S k name n i).
Proof.
  revert i. induction n as [|n IH]; intros i; simpl; faults_in_with ltac:(done).
Qed.

End Faults.

#[export] Hint Resolve pool_entry_faults member_faults pool_utf8_faults
  get_attribute_loop_faults get_method_loop_faults : zera.

Lemma buffer_faults p : faults_in not_LoopFuel (buffer p).
Proof. unfold buffer. faults_in_with ltac:(done). Qed.

Lemma the_pool_faults : faults_in not_LoopFuel the_pool.
Proof. unfold the_pool. faults_in_with ltac:(done). Qed.

Lemma print_faults line : faults_in not_LoopFuel (print line).
Proof. apply faults_in_modify. Qed.

Lemma push_faults a : faults_in not_LoopFuel (push a).
Proof. apply faults_in_modify. Qed.

Lemma top_faults : faults_in not_LoopFuel top.
Proof. unfold top. faults_in_with ltac:(done). Qed.

Lemma pop_faults : faults_in not_LoopFuel pop.
Proof. unfold pop. faults_in_with ltac:(done). Qed.

#[export] Hint Resolve buffer_faults the_pool_faults print_faults push_faults
  top_faults pop_faults : zera.

Lemma code_byte_faults p c : faults_in not_LoopFuel (code_byte p c).
Proof. unfold code_byte. faults_in_with ltac:(done). Qed.

#[export] Hint Resolve code_byte_faults : zera.

Lemma code_u16_faults p c : faults_in not_LoopFuel (code_u16 p c).
Proof. unfold code_u16. faults_in_with ltac:(done). Qed.

Lemma code_attribute_faults p : faults_in not_LoopFuel (code_attribute p).
Proof. unfold code_attribute. faults_in_with ltac:(done). Qed.

Lemma resolve_faults idx : faults_in not_LoopFuel (resolve idx).
Proof. unfold resolve. faults_in_with ltac:(done). Qed.

Lemma print_entry_faults l e : faults_in not_LoopFuel (print_entry l e).
Proof. unfold print_entry. faults_in_with ltac:(done). Qed.

Lemma get_method_faults name : faults_in not_LoopFuel (get_method name).
Proof.
  unfold get_method, JavaClassFile.get_method. faults_in_with ltac:(done).
Qed.

Lemma get_Code_faults m : faults_in not_LoopFuel (get_Code m).
Proof.
  unfold get_Code, MethodEntry.get_attribute. faults_in_with ltac:(done).
Qed.

#[export] Hint Resolve code_u16_faults code_attribute_faults resolve_faults
  print_entry_faults get_method_faults get_Code_faults : zera.

Lemma get_code_attribute_faults entry name :
  faults_in not_LoopFuel (get_code_attribute entry name).
Proof.
  unfold get_code_attribute. faults_in_with ltac:(done).
Qed.

Lemma get_code_faults method : faults_in not_LoopFuel (get_code method).
Proof. unfold get_code. faults_in_with ltac:(done). Qed.

#[export] Hint Resolve get_code_attribute_faults get_code_faults : zera.

Lemma execute_faults run codeptr cursor op :
  (forall name, faults_in not_LoopFuel (run name)) ->
  faults_in not_LoopFuel (execute run codeptr cursor op).
Proof.
  intros Hrun. unfold execute. faults_in_with ltac:(done).
Qed.

Lemma step_faults run codeptr cursor :
  (forall name, faults_in not_LoopFuel (run name)) ->
  faults_in not_LoopFuel (step run codeptr cursor).
Proof.
  intros Hrun. unfold step.
  apply faults_in_bind; [apply code_byte_faults|]. intros op.
  apply faults_in_bind; [by apply execute_faults|]. intros c. apply faults_in_ret.
Qed.

(** ** More call depth, same behaviour *)

Lemma execute_below run1 run2 codeptr cursor op :
  (forall name, below (run1 name) (run2 name)) ->
  below (execute run1 codeptr cursor op) (execute run2 codeptr cursor op).
Proof. intros Hrun. unfold execute. below_struct. Qed.

Lemma step_below run1 run2 codeptr cursor :
  (forall name, below (run1 name) (run2 name)) ->
  below (step run1 codeptr cursor) (step run2 codeptr cursor).
Proof.
  intros Hrun. unfold step.
  apply below_bind; [apply below_refl|]. intros op.
  apply below_bind; [by apply execute_below|]. intros c. apply below_refl.
Qed.

Lemma run_loop_below fuel run1 run2 codeattr code cursor :
  (forall name, below (run1 name) (run2 name)) ->
  below (run_loop fuel run1 codeattr code cursor)
        (run_loop fuel run2 codeattr code cursor).
Proof.
  intros Hrun. revert cursor. induction fuel as [|fuel IH]; intros cursor; simpl.
  - apply below_refl.
  - apply below_bind; [apply below_refl|]. intros ca.
    case_match; [|apply below_refl].
    apply below_bind; [by apply step_below|]. intros c. apply IH.
Qed.

Lemma run_below_succ depth name : below (run depth name) (run (S depth) name).
Proof.
  revert name. induction depth as [|depth IH]; intros name.
  - apply below_CallDepth.
  - cbn [run]. do 6 (apply below_bind; [apply below_refl|]; intros).
    by apply run_loop_below.
Qed.

(** The call depth is only fuel.  If [run] with depth [d] ends
    otherwise than by exhausting the depth, then with any larger depth it
    ends in the same way, in the same state. *)
Theorem run_depth_mono d d' name s :
  (d <= d')%nat ->
  (forall s', run d name s <> Fault CallDepth s') ->
  run d' name s = run d name s.
Proof.
  intros Hle. revert s. change (below (run d name) (run d' name)).
  induction Hle as [|d' _ IH]; [apply below_refl|].
  etrans; [exact IH | apply run_below_succ].
Qed.

(** C6: a call of [step] that returns has read the opcode at [cursor],
    left the state of that read untouched, and moved the cursor forward by
    the length of that instruction: 3 for GETSTATIC, INVOKEVIRTUAL,
    INVOKESTATIC and SIPUSH, 2 for LDC, 1 for RETURN.  No other opcode
    lets [step] return. *)
Theorem step_consumes_instruction run codeptr cursor s cursor' s' :
  step run codeptr cursor s = Ok cursor' s' ->
  exists op, code_byte codeptr cursor s = Ok op s /\
    cursor' = (cursor + insn_length op)%nat /\ continues op = true.
Proof. apply step_cursor. Qed.

Lemma step_consumes_instruction_witness :
  exists op, code_byte hello_code_ptr 0 hello_running = Ok op hello_running /\
    3%nat = (0 + insn_length op)%nat /\ continues op = true.
Proof.
  apply (step_consumes_instruction (run 0) hello_code_ptr 0 hello_running 3
           (final (step (run 0) hello_code_ptr 0 hello_running))).
  by vm_compute.
Defined.

Lemma run_depth_mono_witness :
  run 7 "main" hello_machine = run 1 "main" hello_machine.
Proof.
  apply (run_depth_mono 1 7 "main" hello_machine); [lia|].
  intros s'. by vm_compute.
Defined.
