(* ===== verification/Store.v ===== *)
(** * Store: what the interpreter may change in the class file

    The only writes to the class file are the header swaps of
    [get_code_attribute].  [erase] forgets the eight header bytes of every
    method attribute; two class files are similar ([klass_sim]) when they
    are equal once erased.  Similar class files have the same constant
    pool, give the same answers to [get_method] and to the search for the
    Code attribute, and hold the same code bytes.  [evolves] is the
    relation between a state of the machine and a later one: the class
    file stays similar, the input is not read, [cout] only grows and
    [cerr] is not written.  Every operation of the interpreter keeps it. *)

From Stdlib Require Import ZArith List String Ascii Lia.
From stdpp Require Import base tactics option list strings.
From coqutil Require Import Byte Word.LittleEndianList.
From S2P Require Import Prelude ByteCodec Stream ConstantPool Records ClassFile.
From S2P Require Import Encode Executor Hello Cursor.

#[local] Open Scope Z_scope.
#[local] Open Scope m_scope.

(** ** Erasure *)

Definition erase_info (buf : list byte) : list byte :=
  if decide (sizeof_CodeAttribute <= length buf)%nat
  then replicate sizeof_CodeAttribute Byte.x00 ++ drop sizeof_CodeAttribute buf
  else buf.

Definition erase_attr (a : AttributeInfo.t) : AttributeInfo.t :=
  set_attr_info (erase_info (AttributeInfo.info a)) a.

Definition erase_method (me : MethodEntry.t) : MethodEntry.t :=
  MethodEntry.mk (MethodEntry.access_flags me) (MethodEntry.name_index me)
    (MethodEntry.descriptor_index me) (MethodEntry.attributes_count me)
    (erase_attr <$> MethodEntry.attributes me).

Definition erase (k : JavaClassFile.t) : JavaClassFile.t :=
  JavaClassFile.mk (JavaClassFile.ok k) (JavaClassFile.header1 k)
    (JavaClassFile.header2 k) (JavaClassFile.const_pool k)
    (JavaClassFile.interfaces k) (JavaClassFile.fields_count k)
    (JavaClassFile.fields k) (JavaClassFile.methods_count k)
    (fmap (M := list) erase_method <$> JavaClassFile.methods k)
    (JavaClassFile.attributes_count k) (JavaClassFile.attributes k).

(** Equal up to the headers of the method attributes. *)
Definition klass_sim (k k' : JavaClassFile.t) : Prop := erase k = erase k'.

#[export] Instance klass_sim_dec k k' : Decision (klass_sim k k').
Proof. unfold klass_sim. apply _. Defined.

#[export] Instance klass_sim_equiv : Equivalence klass_sim.
Proof.
  unfold klass_sim. split.
  - by intros k.
  - by intros k k'.
  - intros k1 k2 k3. congruence.
Qed.

(** A later state of the machine. *)
Definition evolves (s s' : Machine) : Prop :=
  klass_sim (klass s) (klass s') /\
  stream (io s') = stream (io s) /\
  cout (io s) `prefix_of` cout (io s') /\
  cerr (io s') = cerr (io s).

#[export] Instance evolves_preorder : PreOrder evolves.
Proof.
  split.
  - by intros s.
  - intros a b c (K1 & S1 & O1 & E1) (K2 & S2 & O2 & E2).
    repeat split; [by etrans | congruence | by etrans | congruence].
Qed.

(** ** Erasure and the store *)

Lemma erase_info_length buf : length (erase_info buf) = length buf.
Proof.
  unfold erase_info. case_decide; [|done].
  rewrite length_app, length_replicate, length_drop. lia.
Qed.

Lemma erase_info_swap_header buf :
  (sizeof_CodeAttribute <= length buf)%nat ->
  erase_info (swap_header buf) = erase_info buf.
Proof.
  intros H. unfold erase_info.
  rewrite swap_header_length, swap_header_drop by done. by rewrite !decide_True.
Qed.

Lemma erase_info_eq buf buf' :
  erase_info buf' = erase_info buf ->
  length buf' = length buf /\
  drop sizeof_CodeAttribute buf' = drop sizeof_CodeAttribute buf.
Proof.
  intros H. pose proof (f_equal length H) as L. rewrite !erase_info_length in L.
  split; [done|]. unfold erase_info in H. rewrite L in H.
  case_decide; [|by rewrite H]. by apply app_inv_head in H.
Qed.

Lemma method_at_erase k m :
  method_at (erase k) m = erase_method <$> method_at k m.
Proof.
  unfold method_at. destruct k as [? ? ? ? ? ? ? ? ms ? ?]; simpl.
  destruct ms as [ms|]; simpl; [by rewrite list_lookup_fmap | done].
Qed.

Lemma info_at_erase k m a :
  info_at (erase k) m a = erase_info <$> info_at k m a.
Proof.
  unfold info_at. rewrite method_at_erase.
  destruct (method_at k m) as [me|]; simpl; [|done].
  rewrite list_lookup_fmap. by destruct (MethodEntry.attributes me !! a).
Qed.

(** Replacing a buffer by one with the same erasure is invisible after
    erasure. *)
Lemma erase_set_info k m a buf buf' :
  info_at k m a = Some buf -> erase_info buf' = erase_info buf ->
  erase (set_info m a buf' k) = erase k.
Proof.
  unfold info_at, method_at. intros Hi He.
  destruct k as [? ? ? ? ? ? ? ? ms ? ?]; simpl in *.
  destruct ms as [ms|]; simpl in *; [|done].
  unfold erase, set_info; simpl. do 2 f_equal.
  destruct (ms !! m) as [me|] eqn:Hm; simpl in *; [|done].
  destruct (MethodEntry.attributes me !! a) as [at'|] eqn:Ha; simpl in *; [|done].
  inv Hi. apply list_eq. intros i. rewrite !list_lookup_fmap.
  destruct (decide (i = m)) as [->|Hne];
    [rewrite list_lookup_alter_eq | by rewrite list_lookup_alter_ne].
  rewrite Hm. simpl. f_equal. unfold erase_method, set_method_info. simpl.
  f_equal. apply list_eq. intros j. rewrite !list_lookup_fmap.
  destruct (decide (j = a)) as [->|Hne];
    [rewrite list_lookup_alter_eq | by rewrite list_lookup_alter_ne].
  rewrite Ha. simpl. f_equal. unfold erase_attr, set_attr_info. simpl.
  by rewrite He.
Qed.

(** ** What similar class files share *)

(** The members [run] never writes are the same in similar class files:
    [klass_sim] may be rewritten under them. *)
Section Members.
Context {A : Type} (member_of : JavaClassFile.t -> A).
Hypothesis member_erase : forall k, member_of (erase k) = member_of k.

Lemma member_sim : Proper (klass_sim ==> eq) member_of.
Proof. intros k k' H. by rewrite <- (member_erase k), H, member_erase. Qed.

End Members.

#[export] Instance ok_sim : Proper (klass_sim ==> eq) JavaClassFile.ok.
Proof. by apply member_sim. Qed.

#[export] Instance header1_sim : Proper (klass_sim ==> eq) JavaClassFile.header1.
Proof. by apply member_sim. Qed.

#[export] Instance header2_sim : Proper (klass_sim ==> eq) JavaClassFile.header2.
Proof. by apply member_sim. Qed.

#[export] Instance const_pool_sim : Proper (klass_sim ==> eq) JavaClassFile.const_pool.
Proof. by apply member_sim. Qed.

#[export] Instance interfaces_sim : Proper (klass_sim ==> eq) JavaClassFile.interfaces.
Proof. by apply member_sim. Qed.

#[export] Instance fields_sim : Proper (klass_sim ==> eq) JavaClassFile.fields.
Proof. by apply member_sim. Qed.

#[export] Instance methods_count_sim :
  Proper (klass_sim ==> eq) JavaClassFile.methods_count.
Proof. by apply member_sim. Qed.

#[export] Instance attributes_sim : Proper (klass_sim ==> eq) JavaClassFile.attributes.
Proof. by apply member_sim. Qed.

Lemma klass_sim_const_pool k k' :
  klass_sim k k' -> JavaClassFile.const_pool k' = JavaClassFile.const_pool k.
Proof. intros H. by apply (f_equal JavaClassFile.const_pool) in H. Qed.

Lemma klass_sim_info k k' m a buf :
  klass_sim k k' -> info_at k m a = Some buf ->
  exists buf', info_at k' m a = Some buf' /\ length buf' = length buf /\
    drop sizeof_CodeAttribute buf' = drop sizeof_CodeAttribute buf.
Proof.
  intros H Hi. pose proof (f_equal (fun k => info_at k m a) H) as E.
  simpl in E. rewrite !info_at_erase, Hi in E.
  destruct (info_at k' m a) as [buf'|]; [|done].
  exists buf'. split; [done|]. apply erase_info_eq. by inv E.
Qed.

Lemma get_attribute_loop_erase {S} pool me name n i (s : S) :
  MethodEntry.get_attribute_loop pool (erase_method me) name n i s =
  MethodEntry.get_attribute_loop pool me name n i s.
Proof.
  revert i s. induction n as [|n IH]; intros i s; cbn [MethodEntry.get_attribute_loop];
    [done|].
  apply bind_ext. intros p s1. cbn [erase_method MethodEntry.attributes].
  rewrite list_lookup_fmap.
  destruct (MethodEntry.attributes me !! i) as [at'|]; [|reflexivity].
  cbn [fmap option_fmap option_map or_ub]. rewrite !bind_ret_l.
  apply bind_ext. intros aname s2. case_match; [done | apply IH].
Qed.

Lemma get_method_loop_erase {S} k name n i (s : S) :
  JavaClassFile.get_method_loop (erase k) name n i s =
  JavaClassFile.get_method_loop k name n i s.
Proof.
  revert i s. induction n as [|n IH]; intros i s; cbn [JavaClassFile.get_method_loop];
    [done|].
  cbn [erase JavaClassFile.methods JavaClassFile.const_pool].
  destruct (JavaClassFile.methods k) as [ms|]; [|reflexivity].
  cbn [fmap option_fmap option_map or_ub]. rewrite !bind_ret_l, list_lookup_fmap.
  destruct (ms !! i) as [me|]; [|reflexivity].
  cbn [fmap option_fmap option_map or_ub]. rewrite !bind_ret_l.
  apply bind_ext. intros p s1. apply bind_ext. intros mname s2.
  case_match; [done | apply IH].
Qed.

(** Similar class files answer [get_method] alike. *)
Lemma klass_sim_get_method {S} k k' name (s : S) :
  klass_sim k k' ->
  JavaClassFile.get_method k' name s = JavaClassFile.get_method k name s.
Proof.
  intros H. unfold JavaClassFile.get_method.
  assert (JavaClassFile.methods_count k' = JavaClassFile.methods_count k) as ->
    by (by apply (f_equal JavaClassFile.methods_count) in H).
  by rewrite <- (get_method_loop_erase k'), <- (get_method_loop_erase k), <- H.
Qed.

(** Similar class files find the same Code attribute. *)
Lemma klass_sim_get_Code k k' m (s : Machine) me :
  klass_sim k k' -> method_at k m = Some me ->
  exists me', method_at k' m = Some me' /\
    MethodEntry.get_attribute me' (JavaClassFile.const_pool k') "Code" s =
    MethodEntry.get_attribute me (JavaClassFile.const_pool k) "Code" s.
Proof.
  intros H Hm. pose proof (f_equal (fun k => method_at k m) H) as E.
  simpl in E. rewrite !method_at_erase, Hm in E.
  destruct (method_at k' m) as [me'|]; [|done]. inv E.
  exists me'. split; [done|]. rewrite (klass_sim_const_pool _ _ H).
  unfold MethodEntry.get_attribute.
  rewrite <- (get_attribute_loop_erase _ me'), <- (get_attribute_loop_erase _ me).
  unfold erase_method. congruence.
Qed.

(** ** Every operation keeps [evolves] *)

Lemma keeps_pure {A} (m : M Machine A) : keeps (=) m -> keeps evolves m.
Proof. apply keeps_weaken. by intros s s' <-. Qed.

Lemma print_evolves line : keeps evolves (print line).
Proof.
  intros s. split; [done|]. split; [done|]. split; [by apply prefix_app_r | done].
Qed.

Lemma push_evolves a : keeps evolves (push a).
Proof. by intros s. Qed.

Lemma pop_evolves : keeps evolves pop.
Proof. intros s. unfold pop, bind, get. by destruct (action_stack s). Qed.

#[export] Hint Resolve print_evolves push_evolves pop_evolves : zera.

(** Prove [keeps evolves m] along the structure of [m]. *)
Ltac keeps_evolves :=
  repeat first
    [ solve [ eauto with zera ]
    | apply keeps_pure; solve [ eauto with zera ]
    | apply (keeps_bind evolves); [| intros ]
    | apply (keeps_ret evolves)
    | apply (keeps_fail evolves)
    | apply (keeps_or_ub evolves)
    | match goal with |- keeps _ (if ?x then _ else _) => destruct x end
    | match goal with |- keeps _ (match ?x with _ => _ end) => destruct x end ].

Lemma print_entry_evolves l e : keeps evolves (print_entry l e).
Proof. unfold print_entry. keeps_evolves. Qed.

#[export] Hint Resolve print_entry_evolves : zera.

(** The header swap keeps the class file similar. *)
Lemma swap_evolves m a buf s :
  info_at (klass s) m a = Some buf -> (sizeof_CodeAttribute <= length buf)%nat ->
  evolves s (mkMachine (set_info m a (swap_header buf) (klass s))
                       (action_stack s) (io s)).
Proof.
  intros Hi Hl. split; [|done]. simpl. unfold klass_sim. symmetry.
  apply erase_set_info with buf; [done | by apply erase_info_swap_header].
Qed.

Lemma get_code_attribute_evolves entry name :
  keeps evolves (get_code_attribute entry name).
Proof.
  unfold get_code_attribute. destruct entry as [m|]; [|keeps_evolves].
  apply (keeps_bind evolves); [keeps_evolves|]. intros codeattr_raw.
  apply (keeps_bind evolves); [keeps_evolves|]. intros a.
  apply (keeps_bind_Ok evolves); [keeps_evolves|].
  intros s buf s' [-> Hi]%buffer_Ok. simpl in Hi.
  case_decide; [by apply swap_evolves | reflexivity].
Qed.

Lemma get_code_evolves method : keeps evolves (get_code method).
Proof. unfold get_code. keeps_evolves. Qed.

#[export] Hint Resolve get_code_attribute_evolves get_code_evolves : zera.

Lemma execute_evolves run codeptr cursor op :
  (forall name, keeps evolves (run name)) ->
  keeps evolves (execute run codeptr cursor op).
Proof. intros Hrun. unfold execute. keeps_evolves. Qed.

Lemma step_evolves run codeptr cursor :
  (forall name, keeps evolves (run name)) ->
  keeps evolves (step run codeptr cursor).
Proof.
  intros Hrun. unfold step.
  apply (keeps_bind evolves); [keeps_evolves|]. intros op.
  apply (keeps_bind evolves); [by apply execute_evolves|]. intros c.
  apply keeps_ret, _.
Qed.

Lemma run_loop_evolves fuel run codeattr code cursor :
  (forall name, keeps evolves (run name)) ->
  keeps evolves (run_loop fuel run codeattr code cursor).
Proof.
  intros Hrun. revert cursor. induction fuel as [|fuel IH]; intros cursor; simpl.
  - apply keeps_fail, _.
  - apply (keeps_bind evolves); [keeps_evolves|]. intros ca.
    case_match; [|apply keeps_ret, _].
    apply (keeps_bind evolves); [by apply step_evolves | intros; apply IH].
Qed.

Lemma run_evolves depth name : keeps evolves (run depth name).
Proof.
  revert name. induction depth as [|depth IH]; intros name; cbn [run].
  - apply keeps_fail, _.
  - do 6 (apply (keeps_bind evolves); [keeps_evolves|]; intros).
    by apply run_loop_evolves.
Qed.

(** ** What [run] leaves alone *)

(** C12: whatever [run] does, however it ends, the class file it leaves
    differs from the one it found at most in the header bytes of method
    attributes, the input stream has not been read, [cerr] has not been
    written and the lines on [cout] are still there, more lines after
    them. *)
Theorem run_preserves_class_file depth name : keeps evolves (run depth name).
Proof. apply run_evolves. Qed.

(** The chain of [resolve] in a given pool. *)
Lemma resolve_on_pool idx s :
  resolve idx s =
  match JavaClassFile.const_pool (klass s) with
  | Some pool =>
      (entry <- pool_entry pool idx ;;
       ci <- member (Reference_class_index entry) ;;
       class_index <- pool_entry pool ci ;;
       ni <- member (Class_name_index class_index) ;;
       classname_index <- pool_entry pool ni ;;
       nti <- member (Reference_name_and_type_index entry) ;;
       name_type_index <- pool_entry pool nti ;;
       n <- member (NameAndType_name_idx name_type_index) ;;
       name <- pool_entry pool n ;;
       d <- member (NameAndType_descriptor_idx name_type_index) ;;
       descriptor <- pool_entry pool d ;;
       ret (mkResolved entry class_index classname_index name_type_index name descriptor)) s
  | None => Fault (Undefined NullPointer) s
  end.
Proof.
  unfold resolve, the_pool. unfold bind at 1 2, get.
  by destruct (JavaClassFile.const_pool (klass s)).
Qed.

Lemma resolve_sim idx s s' :
  klass_sim (klass s) (klass s') ->
  forall r, resolve idx s = Ok r s -> resolve idx s' = Ok r s'.
Proof.
  intros Hk%klass_sim_const_pool r. rewrite !resolve_on_pool, Hk.
  destruct (JavaClassFile.const_pool (klass s)) as [pool|]; [|done].
  apply stateless_Ok. unfold pool_entry, member. stateless_struct.
Qed.

(** Resolution is deterministic over a run: the six pool entries that
    an instruction's reference resolves to are the same in every later
    state of the machine, whatever has been executed in between. *)
Theorem resolve_stable depth name idx s r :
  resolve idx s = Ok r s ->
  resolve idx (final (run depth name s)) = Ok r (final (run depth name s)).
Proof.
  intros H. eapply resolve_sim; [|exact H]. apply (run_evolves depth name s).
Qed.

Lemma resolve_stable_witness :
  exists r, resolve 10 (final (run 1 "main" hello_machine)) =
            Ok r (final (run 1 "main" hello_machine)).
Proof.
  exists (match resolve 10 hello_machine with
          | Ok r _ => r
          | Fault _ _ => let e := utf8 EmptyString in mkResolved e e e e e e
          end).
  apply (resolve_stable 1 "main" 10 hello_machine). by vm_compute.
Defined.
