(* ===== verification/Termination.v ===== *)
(** * Termination: the loop of [run] needs no more fuel than it is given

    The [while] loop of [run] ends because every iteration that does not
    fault moves the cursor forward ([Cursor.step_cursor]) and an iteration
    whose cursor is outside the attribute's buffer faults on its first
    read.  The buffer keeps its size while the loop runs
    ([Store.run_evolves]).  So [S (length buf)] iterations are enough, and
    the fault [LoopFuel] is never the result of [run]. *)

From Stdlib Require Import ZArith List String Ascii Lia.
From stdpp Require Import base tactics option list strings.
From coqutil Require Import Byte Word.LittleEndianList.
From S2P Require Import Prelude ByteCodec Stream ConstantPool Records ClassFile.
From S2P Require Import Encode Executor Hello Cursor Store.

#[local] Open Scope Z_scope.
#[local] Open Scope m_scope.

(** The size of the buffer a pointer points into; 0 if there is none. *)
Definition buf_size (k : JavaClassFile.t) (p : BufPtr) : nat :=
  match info_at k (buf_method p) (buf_attr p) with
  | Some buf => length buf
  | None => O
  end.

(** The iterations the loop can still need at [cursor]. *)
Definition remaining (k : JavaClassFile.t) (code : BufPtr) (cursor : nat) : nat :=
  (buf_size k code - (buf_off code + cursor))%nat.

Lemma buf_size_sim k k' p : klass_sim k k' -> buf_size k' p = buf_size k p.
Proof.
  intros H. unfold buf_size.
  destruct (info_at k (buf_method p) (buf_attr p)) as [buf|] eqn:E.
  - by destruct (klass_sim_info _ _ _ _ _ H E) as (buf' & -> & -> & _).
  - destruct (info_at k' _ _) as [buf'|] eqn:E'; [|done].
    symmetry in H. destruct (klass_sim_info _ _ _ _ _ H E') as (? & ? & _).
    congruence.
Qed.

Lemma code_byte_in_buffer p c s v s' :
  code_byte p c s = Ok v s' -> (buf_off p + c < buf_size (klass s) p)%nat.
Proof.
  intros (_ & buf & b & Hi & Hb & _)%code_byte_Ok. unfold buf_size.
  rewrite Hi. by apply lookup_lt_Some in Hb.
Qed.

(** A step that returns leaves fewer iterations to go. *)
Lemma step_remaining run code cursor s cursor' s' :
  (forall name, keeps evolves (run name)) ->
  step run code cursor s = Ok cursor' s' ->
  (remaining (klass s') code cursor' < remaining (klass s) code cursor)%nat.
Proof.
  intros Hrun H.
  pose proof (keeps_Ok _ _ _ _ _ (step_evolves run code cursor Hrun) H) as [Hk _].
  apply step_cursor in H as (op & Hb%code_byte_in_buffer & -> & _).
  unfold remaining. rewrite (buf_size_sim _ _ _ Hk).
  pose proof (insn_length_pos op). lia.
Qed.

Section Loop.
Context (run : string -> M Machine unit).
Context (Hevolves : forall name, keeps evolves (run name)).
Context (Hfaults : forall name, faults_in not_LoopFuel (run name)).

Lemma run_loop_fuel fuel codeattr code cursor :
  forall s, (remaining (klass s) code cursor < fuel)%nat ->
  forall f s', run_loop fuel run codeattr code cursor s = Fault f s' ->
  not_LoopFuel f.
Proof.
  revert cursor. induction fuel as [|fuel IH]; intros cursor s Hlt f s' H; [lia|].
  cbn [run_loop] in H.
  apply bind_Fault_inv in H as [H|(ca & s1 & Hca & H)];
    [by eapply code_attribute_faults|].
  pose proof (keeps_Ok _ _ _ _ _ (code_attribute_pure codeattr) Hca) as <-.
  case_match; [|done].
  apply bind_Fault_inv in H as [H|(c' & s2 & Hstep & H)];
    [by eapply step_faults|].
  eapply IH; [|exact H].
  pose proof (step_remaining _ _ _ _ _ _ Hevolves Hstep). lia.
Qed.

End Loop.

Lemma run_fuel depth name : faults_in not_LoopFuel (run depth name).
Proof.
  revert name. induction depth as [|depth IH]; intros name; cbn [run].
  - by apply faults_in_fail.
  - do 5 (apply faults_in_bind; [faults_in_with ltac:(done)|]; intros).
    intros s f s' [H|(buf & s1 & Hb & H)]%bind_Fault_inv;
      [by eapply buffer_faults|].
    apply buffer_Ok in Hb as [-> Hb].
    eapply run_loop_fuel; [apply run_evolves | exact IH | | exact H].
    unfold remaining, buf_size. rewrite Hb. lia.
Qed.

(** C7: [run] never ends for want of loop fuel.  The bound
    [S (length buf)] it gives its [while] loop covers every run of the
    loop, whatever the code and however deep the calls. *)
Theorem run_never_LoopFuel depth name : faults_in not_LoopFuel (run depth name).
Proof. apply run_fuel. Qed.
