(* ===== verification/Lookup.v ===== *)
(** * Lookup: the linear searches by name

    [JavaClassFile::get_method] and [MethodEntry::get_attribute] are the
    same loop over different arrays: resolve the name of element [i]
    through the constant pool, return [i] if it is the name asked for,
    else go on.  [find_loop] is that loop over an abstract name function;
    the two loops of the model are instances of it, and the specification
    proved once for [find_loop] is what both promise: the index returned
    is the first whose name matches, and [nullptr] means no name in range
    matches.  The answers do not depend on the state. *)

From Stdlib Require Import ZArith List String Ascii Lia.
From stdpp Require Import base tactics option list strings.
From coqutil Require Import Byte Word.LittleEndianList.
From S2P Require Import Prelude ByteCodec Stream ConstantPool Records ClassFile.
From S2P Require Import Encode Executor Hello Cursor Store.

#[local] Open Scope Z_scope.
#[local] Open Scope m_scope.

(** ** The names, as pure functions *)

(** The name of method [j]: [const_pool->entries[methods[j].name_index - 1].Utf8.bytes]. *)
Definition method_name (k : JavaClassFile.t) (j : nat) : option string :=
  ms ← JavaClassFile.methods k; m ← ms !! j;
  p ← JavaClassFile.const_pool k; utf8_at p (MethodEntry.name_index m).

(** The name of attribute [j] of a method. *)
Definition attribute_name (pool : option ConstantPool) (me : MethodEntry.t)
    (j : nat) : option string :=
  p ← pool; a ← MethodEntry.attributes me !! j;
  utf8_at p (AttributeInfo.attribute_name_index a).

(** [r] is the first index from [i] on whose name is [name]. *)
Definition first_match (names : nat -> option string) (name : string)
    (i r : nat) : Prop :=
  (i <= r)%nat /\ names r = Some name /\
  forall j, (i <= j < r)%nat -> exists x, names j = Some x /\ x <> name.

(** No index in [[i, i + n)] has the name [name]; all have a name. *)
Definition no_match (names : nat -> option string) (name : string)
    (i n : nat) : Prop :=
  forall j, (i <= j < i + n)%nat -> exists x, names j = Some x /\ x <> name.

(** ** The generic loop *)

Section Find.
Context {S : Type} (name_at : nat -> M S string) (names : nat -> option string).
Context (name : string).
Hypothesis name_at_spec : forall j s x s',
  name_at j s = Ok x s' <-> s' = s /\ names j = Some x.

Fixpoint find_loop (n i : nat) : M S (option nat) :=
  match n with
  | O => ret None
  | Datatypes.S n' =>
      x <- name_at i ;;
      if String.eqb x name then ret (Some i) else find_loop n' (Datatypes.S i)
  end.

Lemma find_loop_pure n i s r s' : find_loop n i s = Ok r s' -> s' = s.
Proof.
  revert i. induction n as [|n IH]; intros i H; simpl in H; inv_ok; [done|].
  match goal with H : name_at _ _ = _ |- _ => apply name_at_spec in H as [-> _] end.
  case_match; inv_ok; [done | eauto].
Qed.

Lemma find_loop_Some n i s r :
  find_loop n i s = Ok (Some r) s <->
  (r < i + n)%nat /\ first_match names name i r.
Proof.
  revert i. induction n as [|n IH]; intros i; simpl.
  - split; [done|]. intros (? & ? & _). lia.
  - split.
    + intros H. inv_ok.
      match goal with H : name_at _ _ = _ |- _ => apply name_at_spec in H as [-> Hn] end.
      destruct (String.eqb_spec x name) as [->|Hne]; inv_ok.
      * simplify_eq. split; [lia|]. split; [lia|]. split; [done|]. intros j ?. lia.
      * match goal with H : find_loop _ _ _ = _ |- _ =>
          apply IH in H as (? & ? & ? & Hj) end.
        split; [lia|]. split; [lia|]. split; [done|]. intros j Hj'.
        destruct (decide (j = i)) as [->|]; [eauto | apply Hj; lia].
    + intros (Hlt & Hle & Hr & Hj).
      destruct (decide (r = i)) as [->|Hne].
      * rewrite (bind_Ok _ _ _ _ _ (proj2 (name_at_spec _ _ _ _) (conj eq_refl Hr))).
        by rewrite String.eqb_refl.
      * destruct (Hj i) as (x & Hx & Hxn); [lia|].
        rewrite (bind_Ok _ _ _ _ _ (proj2 (name_at_spec _ _ _ _) (conj eq_refl Hx))).
        destruct (String.eqb_spec x name) as [|_]; [done|].
        apply IH. split; [lia|]. split; [lia|]. split; [done|].
        intros j ?. apply Hj. lia.
Qed.

Lemma find_loop_None n i s :
  find_loop n i s = Ok None s <-> no_match names name i n.
Proof.
  revert i. induction n as [|n IH]; intros i; simpl.
  - split; [|done]. intros _ j ?. lia.
  - split.
    + intros H. inv_ok.
      match goal with H : name_at _ _ = _ |- _ => apply name_at_spec in H as [-> Hn] end.
      destruct (String.eqb_spec x name) as [->|Hne]; inv_ok; [done|].
      match goal with H : find_loop _ _ _ = _ |- _ => apply IH in H as Hj end.
      intros j Hj'. destruct (decide (j = i)) as [->|]; [eauto | apply Hj; lia].
    + intros Hj. destruct (Hj i) as (x & Hx & Hxn); [lia|].
      rewrite (bind_Ok _ _ _ _ _ (proj2 (name_at_spec _ _ _ _) (conj eq_refl Hx))).
      destruct (String.eqb_spec x name) as [|_]; [done|].
      apply IH. intros j ?. apply Hj. lia.
Qed.

End Find.

(** ** The two loops are instances *)

Section Instances.
Context {S : Type}.

Definition method_name_at (k : JavaClassFile.t) (j : nat) : M S string :=
  ms <- or_ub NullPointer (JavaClassFile.methods k) ;;
  m <- or_ub (ArrayIndex j) (ms !! j) ;;
  p <- or_ub NullPointer (JavaClassFile.const_pool k) ;;
  pool_utf8 p (MethodEntry.name_index m).

Definition attribute_name_at (pool : option ConstantPool) (me : MethodEntry.t)
    (j : nat) : M S string :=
  p <- or_ub NullPointer pool ;;
  a <- or_ub (ArrayIndex j) (MethodEntry.attributes me !! j) ;;
  pool_utf8 p (AttributeInfo.attribute_name_index a).

Lemma pool_utf8_spec p idx (s : S) x s' :
  pool_utf8 p idx s = Ok x s' <-> s' = s /\ utf8_at p idx = Some x.
Proof.
  unfold pool_utf8, pool_entry, member, utf8_at, bind, or_ub.
  destruct (entry_at p idx) as [e|]; simpl; [|by split; [|intros [_ ?]]].
  destruct (Utf8_bytes e); simpl; unfold ret, fail; split;
    try intros [= <- <-]; try intros [-> [= <-]]; done.
Qed.

Lemma method_name_at_spec k j (s : S) x s' :
  method_name_at k j s = Ok x s' <-> s' = s /\ method_name k j = Some x.
Proof.
  unfold method_name_at, method_name.
  destruct (JavaClassFile.methods k) as [ms|]; simpl; [|by split; [|intros [_ ?]]].
  rewrite bind_ret_l.
  destruct (ms !! j) as [m|]; simpl; [|by split; [|intros [_ ?]]].
  rewrite bind_ret_l.
  destruct (JavaClassFile.const_pool k) as [p|]; simpl; [|by split; [|intros [_ ?]]].
  rewrite bind_ret_l. apply pool_utf8_spec.
Qed.

Lemma attribute_name_at_spec pool me j (s : S) x s' :
  attribute_name_at pool me j s = Ok x s' <->
  s' = s /\ attribute_name pool me j = Some x.
Proof.
  unfold attribute_name_at, attribute_name.
  destruct pool as [p|]; simpl; [|by split; [|intros [_ ?]]].
  rewrite bind_ret_l.
  destruct (MethodEntry.attributes me !! j) as [a|]; simpl;
    [|by split; [|intros [_ ?]]].
  rewrite bind_ret_l. apply pool_utf8_spec.
Qed.

Lemma get_method_loop_find k name n i (s : S) :
  JavaClassFile.get_method_loop k name n i s =
  find_loop (method_name_at k) name n i s.
Proof.
  revert i s. induction n as [|n IH]; intros i s; [done|].
  cbn [JavaClassFile.get_method_loop find_loop]. unfold method_name_at.
  rewrite !bind_assoc. apply bind_ext. intros ms s1.
  rewrite !bind_assoc. apply bind_ext. intros m s2.
  rewrite !bind_assoc. apply bind_ext. intros p s3.
  apply bind_ext. intros x s4. case_match; [done | apply IH].
Qed.

Lemma get_attribute_loop_find pool me name n i (s : S) :
  MethodEntry.get_attribute_loop pool me name n i s =
  find_loop (attribute_name_at pool me) name n i s.
Proof.
  revert i s. induction n as [|n IH]; intros i s; [done|].
  cbn [MethodEntry.get_attribute_loop find_loop]. unfold attribute_name_at.
  rewrite !bind_assoc. apply bind_ext. intros p s1.
  rewrite !bind_assoc. apply bind_ext. intros a s2.
  apply bind_ext. intros x s3. case_match; [done | apply IH].
Qed.

End Instances.

(** ** What the searches promise *)

(** C31: [get_method] returns a pointer to method [r] exactly when [r] is
    within [methods_count], its name resolves to the name asked for and
    every method before it resolves to another name: the first match. *)
Theorem get_method_first {S} (k : JavaClassFile.t) (name : string) (s : S) (r : nat) :
  JavaClassFile.get_method k name s = Ok (Some r) s <->
  (r < Z.to_nat (JavaClassFile.methods_count k))%nat /\
  first_match (method_name k) name 0 r.
Proof.
  unfold JavaClassFile.get_method. rewrite get_method_loop_find.
  apply (find_loop_Some _ (method_name k)), method_name_at_spec.
Qed.

(** [get_method] returns [nullptr] exactly when every method within
    [methods_count] has a name and none is the name asked for. *)
Theorem get_method_none {S} (k : JavaClassFile.t) (name : string) (s : S) :
  JavaClassFile.get_method k name s = Ok None s <->
  no_match (method_name k) name 0 (Z.to_nat (JavaClassFile.methods_count k)).
Proof.
  unfold JavaClassFile.get_method. rewrite get_method_loop_find.
  apply (find_loop_None _ (method_name k)), method_name_at_spec.
Qed.

(** [get_attribute] returns a pointer to attribute [r] exactly when [r]
    is within [attributes_count], its name resolves to the name asked for
    and every attribute before it resolves to another name. *)
Theorem get_attribute_first {S} (me : MethodEntry.t) pool (name : string) (s : S) r :
  MethodEntry.get_attribute me pool name s = Ok (Some r) s <->
  (r < Z.to_nat (MethodEntry.attributes_count me))%nat /\
  first_match (attribute_name pool me) name 0 r.
Proof.
  unfold MethodEntry.get_attribute. rewrite get_attribute_loop_find.
  apply (find_loop_Some _ (attribute_name pool me)), attribute_name_at_spec.
Qed.

Lemma get_attribute_pure {S} (me : MethodEntry.t) pool name (s : S) r s' :
  MethodEntry.get_attribute me pool name s = Ok r s' -> s' = s.
Proof.
  unfold MethodEntry.get_attribute. rewrite get_attribute_loop_find.
  apply (find_loop_pure _ (attribute_name pool me)), attribute_name_at_spec.
Qed.

(** The answer of [get_attribute] does not depend on the state. *)
Lemma get_attribute_any_state {S S'} (me : MethodEntry.t) pool name (s : S) (s' : S') r :
  MethodEntry.get_attribute me pool name s = Ok (Some r) s ->
  MethodEntry.get_attribute me pool name s' = Ok (Some r) s'.
Proof. rewrite !get_attribute_first. done. Qed.
