(* ===== verification/Header.v ===== *)
(** * Header: the Code-attribute header is swapped in place

    [JavaExecutor::get_code_attribute] (main.cpp 477-492) converts the
    three header fields of the Code attribute to host order by writing the
    swapped values back into the attribute's buffer, which belongs to the
    class file and lives as long as the executor.  The first call therefore
    leaves the header in host order, as the loop of [run] needs it; a
    second call for the same method swaps it back.  This file proves both
    facts: what [run] reads after the first call is the header the file
    format means, and two calls are the identity on the machine, so that a
    method run a second time sees each field byte-swapped. *)

From Stdlib Require Import ZArith List String Ascii Lia.
From stdpp Require Import base tactics option list strings.
From coqutil Require Import Byte Word.LittleEndianList.
From S2P Require Import Prelude ByteCodec Stream ConstantPool Records ClassFile.
From S2P Require Import Encode Executor Hello Cursor Store Termination Lookup.

#[local] Open Scope Z_scope.
#[local] Open Scope m_scope.

(** ** Writing a buffer of the store *)

Lemma set_attr_info_id (a : AttributeInfo.t) :
  set_attr_info (AttributeInfo.info a) a = a.
Proof. by destruct a. Qed.

Lemma alter_same {A} (f : A -> A) (l : list A) i x :
  l !! i = Some x -> f x = x -> alter f i l = l.
Proof.
  intros Hi Hf. apply list_eq. intros j.
  destruct (decide (j = i)) as [->|];
    [rewrite list_lookup_alter_eq, Hi; simpl; by rewrite Hf
    | by rewrite list_lookup_alter_ne].
Qed.

Lemma alter_twice {A} (f g : A -> A) (l : list A) i :
  (forall x, f (g x) = f x) -> alter f i (alter g i l) = alter f i l.
Proof.
  intros H. apply list_eq. intros j.
  destruct (decide (j = i)) as [->|];
    [rewrite !list_lookup_alter_eq; destruct (l !! i); simpl; by rewrite ?H
    | by rewrite !list_lookup_alter_ne].
Qed.

(** Writing back what is there changes nothing. *)
Lemma set_info_same k m a buf :
  info_at k m a = Some buf -> set_info m a buf k = k.
Proof.
  unfold info_at, method_at, set_info. intros H.
  destruct k as [? ? ? ? ? ? ? ? [ms|] ? ?]; simpl in *; [|done].
  destruct (ms !! m) as [me|] eqn:Hm; simpl in *; [|done].
  destruct (MethodEntry.attributes me !! a) as [at'|] eqn:Ha; simpl in *; [|done].
  inv H. do 2 f_equal. apply (alter_same _ _ _ _ Hm).
  destruct me; unfold set_method_info; simpl in *. f_equal.
  apply (alter_same _ _ _ _ Ha), set_attr_info_id.
Qed.

(** The last write wins. *)
Lemma set_info_twice k m a buf buf' :
  set_info m a buf' (set_info m a buf k) = set_info m a buf' k.
Proof.
  unfold set_info. destruct k as [? ? ? ? ? ? ? ? [ms|] ? ?]; simpl; [|done].
  do 2 f_equal. apply alter_twice. intros me. unfold set_method_info; simpl.
  f_equal. by apply alter_twice.
Qed.

Lemma method_at_set_info k m a buf me :
  method_at k m = Some me ->
  method_at (set_info m a buf k) m = Some (set_method_info a buf me).
Proof.
  unfold method_at, set_info. destruct k as [? ? ? ? ? ? ? ? [ms|] ? ?]; simpl; [|done].
  intros H. by rewrite list_lookup_alter_eq, H.
Qed.

(** A write is read back. *)
Lemma info_at_set_info k m a buf buf' :
  info_at k m a = Some buf -> info_at (set_info m a buf' k) m a = Some buf'.
Proof.
  unfold info_at. destruct (method_at k m) as [me|] eqn:Hm; simpl; [|done].
  rewrite (method_at_set_info _ _ _ _ _ Hm). simpl.
  rewrite list_lookup_alter_eq.
  by destruct (MethodEntry.attributes me !! a).
Qed.

(** The names of a method's attributes do not depend on their buffers. *)
Lemma attribute_name_set_method_info pool a buf me j :
  attribute_name pool (set_method_info a buf me) j = attribute_name pool me j.
Proof.
  unfold attribute_name. destruct pool as [p|]; simpl; [|done].
  destruct (decide (j = a)) as [->|];
    [rewrite list_lookup_alter_eq | by rewrite list_lookup_alter_ne].
  by destruct (MethodEntry.attributes me !! a).
Qed.

(** ** [get_Code] and [get_code_attribute], as equations *)

Lemma buffer_at p s buf :
  info_at (klass s) (buf_method p) (buf_attr p) = Some buf ->
  buffer p s = Ok buf s.
Proof. intros H. by apply buffer_Ok. Qed.

Lemma code_attribute_at p s buf :
  info_at (klass s) (buf_method p) (buf_attr p) = Some buf ->
  (sizeof_CodeAttribute <= length buf)%nat ->
  code_attribute p s = Ok (view buf) s.
Proof.
  intros Hi Hl. unfold code_attribute.
  rewrite (bind_Ok _ _ _ _ _ (buffer_at _ _ _ Hi)). by rewrite decide_True.
Qed.

Lemma get_Code_Ok m s a s' :
  get_Code m s = Ok (Some a) s' <->
  s' = s /\ exists me, method_at (klass s) m = Some me /\
    (a < Z.to_nat (MethodEntry.attributes_count me))%nat /\
    first_match (attribute_name (JavaClassFile.const_pool (klass s)) me) "Code" 0 a.
Proof.
  unfold get_Code, bind, get, or_ub.
  destruct (method_at (klass s) m) as [me|]; simpl;
    [|split; [done | by intros (_ & ? & ? & _)]].
  split.
  - intros H. pose proof (get_attribute_pure _ _ _ _ _ _ H) as ->.
    apply get_attribute_first in H. eauto.
  - intros (-> & ? & [= <-] & H). by apply get_attribute_first.
Qed.

(** The state after [get_code_attribute] found buffer [buf] at [(m, a)]. *)
Definition swapped (m a : nat) (buf : list byte) (s : Machine) : Machine :=
  mkMachine (set_info m a (swap_header buf) (klass s)) (action_stack s) (io s).

Lemma get_code_attribute_Ok m name s p s' :
  get_code_attribute (Some m) name s = Ok p s' <->
  exists a buf, get_Code m s = Ok (Some a) s /\
    info_at (klass s) m a = Some buf /\
    (sizeof_CodeAttribute <= length buf)%nat /\
    p = mkBufPtr m a 0 /\ s' = swapped m a buf s.
Proof.
  unfold get_code_attribute. split.
  - intros H. inv_ok.
    match goal with H : get_Code _ _ = _ |- _ =>
      pose proof (keeps_Ok _ _ _ _ _ (get_Code_pure m) H) as <- end.
    match goal with H : buffer _ _ = _ |- _ => apply buffer_Ok in H as [-> ?] end.
    case_decide; inv_ok. eauto 10.
  - intros (a & buf & Hc & Hi & Hl & -> & ->).
    rewrite (bind_Ok _ _ _ _ _ Hc). simpl. rewrite bind_ret_l.
    rewrite (bind_Ok _ _ _ _ _ (buffer_at (mkBufPtr m a 0) _ _ Hi)).
    by rewrite decide_True.
Qed.

Lemma get_Code_swapped m a a' buf s :
  get_Code m s = Ok (Some a) s ->
  get_Code m (swapped m a' buf s) = Ok (Some a) (swapped m a' buf s).
Proof.
  rewrite !get_Code_Ok. intros (_ & me & Hm & Hlt & Hf). split; [done|].
  exists (set_method_info a' (swap_header buf) me). simpl.
  split; [by apply method_at_set_info|]. split; [done|].
  destruct Hf as (? & Hn & Hj). split; [done|].
  destruct (klass s); simpl in *.
  setoid_rewrite attribute_name_set_method_info. done.
Qed.

(** ** The theorems *)

(** C13: after [get_code_attribute] the header fields that [run] reads
    through [codeattr] are the big-endian values of the first eight bytes
    of the Code attribute as they were in the class file. *)
Theorem get_code_attribute_header m name s p s' buf :
  get_code_attribute (Some m) name s = Ok p s' ->
  info_at (klass s) (buf_method p) (buf_attr p) = Some buf ->
  code_attribute p s' = Ok (wire_view buf) s'.
Proof.
  intros (a & buf' & _ & Hi & Hl & -> & ->)%get_code_attribute_Ok Hb.
  simpl in Hb. rewrite Hi in Hb. injection Hb as ->.
  rewrite <- view_swap_header by done. apply code_attribute_at.
  - by apply (info_at_set_info _ _ _ buf).
  - by rewrite swap_header_length.
Qed.

Lemma get_code_attribute_undo m name s p s' :
  get_code_attribute (Some m) name s = Ok p s' ->
  get_code_attribute (Some m) name s' = Ok p s.
Proof.
  intros (a & buf & Hc & Hi & Hl & -> & ->)%get_code_attribute_Ok.
  apply get_code_attribute_Ok. exists a, (swap_header buf).
  split; [by apply get_Code_swapped|].
  split; [by apply (info_at_set_info _ _ _ buf)|].
  split; [by rewrite swap_header_length|]. split; [done|].
  unfold swapped; simpl.
  rewrite set_info_twice, swap_header_involutive, set_info_same by done.
  by destruct s.
Qed.

(** C8: a second [get_code_attribute] for the same method undoes the
    first: it returns the same pointer and leaves the machine exactly as it
    was before the first call, the header back in file order. *)
Theorem get_code_attribute_twice m name s p s' :
  get_code_attribute (Some m) name s = Ok p s' ->
  get_code_attribute (Some m) name s' = Ok p s.
Proof. apply get_code_attribute_undo. Qed.

(** C35: when a method is entered a second time, the header that the loop
    of [run] reads is the byte swap of the real one: [code_length] is
    [swapEndianness] of the length of the code. *)
Theorem second_entry_header m name s p s1 s2 buf :
  get_code_attribute (Some m) name s = Ok p s1 ->
  get_code_attribute (Some m) name s1 = Ok p s2 ->
  info_at (klass s) (buf_method p) (buf_attr p) = Some buf ->
  code_attribute p s2 =
  Ok (mkCodeAttribute (swapEndianness 2 (max_stack (wire_view buf)))
                      (swapEndianness 2 (max_locals (wire_view buf)))
                      (swapEndianness 4 (code_length (wire_view buf)))) s2.
Proof.
  intros H1 H2 Hb. rewrite (get_code_attribute_undo _ _ _ _ _ H1) in H2.
  inv H2. apply get_code_attribute_Ok in H1 as (a & buf' & _ & Hi & Hl & -> & _).
  simpl in Hb. rewrite Hi in Hb. injection Hb as ->.
  rewrite <- view_unswapped by done. by apply code_attribute_at.
Qed.

(** ** The theorems on the class [hello] *)

Lemma get_code_attribute_header_witness :
  code_attribute hello_codeattr hello_running =
  Ok (wire_view (write_code 2 1 hello_code)) hello_running.
Proof.
  apply (get_code_attribute_header 0 "main" hello_machine); by vm_compute.
Defined.

Lemma get_code_attribute_twice_witness :
  get_code_attribute (Some 0%nat) "main" hello_running =
  Ok hello_codeattr hello_machine.
Proof.
  apply (get_code_attribute_twice 0 "main" hello_machine). by vm_compute.
Defined.

Lemma second_entry_header_witness :
  code_attribute hello_codeattr hello_machine =
  Ok (mkCodeAttribute 0x0200 0x0100 0x09000000) hello_machine.
Proof.
  apply (second_entry_header 0 "main" hello_machine hello_codeattr hello_running
           hello_machine (write_code 2 1 hello_code)); by vm_compute.
Defined.
