(* ===== verification/Opcodes.v ===== *)
(** * Opcodes: what each instruction does

    One theorem per branch of [JavaExecutor::step] (main.cpp 503-647): the
    state after the branch and the value of the cursor, given what the
    branch reads from the code and from the constant pool.  [printed] and
    [pushed] are the two ways a branch changes the machine; the branches
    that end the process are theorems about [Fault]. *)

From Stdlib Require Import ZArith List String Ascii Lia.
From stdpp Require Import base tactics option list strings.
From coqutil Require Import Byte Word.LittleEndianList Z.prove_Zeq_bitwise.
From S2P Require Import Prelude ByteCodec Stream ConstantPool Records ClassFile.
From S2P Require Import Encode Executor Hello Cursor Store Termination Lookup.

#[local] Open Scope Z_scope.
#[local] Open Scope m_scope.

(** The machine with one more line on [cout]. *)
Definition printed (line : string) (s : Machine) : Machine :=
  mkMachine (klass s) (action_stack s)
            (mkIO (stream (io s)) (cout (io s) ++ [line]) (cerr (io s))).

(** The machine with one more action on the stack. *)
Definition pushed (a : Action) (s : Machine) : Machine :=
  mkMachine (klass s) (a :: action_stack s) (io s).

(** The value SIPUSH builds from its two operand bytes. *)
Definition sipush_value (sh1 sh2 : Z) : Z := sh1 * 256 + sh2.

(** The lines INVOKESTATIC prints before it runs the method: a heading and
    the six entries it resolved, each behind its label. *)
Definition invoke_lines (r : Resolved) : option (list string) :=
  texts ← mapM ConstantPoolEntry_show
            [r_entry r; r_class_index r; r_classname_index r;
             r_name_type_index r; r_name r; r_descriptor r];
  Some ("Invoke static!"%string ::
        zip_with String.append
          ["Class: "; "Class index: "; "Class name: "; "Name and type: ";
           "|- Name: "; "|- Descriptor: "]%string texts).

(** The machine with these lines on [cout], in order. *)
Definition printed_all (lines : list string) (s : Machine) : Machine :=
  foldl (fun s line => printed line s) s lines.

(** [op] is none of the seven opcodes of [JavaOpCodes]. *)
Definition unknown (op : Z) : Prop := forall o, op <> opcode_value o.

#[export] Instance unknown_dec op : Decision (unknown op).
Proof.
  destruct (decide (Forall (fun o => op <> opcode_value o)
    [GETSTATIC; SIPUSH; LDC; ILOAD_1; INVOKEVIRTUAL; INVOKESTATIC; RETURN])) as [H|H].
  - left. intros o. rewrite Forall_forall in H. apply H. destruct o; repeat constructor.
  - right. intros Hu. apply H, Forall_forall. intros o _. apply Hu.
Defined.

(** ** Reading the operands *)

Lemma op_is_false op o : unknown op -> op_is op o = false.
Proof. intros H. unfold op_is. apply Z.eqb_neq, H. Qed.

Lemma code_byte_range p c s v s' : code_byte p c s = Ok v s' -> 0 <= v < 256.
Proof.
  intros (_ & buf & b & _ & _ & ->)%code_byte_Ok. apply byte.unsigned_range.
Qed.

Lemma lor_shiftl_8 sh1 sh2 :
  0 <= sh2 < 256 -> Z.lor (Z.shiftl sh1 8) sh2 = sipush_value sh1 sh2.
Proof.
  intros H. unfold sipush_value. rewrite Z.shiftl_mul_pow2 by lia.
  rewrite <- (Z.mod_small sh2 (2 ^ 8)) by (change (2 ^ 8) with 256; lia).
  rewrite <- Z.add_nocarry_lor; [change (2 ^ 8) with 256; lia|].
  rewrite <- Z.shiftl_mul_pow2, <- Z.land_ones by lia. prove_Zeq_bitwise.
Qed.

Lemma the_pool_at s pool :
  JavaClassFile.const_pool (klass s) = Some pool -> the_pool s = Ok pool s.
Proof. intros H. unfold the_pool, bind, get. by rewrite H. Qed.

Lemma pool_entry_at {S} pool idx e (s : S) :
  entry_at pool idx = Some e -> pool_entry pool idx s = Ok e s.
Proof. intros H. unfold pool_entry. by rewrite H. Qed.

Lemma member_at {S A} (o : option A) a (s : S) : o = Some a -> member o s = Ok a s.
Proof. by intros ->. Qed.

Lemma pool_utf8_at {S} pool idx text (s : S) :
  utf8_at pool idx = Some text -> pool_utf8 pool idx s = Ok text s.
Proof. intros H. by apply pool_utf8_spec. Qed.

(** The machine with the top of the stack removed. *)
Definition popped (s : Machine) : Machine :=
  mkMachine (klass s) (tail (action_stack s)) (io s).

Lemma print_Ok line s : print line s = Ok tt (printed line s).
Proof. done. Qed.

Lemma push_Ok a s : push a s = Ok tt (pushed a s).
Proof. done. Qed.

Lemma top_at s a rest : action_stack s = a :: rest -> top s = Ok a s.
Proof. intros H. unfold top, bind, get. by rewrite H. Qed.

Lemma pop_at s a rest : action_stack s = a :: rest -> pop s = Ok tt (popped s).
Proof. intros H. unfold pop, popped, bind, get. by rewrite H. Qed.

Lemma print_entry_at label e text s :
  ConstantPoolEntry_show e = Some text ->
  print_entry label e s = Ok tt (printed (label +:+ text) s).
Proof. intros H. unfold print_entry, member. by rewrite H. Qed.

(** Reads of the code depend on the class file only. *)
Lemma code_byte_klass p c s s' v :
  klass s' = klass s -> code_byte p c s = Ok v s -> code_byte p c s' = Ok v s'.
Proof.
  intros Hk. unfold code_byte, buffer, bind, get. rewrite Hk.
  destruct (info_at _ _ _) as [buf|]; simpl; [|done].
  destruct (buf !! _); simpl; [|done]. unfold ret. congruence.
Qed.

Lemma code_u16_klass p c s s' v :
  klass s' = klass s -> code_u16 p c s = Ok v s -> code_u16 p c s' = Ok v s'.
Proof.
  intros Hk H. unfold code_u16 in *. inv_ok.
  repeat match goal with H : code_byte _ _ _ = Ok _ _ |- _ =>
    pose proof (proj1 (code_byte_Ok _ _ _ _ _ H)); subst;
    apply (code_byte_klass _ _ _ s' _ Hk) in H;
    rewrite (bind_Ok _ _ _ _ _ H); clear H end.
  done.
Qed.

Lemma resolve_klass idx s s' r :
  klass s' = klass s -> resolve idx s = Ok r s -> resolve idx s' = Ok r s'.
Proof. intros Hk. apply resolve_sim. by rewrite Hk. Qed.

(** Decide the tests [op == X] of a branch for a literal opcode. *)
Ltac decode :=
  unfold execute;
  repeat match goal with
  | |- context [op_is ?op ?o] =>
      let b := eval vm_compute in (op_is op o) in change (op_is op o) with b
  end;
  cbv iota.

(** Run the next call of a branch whose result is known. *)
Ltac next :=
  first
    [ rewrite (bind_Ok _ _ _ _ _ (print_Ok _ _))
    | rewrite (bind_Ok _ _ _ _ _ (push_Ok _ _))
    | match goal with
      | H : ?m ?s = Ok _ _ |- context [bind ?m _ ?s] => rewrite (bind_Ok _ _ _ _ _ H)
      | H : ?o = Some _ |- context [bind (member ?o) _ ?s] =>
          rewrite (bind_Ok _ _ _ _ _ (member_at o _ s H))
      | H : entry_at ?p ?i = Some _ |- context [bind (pool_entry ?p ?i) _ ?s] =>
          rewrite (bind_Ok _ _ _ _ _ (pool_entry_at p i _ s H))
      | H : utf8_at ?p ?i = Some _ |- context [bind (pool_utf8 ?p ?i) _ ?s] =>
          rewrite (bind_Ok _ _ _ _ _ (pool_utf8_at p i _ s H))
      | H : ConstantPoolEntry_show ?e = Some _ |- context [bind (print_entry ?l ?e) _ ?s] =>
          rewrite (bind_Ok _ _ _ _ _ (print_entry_at l e _ s H))
      end ].

(** Run a branch as far as the hypotheses tell. *)
Ltac steps :=
  repeat first
    [ next | rewrite bind_assoc | rewrite String.eqb_refl | progress cbv iota ].

(** ** The branches *)

(** C32: SIPUSH with operand bytes [sh1] and [sh2] prints one line and
    pushes the [ValueAction] of [sh1 * 256 + sh2], a value between 0 and
    65535; the cursor is left on the second operand byte. *)
Theorem execute_SIPUSH run codeptr cursor s sh1 sh2 :
  code_byte codeptr (S cursor) s = Ok sh1 s ->
  code_byte codeptr (S (S cursor)) s = Ok sh2 s ->
  let num := sipush_value sh1 sh2 in
  execute run codeptr cursor 0x11 s =
    Ok (S (S cursor)) (pushed (ValueAction CONSTANT num)
                              (printed ("Number is: " +:+ dec num) s))
  /\ 0 <= num < 65536.
Proof.
  intros H1 H2 num. pose proof (code_byte_range _ _ _ _ _ H1).
  pose proof (code_byte_range _ _ _ _ _ H2). split; [|unfold num, sipush_value; lia].
  decode. do 2 next. rewrite lor_shiftl_8 by done. by steps.
Qed.

(** RETURN prints one line and changes nothing else: the stack, the
    class file and the cursor are as before, and the loop of [run] goes
    on. *)
Theorem execute_RETURN run codeptr cursor s :
  execute run codeptr cursor 0xB1 s = Ok cursor (printed "Return!" s).
Proof. decode. by steps. Qed.

(** ILOAD_1 prints two lines and ends the process with status 1. *)
Theorem execute_ILOAD_1 run codeptr cursor s :
  execute run codeptr cursor 0x1b s =
  Fault (Exit 1) (printed "Need a local variable array!" (printed "Iload 1!" s)).
Proof. decode. by steps. Qed.

(** A byte that is none of the seven opcodes ends the process with
    status 1 after one line that names it in hexadecimal; the action stack
    and the class file are untouched. *)
Theorem execute_unknown run codeptr cursor op s :
  unknown op ->
  execute run codeptr cursor op s =
  Fault (Exit 1) (printed ("Unknown instruction: " +:+ HexString.of_Z op) s).
Proof. intros H. unfold execute. rewrite !op_is_false by done. by next. Qed.

(** LDC pushes the pool entry at its one-byte index, as it is, and
    leaves the cursor on the operand byte. *)
Theorem execute_LDC run codeptr cursor s idx pool entry :
  code_byte codeptr (S cursor) s = Ok idx s ->
  JavaClassFile.const_pool (klass s) = Some pool ->
  entry_at pool idx = Some entry ->
  execute run codeptr cursor 0x12 s =
  Ok (S cursor) (pushed (ConstantAction CONSTANT entry) s).
Proof.
  intros H1 Hp%the_pool_at He. decode. by steps.
Qed.

(** GETSTATIC resolves its two-byte index and pushes the
    [StaticAction] of the class name and the field name it finds; nothing
    is printed. *)
Theorem execute_GETSTATIC run codeptr cursor s idx r class_name name :
  code_u16 codeptr (S cursor) s = Ok idx s ->
  resolve idx s = Ok r s ->
  Utf8_bytes (r_classname_index r) = Some class_name ->
  Utf8_bytes (r_name r) = Some name ->
  execute run codeptr cursor 0xB2 s =
  Ok (S (S cursor)) (pushed (StaticAction STATIC class_name name) s).
Proof. intros H1 H2 H3 H4. decode. by steps. Qed.

(** INVOKEVIRTUAL of [java/io/PrintStream.println] with a constant
    on top of the stack prints the Utf8 text that the constant's
    [string_index] refers to, as one line, and pops the constant. *)
Theorem execute_println run codeptr cursor s idx r id entry rest si pool text :
  code_u16 codeptr (S cursor) s = Ok idx s ->
  resolve idx s = Ok r s ->
  Utf8_bytes (r_classname_index r) = Some "java/io/PrintStream"%string ->
  Utf8_bytes (r_name r) = Some "println"%string ->
  action_stack s = ConstantAction id entry :: rest ->
  String_string_index entry = Some si ->
  JavaClassFile.const_pool (klass s) = Some pool ->
  utf8_at pool si = Some text ->
  execute run codeptr cursor 0xB6 s = Ok (S (S cursor)) (popped (printed text s)).
Proof.
  intros H1 H2 H3 H4 H5 H6 H7%the_pool_at H8. pose proof (top_at _ _ _ H5). decode.
  steps. by rewrite (bind_Ok _ _ _ _ _ (pop_at (printed text s) _ rest H5)).
Qed.

(** INVOKEVIRTUAL of any other method does nothing: nothing is
    printed and nothing is popped. *)
Theorem execute_INVOKEVIRTUAL_other run codeptr cursor s idx r class_name name :
  code_u16 codeptr (S cursor) s = Ok idx s ->
  resolve idx s = Ok r s ->
  Utf8_bytes (r_classname_index r) = Some class_name ->
  Utf8_bytes (r_name r) = Some name ->
  (class_name, name) <> ("java/io/PrintStream", "println")%string ->
  execute run codeptr cursor 0xB6 s = Ok (S (S cursor)) s.
Proof.
  intros H1 H2 H3 H4 Hne. decode. do 3 next.
  destruct (String.eqb_spec class_name "java/io/PrintStream") as [->|_]; [|done].
  steps. by destruct (String.eqb_spec name "println") as [->|_].
Qed.

(** C36: INVOKESTATIC prints a heading and the six entries it resolved,
    then runs the method whose name it resolved, on the same machine and
    the same action stack; when that run returns, the cursor is on the
    second operand byte.  Whatever the callee does to the machine is what
    the instruction does to it. *)
Theorem execute_INVOKESTATIC run codeptr cursor s idx r lines name :
  code_u16 codeptr (S cursor) s = Ok idx s ->
  resolve idx s = Ok r s ->
  invoke_lines r = Some lines ->
  Utf8_bytes (r_name r) = Some name ->
  execute run codeptr cursor 0xB8 s =
  (run name ;; ret (S (S cursor))) (printed_all lines s).
Proof.
  intros H1 H2 Hl Hn. unfold invoke_lines in Hl. simpl in Hl.
  pose proof (code_u16_klass _ _ s (printed "Invoke static!" s) _ eq_refl H1).
  pose proof (resolve_klass _ s (printed "Invoke static!" s) _ eq_refl H2).
  repeat match type of Hl with context [ConstantPoolEntry_show ?e] =>
    destruct (ConstantPoolEntry_show e) eqn:?; simpl in Hl; [|done] end.
  inv Hl. decode. by steps.
Qed.

(** ** The theorems on the class [hello] *)

(** What the references of [hello] resolve to: [System.out] at index 10
    and [PrintStream.println] at index 18. *)
Definition hello_out : Resolved :=
  mkResolved (fieldref 6 9) (class_ 5) (utf8 "java/lang/System")
             (name_and_type 7 8) (utf8 "out") (utf8 "Ljava/io/PrintStream;").

Definition hello_println : Resolved :=
  mkResolved (methodref 14 17) (class_ 13) (utf8 "java/io/PrintStream")
             (name_and_type 15 16) (utf8 "println") (utf8 "(Ljava/lang/String;)V").

Lemma execute_SIPUSH_witness :
  execute (run 0) (mkBufPtr 0 0 2) 0 0x11 hello_machine =
    Ok 2%nat (pushed (ValueAction CONSTANT 256)
                     (printed "Number is: 256" hello_machine))
  /\ 0 <= 256 < 65536.
Proof.
  apply (execute_SIPUSH (run 0) (mkBufPtr 0 0 2) 0 hello_machine 1 0);
    by vm_compute.
Defined.

Lemma execute_unknown_witness :
  execute (run 0) hello_code_ptr 0 0xFF hello_machine =
  Fault (Exit 1) (printed "Unknown instruction: 0xff" hello_machine).
Proof.
  apply (execute_unknown (run 0) hello_code_ptr 0 0xFF hello_machine).
  intros o. by destruct o.
Defined.

Lemma execute_LDC_witness :
  execute (run 0) hello_code_ptr 3 0x12 hello_running =
  Ok 4%nat (pushed (ConstantAction CONSTANT (string_ 11)) hello_running).
Proof.
  apply (execute_LDC (run 0) hello_code_ptr 3 hello_running 12 (mkPool hello_pool));
    by vm_compute.
Defined.

Lemma execute_GETSTATIC_witness :
  execute (run 0) hello_code_ptr 0 0xB2 hello_running =
  Ok 2%nat (pushed (StaticAction STATIC "java/lang/System" "out") hello_running).
Proof.
  apply (execute_GETSTATIC (run 0) hello_code_ptr 0 hello_running 10
           hello_out); by vm_compute.
Defined.

Lemma execute_println_witness :
  execute (run 0) hello_code_ptr 5 0xB6
          (pushed (ConstantAction CONSTANT (string_ 11)) hello_running) =
  Ok 7%nat (popped (printed "Hi"
              (pushed (ConstantAction CONSTANT (string_ 11)) hello_running))).
Proof.
  apply (execute_println (run 0) hello_code_ptr 5
           (pushed (ConstantAction CONSTANT (string_ 11)) hello_running) 18
           hello_println CONSTANT (string_ 11) [] 11
           (mkPool hello_pool) "Hi"); by vm_compute.
Defined.

Lemma execute_INVOKEVIRTUAL_other_witness :
  execute (run 0) hello_code_ptr 0 0xB6 hello_running = Ok 2%nat hello_running.
Proof.
  apply (execute_INVOKEVIRTUAL_other (run 0) hello_code_ptr 0 hello_running 10
           hello_out "java/lang/System" "out");
    by vm_compute.
Defined.

Lemma execute_INVOKESTATIC_witness :
  execute (run 1) hello_code_ptr 5 0xB8 hello_running =
  (run 1 "println" ;; ret 7%nat)
    (printed_all (from_option id [] (invoke_lines hello_println)) hello_running).
Proof.
  apply (execute_INVOKESTATIC (run 1) hello_code_ptr 5 hello_running 18 hello_println);
    by vm_compute.
Defined.
