(* ===== verification/Refinement.v ===== *)
(** * Refinement: the interpreter implements an instruction semantics

    The specification describes the interpreter by instructions: decode
    one, apply its effect, go on with the next until the code ends.  The
    program has no notion of an instruction: [step] tests one byte and
    each branch takes its operand bytes as it goes, moving the cursor in
    between.  This file states the instruction-level semantics and proves
    that the loop of [run] implements it.

    - [insn] is a decoded instruction and [fetch] the decoder: the
      instruction that starts at a position of the attribute's buffer, and
      its length.  Every byte decodes: ILOAD_1 and the bytes outside the
      instruction set are instructions whose effect is to end the process.
    - [sem] is the effect of an instruction on the machine.  It mentions
      neither the code nor the cursor.
    - [exec] is the big-step relation of a method's code from a cursor on.
      Its rules need the buffer of the running method to be the same after
      an instruction as before: INVOKESTATIC may run a method that swaps
      that header again ([Header]), and then the loop of the program stops
      following the code.
    - [run_loop_refines] and [run_refines]: what [exec] derives is what
      the loop, and [run], compute. *)

From Stdlib Require Import ZArith List String Ascii Lia.
From stdpp Require Import base tactics option list strings.
From coqutil Require Import Byte Word.LittleEndianList.
From S2P Require Import Prelude ByteCodec Stream ConstantPool Records ClassFile.
From S2P Require Import Encode Executor Hello Cursor Store Termination Lookup Header.
From S2P Require Import Opcodes.

#[local] Open Scope Z_scope.
#[local] Open Scope m_scope.

(** ** Instructions *)

Inductive insn : Type :=
| GetStatic (idx : Z)
| Ldc (idx : Z)
| InvokeVirtual (idx : Z)
| InvokeStatic (idx : Z)
| SiPush (num : Z)
| Iload_1
| Return_
| Unknown (op : Z).

#[export] Instance insn_eq_dec : EqDecision insn.
Proof. solve_decision. Defined.

Definition byte_at (buf : list byte) (i : nat) : option Z :=
  byte.unsigned <$> buf !! i.

(** Two bytes, the first the more significant. *)
Definition u16_at (buf : list byte) (i : nat) : option Z :=
  b0 ← byte_at buf i; b1 ← byte_at buf (S i); Some (b0 * 256 + b1).

(** The instruction that starts at position [pos] of [buf], and the number
    of bytes it takes; [None] when the buffer ends inside it. *)
Definition fetch (buf : list byte) (pos : nat) : option (insn * nat) :=
  op ← byte_at buf pos;
  if op_is op GETSTATIC then idx ← u16_at buf (S pos); Some (GetStatic idx, 3%nat)
  else if op_is op LDC then idx ← byte_at buf (S pos); Some (Ldc idx, 2%nat)
  else if op_is op INVOKEVIRTUAL then
    idx ← u16_at buf (S pos); Some (InvokeVirtual idx, 3%nat)
  else if op_is op INVOKESTATIC then
    idx ← u16_at buf (S pos); Some (InvokeStatic idx, 3%nat)
  else if op_is op SIPUSH then num ← u16_at buf (S pos); Some (SiPush num, 3%nat)
  else if op_is op ILOAD_1 then Some (Iload_1, 1%nat)
  else if op_is op RETURN then Some (Return_, 1%nat)
  else Some (Unknown op, 1%nat).

(** What [println] does with the top of the stack. *)
Definition println : M Machine unit :=
  action <- top ;;
  match action with
  | ConstantAction _ entry =>
      si <- member (String_string_index entry) ;;
      pool <- the_pool ;;
      text <- pool_utf8 pool si ;;
      print text ;;
      pop
  | _ => fail (Undefined BadCast)
  end.

(** The effect of an instruction. *)
Definition sem (run : string -> M Machine unit) (i : insn) : M Machine unit :=
  match i with
  | GetStatic idx =>
      r <- resolve idx ;;
      class_name <- member (Utf8_bytes (r_classname_index r)) ;;
      name <- member (Utf8_bytes (r_name r)) ;;
      push (StaticAction STATIC class_name name)
  | Ldc idx =>
      pool <- the_pool ;;
      entry <- pool_entry pool idx ;;
      push (ConstantAction CONSTANT entry)
  | InvokeVirtual idx =>
      r <- resolve idx ;;
      class_name <- member (Utf8_bytes (r_classname_index r)) ;;
      if String.eqb class_name "java/io/PrintStream" then
        name <- member (Utf8_bytes (r_name r)) ;;
        if String.eqb name "println" then println else ret tt
      else ret tt
  | InvokeStatic idx =>
      print "Invoke static!" ;;
      r <- resolve idx ;;
      print_entry "Class: " (r_entry r) ;;
      print_entry "Class index: " (r_class_index r) ;;
      print_entry "Class name: " (r_classname_index r) ;;
      print_entry "Name and type: " (r_name_type_index r) ;;
      print_entry "|- Name: " (r_name r) ;;
      print_entry "|- Descriptor: " (r_descriptor r) ;;
      name <- member (Utf8_bytes (r_name r)) ;;
      run name
  | SiPush num =>
      print ("Number is: " +:+ dec num) ;;
      push (ValueAction CONSTANT num)
  | Iload_1 =>
      print "Iload 1!" ;;
      print "Need a local variable array!" ;;
      fail (Exit 1)
  | Return_ => print "Return!"
  | Unknown op =>
      print ("Unknown instruction: " +:+ HexString.of_Z op) ;;
      fail (Exit 1)
  end.

(** ** The execution of a method's code *)

Section Exec.
Context (run : string -> M Machine unit).
(** The Code attribute of the running method: attribute [a] of method [m],
    whose buffer is [buf], header in host order. *)
Context (m a : nat) (buf : list byte).

Definition at_code (s : Machine) : Prop := info_at (klass s) m a = Some buf.

Definition in_code (cursor : nat) : Prop :=
  Z.of_nat cursor < code_length (view buf).

Inductive exec : nat -> Machine -> outcome Machine unit -> Prop :=
| exec_end cursor s :
    ~ in_code cursor -> exec cursor s (Ok tt s)
| exec_insn cursor s i len s1 o :
    in_code cursor ->
    fetch buf (sizeof_CodeAttribute + cursor) = Some (i, len) ->
    sem run i s = Ok tt s1 ->
    at_code s1 ->
    exec (cursor + len) s1 o ->
    exec cursor s o
| exec_fault cursor s i len f s1 :
    in_code cursor ->
    fetch buf (sizeof_CodeAttribute + cursor) = Some (i, len) ->
    sem run i s = Fault f s1 ->
    exec cursor s (Fault f s1).

End Exec.

(** ** Reading the code *)

Section Fetch.
Context (m a : nat) (buf : list byte) (s : Machine).
Hypothesis Hbuf : at_code m a buf s.

Lemma code_byte_at off c v :
  byte_at buf (off + c) = Some v -> code_byte (mkBufPtr m a off) c s = Ok v s.
Proof.
  unfold byte_at, code_byte. intros H.
  rewrite (bind_Ok _ _ _ _ _ (buffer_at (mkBufPtr m a off) s buf Hbuf)). cbn [buf_off].
  by destruct (buf !! (off + c)%nat); simplify_eq/=.
Qed.

Lemma code_u16_at off c v :
  u16_at buf (off + S c) = Some v -> code_u16 (mkBufPtr m a off) (S c) s = Ok v s.
Proof.
  unfold u16_at, code_u16. intros H.
  destruct (byte_at buf (off + S c)) as [b0|] eqn:H0; [|done].
  destruct (byte_at buf (S (off + S c))) as [b1|] eqn:H1; [|done].
  simplify_eq/=. replace (S (off + S c)) with (off + (S c + 1))%nat in H1 by lia.
  rewrite (bind_Ok _ _ _ _ _ (code_byte_at _ _ _ H0)).
  rewrite (bind_Ok _ _ _ _ _ (code_byte_at _ _ _ H1)). unfold ret. f_equal.
  unfold byte_at in H0, H1.
  destruct (buf !! _) as [x0|] in H0; [|done].
  destruct (buf !! _) as [x1|] in H1; [|done]. simplify_eq/=.
  rewrite !byte.of_Z_unsigned. change 2%nat with (length [x0; x1]).
  rewrite swapEndianness_wire. unfold be_combine. cbn [be_acc]. lia.
Qed.

End Fetch.

(** The two operand bytes of SIPUSH and the value made of them. *)
Lemma sipush_bytes buf off c z :
  u16_at buf (off + S c) = Some z ->
  exists b0 b1, byte_at buf (off + S c) = Some b0 /\
    byte_at buf (off + S (S c)) = Some b1 /\ Z.lor (Z.shiftl b0 8) b1 = z.
Proof.
  unfold u16_at. intros H.
  destruct (byte_at buf (off + S c)) as [b0|] eqn:H0; [|done].
  destruct (byte_at buf (S (off + S c))) as [b1|] eqn:H1; [|done].
  simplify_eq/=. exists b0, b1. split; [done|].
  replace (off + S (S c))%nat with (S (off + S c)) by lia. split; [done|].
  apply lor_shiftl_8. unfold byte_at in H1.
  destruct (buf !! _) as [x|]; [|done]. simplify_eq/=. apply byte.unsigned_range.
Qed.

(** What [println] is in [step]. *)
Lemma println_eq s :
  println s =
  (action <- top ;;
   match action with
   | ConstantAction _ entry =>
       si <- member (String_string_index entry) ;;
       pool <- the_pool ;;
       text <- pool_utf8 pool si ;;
       print text ;;
       pop
   | _ => fail (Undefined BadCast)
   end) s.
Proof. done. Qed.

(** Two computations of the same shape are equal. *)
Ltac same_shape :=
  repeat first
    [ reflexivity
    | rewrite bind_assoc
    | rewrite bind_ret_l
    | rewrite bind_fail
    | apply bind_ext; intros
    | match goal with
      | |- context [if ?b then _ else _] => destruct b
      | |- context [match ?x with _ => _ end] => destruct x
      end ].

(** One iteration of the loop is one instruction: [step] at a cursor has
    the effect of the instruction there and moves the cursor by its
    length. *)
Lemma step_fetch run m a buf cursor i len s :
  at_code m a buf s ->
  fetch buf (sizeof_CodeAttribute + cursor) = Some (i, len) ->
  step run (mkBufPtr m a sizeof_CodeAttribute) cursor s =
  (sem run i ;; ret (cursor + len)%nat) s.
Proof.
  intros Hbuf H. unfold fetch in H.
  destruct (byte_at buf (sizeof_CodeAttribute + cursor)) as [op|] eqn:Hop;
    cbn [mbind option_bind] in H; [|done].
  unfold step. rewrite (bind_Ok _ _ _ _ _ (code_byte_at m a buf s Hbuf _ _ _ Hop)).
  unfold execute.
  repeat match type of H with
  | context [op_is op ?o] => destruct (op_is op o)
  end;
  repeat match type of H with
  | context [u16_at buf ?p] =>
      let E := fresh in
      destruct (u16_at buf p) eqn:E; cbn [mbind option_bind] in H; [|done];
      replace p with (sizeof_CodeAttribute + S cursor)%nat in E by lia
  | context [byte_at buf ?p] =>
      let E := fresh in
      destruct (byte_at buf p) eqn:E; cbn [mbind option_bind] in H; [|done];
      replace p with (sizeof_CodeAttribute + S cursor)%nat in E by lia
  end;
  injection H as <- <-; cbn [sem].
  all: replace (cursor + 3)%nat with (S (S (S cursor))) by lia.
  all: replace (cursor + 2)%nat with (S (S cursor)) by lia.
  all: replace (cursor + 1)%nat with (S cursor) by lia.
  all: cbv zeta; rewrite ?bind_assoc.
  all: rewrite ?(bind_Ok _ _ _ _ _ (print_Ok "Invoke static!" s)), ?bind_assoc.
  all: try match goal with E : u16_at _ _ = Some _ |- _ =>
         first [ rewrite (bind_Ok _ _ _ _ _ (code_u16_at m a buf s Hbuf _ _ _ E))
               | rewrite (bind_Ok _ _ _ _ _
                   (code_u16_at m a buf (printed "Invoke static!" s) Hbuf _ _ _ E)) ]
       end.
  all: try match goal with E : byte_at _ _ = Some _ |- _ =>
         rewrite (bind_Ok _ _ _ _ _ (code_byte_at m a buf _ Hbuf _ _ _ E)) end.
  all: same_shape.
  apply sipush_bytes in H0 as (b0 & b1 & E0 & E1 & Hz).
  rewrite (bind_Ok _ _ _ _ _ (code_byte_at m a buf s Hbuf _ _ _ E0)), bind_assoc.
  rewrite (bind_Ok _ _ _ _ _ (code_byte_at m a buf s Hbuf _ _ _ E1)), Hz.
  same_shape.
Qed.

Lemma fetch_length buf pos i len :
  fetch buf pos = Some (i, len) -> (pos < length buf)%nat /\ (1 <= len <= 3)%nat.
Proof.
  unfold fetch, byte_at. intros H.
  destruct (buf !! pos) as [b|] eqn:Hb; [|done]. cbn in H.
  split; [by apply lookup_lt_Some in Hb|].
  repeat case_match; simplify_option_eq; lia.
Qed.

(** ** The loop implements [exec] *)

Section Refines.
Context (run : string -> M Machine unit) (m a : nat) (buf : list byte).
Hypothesis Hheader : (sizeof_CodeAttribute <= length buf)%nat.

Let codeattr := mkBufPtr m a 0.
Let code := mkBufPtr m a sizeof_CodeAttribute.

Lemma run_loop_end fuel cursor s :
  at_code m a buf s -> ~ in_code buf cursor ->
  run_loop (S fuel) run codeattr code cursor s = Ok tt s.
Proof.
  intros Hbuf Hc. cbn [run_loop].
  rewrite (bind_Ok _ _ _ _ _ (code_attribute_at codeattr s buf Hbuf Hheader)).
  unfold in_code in Hc. by destruct (Z.ltb_spec (Z.of_nat cursor) (code_length (view buf))).
Qed.

Lemma run_loop_insn fuel cursor s i len :
  at_code m a buf s -> in_code buf cursor ->
  fetch buf (sizeof_CodeAttribute + cursor) = Some (i, len) ->
  run_loop (S fuel) run codeattr code cursor s =
  (sem run i ;; run_loop fuel run codeattr code (cursor + len)) s.
Proof.
  intros Hbuf Hc Hf. cbn [run_loop].
  rewrite (bind_Ok _ _ _ _ _ (code_attribute_at codeattr s buf Hbuf Hheader)).
  unfold in_code in Hc.
  destruct (Z.ltb_spec (Z.of_nat cursor) (code_length (view buf))); [|lia].
  unfold bind at 1. unfold code. rewrite (step_fetch run m a buf cursor i len s Hbuf Hf).
  unfold bind. destruct (sem run i s); reflexivity.
Qed.

Lemma run_loop_exec cursor s o :
  exec run m a buf cursor s o -> at_code m a buf s ->
  forall fuel, (length buf - (sizeof_CodeAttribute + cursor) < fuel)%nat ->
  run_loop fuel run codeattr code cursor s = o.
Proof.
  induction 1 as [cursor s Hc | cursor s i len s1 o Hc Hf Hs Hb1 _ IH
                 | cursor s i len f s1 Hc Hf Hs];
    intros Hbuf [|fuel] Hfuel; try lia.
  - by apply run_loop_end.
  - rewrite (run_loop_insn _ _ _ _ _ Hbuf Hc Hf), (bind_Ok _ _ _ _ _ Hs).
    apply (IH Hb1). apply fetch_length in Hf. lia.
  - by rewrite (run_loop_insn _ _ _ _ _ Hbuf Hc Hf), (bind_Fault _ _ _ _ _ Hs).
Qed.

End Refines.

(** The state in which the loop of [run] starts: the header swapped and
    the line of [run] printed. *)
Definition entered (name : string) (m a : nat) (buf0 : list byte) (s : Machine)
    : Machine :=
  printed ("[" +:+ name +:+ "] Length of LVA: " +:+
           dec (max_locals (view (swap_header buf0))))
          (swapped m a buf0 s).

Lemma run_exec depth name s m a buf0 o :
  get_method name s = Ok (Some m) s ->
  get_Code m s = Ok (Some a) s ->
  info_at (klass s) m a = Some buf0 ->
  (sizeof_CodeAttribute <= length buf0)%nat ->
  exec (run depth) m a (swap_header buf0) 0 (entered name m a buf0 s) o ->
  run (S depth) name s = o.
Proof.
  intros Hm Hc Hi Hl He. cbn [run]. rewrite (bind_Ok _ _ _ _ _ Hm).
  assert (get_code_attribute (Some m) name s = Ok (mkBufPtr m a 0) (swapped m a buf0 s))
    as Hca by (apply get_code_attribute_Ok; eauto 10).
  assert (at_code m a (swap_header buf0) (swapped m a buf0 s)) as Hb
    by (by apply (info_at_set_info _ _ _ buf0)).
  assert (sizeof_CodeAttribute <= length (swap_header buf0))%nat as Hl'
    by (by rewrite swap_header_length).
  rewrite (bind_Ok _ _ _ _ _ Hca).
  rewrite (bind_Ok _ _ _ _ _ (code_attribute_at (mkBufPtr m a 0) _ (swap_header buf0) Hb Hl')).
  rewrite (bind_Ok _ _ _ _ _ (print_Ok _ _)). fold (entered name m a buf0 s).
  assert (get_Code m (entered name m a buf0 s) = Ok (Some a) (entered name m a buf0 s))
    as Hc'.
  { apply (get_Code_swapped m a a buf0 s), get_Code_Ok in Hc as [_ Hc].
    apply get_Code_Ok. split; [done | exact Hc]. }
  unfold get_code. rewrite bind_assoc. cbn [or_ub].
  rewrite bind_ret_l, bind_assoc, (bind_Ok _ _ _ _ _ Hc'), bind_assoc. cbn [or_ub].
  rewrite !bind_ret_l.
  rewrite (bind_Ok _ _ _ _ _ (buffer_at (mkBufPtr m a sizeof_CodeAttribute)
    (entered name m a buf0 s) (swap_header buf0) Hb)).
  apply (run_loop_exec _ m a _ Hl' 0 _ o He Hb). lia.
Qed.

(** ** The semantics is defined on straight-line code *)

Definition same_klass (s s' : Machine) : Prop := klass s' = klass s.

#[export] Instance same_klass_preorder : PreOrder same_klass.
Proof. split; [by intros s | intros s1 s2 s3; unfold same_klass; congruence]. Qed.

Lemma keeps_same_klass {A} (m : M Machine A) : keeps (=) m -> keeps same_klass m.
Proof. apply keeps_weaken. by intros s s' <-. Qed.

Lemma print_klass line : keeps same_klass (print line).
Proof. by intros s. Qed.

Lemma push_klass act : keeps same_klass (push act).
Proof. by intros s. Qed.

Lemma pop_klass : keeps same_klass pop.
Proof. intros s. unfold pop, bind, get. by destruct (action_stack s). Qed.

(** The instructions that do not run another method. *)
Definition straight (i : insn) : bool :=
  match i with InvokeStatic _ => false | _ => true end.

(** An instruction that is not a call leaves the class file as it is. *)
Lemma sem_klass run i : straight i = true -> keeps same_klass (sem run i).
Proof.
  destruct i; try done; intros _; cbn [sem]; unfold println;
    repeat first
      [ apply print_klass | apply push_klass | apply pop_klass
      | apply keeps_same_klass; solve [ eauto with zera ]
      | apply (keeps_bind same_klass); [| intros ]
      | apply (keeps_ret same_klass)
      | apply (keeps_fail same_klass)
      | apply (keeps_or_ub same_klass)
      | match goal with |- keeps _ (if ?x then _ else _) => destruct x end
      | match goal with |- keeps _ (match ?x with _ => _ end) => destruct x end ].
Qed.

Section Decodes.
Context (buf : list byte).

(** The code from [cursor] on is a sequence of whole instructions, none of
    them a call, that ends at or behind [code_length]. *)
Inductive decodes : nat -> Prop :=
| decodes_end cursor : ~ in_code buf cursor -> decodes cursor
| decodes_insn cursor i len :
    in_code buf cursor ->
    fetch buf (sizeof_CodeAttribute + cursor) = Some (i, len) ->
    straight i = true ->
    decodes (cursor + len) ->
    decodes cursor.

Lemma exec_defined run m a cursor :
  decodes cursor -> forall s, at_code m a buf s -> exists o, exec run m a buf cursor s o.
Proof.
  induction 1 as [cursor Hc | cursor i len Hc Hf Hs _ IH]; intros s Hb.
  - eexists. by apply exec_end.
  - destruct (sem run i s) as [[] s1|f s1] eqn:Hsem.
    + destruct (IH s1) as [o Ho].
      { unfold at_code. by rewrite (keeps_Ok _ _ _ _ _ (sem_klass run i Hs) Hsem). }
      exists o. eapply exec_insn; eauto.
      unfold at_code. by rewrite (keeps_Ok _ _ _ _ _ (sem_klass run i Hs) Hsem).
    + eexists. by eapply exec_fault.
Qed.

End Decodes.

(** ** What the interpreter promises *)

(** C4: the loop of [run] implements the instruction semantics: started
    at a cursor with enough fuel, it ends as [exec] says the code from that
    cursor on ends, in the same state. *)
Theorem run_loop_refines run m a buf cursor s o fuel :
  (sizeof_CodeAttribute <= length buf)%nat ->
  at_code m a buf s ->
  exec run m a buf cursor s o ->
  (length buf - (sizeof_CodeAttribute + cursor) < fuel)%nat ->
  run_loop fuel run (mkBufPtr m a 0) (mkBufPtr m a sizeof_CodeAttribute) cursor s = o.
Proof. intros Hl Hb He. by apply run_loop_exec. Qed.

(** C3: [run] of a method that exists and has a Code attribute swaps the
    attribute's header, prints its line and then executes the code from
    cursor 0 as [exec] says. *)
Theorem run_refines depth name s m a buf0 o :
  get_method name s = Ok (Some m) s ->
  get_Code m s = Ok (Some a) s ->
  info_at (klass s) m a = Some buf0 ->
  (sizeof_CodeAttribute <= length buf0)%nat ->
  exec (run depth) m a (swap_header buf0) 0 (entered name m a buf0 s) o ->
  run (S depth) name s = o.
Proof. apply run_exec. Qed.

(** The instruction semantics is defined on straight-line code: when
    the code from a cursor on is a sequence of whole instructions without
    INVOKESTATIC, [exec] has an outcome from every state, and by the
    refinement it is the outcome of the loop. *)
Theorem exec_total run m a buf cursor s :
  decodes buf cursor -> at_code m a buf s ->
  exists o, exec run m a buf cursor s o.
Proof. intros Hd Hb. by apply exec_defined. Qed.

(** The instruction semantics is deterministic: the code from a
    cursor on has one outcome. *)
Theorem exec_deterministic run m a buf cursor s o1 o2 :
  (sizeof_CodeAttribute <= length buf)%nat ->
  at_code m a buf s ->
  exec run m a buf cursor s o1 -> exec run m a buf cursor s o2 -> o1 = o2.
Proof.
  intros Hl Hb H1 H2.
  rewrite <- (run_loop_exec run m a buf Hl _ _ _ H1 Hb (S (length buf))) by lia.
  apply (run_loop_exec run m a buf Hl _ _ _ H2 Hb). lia.
Qed.

(** ** The theorems on the class [hello] *)

Definition hello_buf : list byte := swap_header (write_code 2 1 hello_code).

(** The machine when the loop of [main] starts, and when it has ended. *)
Definition hello_entered : Machine :=
  entered "main" 0 0 (write_code 2 1 hello_code) hello_machine.

Definition hello_done : Machine := final (run 1 "main" hello_machine).

(** The four instructions of [hello]. *)
Lemma hello_fetch :
  fetch hello_buf 8 = Some (GetStatic 10, 3%nat) /\
  fetch hello_buf 11 = Some (Ldc 12, 2%nat) /\
  fetch hello_buf 13 = Some (InvokeVirtual 18, 3%nat) /\
  fetch hello_buf 16 = Some (Return_, 1%nat).
Proof. by vm_compute. Qed.

(** The derivation of the run of [hello]: four instructions and the end. *)
Lemma hello_exec : exec (run 0) 0 0 hello_buf 0 hello_entered (Ok tt hello_done).
Proof.
  eapply (exec_insn _ _ _ _ 0 _ (GetStatic 10) 3); [by vm_compute..|].
  eapply (exec_insn _ _ _ _ 3 _ (Ldc 12) 2); [by vm_compute..|].
  eapply (exec_insn _ _ _ _ 5 _ (InvokeVirtual 18) 3); [by vm_compute..|].
  eapply (exec_insn _ _ _ _ 8 _ Return_ 1); [by vm_compute..|].
  apply exec_end. by vm_compute.
Qed.

Lemma run_loop_refines_witness :
  run_loop 30 (run 0) (mkBufPtr 0 0 0) (mkBufPtr 0 0 sizeof_CodeAttribute) 0
           hello_entered = Ok tt hello_done.
Proof.
  apply (run_loop_refines (run 0) 0 0 hello_buf 0 hello_entered (Ok tt hello_done) 30);
    [vm_compute; lia | by vm_compute | exact hello_exec | vm_compute; lia].
Defined.

Lemma run_refines_witness : run 1 "main" hello_machine = Ok tt hello_done.
Proof.
  apply (run_refines 0 "main" hello_machine 0 0 (write_code 2 1 hello_code));
    [by vm_compute | by vm_compute | by vm_compute | vm_compute; lia | exact hello_exec].
Defined.

Lemma exec_deterministic_witness :
  Ok tt hello_done = run 1 "main" hello_machine.
Proof.
  apply (exec_deterministic (run 0) 0 0 hello_buf 0 hello_entered);
    [vm_compute; lia | by vm_compute | exact hello_exec | exact hello_exec].
Defined.

Lemma hello_decodes : decodes hello_buf 0.
Proof.
  eapply (decodes_insn _ 0 (GetStatic 10) 3); [by vm_compute..|].
  eapply (decodes_insn _ 3 (Ldc 12) 2); [by vm_compute..|].
  eapply (decodes_insn _ 5 (InvokeVirtual 18) 3); [by vm_compute..|].
  eapply (decodes_insn _ 8 Return_ 1); [by vm_compute..|].
  apply decodes_end. by vm_compute.
Qed.

Lemma exec_total_witness :
  exists o, exec (run 0) 0 0 hello_buf 0 hello_entered o.
Proof.
  apply (exec_total (run 0) 0 0 hello_buf 0 hello_entered);
    [exact hello_decodes | by vm_compute].
Defined.
