(* ===== verification/EndToEnd.v ===== *)
(** * EndToEnd: from the bytes of the file to the exit status

    [main] composes the two halves of the program.  The theorem of this
    file composes the theorems about them: on the file of a class
    ([Roundtrip]) [main] runs the code of the method [main] of that class
    as the instruction semantics says ([Refinement]) and turns the outcome
    into the exit status of the process. *)

From Stdlib Require Import ZArith List String Ascii Lia.
From stdpp Require Import base tactics option list strings.
From coqutil Require Import Byte Word.LittleEndianList.
From S2P Require Import Prelude ByteCodec Stream ConstantPool Records ClassFile.
From S2P Require Import Encode Executor Roundtrip Hello Cursor Store Termination.
From S2P Require Import Lookup Header Opcodes Refinement.

#[local] Open Scope Z_scope.
#[local] Open Scope m_scope.

(** The executor that [main] makes for a class file: nothing on the stack,
    the stream read to its end, nothing printed. *)
Definition fresh (k : JavaClassFile.t) : Machine := mkMachine k [] (mkIO [] [] []).

(** How the process ends when [run] ends with [o]: status 0 after a run
    that returned, the fault of the run otherwise; the output is that of
    the run. *)
Definition exit_status (o : outcome Machine unit) : outcome IO Z :=
  match o with
  | Ok _ s => Ok 0 (io s)
  | Fault f s => Fault f (io s)
  end.

Lemma main_exec depth prog file k m a buf0 o :
  encodable k ->
  get_method "main" (fresh (read_back k)) = Ok (Some m) (fresh (read_back k)) ->
  get_Code m (fresh (read_back k)) = Ok (Some a) (fresh (read_back k)) ->
  info_at (read_back k) m a = Some buf0 ->
  (sizeof_CodeAttribute <= length buf0)%nat ->
  exec (run depth) m a (swap_header buf0) 0
       (entered "main" m a buf0 (fresh (read_back k))) o ->
  main (S depth) [prog; file] (mkIO (write_class k) [] []) = exit_status o.
Proof.
  intros He Hm Hc Hi Hl Hx. unfold main. cbn [length]. cbv iota.
  change (Z.of_nat 2 <? 2) with false. cbv iota. cbn [lookup list_lookup or_ub].
  rewrite bind_ret_l, <- (app_nil_r (write_class k)).
  rewrite (bind_Ok _ _ _ _ _ (class_read_back file k [] [] [] He)).
  unfold with_executor, bind at 1. fold (fresh (read_back k)).
  rewrite (run_exec depth "main" _ m a buf0 o Hm Hc Hi Hl Hx).
  by destruct o.
Qed.

(** C1: on the file of a class whose method [main] has a Code attribute,
    the program ends as the instruction semantics says the code of [main]
    ends: with status 0 and the output of the run when the run returns,
    with the fault of the run otherwise. *)
Theorem main_refines depth prog file k m a buf0 o :
  encodable k ->
  get_method "main" (fresh (read_back k)) = Ok (Some m) (fresh (read_back k)) ->
  get_Code m (fresh (read_back k)) = Ok (Some a) (fresh (read_back k)) ->
  info_at (read_back k) m a = Some buf0 ->
  (sizeof_CodeAttribute <= length buf0)%nat ->
  exec (run depth) m a (swap_header buf0) 0
       (entered "main" m a buf0 (fresh (read_back k))) o ->
  main (S depth) [prog; file] (mkIO (write_class k) [] []) = exit_status o.
Proof. apply main_exec. Qed.

(** ** The theorem on the class [hello] *)

Lemma hello_encodable : encodable hello.
Proof. solve_encodable. Qed.

Lemma main_refines_witness :
  main 1 argv (start hello_bytes) = exit_status (Ok tt hello_done).
Proof.
  apply (main_refines 0 "zeravm" "Main.class" hello 0 0 (write_code 2 1 hello_code));
    [exact hello_encodable | by vm_compute | by vm_compute | by vm_compute
    | vm_compute; lia | exact hello_exec].
Defined.
