(* ===== verification/Scenarios.v ===== *)
(** * Scenarios: runs of whole class files

    Each example is a class file, written with [Encode.write_class], and
    what [main] does with it from the first byte read to the exit status:
    the lines on [cout] and how the process ends.  The examples fix the
    behaviours that the general theorems leave to the input: a method
    invoked twice, a callee that uses its caller's operand, code that ends
    in the middle of an instruction, a file that is not a class file, a
    file that ends inside a record. *)

From Stdlib Require Import ZArith List String Ascii Lia.
From stdpp Require Import base tactics option list strings.
From coqutil Require Import Byte Word.LittleEndianList.
From S2P Require Import Prelude ByteCodec Stream ConstantPool Records ClassFile.
From S2P Require Import Encode Executor Hello.

#[local] Open Scope Z_scope.
#[local] Open Scope string_scope.

(** ** A class with two methods, [main] and [f] *)

Definition calls_pool : list ConstantPoolEntry :=
  [ utf8 "Main"; class_ 1; utf8 "f"; utf8 "()V"; name_and_type 3 4; methodref 2 5;
    utf8 "main"; utf8 "Code"; utf8 "Hi"; string_ 9;
    utf8 "java/io/PrintStream"; class_ 11; utf8 "println";
    utf8 "(Ljava/lang/String;)V"; name_and_type 13 14; methodref 12 15 ].

Definition bytes_of (l : list Z) : list byte := map byte.of_Z l.

Definition calls (main_code f_code : list Z) : JavaClassFile.t :=
  class_file calls_pool
    [method 7 4 8 (bytes_of main_code); method 3 4 8 (bytes_of f_code)].

(** What [main] does with the file of a class. *)
Definition runs (k : JavaClassFile.t) : outcome IO Z :=
  main 3 argv (start (write_class k)).

Definition shown (e : ConstantPoolEntry) : string :=
  from_option id EmptyString (ConstantPoolEntry_show e).

(** The lines INVOKESTATIC prints for the call of [f] before it runs it. *)
Definition invoke_f : list string :=
  [ "Invoke static!";
    "Class: " +:+ shown (methodref 2 5);
    "Class index: " +:+ shown (class_ 1);
    "Class name: " +:+ shown (utf8 "Main");
    "Name and type: " +:+ shown (name_and_type 3 4);
    "|- Name: " +:+ shown (utf8 "f");
    "|- Descriptor: " +:+ shown (utf8 "()V") ].

Definition exits (status : Z) (lines : list string) : outcome IO Z :=
  Fault (Exit status) (mkIO [] lines []).

Definition returns_status (status : Z) (lines : list string) : outcome IO Z :=
  Ok status (mkIO [] lines []).

(** ** The examples *)

(** A method invoked twice: the second time its header is read swapped
    back, [max_locals] is 256 instead of 1 and [code_length] 2^24 instead
    of 1, and the loop runs on into the bytes after the code. *)
Example invoked_twice :
  runs (calls [0xB8; 0; 6; 0xB8; 0; 6; 0xB1] [0xB1]) =
  exits 1 (["[main] Length of LVA: 1"] ++ invoke_f ++
           ["[f] Length of LVA: 1"; "Return!"] ++ invoke_f ++
           ["[f] Length of LVA: 256"; "Return!"; "Unknown instruction: 0x0"]).
Proof. by vm_compute. Qed.

(** The action stack belongs to the executor, not to the invocation: the
    constant that [main] loads is printed by the [println] of [f]. *)
Example callee_sees_callers_stack :
  runs (calls [0x12; 10; 0xB8; 0; 6; 0xB1] [0xB6; 0; 16; 0xB1]) =
  returns_status 0 (["[main] Length of LVA: 1"] ++ invoke_f ++
                    ["[f] Length of LVA: 1"; "Hi"; "Return!"; "Return!"]).
Proof. by vm_compute. Qed.

(** Code that ends inside an instruction: SIPUSH takes its second operand
    byte from behind the code, and the run ends normally. *)
Example operand_past_the_code :
  runs (calls [0xB1; 0x11; 0x01] [0xB1]) =
  returns_status 0 ["[main] Length of LVA: 1"; "Return!"; "Number is: 256"].
Proof. by vm_compute. Qed.

(** RETURN does not end the method: the loop goes on to [code_length]. *)
Example return_goes_on :
  runs (calls [0xB1; 0xB1] [0xB1]) =
  returns_status 0 ["[main] Length of LVA: 1"; "Return!"; "Return!"].
Proof. by vm_compute. Qed.

(** A file with another magic number: the constructor reports it and
    returns, [main] runs the executor all the same, which finds no method
    [main] and exits with status 1. *)
Example not_a_class_file :
  main 3 argv (start (bytes_of [0xCA; 0xFE; 0xBA; 0xBF; 0; 0; 0; 52; 0; 1])) =
  exits 1 ["Main.class: not a Java Class file!";
           "Exception: Trying to get Code Attribute from nullptr method!";
           "           Method name: main"].
Proof. by vm_compute. Qed.

(** No file name on the command line. *)
Example too_few_arguments :
  main 3 ["zeravm"] (start []) = returns_status 1 ["Too few arguments!"].
Proof. by vm_compute. Qed.

(** An opcode outside the instruction set ends the process after the
    instructions before it have had their effect. *)
Example unknown_opcode :
  runs (calls [0x11; 1; 2; 0xFF; 0xB1] [0xB1]) =
  exits 1 ["[main] Length of LVA: 1"; "Number is: 258"; "Unknown instruction: 0xff"].
Proof. by vm_compute. Qed.

(** ILOAD_1 is recognised and refused. *)
Example iload_1_refused :
  runs (calls [0x1B; 0xB1] [0xB1]) =
  exits 1 ["[main] Length of LVA: 1"; "Iload 1!"; "Need a local variable array!"].
Proof. by vm_compute. Qed.

(** [println] with an integer on the stack reads the [Action] as a
    [ConstantAction], which it is not. *)
Example println_of_a_number :
  runs (calls [0x11; 0xFF; 0xFF; 0xB6; 0; 16; 0xB1] [0xB1]) =
  Fault (Undefined BadCast)
        (mkIO [] ["[main] Length of LVA: 1"; "Number is: 65535"] []).
Proof. by vm_compute. Qed.

(** A file that ends early is read past its end. *)
Example truncated_file :
  main 3 argv (start (take 100 (write_class (calls [0xB1] [0xB1])))) =
  Fault (Undefined UninitializedRead) (mkIO [] [] []).
Proof. by vm_compute. Qed.
