(* ===== verification/Abstract.v ===== *)
(** * Abstract: the interpreter on the stack and the output alone

    The instructions of [JavaExecutor::run] read the constant pool and the
    code, and write two things only: the stack of actions and [cout].
    This file gives the interpreter as a machine on those two, with the
    pool and the decoded instructions as parameters and no class file,
    stream or buffer in its state, and shows that the program implements
    it: every instruction but INVOKESTATIC ([sem_asem]), the loop over a
    method's code ([exec_aseq]) and [main] on the file of a class
    ([main_abstract]).

    The state of the abstract machine is a component of [Machine]; the
    proofs go through the lens of [Prelude].  INVOKESTATIC is outside the
    theorems: a call swaps the header of the callee's Code attribute in
    the class file, which is not a part of the abstract state. *)

From Stdlib Require Import ZArith List String Ascii Lia.
From stdpp Require Import base tactics option list strings.
From coqutil Require Import Byte.
From S2P Require Import Prelude ByteCodec Stream ConstantPool Records ClassFile.
From S2P Require Import Encode Executor Roundtrip Hello Cursor Store Termination.
From S2P Require Import Lookup Header Opcodes Refinement EndToEnd Scenarios.

#[local] Open Scope Z_scope.
#[local] Open Scope m_scope.

(** ** The abstract state *)

(** What the instructions write: [action_stack] and the lines on [cout]. *)
Record Abs : Type := mkAbs {
  a_stack : list Action;
  a_cout : list string;
}.

Definition abs_of (s : Machine) : Abs := mkAbs (action_stack s) (cout (io s)).

Definition with_abs (v : Abs) (s : Machine) : Machine :=
  mkMachine (klass s) (a_stack v) (mkIO (stream (io s)) (a_cout v) (cerr (io s))).

(** ** The primitive operations *)

(** [cout << line << endl] *)
Definition emit (line : string) : M Abs unit :=
  modify (fun v => mkAbs (a_stack v) (a_cout v ++ [line])).

(** [action_stack.push(a)] *)
Definition apush (a : Action) : M Abs unit :=
  modify (fun v => mkAbs (a :: a_stack v) (a_cout v)).

(** [action_stack.top()] *)
Definition atop : M Abs Action :=
  v <- get ;; or_ub EmptyStack (head (a_stack v)).

(** [action_stack.pop()] *)
Definition apop : M Abs unit :=
  v <- get ;;
  match a_stack v with
  | [] => fail (Undefined EmptyStack)
  | _ :: rest => put (mkAbs rest (a_cout v))
  end.

(** ** The instructions *)

Section Instructions.
(** What running the method called [name] does to the stack and the
    output, and the constant pool of the class. *)
Context (call : string -> M Abs unit) (pool : ConstantPool).

(** The six entries a reference resolves to. *)
Definition aresolve (idx : Z) : M Abs Resolved :=
  entry <- pool_entry pool idx ;;
  ci <- member (Reference_class_index entry) ;;
  class_index <- pool_entry pool ci ;;
  ni <- member (Class_name_index class_index) ;;
  classname_index <- pool_entry pool ni ;;
  nti <- member (Reference_name_and_type_index entry) ;;
  name_type_index <- pool_entry pool nti ;;
  n <- member (NameAndType_name_idx name_type_index) ;;
  name <- pool_entry pool n ;;
  d <- member (NameAndType_descriptor_idx name_type_index) ;;
  descriptor <- pool_entry pool d ;;
  ret (mkResolved entry class_index classname_index name_type_index name descriptor).

(** [cout << label << entry << endl] *)
Definition aprint_entry (label : string) (e : ConstantPoolEntry) : M Abs unit :=
  text <- member (ConstantPoolEntry_show e) ;;
  emit (label +:+ text).

(** [println] of the constant on top of the stack. *)
Definition aprintln : M Abs unit :=
  action <- atop ;;
  match action with
  | ConstantAction _ entry =>
      si <- member (String_string_index entry) ;;
      text <- pool_utf8 pool si ;;
      emit text ;;
      apop
  | _ => fail (Undefined BadCast)
  end.

(** The effect of an instruction on the stack and the output. *)
Definition asem (i : insn) : M Abs unit :=
  match i with
  | GetStatic idx =>
      r <- aresolve idx ;;
      class_name <- member (Utf8_bytes (r_classname_index r)) ;;
      name <- member (Utf8_bytes (r_name r)) ;;
      apush (StaticAction STATIC class_name name)
  | Ldc idx =>
      entry <- pool_entry pool idx ;;
      apush (ConstantAction CONSTANT entry)
  | InvokeVirtual idx =>
      r <- aresolve idx ;;
      class_name <- member (Utf8_bytes (r_classname_index r)) ;;
      if String.eqb class_name "java/io/PrintStream" then
        name <- member (Utf8_bytes (r_name r)) ;;
        if String.eqb name "println" then aprintln else ret tt
      else ret tt
  | InvokeStatic idx =>
      emit "Invoke static!" ;;
      r <- aresolve idx ;;
      aprint_entry "Class: " (r_entry r) ;;
      aprint_entry "Class index: " (r_class_index r) ;;
      aprint_entry "Class name: " (r_classname_index r) ;;
      aprint_entry "Name and type: " (r_name_type_index r) ;;
      aprint_entry "|- Name: " (r_name r) ;;
      aprint_entry "|- Descriptor: " (r_descriptor r) ;;
      name <- member (Utf8_bytes (r_name r)) ;;
      call name
  | SiPush num =>
      emit ("Number is: " +:+ dec num) ;;
      apush (ValueAction CONSTANT num)
  | Iload_1 =>
      emit "Iload 1!" ;;
      emit "Need a local variable array!" ;;
      fail (Exit 1)
  | Return_ => emit "Return!"
  | Unknown op =>
      emit ("Unknown instruction: " +:+ HexString.of_Z op) ;;
      fail (Exit 1)
  end.

(** The instructions of a method, one after the other.  There is no
    instruction that moves the cursor but by its own length, and RETURN
    does not leave the loop. *)
Fixpoint aseq (code : list insn) : M Abs unit :=
  match code with
  | [] => ret tt
  | i :: rest => asem i ;; aseq rest
  end.

End Instructions.

(** ** Decoding a method's code *)

(** The instructions of the code in [buf] from [cursor] to [code_length];
    [None] when the buffer ends inside an instruction. *)
Fixpoint decode (buf : list byte) (fuel cursor : nat) : option (list insn) :=
  if Z.of_nat cursor <? code_length (view buf) then
    match fuel with
    | O => None
    | S fuel =>
        '(i, len) ← fetch buf (sizeof_CodeAttribute + cursor);
        rest ← decode buf fuel (cursor + len);
        Some (i :: rest)
    end
  else Some [].

(** The code can be decoded and has no INVOKESTATIC. *)
Definition straight_code (buf : list byte) : option (list insn) :=
  code ← decode buf (length buf) 0;
  if forallb straight code then Some code else None.

(** ** The program of a class file *)

(** The state in which the code of [main] starts, and the code: [None]
    when the class has no method [main] with a Code attribute whose code
    is straight. *)
Definition program (k : JavaClassFile.t) : option (Abs * list insn) :=
  match get_method "main" (fresh k) with
  | Ok (Some m) _ =>
      match get_Code m (fresh k) with
      | Ok (Some a) _ =>
          buf0 ← info_at k m a;
          if decide (sizeof_CodeAttribute <= length buf0)%nat then
            code ← straight_code (swap_header buf0);
            Some (mkAbs [] ["[main] Length of LVA: " +:+
                            dec (max_locals (view (swap_header buf0)))], code)
          else None
      | _ => None
      end
  | _ => None
  end.

(** How the process ends when the abstract machine ends with [o]. *)
Definition exit_abs (o : outcome Abs unit) : outcome IO Z :=
  match o with
  | Ok _ v => Ok 0 (mkIO [] (a_cout v) [])
  | Fault f v => Fault f (mkIO [] (a_cout v) [])
  end.

(** ** The lens *)

#[export] Instance abs_lens : Lens abs_of with_abs.
Proof. split; [by intros [] ? | by intros [? ? []] | done]. Qed.

(** The machine whose class file has the constant pool [pool]. *)
Definition has_pool (pool : ConstantPool) (s : Machine) : Prop :=
  JavaClassFile.const_pool (klass s) = Some pool.

#[export] Instance has_pool_frame pool : Frame with_abs (has_pool pool).
Proof. by intros v s. Qed.

Create HintDb implements discriminated.

Section Primitives.
Context (pool : ConstantPool).

#[local] Notation "m ⊑ v" := (implements abs_of with_abs (has_pool pool) m v)
  (at level 70).

Lemma print_emit line : print line ⊑ emit line.
Proof. by intros s _. Qed.

Lemma push_apush a : push a ⊑ apush a.
Proof. by intros [k st []] _. Qed.

Lemma top_atop : top ⊑ atop.
Proof. intros [k [|a st] []] _; reflexivity. Qed.

Lemma pop_apop : pop ⊑ apop.
Proof. intros [k [|a st] []] _; reflexivity. Qed.

Lemma the_pool_has s : has_pool pool s -> the_pool s = Ok pool s.
Proof. apply the_pool_at. Qed.

End Primitives.

#[export] Hint Resolve print_emit push_apush top_atop pop_apop : implements.

(** Prove [implements m v] for two terms of the same shape, [v] without
    the reads of [the_pool]. *)
Ltac implements_struct :=
  repeat first
    [ solve [ auto with implements ]
    | match goal with |- Lens _ _ => exact _ | |- Frame _ _ => exact _ end
    | apply implements_ret
    | apply implements_fail
    | apply implements_or_ub
    | apply implements_const with (1 := the_pool_has _)
    | apply implements_bind; [ .. | intros ]
    | match goal with
      | |- implements _ _ _ (if ?x then _ else _) _ => destruct x
      | |- implements _ _ _ (match ?x with _ => _ end) _ => destruct x
      end ].

(** ** The instructions implement their abstract effect *)

Section Implements.
Context (call : string -> M Abs unit) (pool : ConstantPool).

#[local] Notation "m ⊑ v" := (implements abs_of with_abs (has_pool pool) m v)
  (at level 70).

Lemma resolve_aresolve idx : resolve idx ⊑ aresolve pool idx.
Proof. unfold resolve, aresolve, pool_entry, member. implements_struct. Qed.

Lemma println_aprintln : println ⊑ aprintln pool.
Proof.
  unfold println, aprintln, pool_utf8, pool_entry, member. implements_struct.
Qed.

Lemma sem_implements run i : straight i = true -> sem run i ⊑ asem call pool i.
Proof.
  destruct i; try done; intros _; cbn [sem asem]; unfold pool_entry, member;
    pose proof resolve_aresolve; pose proof println_aprintln; implements_struct.
Qed.

End Implements.

(** ** Decoding *)

Section Decode.
Context (buf : list byte).

Lemma decode_end fuel cursor :
  ~ in_code buf cursor -> decode buf fuel cursor = Some [].
Proof.
  unfold in_code. intros Hc.
  destruct fuel; cbn [decode];
    by destruct (Z.ltb_spec (Z.of_nat cursor) (code_length (view buf))).
Qed.

Lemma decode_insn fuel cursor i len :
  in_code buf cursor -> fetch buf (sizeof_CodeAttribute + cursor) = Some (i, len) ->
  decode buf (S fuel) cursor = cons i <$> decode buf fuel (cursor + len).
Proof.
  unfold in_code. intros Hc Hf. cbn [decode]. rewrite Hf.
  by destruct (Z.ltb_spec (Z.of_nat cursor) (code_length (view buf))); [|lia].
Qed.

(** What [decode] returned, by cases on the cursor. *)
Lemma decode_Some fuel cursor code :
  decode buf fuel cursor = Some code ->
  (~ in_code buf cursor /\ code = []) \/
  exists fuel' i len rest,
    fuel = S fuel' /\ in_code buf cursor /\
    fetch buf (sizeof_CodeAttribute + cursor) = Some (i, len) /\
    decode buf fuel' (cursor + len) = Some rest /\ code = i :: rest.
Proof.
  unfold in_code. intros H. destruct fuel as [|fuel]; cbn [decode] in H;
    destruct (Z.ltb_spec (Z.of_nat cursor) (code_length (view buf))) as [Hc|Hc];
    try done; try (left; split; [lia | congruence]).
  destruct (fetch buf (sizeof_CodeAttribute + cursor)) as [[j n]|]; [|done].
  cbn [mbind option_bind] in H.
  destruct (decode buf fuel (cursor + n)) as [rest|] eqn:Hd; [|done].
  injection H as <-. right. by exists fuel, j, n, rest.
Qed.

Lemma decode_decodes fuel cursor code :
  decode buf fuel cursor = Some code -> forallb straight code = true ->
  decodes buf cursor.
Proof.
  revert cursor code. induction fuel as [|fuel IH]; intros cursor code H Hs;
    apply decode_Some in H as [[Hc _]|(fuel' & i & len & rest & E & Hc & Hf & Hd & ->)];
    try (by apply decodes_end).
  injection E as <-. cbn [forallb] in Hs. apply andb_prop in Hs as [Hi Hs].
  eapply decodes_insn; eauto.
Qed.

Lemma decodes_decode cursor :
  decodes buf cursor ->
  forall fuel, (length buf - (sizeof_CodeAttribute + cursor) < fuel)%nat ->
  exists code, decode buf fuel cursor = Some code /\ forallb straight code = true.
Proof.
  induction 1 as [cursor Hc | cursor i len Hc Hf Hs _ IH]; intros fuel Hfuel.
  - exists []. by rewrite decode_end.
  - destruct fuel as [|fuel]; [lia|]. apply fetch_length in Hf as Hl.
    destruct (IH fuel) as (rest & Hd & Hr); [lia|].
    exists (i :: rest). rewrite (decode_insn _ _ _ _ Hc Hf), Hd.
    split; [done|]. cbn [forallb]. by rewrite Hs, Hr.
Qed.

End Decode.

(** ** The loop implements the abstract machine *)

Section Exec.
Context (call : string -> M Abs unit) (pool : ConstantPool).
Context (run : string -> M Machine unit) (m a : nat) (buf : list byte).

Lemma at_code_with_abs v s : at_code m a buf s -> at_code m a buf (with_abs v s).
Proof. done. Qed.

Lemma decode_exec fuel : forall cursor code s,
  decode buf fuel cursor = Some code -> forallb straight code = true ->
  at_code m a buf s -> has_pool pool s ->
  exec run m a buf cursor s (zoom abs_of with_abs (aseq call pool code) s).
Proof.
  induction fuel as [|fuel IH]; intros cursor code s H Hs Hb Hp;
    apply decode_Some in H as [[Hc ->]|(fuel' & i & len & rest & E & Hc & Hf & Hd & ->)];
    try (cbn [aseq]; rewrite (zoom_ret abs_of with_abs); by apply exec_end);
    [done|].
  injection E as <-. cbn [forallb] in Hs. apply andb_prop in Hs as [Hi Hs].
  pose proof (sem_implements call pool run i Hi s Hp) as Hsem.
  cbn [aseq]. rewrite (zoom_bind abs_of with_abs). unfold bind.
  destruct (zoom_cases abs_of with_abs s (asem call pool i)) as [([] & v & E)|(f & v & E)];
    rewrite E in Hsem |- *.
  - eapply exec_insn; eauto.
  - by eapply exec_fault.
Qed.

End Exec.

(** The loop of [run] on straight code, with the fuel of [run]. *)
Lemma run_loop_aseq call pool run m a buf fuel fuel' cursor code s :
  (sizeof_CodeAttribute <= length buf)%nat ->
  at_code m a buf s -> has_pool pool s ->
  decode buf fuel cursor = Some code -> forallb straight code = true ->
  (length buf - (sizeof_CodeAttribute + cursor) < fuel')%nat ->
  run_loop fuel' run (mkBufPtr m a 0) (mkBufPtr m a sizeof_CodeAttribute) cursor s =
  zoom abs_of with_abs (aseq call pool code) s.
Proof.
  intros Hl Hb Hp Hd Hs Hf. eapply run_loop_exec; eauto.
  by eapply decode_exec.
Qed.

(** ** The whole program *)

Lemma program_Some k v0 code :
  program k = Some (v0, code) ->
  exists m a buf0,
    get_method "main" (fresh k) = Ok (Some m) (fresh k) /\
    get_Code m (fresh k) = Ok (Some a) (fresh k) /\
    info_at k m a = Some buf0 /\ (sizeof_CodeAttribute <= length buf0)%nat /\
    decode (swap_header buf0) (length (swap_header buf0)) 0 = Some code /\
    forallb straight code = true /\
    v0 = abs_of (entered "main" m a buf0 (fresh k)).
Proof.
  unfold program, straight_code. intros H.
  destruct (get_method "main" (fresh k)) as [[m|] s1|] eqn:Hm; try done.
  destruct (get_Code m (fresh k)) as [[a|] s2|] eqn:Hc; try done.
  destruct (info_at k m a) as [buf0|] eqn:Hi; [|done]. cbn [mbind option_bind] in H.
  destruct (decide _) as [Hl|]; [|done].
  destruct (decode _ _ 0) as [code'|] eqn:Hd; [|done]. cbn [mbind option_bind] in H.
  destruct (forallb straight code') eqn:Hs; [|done]. injection H as <- <-.
  pose proof (keeps_Ok _ _ _ _ _ (get_method_pure "main") Hm) as <-.
  pose proof (keeps_Ok _ _ _ _ _ (get_Code_pure m) Hc) as <-.
  by exists m, a, buf0.
Qed.

Lemma main_aseq call k pool v0 code depth prog file :
  encodable k ->
  JavaClassFile.const_pool k = Some pool ->
  program (read_back k) = Some (v0, code) ->
  main (S depth) [prog; file] (mkIO (write_class k) [] []) =
  exit_abs (aseq call pool code v0).
Proof.
  intros He Hp (m & a & buf0 & Hm & Hc & Hi & Hl & Hd & Hs & ->)%program_Some.
  rewrite (main_exec depth prog file k m a buf0 _ He Hm Hc Hi Hl
             (decode_exec call pool _ m a _ _ 0 code
                (entered "main" m a buf0 (fresh (read_back k))) Hd Hs
                (info_at_set_info _ _ _ _ _ Hi) Hp)).
  unfold zoom. by destruct (aseq call pool code _).
Qed.

(** ** Straight code *)

(** A call is the only instruction whose effect depends on [call]. *)
Lemma asem_call call call' pool i v :
  straight i = true -> asem call pool i v = asem call' pool i v.
Proof. by destruct i. Qed.

Lemma aseq_call call call' pool code v :
  forallb straight code = true -> aseq call pool code v = aseq call' pool code v.
Proof.
  revert v. induction code as [|i code IH]; intros v Hs; [done|].
  cbn [forallb] in Hs. apply andb_prop in Hs as [Hi Hs]. cbn [aseq]. unfold bind.
  rewrite (asem_call call call' pool i v Hi). destruct (asem call' pool i v); auto.
Qed.

Lemma aseq_app call pool code1 code2 v :
  aseq call pool (code1 ++ code2) v =
  (aseq call pool code1 ;; aseq call pool code2) v.
Proof.
  revert v. induction code1 as [|i code1 IH]; intros v; [done|].
  cbn [app aseq]. rewrite bind_assoc. by apply bind_ext.
Qed.

Lemma straight_code_Some buf code :
  straight_code buf = Some code <->
  decode buf (length buf) 0 = Some code /\ forallb straight code = true.
Proof.
  unfold straight_code. destruct (decode buf (length buf) 0) as [code'|]; cbn.
  - destruct (forallb straight code') eqn:Hs; split; try done.
    + by intros [= <-].
    + by intros [[= <-] _].
    + intros [[= <-] H]. congruence.
  - split; [done | by intros []].
Qed.

Lemma straight_code_iff buf :
  (sizeof_CodeAttribute <= length buf)%nat ->
  is_Some (straight_code buf) <-> decodes buf 0.
Proof.
  intros Hl. split.
  - intros [code [Hd Hs]%straight_code_Some]. by eapply decode_decodes.
  - intros Hd. destruct (decodes_decode buf 0 Hd (length buf)) as (code & H & Hs).
    { unfold sizeof_CodeAttribute in *. lia. }
    exists code. by apply straight_code_Some.
Qed.

(** ** The faults of straight code *)

(** How straight code ends when it does not return: [exit(1)] at ILOAD_1
    or at a byte that is no opcode, or one of four undefined behaviours:
    an index outside the constant pool, a member of the union that was
    not the one written, [top] or [pop] of an empty stack, and the cast
    of an [Action] that is no [ConstantAction]. *)
Definition straight_fault (f : fault) : Prop :=
  match f with
  | Exit code => code = 1
  | Undefined (PoolIndex _) | Undefined UnionMember
  | Undefined EmptyStack | Undefined BadCast => True
  | _ => False
  end.

Section Faults.
Context (call : string -> M Abs unit) (pool : ConstantPool).

Lemma aresolve_faults idx : faults_in straight_fault (aresolve pool idx).
Proof. unfold aresolve, pool_entry, member. faults_in_with ltac:(done). Qed.

Lemma aprintln_faults : faults_in straight_fault (aprintln pool).
Proof.
  unfold aprintln, atop, apop, emit, pool_utf8, pool_entry, member.
  faults_in_with ltac:(done).
Qed.

Lemma asem_faults i : straight i = true -> faults_in straight_fault (asem call pool i).
Proof.
  destruct i; try done; intros _; cbn [asem]; unfold emit, apush, pool_entry, member;
    pose proof aresolve_faults; pose proof aprintln_faults;
    faults_in_with ltac:(done).
Qed.

Lemma aseq_faults code :
  forallb straight code = true -> faults_in straight_fault (aseq call pool code).
Proof.
  induction code as [|i code IH]; intros Hs; [apply faults_in_ret|].
  cbn [forallb] in Hs. apply andb_prop in Hs as [Hi Hs].
  apply faults_in_bind; [by apply asem_faults | intros _; by apply IH].
Qed.

End Faults.

Lemma main_straight k pool v0 code depth prog file f io' :
  encodable k ->
  JavaClassFile.const_pool k = Some pool ->
  program (read_back k) = Some (v0, code) ->
  main (S depth) [prog; file] (mkIO (write_class k) [] []) = Fault f io' ->
  straight_fault f.
Proof.
  intros He Hp Hk. rewrite (main_aseq (fun _ => ret tt) k pool v0 code) by done.
  apply program_Some in Hk as (_ & _ & _ & _ & _ & _ & _ & _ & Hs & _).
  destruct (aseq _ pool code v0) as [|g v] eqn:E; [done|]. intros [= <- _].
  by eapply aseq_faults.
Qed.

(** ** What the abstract machine promises *)

(** C5: an instruction that is not INVOKESTATIC does to the machine what
    its abstract effect does to the stack and the output, fault for
    fault: the class file, the stream and [cerr] are left as they were,
    and the constant pool is all it reads of the class file. *)
Theorem sem_asem call pool run i s :
  straight i = true -> has_pool pool s ->
  sem run i s = zoom abs_of with_abs (asem call pool i) s.
Proof. intros Hi Hp. by apply sem_implements. Qed.

(** The decoder decides straight-line code: [straight_code] returns
    the instructions of a Code attribute exactly when the code from
    cursor 0 on is a sequence of whole instructions without INVOKESTATIC
    that ends at or behind [code_length]; the length of the buffer is
    fuel enough. *)
Theorem straight_code_decodes buf :
  (sizeof_CodeAttribute <= length buf)%nat ->
  is_Some (straight_code buf) <-> decodes buf 0.
Proof. apply straight_code_iff. Qed.

(** C2: on the file of a class whose method [main] has straight code, the
    program is the abstract machine: [main] ends as folding the effects
    of the decoded instructions over the stack and the output ends, from
    the empty stack and the line of [run], with status 0 and that output
    when the fold returns and with its fault and the output so far
    otherwise.  Nothing else of the class file matters to the outcome
    than the pool and the decoded code. *)
Theorem main_abstract call k pool v0 code depth prog file :
  encodable k ->
  JavaClassFile.const_pool k = Some pool ->
  program (read_back k) = Some (v0, code) ->
  main (S depth) [prog; file] (mkIO (write_class k) [] []) =
  exit_abs (aseq call pool code v0).
Proof. apply main_aseq. Qed.

(** C27: a program with straight code that does not return 0 ends in
    [exit(1)], at ILOAD_1 or at a byte that is no opcode, or in one of
    four undefined behaviours: an index outside the constant pool, a
    read of a union member that was not written, [top] or [pop] of the
    empty stack, the cast of an [Action] that is no [ConstantAction].  It
    never reads outside a buffer and never runs out of fuel. *)
Theorem main_straight_faults k pool v0 code depth prog file f io' :
  encodable k ->
  JavaClassFile.const_pool k = Some pool ->
  program (read_back k) = Some (v0, code) ->
  main (S depth) [prog; file] (mkIO (write_class k) [] []) = Fault f io' ->
  straight_fault f.
Proof. apply main_straight. Qed.

(** ** The theorems on the class [hello] *)

Definition no_call : string -> M Abs unit := fun _ => ret tt.

Definition hello_insns : list insn := [GetStatic 10; Ldc 12; InvokeVirtual 18; Return_].

Definition hello_start : Abs := mkAbs [] ["[main] Length of LVA: 1"%string].

(** The abstract machine on [hello]: the reference to [System.out] stays
    on the stack, [println] pops the constant only. *)
Example hello_abstract :
  aseq no_call (mkPool hello_pool) hello_insns hello_start =
  Ok tt (mkAbs [StaticAction STATIC "java/lang/System" "out"]
           ["[main] Length of LVA: 1"; "Hi"; "Return!"]%string).
Proof. by vm_compute. Qed.

Lemma sem_asem_witness :
  sem (run 0) (Ldc 12) hello_machine =
  zoom abs_of with_abs (asem no_call (mkPool hello_pool) (Ldc 12)) hello_machine.
Proof. apply (sem_asem no_call (mkPool hello_pool) (run 0) (Ldc 12)); reflexivity. Defined.

Lemma straight_code_decodes_witness :
  is_Some (straight_code hello_buf) <-> decodes hello_buf 0.
Proof. apply (straight_code_decodes hello_buf). vm_compute. lia. Defined.

Lemma main_abstract_witness :
  main 1 argv (start hello_bytes) =
  exit_abs (aseq no_call (mkPool hello_pool) hello_insns hello_start).
Proof.
  apply (main_abstract no_call hello (mkPool hello_pool) hello_start hello_insns 0
           "zeravm" "Main.class"); [exact hello_encodable | reflexivity | by vm_compute].
Defined.

(** A program that ends in a fault of straight code: [println] with a
    number on the stack. *)
Definition number_printed : JavaClassFile.t :=
  calls [0x11; 0xFF; 0xFF; 0xB6; 0; 16; 0xB1] [0xB1].

Lemma number_printed_encodable : encodable number_printed.
Proof. solve_encodable. Qed.

Lemma main_straight_faults_witness : straight_fault (Undefined BadCast).
Proof.
  apply (main_straight_faults number_printed (mkPool calls_pool) hello_start
           [SiPush 65535; InvokeVirtual 16; Return_] 2 "zeravm" "Main.class"
           (Undefined BadCast)
           (mkIO [] ["[main] Length of LVA: 1"; "Number is: 65535"]%string []));
    [exact number_printed_encodable | reflexivity | by vm_compute | by vm_compute].
Defined.
