(* ===== verification/Heap.v ===== *)
(** * Heap: the free store

    The program takes every array and several objects from the free store
    with [new] and [new[]] and gives some back in its destructors.  A
    block is named after the pointer member that receives it ([loc]): the
    program assigns each of these members once, so the name identifies
    the block, and two pointers are equal exactly when they carry the
    same name.  [Heap] records the blocks that are live and, for each,
    whether [new] or [new[]] made it ([form]); the C++ standard defines a
    [delete] only on what [new] made and a [delete[]] only on what
    [new[]] made, and neither on a pointer to no live block.

    [delete_scalar] and [delete_array] are the two delete-expressions:
    the null test, the check of the form, the destructors of the object
    or of the elements (last element first), the release of the block. *)

From Stdlib Require Import ZArith List Lia.
From stdpp Require Import base tactics option list countable gmap.
From S2P Require Import Prelude.

#[local] Open Scope m_scope.

(** ** Blocks *)

(** [new T] or [new T[n]]. *)
Inductive form : Type := Single | Many.

(** The object an [attributes] array belongs to: the class file, its
    field [i] or its method [i]. *)
Inductive owner : Type :=
| OfClass
| OfField (i : nat)
| OfMethod (i : nat).

Inductive loc : Type :=
| StreamBlock                       (* stream, main.cpp 305 *)
| PoolBlock                         (* const_pool, 324 *)
| EntriesBlock                      (* entries, 168 *)
| Utf8Block (i : nat)               (* entries[i].Utf8.bytes, 112 *)
| InterfacesBlock                   (* interfaces, 334 *)
| FieldsBlock                       (* fields, 344 *)
| MethodsBlock                      (* methods, 352 *)
| AttributesBlock (o : owner)       (* attributes, 240, 270, 360 *)
| InfoBlock (o : owner) (j : nat)   (* attributes[j].info, 206 *)
| ActionBlock (n : nat).            (* the n-th Action, 530, 547, 631 *)

#[export] Instance form_eq_dec : EqDecision form.
Proof. solve_decision. Defined.

#[export] Instance owner_eq_dec : EqDecision owner.
Proof. solve_decision. Defined.

#[export] Instance loc_eq_dec : EqDecision loc.
Proof. solve_decision. Defined.

#[export] Instance owner_countable : Countable owner.
Proof.
  apply (inj_countable'
    (fun o => match o with
              | OfClass => inl tt
              | OfField i => inr (inl i)
              | OfMethod i => inr (inr i)
              end)
    (fun c => match c with
              | inl _ => OfClass
              | inr (inl i) => OfField i
              | inr (inr i) => OfMethod i
              end)).
  by intros [].
Defined.

#[export] Instance loc_countable : Countable loc.
Proof.
  apply (inj_countable'
    (fun l => match l with
              | StreamBlock => (0, OfClass, 0)
              | PoolBlock => (1, OfClass, 0)
              | EntriesBlock => (2, OfClass, 0)
              | Utf8Block i => (3, OfClass, i)
              | InterfacesBlock => (4, OfClass, 0)
              | FieldsBlock => (5, OfClass, 0)
              | MethodsBlock => (6, OfClass, 0)
              | AttributesBlock o => (7, o, 0)
              | InfoBlock o j => (8, o, j)
              | ActionBlock n => (9, OfClass, n)
              end%nat)
    (fun c => match c with
              | (0, _, _) => StreamBlock
              | (1, _, _) => PoolBlock
              | (2, _, _) => EntriesBlock
              | (3, _, i) => Utf8Block i
              | (4, _, _) => InterfacesBlock
              | (5, _, _) => FieldsBlock
              | (6, _, _) => MethodsBlock
              | (7, o, _) => AttributesBlock o
              | (8, o, j) => InfoBlock o j
              | (_, _, n) => ActionBlock n
              end%nat)).
  by intros [].
Defined.

(** ** The heap *)

(** The live blocks, and how many [Action]s were allocated so far. *)
Record Heap : Type := mkHeap {
  live : gmap loc form;
  actions : nat;
}.

#[export] Instance Heap_eq_dec : EqDecision Heap.
Proof. solve_decision. Defined.

Definition empty_heap : Heap := mkHeap ∅ 0.

Definition set_live (g : gmap loc form -> gmap loc form) (h : Heap) : Heap :=
  mkHeap (g (live h)) (actions h).

(** [new StaticAction], [new ConstantAction], [new ValueAction] *)
Definition new_action : M Heap loc :=
  h <- get ;;
  put (mkHeap (<[ActionBlock (actions h) := Single]> (live h)) (S (actions h))) ;;
  ret (ActionBlock (actions h)).

(** What the standard asks of the operand of a delete-expression. *)
Definition expect (k : form) (l : loc) : M Heap unit :=
  h <- get ;;
  match live h !! l with
  | None => fail (Undefined InvalidDelete)
  | Some k' => if decide (k' = k) then ret tt else fail (Undefined MismatchedDelete)
  end.

(** The deallocation function. *)
Definition release (l : loc) : M Heap unit := modify (set_live (delete l)).

(** [delete p], [destroy] the destructor of the object [p] points to. *)
Definition delete_scalar (p : option loc) (destroy : M Heap unit) : M Heap unit :=
  match p with
  | None => ret tt
  | Some l => expect Single l ;; destroy ;; release l
  end.

(** The destructors of the elements of an array whose first element has
    the index [i]: the last element goes first. *)
Fixpoint destroy_elements {A} (destroy : nat -> A -> M Heap unit) (i : nat)
    (elements : list A) : M Heap unit :=
  match elements with
  | [] => ret tt
  | a :: rest => destroy_elements destroy (S i) rest ;; destroy i a
  end.

(** [delete[] p], [destroy i] the destructor of the element [i]. *)
Definition delete_array {A} (p : option loc) (destroy : nat -> A -> M Heap unit)
    (elements : list A) : M Heap unit :=
  match p with
  | None => ret tt
  | Some l => expect Many l ;; destroy_elements destroy 0 elements ;; release l
  end.

(** The new-expression that makes each block: [new T[n]] for the arrays
    (main.cpp 168, 206, 240, 270, 334, 344, 352, 360), [new T] for the
    stream, the pool, a [std::string] and an [Action] (305, 324, 112,
    530, 547, 631). *)
Definition made_by (l : loc) : form :=
  match l with
  | StreamBlock | PoolBlock | Utf8Block _ | ActionBlock _ => Single
  | EntriesBlock | InterfacesBlock | FieldsBlock | MethodsBlock
  | AttributesBlock _ | InfoBlock _ _ => Many
  end.

(** The heap after the new-expressions of the blocks [ls] ran. *)
Definition acquire (ls : list loc) (h : Heap) : Heap :=
  set_live (fun m => foldr (fun l => <[l := made_by l]>) m ls) h.

(** The heap after the blocks [ls] were released. *)
Definition free_all (ls : list loc) (h : Heap) : Heap :=
  set_live (fun m => foldr delete m ls) h.

(** Destruction of a type without a destructor: [uint8_t], [uint16_t]. *)
Definition trivial {A} (i : nat) (a : A) : M Heap unit := ret tt.

#[global] Arguments expect : simpl never.
#[global] Arguments release : simpl never.

(** ** The faults of a delete-expression *)

Definition delete_fault (f : fault) : Prop :=
  f = Undefined MismatchedDelete \/ f = Undefined InvalidDelete.

#[export] Instance delete_fault_dec f : Decision (delete_fault f).
Proof. unfold delete_fault. apply _. Defined.

(** ** Lemmas *)

Section Heap.
Implicit Types (h : Heap) (l : loc) (k : form).

Lemma expect_Ok k l h : live h !! l = Some k -> expect k l h = Ok tt h.
Proof.
  intros H. unfold expect, bind, get. rewrite H. by rewrite decide_True.
Qed.

Lemma expect_mismatch k k' l h :
  live h !! l = Some k' -> k' <> k ->
  expect k l h = Fault (Undefined MismatchedDelete) h.
Proof.
  intros H Hk. unfold expect, bind, get. rewrite H. by rewrite decide_False.
Qed.

Lemma expect_invalid k l h :
  live h !! l = None -> expect k l h = Fault (Undefined InvalidDelete) h.
Proof. intros H. unfold expect, bind, get. by rewrite H. Qed.

Lemma expect_Ok_inv k l h v h' :
  expect k l h = Ok v h' -> live h !! l = Some k /\ h' = h.
Proof.
  unfold expect, bind, get. destruct (live h !! l) as [k'|]; [|done].
  case_decide; [|done]. intros [= <-]. by subst.
Qed.

Lemma expect_faults P k l :
  P (Undefined MismatchedDelete) -> P (Undefined InvalidDelete) ->
  faults_in P (expect k l).
Proof.
  intros H1 H2 h f h'. unfold expect, bind, get.
  destruct (live h !! l); [case_decide|]; intros [= <- <-] || intros [=]; done.
Qed.

Lemma release_Ok l h : release l h = Ok tt (set_live (delete l) h).
Proof. reflexivity. Qed.

Lemma destroy_trivial {A} i (elements : list A) h :
  destroy_elements trivial i elements h = Ok tt h.
Proof.
  revert i. induction elements as [|a rest IH]; intros i; [done|].
  simpl. by rewrite (bind_Ok _ _ _ _ _ (IH (S i))).
Qed.

(** [delete p] on what [new] made runs the destructor and frees the block. *)
Lemma delete_scalar_Ok l (destroy : M Heap unit) h h' :
  live h !! l = Some Single -> destroy h = Ok tt h' ->
  delete_scalar (Some l) destroy h = Ok tt (set_live (delete l) h').
Proof.
  intros Hl Hd. unfold delete_scalar.
  rewrite (bind_Ok _ _ _ _ _ (expect_Ok _ _ _ Hl)).
  by rewrite (bind_Ok _ _ _ _ _ Hd).
Qed.

(** [delete p] on what [new[]] made is undefined, before any destructor runs. *)
Lemma delete_scalar_Many l (destroy : M Heap unit) h :
  live h !! l = Some Many ->
  delete_scalar (Some l) destroy h = Fault (Undefined MismatchedDelete) h.
Proof.
  intros Hl. unfold delete_scalar.
  by rewrite (bind_Fault _ _ _ _ _ (expect_mismatch Single _ _ _ Hl ltac:(done))).
Qed.

(** [delete[] p] of bytes on what [new[]] made frees the block. *)
Lemma delete_array_trivial {A} l (elements : list A) h :
  live h !! l = Some Many ->
  delete_array (Some l) trivial elements h = Ok tt (set_live (delete l) h).
Proof.
  intros Hl. unfold delete_array.
  rewrite (bind_Ok _ _ _ _ _ (expect_Ok _ _ _ Hl)).
  by rewrite (bind_Ok _ _ _ _ _ (destroy_trivial _ _ _)).
Qed.

(** *** Sets of blocks *)

Lemma lookup_acquire ls h l :
  l ∈ ls -> live (acquire ls h) !! l = Some (made_by l).
Proof.
  unfold acquire. simpl. induction ls as [|x ls IH]; [by intros ?%elem_of_nil|].
  intros [->|Hl]%elem_of_cons; simpl; [by rewrite lookup_insert_eq|].
  destruct (decide (x = l)) as [->|Hx]; [by rewrite lookup_insert_eq|].
  rewrite lookup_insert_ne by done. auto.
Qed.

Lemma lookup_acquire_ne ls h l :
  l ∉ ls -> live (acquire ls h) !! l = live h !! l.
Proof.
  unfold acquire. simpl. induction ls as [|x ls IH]; [done|].
  intros [Hx Hl]%not_elem_of_cons. simpl.
  rewrite lookup_insert_ne by done. auto.
Qed.

Lemma actions_acquire ls h : actions (acquire ls h) = actions h.
Proof. reflexivity. Qed.

Lemma lookup_free_all ls h l :
  live (free_all ls h) !! l = if decide (l ∈ ls) then None else live h !! l.
Proof.
  unfold free_all. simpl. case_decide.
  - by apply lookup_foldr_delete.
  - by apply lookup_foldr_delete_not_elem_of.
Qed.

Lemma free_all_cons l ls h :
  set_live (delete l) (free_all ls h) = free_all (l :: ls) h.
Proof. reflexivity. Qed.

Lemma free_all_app ls1 ls2 h :
  free_all ls1 (free_all ls2 h) = free_all (ls1 ++ ls2) h.
Proof. unfold free_all, set_live. simpl. by rewrite foldr_app. Qed.

(** Blocks that were not there before are all that a release takes back. *)
Lemma free_all_acquire ls h :
  Forall (fun l => live h !! l = None) ls -> free_all ls (acquire ls h) = h.
Proof.
  intros Hf. destruct h as [m n]. unfold free_all, acquire, set_live. simpl in *.
  f_equal. apply map_eq. intros l.
  pose proof (lookup_free_all ls (acquire ls (mkHeap m n)) l) as E.
  unfold free_all, acquire, set_live in E. simpl in E. rewrite E.
  case_decide as Hl.
  - rewrite Forall_forall in Hf. symmetry. by apply Hf.
  - exact (lookup_acquire_ne ls (mkHeap m n) l Hl).
Qed.

End Heap.

#[export] Hint Resolve expect_faults : zera.
