(* ===== verification/Destructors.v ===== *)
(** * Destructors: what the program gives back to the free store
    (main.cpp 155-159, 181-185, 211-213, 247-249, 297-299, 380-391, 498)

    Each destructor is an operation on the [Heap].  The records of the
    model hold their arrays by value, so a destructor takes the name of
    the block its pointer member holds beside the record: the slot of the
    pool for an entry, the [owner] and the index for an attribute, the
    index for a field or a method.  [JavaClassFile_blocks] is the set of
    blocks the constructor of a class file has taken when it returns, one
    for each new-expression it ran.

    Three of the destructors free with [delete[]] what [new[]] made.
    [~ConstantPool] and [~JavaClassFile] free arrays with [delete], and
    [~ConstantPoolEntry] deletes the pointer of the member [Utf8] when
    the tag says that the member [String] is the active one. *)

From Stdlib Require Import ZArith List String Lia.
From stdpp Require Import base tactics option list gmap.
From coqutil Require Import Byte.
From S2P Require Import Prelude Stream ConstantPool Records ClassFile Heap.

#[local] Open Scope Z_scope.
#[local] Open Scope m_scope.

(** ** Pointer members *)

(** A pointer member holding the block [l], null while the member the
    model keeps beside it is [None]. *)
Definition pointer {A} (l : loc) (o : option A) : option loc :=
  match o with Some _ => Some l | None => None end.

(** What [delete p] destroys when [p] points to an array: [*p], the
    first element. *)
Definition first_element {A} (destroy : nat -> A -> M Heap unit)
    (elements : option (list A)) : M Heap unit :=
  match elements with
  | Some (a :: _) => destroy 0%nat a
  | _ => ret tt
  end.

(** ** The destructors *)

(** [~ConstantPoolEntry], for the entry in slot [slot] of the pool or a
    copy of it; the copy's [Utf8.bytes] is the slot's. *)
Definition ConstantPoolEntry_destroy (slot : nat) (e : ConstantPoolEntry)
    : M Heap unit :=
  if tag_is (tag e) CP_String then
    member (Utf8_bytes e) ;;
    delete_scalar (Some (Utf8Block slot)) (ret tt)
  else ret tt.

(** [~ConstantPool]; [entries] is not null once the constructor ran. *)
Definition ConstantPool_destroy (p : ConstantPool) : M Heap unit :=
  delete_scalar (Some EntriesBlock)
    (first_element ConstantPoolEntry_destroy (Some (entries p))).

(** [~AttributeInfo], for attribute [j] of [o]. *)
Definition AttributeInfo_destroy (o : owner) (j : nat) (a : AttributeInfo.t)
    : M Heap unit :=
  delete_array (Some (InfoBlock o j)) trivial (AttributeInfo.info a).

(** [~FieldEntry], for field [i]. *)
Definition FieldEntry_destroy (i : nat) (f : FieldEntry.t) : M Heap unit :=
  delete_array (Some (AttributesBlock (OfField i)))
    (AttributeInfo_destroy (OfField i)) (FieldEntry.attributes f).

(** [~MethodEntry], for method [i]. *)
Definition MethodEntry_destroy (i : nat) (m : MethodEntry.t) : M Heap unit :=
  delete_array (Some (AttributesBlock (OfMethod i)))
    (AttributeInfo_destroy (OfMethod i)) (MethodEntry.attributes m).

(** [~JavaClassFile] *)
Definition JavaClassFile_destroy (k : JavaClassFile.t) : M Heap unit :=
  delete_scalar (Some StreamBlock) (ret tt) ;;
  delete_scalar (pointer PoolBlock (JavaClassFile.const_pool k))
    (from_option ConstantPool_destroy (ret tt) (JavaClassFile.const_pool k)) ;;
  header2 <- or_ub UninitializedRead (JavaClassFile.header2 k) ;;
  (if negb (interfaces_count header2 =? 0) then
     delete_scalar (pointer InterfacesBlock (JavaClassFile.interfaces k)) (ret tt)
   else ret tt) ;;
  delete_scalar (pointer FieldsBlock (JavaClassFile.fields k))
    (first_element FieldEntry_destroy (JavaClassFile.fields k)) ;;
  delete_scalar (pointer MethodsBlock (JavaClassFile.methods k))
    (first_element MethodEntry_destroy (JavaClassFile.methods k)) ;;
  delete_scalar (pointer (AttributesBlock OfClass) (JavaClassFile.attributes k))
    (first_element (AttributeInfo_destroy OfClass) (JavaClassFile.attributes k)).

(** [~JavaExecutor]: the body is empty, and the destructor of the member
    [action_stack] frees the stack's own storage, not what the pointers
    in it point to. *)
Definition JavaExecutor_destroy : M Heap unit := ret tt.

(** ** What the constructors have taken *)

(** [info] of each of [n] attributes of [o], from index [i] (206). *)
Definition info_blocks (o : owner) (i n : nat) : list loc :=
  InfoBlock o <$> seq i n.

(** [attributes] and the [info] of each element (240, 270, 360 and 206). *)
Definition attributes_blocks (o : owner) (l : list AttributeInfo.t) : list loc :=
  AttributesBlock o :: info_blocks o 0 (length l).

(** The strings of the Utf8 entries, the first entry in slot [i] (112). *)
Fixpoint utf8_blocks (i : nat) (es : list ConstantPoolEntry) : list loc :=
  match es with
  | [] => []
  | e :: es' =>
      (if tag_is (tag e) CP_Utf8 then [Utf8Block i] else []) ++
      utf8_blocks (S i) es'
  end.

(** The blocks of the elements of [fields] or [methods], from index [i]. *)
Fixpoint elements_blocks {A} (own : nat -> owner)
    (attrs : A -> list AttributeInfo.t) (i : nat) (l : list A) : list loc :=
  match l with
  | [] => []
  | a :: l' => attributes_blocks (own i) (attrs a) ++ elements_blocks own attrs (S i) l'
  end.

(** Everything the constructor of [k] allocated (305-360). *)
Definition JavaClassFile_blocks (k : JavaClassFile.t) : list loc :=
  StreamBlock ::
  from_option (fun p => PoolBlock :: EntriesBlock :: utf8_blocks 0 (entries p)) []
    (JavaClassFile.const_pool k) ++
  from_option (fun _ => [InterfacesBlock]) [] (JavaClassFile.interfaces k) ++
  from_option (fun l => FieldsBlock ::
                 elements_blocks OfField FieldEntry.attributes 0 l) []
    (JavaClassFile.fields k) ++
  from_option (fun l => MethodsBlock ::
                 elements_blocks OfMethod MethodEntry.attributes 0 l) []
    (JavaClassFile.methods k) ++
  from_option (attributes_blocks OfClass) [] (JavaClassFile.attributes k).

(** [holds ls h]: the blocks [ls] are live in [h], each as its
    new-expression made it. *)
Definition holds (ls : list loc) (h : Heap) : Prop :=
  Forall (fun l => live h !! l = Some (made_by l)) ls.

#[export] Instance holds_dec ls h : Decision (holds ls h).
Proof. unfold holds. apply _. Defined.

(** ** The destructor of an entry *)

(** On an entry as [read] leaves it, the destructor frees nothing: it
    does nothing unless the tag is String, and then it reads the member
    [Utf8] of a union whose active member is [String]. *)
Lemma ConstantPoolEntry_destroy_wf slot e h :
  entry_wf e ->
  ConstantPoolEntry_destroy slot e h =
  if tag_is (tag e) CP_String then Fault (Undefined UnionMember) h else Ok tt h.
Proof.
  unfold ConstantPoolEntry_destroy, entry_wf, Utf8_bytes.
  destruct (tag_is_spec (tag e) CP_String) as [Ht|Ht]; [|done].
  change (tag_value CP_String) with 8 in Ht.
  destruct (data e); intros Hwf; try done; lia.
Qed.

Lemma ConstantPoolEntry_destroy_faults slot e :
  faults_in (fun f => f = Undefined UnionMember \/ delete_fault f)
    (ConstantPoolEntry_destroy slot e).
Proof.
  unfold ConstantPoolEntry_destroy, member, delete_scalar, delete_fault.
  faults_in_with ltac:(auto).
Qed.

(** ** The destructors of the records *)

Section Attributes.
Context (o : owner).

Lemma destroy_infos i (l : list AttributeInfo.t) h :
  holds (info_blocks o i (length l)) h ->
  destroy_elements (AttributeInfo_destroy o) i l h =
  Ok tt (free_all (info_blocks o i (length l)) h).
Proof.
  revert i. induction l as [|a l IH]; intros i Hh; [by destruct h|].
  apply Forall_cons in Hh as [Hi Hh]. simpl.
  rewrite (bind_Ok _ _ _ _ _ (IH (S i) Hh)).
  unfold AttributeInfo_destroy. rewrite delete_array_trivial; [done|].
  rewrite lookup_free_all, decide_False; [done|].
  unfold info_blocks. intros (j & [= ->] & Hj%elem_of_seq)%list_elem_of_fmap. lia.
Qed.

(** [delete[] attributes] frees the array and the buffer of each element. *)
Lemma delete_attributes (l : list AttributeInfo.t) h :
  holds (attributes_blocks o l) h ->
  delete_array (Some (AttributesBlock o)) (AttributeInfo_destroy o) l h =
  Ok tt (free_all (attributes_blocks o l) h).
Proof.
  intros [Ha Hi]%Forall_cons. unfold delete_array.
  rewrite (bind_Ok _ _ _ _ _ (expect_Ok _ _ _ Ha)).
  by rewrite (bind_Ok _ _ _ _ _ (destroy_infos 0 l h Hi)).
Qed.

End Attributes.

Lemma holds_acquire ls h : holds ls (acquire ls h).
Proof. apply Forall_forall. intros l Hl. by apply lookup_acquire. Qed.

(** What a destructor returns to the heap is what the reader took. *)
Lemma destroy_acquired (o : owner) (l : list AttributeInfo.t) h :
  Forall (fun b => live h !! b = None) (attributes_blocks o l) ->
  delete_array (Some (AttributesBlock o)) (AttributeInfo_destroy o) l
    (acquire (attributes_blocks o l) h) = Ok tt h.
Proof.
  intros Hf. rewrite delete_attributes by apply holds_acquire.
  by rewrite free_all_acquire.
Qed.

(** ** The destructors of the pool and of the class file *)

Lemma ConstantPool_destroy_Many p h :
  live h !! EntriesBlock = Some Many ->
  ConstantPool_destroy p h = Fault (Undefined MismatchedDelete) h.
Proof. apply delete_scalar_Many. Qed.

(** [delete const_pool] does not return while [entries] is an array. *)
Lemma delete_pool_stuck p h :
  live h !! EntriesBlock = Some Many ->
  is_Ok (delete_scalar (Some PoolBlock) (ConstantPool_destroy p) h) = false.
Proof.
  intros He. unfold delete_scalar.
  destruct (expect Single PoolBlock h) as [[] h1|f h1] eqn:E.
  - apply expect_Ok_inv in E as E'. destruct E' as [_ ->].
    rewrite (bind_Ok _ _ _ _ _ E).
    by rewrite (bind_Fault _ _ _ _ _ (ConstantPool_destroy_Many p h He)).
  - by rewrite (bind_Fault _ _ _ _ _ E).
Qed.

Lemma delete_stream h h' :
  delete_scalar (Some StreamBlock) (ret tt) h = Ok tt h' ->
  h' = free_all [StreamBlock] h.
Proof.
  unfold delete_scalar. intros H. inv_ok.
  match goal with E : expect _ _ _ = Ok _ _ |- _ => apply expect_Ok_inv in E as [_ ->] end.
  match goal with E : release _ _ = Ok _ _ |- _ => rewrite release_Ok in E; by inv E end.
Qed.

(** In a class file as the constructor leaves it, a null [const_pool]
    comes with a [header2] that was never written. *)
Definition unread (k : JavaClassFile.t) : Prop :=
  JavaClassFile.const_pool k = None -> JavaClassFile.header2 k = None.

Lemma wf_unread k : JavaClassFile.wf k -> unread k.
Proof.
  unfold JavaClassFile.wf, unread. destruct (JavaClassFile.ok k).
  - intros (_ & (p & -> & _) & _). done.
  - intros [-> _]. done.
Qed.

(** [~JavaClassFile] does not return: with a pool it deletes the array
    [entries] as an object, without one it reads [header2]. *)
Lemma JavaClassFile_destroy_stuck k h :
  unread k ->
  (is_Some (JavaClassFile.const_pool k) -> live h !! EntriesBlock = Some Many) ->
  is_Ok (JavaClassFile_destroy k h) = false.
Proof.
  intros Hu He. unfold JavaClassFile_destroy.
  apply bind_stuck_r. intros [] h1 ->%delete_stream.
  destruct (JavaClassFile.const_pool k) as [p|] eqn:Ep; simpl.
  - apply bind_stuck_l, delete_pool_stuck.
    rewrite lookup_free_all, decide_False; [eauto | by intros [=]%list_elem_of_singleton].
  - rewrite bind_ret_l. apply bind_stuck_l. by rewrite Hu.
Qed.

(** The blocks of a class file that has a pool. *)
Lemma pool_blocks k p :
  JavaClassFile.const_pool k = Some p ->
  StreamBlock ∈ JavaClassFile_blocks k /\ PoolBlock ∈ JavaClassFile_blocks k /\
  EntriesBlock ∈ JavaClassFile_blocks k.
Proof.
  intros Ep. unfold JavaClassFile_blocks. rewrite Ep. simpl.
  repeat split; repeat (first [ by left | right ]).
Qed.

(** With a pool, [~JavaClassFile] frees the stream and then deletes the
    array [entries] with [delete]. *)
Lemma JavaClassFile_destroy_pool k p h :
  JavaClassFile.const_pool k = Some p ->
  live h !! StreamBlock = Some Single -> live h !! PoolBlock = Some Single ->
  live h !! EntriesBlock = Some Many ->
  JavaClassFile_destroy k h =
  Fault (Undefined MismatchedDelete) (free_all [StreamBlock] h).
Proof.
  intros Ep Hs Hp He. unfold JavaClassFile_destroy.
  rewrite (bind_Ok _ _ _ _ _ (delete_scalar_Ok _ _ _ _ Hs eq_refl)).
  change (set_live (delete StreamBlock) h) with (free_all [StreamBlock] h).
  assert (Hne : forall l, l <> StreamBlock ->
            live (free_all [StreamBlock] h) !! l = live h !! l).
  { intros l Hl. rewrite lookup_free_all, decide_False; [done|].
    by intros ->%list_elem_of_singleton. }
  rewrite Ep. simpl. apply bind_Fault.
  rewrite (bind_Ok _ _ _ _ _ (expect_Ok Single PoolBlock _ ltac:(by rewrite Hne))).
  apply bind_Fault, ConstantPool_destroy_Many. by rewrite Hne.
Qed.

(** What [~JavaClassFile] does on the class file the constructor made:
    it frees the stream and then, where the magic number was accepted,
    deletes the array [entries] with [delete]; where it was not, reads
    the [header2] that was never filled. *)
Lemma JavaClassFile_destroy_new k h :
  JavaClassFile.wf k -> holds (JavaClassFile_blocks k) h ->
  JavaClassFile_destroy k h =
  Fault (Undefined (if JavaClassFile.ok k then MismatchedDelete else UninitializedRead))
        (free_all [StreamBlock] h).
Proof.
  intros Hwf Hh. unfold holds in Hh. rewrite Forall_forall in Hh.
  assert (Hs : live h !! StreamBlock = Some Single) by (apply Hh; left).
  unfold JavaClassFile.wf in Hwf. destruct (JavaClassFile.ok k).
  - destruct Hwf as (_ & (p & Ep & _) & _).
    destruct (pool_blocks k p Ep) as (_ & Hp & He).
    apply (JavaClassFile_destroy_pool k p); auto.
  - destruct Hwf as [-> _]. unfold JavaClassFile_destroy.
    rewrite (bind_Ok _ _ _ _ _ (delete_scalar_Ok _ _ _ _ Hs eq_refl)).
    simpl. by rewrite bind_ret_l.
Qed.

(** ** The claims *)

(** C24: The destructor of a pool entry frees nothing.  On an entry as
    [read] leaves it, it returns with the heap as it was unless the tag
    is String: the string of a Utf8 entry is never deleted.  When the tag
    is String it reads [Utf8.bytes], a member of the union that is not
    the one [read] stored. *)
Theorem ConstantPoolEntry_destroy_frees_nothing slot e h :
  entry_wf e ->
  ConstantPoolEntry_destroy slot e h =
  if tag_is (tag e) CP_String then Fault (Undefined UnionMember) h else Ok tt h.
Proof. apply ConstantPoolEntry_destroy_wf. Qed.

(** C23: [~MethodEntry] gives back exactly what [MethodEntry::read] took:
    the array [attributes] and the buffer [info] of each of its elements,
    the last element first, each with [delete[]]. *)
Theorem MethodEntry_destroy_frees i m h :
  Forall (fun b => live h !! b = None)
         (attributes_blocks (OfMethod i) (MethodEntry.attributes m)) ->
  MethodEntry_destroy i m
    (acquire (attributes_blocks (OfMethod i) (MethodEntry.attributes m)) h) = Ok tt h.
Proof. apply destroy_acquired. Qed.

(** [~FieldEntry] gives back exactly what [FieldEntry::read] took. *)
Theorem FieldEntry_destroy_frees i f h :
  Forall (fun b => live h !! b = None)
         (attributes_blocks (OfField i) (FieldEntry.attributes f)) ->
  FieldEntry_destroy i f
    (acquire (attributes_blocks (OfField i) (FieldEntry.attributes f)) h) = Ok tt h.
Proof. apply destroy_acquired. Qed.

(** [~ConstantPool] deletes with [delete] the array that the
    constructor made with [new[]]: it has no defined behaviour, whatever
    the pool holds, and no destructor of an entry has run by then. *)
Theorem ConstantPool_destroy_undefined p h :
  holds [EntriesBlock] h ->
  ConstantPool_destroy p h = Fault (Undefined MismatchedDelete) h.
Proof. intros [H _]%Forall_cons. by apply ConstantPool_destroy_Many. Qed.

(** C20: [~JavaClassFile] never returns on the class file its constructor
    made.  It frees the stream; then, where the magic number was
    accepted, it deletes the pool, whose destructor deletes an array with
    [delete]; where it was not, it tests [header2.interfaces_count],
    which was never written.  The arrays [fields], [methods] and
    [attributes] and the strings of the pool are never freed. *)
Theorem JavaClassFile_destroy_undefined k h :
  JavaClassFile.wf k -> holds (JavaClassFile_blocks k) h ->
  JavaClassFile_destroy k h =
  Fault (Undefined (if JavaClassFile.ok k then MismatchedDelete else UninitializedRead))
        (free_all [StreamBlock] h).
Proof. apply JavaClassFile_destroy_new. Qed.

(** ** Examples *)

(** A method with two attributes. *)
Definition two_attributes : MethodEntry.t :=
  MethodEntry.mk 9 1 2 2
    [AttributeInfo.mk 3 2 [Byte.x00; Byte.x01]; AttributeInfo.mk 4 0 []].

Lemma fresh_in_empty ls : Forall (fun b => live empty_heap !! b = None) ls.
Proof. apply Forall_forall. intros l _. apply lookup_empty. Qed.

Lemma ConstantPoolEntry_destroy_frees_nothing_witness :
  ConstantPoolEntry_destroy 0 (mkEntry 1 (U_Utf8 1 "A")) (acquire [Utf8Block 0] empty_heap)
  = Ok tt (acquire [Utf8Block 0] empty_heap).
Proof.
  apply (ConstantPoolEntry_destroy_frees_nothing 0 (mkEntry 1 (U_Utf8 1 "A"))).
  by vm_compute.
Defined.

Lemma MethodEntry_destroy_frees_witness :
  MethodEntry_destroy 0 two_attributes
    (acquire [AttributesBlock (OfMethod 0); InfoBlock (OfMethod 0) 0;
              InfoBlock (OfMethod 0) 1] empty_heap) = Ok tt empty_heap.
Proof. apply (MethodEntry_destroy_frees 0 two_attributes), fresh_in_empty. Defined.

Lemma ConstantPool_destroy_undefined_witness :
  ConstantPool_destroy (mkPool []) (acquire [EntriesBlock] empty_heap) =
  Fault (Undefined MismatchedDelete) (acquire [EntriesBlock] empty_heap).
Proof. apply ConstantPool_destroy_undefined, holds_acquire. Defined.

Lemma JavaClassFile_destroy_undefined_witness :
  JavaClassFile_destroy empty_class_file
    (acquire (JavaClassFile_blocks empty_class_file) empty_heap) =
  Fault (Undefined MismatchedDelete)
    (free_all [StreamBlock] (acquire (JavaClassFile_blocks empty_class_file) empty_heap)).
Proof.
  apply (JavaClassFile_destroy_undefined empty_class_file).
  - exact (new_wf _ _ _ _ empty_class_parses).
  - apply holds_acquire.
Defined.
