(* ===== verification/Strict.v ===== *)
(** * Strict: the interpreter and [main] with the free store
    (main.cpp 304-310, 500-686)

    [Executor] runs the bytecode as if no object were ever destroyed.
    Here the same code runs with the [Heap] beside the machine
    ([World]), and with what C++ adds to the text of the source: the
    destructors of the local [ConstantPoolEntry] objects of [step], run
    when control leaves the block that declares them, in the reverse
    order of their declarations, and the destructors of [executor] and
    [file] when [main] returns.  Every operation of [Executor] that the
    free store does not concern is taken over as it is ([lift]).

    [main_d] starts from a [Process]: the files there are, the output
    channels and the heap.  [open] is the constructor of the [ifstream];
    a file that is not there leaves the stream with nothing to read.  The
    test [if (!stream)] of the source tests the pointer [new] returned,
    which is not null, so its branch cannot be taken and has no
    counterpart.  The blocks a constructor takes are entered in the heap
    when the constructor returns; a constructor that does not return ends
    the process. *)

From Stdlib Require Import ZArith List String Ascii HexString Lia.
From stdpp Require Import base tactics option list strings gmap.
From coqutil Require Import Byte.
From S2P Require Import Prelude ByteCodec Stream ConstantPool Records ClassFile.
From S2P Require Import Executor Heap Destructors.

#[local] Open Scope Z_scope.
#[local] Open Scope m_scope.

(** ** The machine with its heap *)

Record World : Type := mkWorld {
  machine : Machine;
  heap : Heap;
}.

#[export] Instance World_eq_dec : EqDecision World.
Proof. solve_decision. Defined.

(** An operation of the interpreter, the heap left alone. *)
Definition lift {A} (m : M Machine A) : M World A :=
  zoom machine (fun s w => mkWorld s (heap w)) m.

(** An operation on the heap, the machine left alone. *)
Definition on_heap {A} (m : M Heap A) : M World A :=
  zoom heap (fun h w => mkWorld (machine w) h) m.

(** ** Local copies of pool entries *)

(** A local [ConstantPoolEntry] initialised from [entries[idx - 1]]: the
    implicit copy constructor copies the union as it is, so the copy's
    [Utf8.bytes] is the pointer of the slot it was copied from. *)
Record Local : Type := mkLocal {
  slot : nat;
  value : ConstantPoolEntry;
}.

(** [ConstantPoolEntry x = klass->const_pool->entries[idx - 1]] *)
Definition local (pool : ConstantPool) (idx : Z) : M Machine Local :=
  e <- pool_entry pool idx ;; ret (mkLocal (Z.to_nat (idx - 1)) e).

(** The end of a block: the destructors of its locals, the one declared
    last first. *)
Fixpoint leave (locals : list Local) : M Heap unit :=
  match locals with
  | [] => ret tt
  | x :: rest => leave rest ;; ConstantPoolEntry_destroy (slot x) (value x)
  end.

(** The six locals of GETSTATIC, INVOKEVIRTUAL and INVOKESTATIC. *)
Record Locals : Type := mkLocals {
  l_entry : Local;
  l_class_index : Local;
  l_classname_index : Local;
  l_name_type_index : Local;
  l_name : Local;
  l_descriptor : Local;
}.

(** In the order of their declarations. *)
Definition declared (r : Locals) : list Local :=
  [l_entry r; l_class_index r; l_classname_index r; l_name_type_index r;
   l_name r; l_descriptor r].

(** The declarations at main.cpp 514-521, 563-570 and 601-608. *)
Definition resolve_d (idx : Z) : M Machine Locals :=
  pool <- the_pool ;;
  entry <- local pool idx ;;
  ci <- member (Reference_class_index (value entry)) ;;
  class_index <- local pool ci ;;
  ni <- member (Class_name_index (value class_index)) ;;
  classname_index <- local pool ni ;;
  nti <- member (Reference_name_and_type_index (value entry)) ;;
  name_type_index <- local pool nti ;;
  n <- member (NameAndType_name_idx (value name_type_index)) ;;
  name <- local pool n ;;
  d <- member (NameAndType_descriptor_idx (value name_type_index)) ;;
  descriptor <- local pool d ;;
  ret (mkLocals entry class_index classname_index name_type_index name descriptor).

(** ** [JavaExecutor::step] *)

(** The branches of [step], each with the allocation of its [Action] and
    the end of its block. *)
Definition execute_d (run : string -> M World unit) (codeptr : BufPtr)
    (cursor : nat) (op : Z) : M World nat :=
  if op_is op GETSTATIC then
    let cursor := S cursor in
    idx <- lift (code_u16 codeptr cursor) ;;
    let cursor := S cursor in
    r <- lift (resolve_d idx) ;;
    on_heap new_action ;;
    class_name <- member (Utf8_bytes (value (l_classname_index r))) ;;
    name <- member (Utf8_bytes (value (l_name r))) ;;
    lift (push (StaticAction STATIC class_name name)) ;;
    on_heap (leave (declared r)) ;;
    ret cursor
  else if op_is op LDC then
    let cursor := S cursor in
    idx <- lift (code_byte codeptr cursor) ;;
    pool <- lift the_pool ;;
    entry <- lift (local pool idx) ;;
    on_heap new_action ;;
    lift (push (ConstantAction CONSTANT (value entry))) ;;
    on_heap (leave [entry]) ;;
    ret cursor
  else if op_is op INVOKEVIRTUAL then
    let cursor := S cursor in
    idx <- lift (code_u16 codeptr cursor) ;;
    let cursor := S cursor in
    r <- lift (resolve_d idx) ;;
    class_name <- member (Utf8_bytes (value (l_classname_index r))) ;;
    (if String.eqb class_name "java/io/PrintStream" then
       name <- member (Utf8_bytes (value (l_name r))) ;;
       if String.eqb name "println" then
         lift (action <- top ;;
               match action with
               | ConstantAction _ entry =>
                   si <- member (String_string_index entry) ;;
                   pool <- the_pool ;;
                   text <- pool_utf8 pool si ;;
                   print text ;;
                   pop
               | _ => fail (Undefined BadCast)
               end)
       else ret tt
     else ret tt) ;;
    on_heap (leave (declared r)) ;;
    ret cursor
  else if op_is op INVOKESTATIC then
    lift (print "Invoke static!") ;;
    let cursor := S cursor in
    idx <- lift (code_u16 codeptr cursor) ;;
    let cursor := S cursor in
    r <- lift (resolve_d idx) ;;
    lift (print_entry "Class: " (value (l_entry r))) ;;
    lift (print_entry "Class index: " (value (l_class_index r))) ;;
    lift (print_entry "Class name: " (value (l_classname_index r))) ;;
    lift (print_entry "Name and type: " (value (l_name_type_index r))) ;;
    lift (print_entry "|- Name: " (value (l_name r))) ;;
    lift (print_entry "|- Descriptor: " (value (l_descriptor r))) ;;
    name <- member (Utf8_bytes (value (l_name r))) ;;
    run name ;;
    on_heap (leave (declared r)) ;;
    ret cursor
  else if op_is op SIPUSH then
    let cursor := S cursor in
    sh1 <- lift (code_byte codeptr cursor) ;;
    let cursor := S cursor in
    sh2 <- lift (code_byte codeptr cursor) ;;
    let num := Z.lor (Z.shiftl sh1 8) sh2 in
    lift (print ("Number is: " +:+ dec num)) ;;
    on_heap new_action ;;
    lift (push (ValueAction CONSTANT num)) ;;
    ret cursor
  else if op_is op ILOAD_1 then
    lift (print "Iload 1!") ;;
    lift (print "Need a local variable array!") ;;
    fail (Exit 1)
  else if op_is op RETURN then
    lift (print "Return!") ;;
    ret cursor
  else
    lift (print ("Unknown instruction: " +:+ HexString.of_Z op)) ;;
    fail (Exit 1).

Definition step_d (run : string -> M World unit) (codeptr : BufPtr)
    (cursor : nat) : M World nat :=
  op <- lift (code_byte codeptr cursor) ;;
  cursor <- execute_d run codeptr cursor op ;;
  ret (S cursor).

(** ** [JavaExecutor::run] *)

Fixpoint run_loop_d (fuel : nat) (run : string -> M World unit)
    (codeattr code : BufPtr) (cursor : nat) : M World unit :=
  match fuel with
  | O => fail LoopFuel
  | S fuel' =>
      ca <- lift (code_attribute codeattr) ;;
      if Z.of_nat cursor <? code_length ca then
        cursor <- step_d run code cursor ;;
        run_loop_d fuel' run codeattr code cursor
      else ret tt
  end.

Fixpoint run_d (depth : nat) (method_name : string) : M World unit :=
  match depth with
  | O => fail CallDepth
  | S depth' =>
      let cursor := O in
      method <- lift (get_method method_name) ;;
      codeattr <- lift (get_code_attribute method method_name) ;;
      ca <- lift (code_attribute codeattr) ;;
      lift (print ("[" +:+ method_name +:+ "] Length of LVA: " +:+ dec (max_locals ca))) ;;
      code <- lift (get_code method) ;;
      buf <- lift (buffer code) ;;
      run_loop_d (S (length buf)) (run_d depth') codeattr code cursor
  end.

(** ** The process *)

(** The files by name, the channels, the heap. *)
Record Process : Type := mkProcess {
  files : gmap string (list byte);
  pio : IO;
  pheap : Heap;
}.

#[export] Instance Process_eq_dec : EqDecision Process.
Proof. solve_decision. Defined.

Definition in_io {A} (m : M IO A) : M Process A :=
  zoom pio (fun i p => mkProcess (files p) i (pheap p)) m.

Definition in_heap {A} (m : M Heap A) : M Process A :=
  zoom pheap (fun h p => mkProcess (files p) (pio p) h) m.

(** [ifstream(filename, ios::in | ios::binary)]: the stream delivers the
    bytes of the file, or nothing when there is no such file. *)
Definition open (filename : string) : M Process unit :=
  modify (fun p => mkProcess (files p)
                     (set_stream (from_option id [] (files p !! filename)) (pio p))
                     (pheap p)).

(** [JavaClassFile::JavaClassFile(filename)] with the stream it opens and
    the blocks it takes. *)
Definition JavaClassFile_new_d (filename : string) : M Process JavaClassFile.t :=
  open filename ;;
  file <- in_io (JavaClassFile.new filename) ;;
  in_heap (modify (acquire (JavaClassFile_blocks file))) ;;
  ret file.

(** [JavaExecutor executor(&file)] and a call of one of its methods:
    returns [file] as the call left it. *)
Definition with_executor_d {A} (file : JavaClassFile.t) (m : M World A)
    : M Process JavaClassFile.t :=
  fun p => match m (mkWorld (mkMachine file [] (pio p)) (pheap p)) with
           | Ok _ w => Ok (klass (machine w))
                          (mkProcess (files p) (io (machine w)) (heap w))
           | Fault f w => Fault f (mkProcess (files p) (io (machine w)) (heap w))
           end.

(** [main(argc, argv)]; at [return 0] the destructors of [executor] and
    of [file] run, in this order. *)
Definition main_d (depth : nat) (argv : list string) : M Process Z :=
  if (Z.of_nat (length argv) <? 2) then
    in_io (print_cout "Too few arguments!") ;;
    ret 1
  else
    filename <- or_ub (ArrayIndex 1) (argv !! 1%nat) ;;
    file <- JavaClassFile_new_d filename ;;
    file <- with_executor_d file (run_d depth "main") ;;
    in_heap JavaExecutor_destroy ;;
    in_heap (JavaClassFile_destroy file) ;;
    ret 0.

(** The process as the system starts it. *)
Definition boot (fs : gmap string (list byte)) : Process :=
  mkProcess fs (mkIO [] [] []) empty_heap.
