(* ===== verification/Lifetime.v ===== *)
(** * Lifetime: what the destructors change in a run

    [Strict] and [Executor] run the same code, with and without the
    destructors.  [refines] relates them: a strict operation ends as the
    plain one does, in the same state of the machine, unless it ends
    before in a fault of a destructor ([scope_fault]).  So a strict run
    that returns is a run of [Executor], and every theorem on [run]
    holds for it. *)

From Stdlib Require Import ZArith List String Lia.
From stdpp Require Import base tactics option list strings gmap.
From coqutil Require Import Byte.
From S2P Require Import Prelude Stream ConstantPool Records ClassFile Executor.
From S2P Require Import Encode Hello Cursor Store Termination Opcodes Scenarios.
From S2P Require Import Heap Destructors Strict.

#[local] Open Scope Z_scope.
#[local] Open Scope m_scope.

(** ** The two liftings *)

Section Lift.
Context {A : Type}.

Lemma lift_Ok (m : M Machine A) w a s :
  m (machine w) = Ok a s -> lift m w = Ok a (mkWorld s (heap w)).
Proof. apply (zoom_Ok machine). Qed.

Lemma lift_Fault (m : M Machine A) w f s :
  m (machine w) = Fault f s -> lift m w = Fault f (mkWorld s (heap w)).
Proof. apply (zoom_Fault machine). Qed.

Lemma on_heap_Ok (m : M Heap A) w a h :
  m (heap w) = Ok a h -> on_heap m w = Ok a (mkWorld (machine w) h).
Proof. apply (zoom_Ok heap). Qed.

Lemma on_heap_Fault (m : M Heap A) w f h :
  m (heap w) = Fault f h -> on_heap m w = Fault f (mkWorld (machine w) h).
Proof. apply (zoom_Fault heap). Qed.

End Lift.

(** ** Refinement *)

(** The faults of the end of a block: the read of [Utf8.bytes] in the
    destructor of an entry, and its [delete]. *)
Definition scope_fault (f : fault) : Prop :=
  f = Undefined UnionMember \/ delete_fault f.

#[export] Instance scope_fault_dec f : Decision (scope_fault f).
Proof. unfold scope_fault. apply _. Defined.

(** [refined R od o]: the strict outcome [od] against the plain [o]. *)
Inductive refined {A B} (R : A -> B -> Prop)
  : outcome World A -> outcome Machine B -> Prop :=
| refined_Ok a b w : R a b -> refined R (Ok a w) (Ok b (machine w))
| refined_Fault f w : refined R (Fault f w) (Fault f (machine w))
| refined_scope f w o : scope_fault f -> refined R (Fault f w) o.

Definition refines {A B} (R : A -> B -> Prop) (md : M World A) (m : M Machine B)
    : Prop :=
  forall w, refined R (md w) (m (machine w)).

(** The values of the six locals. *)
Definition values (r : Locals) : Resolved :=
  mkResolved (value (l_entry r)) (value (l_class_index r))
    (value (l_classname_index r)) (value (l_name_type_index r))
    (value (l_name r)) (value (l_descriptor r)).

Section Rules.
Context {A B A' B' : Type}.
Implicit Types (R : A -> B -> Prop) (Q : A' -> B' -> Prop).

Lemma refines_ret R a b : R a b -> refines R (ret a) (ret b).
Proof. intros H w. by constructor. Qed.

Lemma refines_fail R f : refines R (fail f) (fail f).
Proof. intros w. constructor. Qed.

Lemma refines_or_ub u (o : option A) : refines eq (or_ub u o) (or_ub u o).
Proof. intros w. destruct o; by constructor. Qed.

Lemma refines_lift (m : M Machine A) : refines eq (lift m) m.
Proof.
  intros w. unfold lift, zoom. destruct (m (machine w)) as [a s|f s].
  - by apply (refined_Ok eq a a (mkWorld s (heap w))).
  - apply (refined_Fault eq f (mkWorld s (heap w))).
Qed.

(** A lifted operation whose result is more than the plain one's. *)
Lemma refines_lift_map (g : A -> B) (md : M Machine A) (m : M Machine B) :
  (forall s, m s = bind md (fun a => ret (g a)) s) ->
  refines (fun a b => g a = b) (lift md) m.
Proof.
  intros H w. rewrite H. unfold lift, zoom, bind.
  destruct (md (machine w)) as [a s|f s].
  - by apply (refined_Ok _ a (g a) (mkWorld s (heap w))).
  - apply (refined_Fault _ f (mkWorld s (heap w))).
Qed.

Lemma refines_bind R Q md m (kd : A -> M World A') (k : B -> M Machine B') :
  refines R md m -> (forall a b, R a b -> refines Q (kd a) (k b)) ->
  refines Q (bind md kd) (bind m k).
Proof.
  intros Hm Hk w. specialize (Hm w). unfold bind.
  inversion Hm as [a b w' Hab E1 E2|f w' E1 E2|f w' o Hf E1 E2].
  - by apply Hk.
  - constructor.
  - by constructor.
Qed.

(** An operation on the heap has no counterpart. *)
Lemma refines_heap Q (h : M Heap A) (kd : A -> M World A') (m : M Machine B') :
  faults_in scope_fault h -> (forall a, refines Q (kd a) m) ->
  refines Q (bind (on_heap h) kd) m.
Proof.
  intros Hf Hk w. unfold bind, on_heap, zoom.
  destruct (h (heap w)) as [a h'|f h'] eqn:E.
  - apply (Hk a (mkWorld (machine w) h')).
  - constructor. by eapply Hf.
Qed.

End Rules.

Lemma refines_bind_eq {A A' B'} (Q : A' -> B' -> Prop) md m
    (kd : A -> M World A') (k : A -> M Machine B') :
  refines eq md m -> (forall a, refines Q (kd a) (k a)) ->
  refines Q (bind md kd) (bind m k).
Proof. intros Hm Hk. apply (refines_bind eq Q); [done|]. by intros a b <-. Qed.

(** ** The locals *)

Lemma bind_local {B} pool idx (k : ConstantPoolEntry -> M Machine B)
    (kd : Local -> M Machine B) (s : Machine) :
  (forall x s', k (value x) s' = kd x s') ->
  bind (pool_entry pool idx) k s = bind (local pool idx) kd s.
Proof.
  intros H. unfold local. rewrite bind_assoc. apply bind_ext. intros e s'.
  rewrite bind_ret_l. apply (H (mkLocal _ e)).
Qed.

Lemma refines_bind_local {A' B'} (Q : A' -> B' -> Prop) pool idx
    (kd : Local -> M World A') (k : ConstantPoolEntry -> M Machine B') :
  (forall x, refines Q (kd x) (k (value x))) ->
  refines Q (bind (lift (local pool idx)) kd) (bind (pool_entry pool idx) k).
Proof.
  intros Hk. eapply refines_bind.
  - apply (refines_lift_map value). intros s.
    rewrite <- (bind_ret_r (pool_entry pool idx)). by apply bind_local.
  - by intros a b <-.
Qed.

(** [resolve] is [resolve_d], the slots forgotten. *)
Lemma resolve_values idx (s : Machine) :
  resolve idx s = bind (resolve_d idx) (fun r => ret (values r)) s.
Proof.
  unfold resolve, resolve_d.
  repeat first
    [ reflexivity
    | rewrite bind_assoc
    | apply bind_local; intros
    | apply bind_ext; intros ].
Qed.

Lemma refines_bind_resolve {A' B'} (Q : A' -> B' -> Prop) idx
    (kd : Locals -> M World A') (k : Resolved -> M Machine B') :
  (forall r, refines Q (kd r) (k (values r))) ->
  refines Q (bind (lift (resolve_d idx)) kd) (bind (resolve idx) k).
Proof.
  intros Hk. eapply refines_bind.
  - apply (refines_lift_map values), resolve_values.
  - by intros a b <-.
Qed.

(** ** The faults of the heap operations of [step] *)

Lemma new_action_faults P : faults_in P new_action.
Proof. unfold new_action. faults_in_with idtac. Qed.

Lemma leave_faults locals : faults_in scope_fault (leave locals).
Proof.
  induction locals as [|x rest IH]; simpl; [apply faults_in_ret|].
  apply faults_in_bind; [done|]. intros _. apply ConstantPoolEntry_destroy_faults.
Qed.

#[export] Hint Resolve new_action_faults leave_faults : zera.

(** Prove [refines eq md m] for a strict operation written after the
    plain one. *)
Ltac refines_struct :=
  repeat first
    [ solve [ eauto with zera ]
    | apply refines_heap; [ solve [ eauto with zera ] | intros ]
    | apply refines_lift
    | apply refines_or_ub
    | apply refines_fail
    | apply refines_ret; reflexivity
    | apply refines_bind_resolve; intros
    | apply refines_bind_local; intros
    | apply refines_bind_eq; [| intros ]
    | match goal with
      | |- refines _ (if ?x then _ else _) (if ?x then _ else _) => destruct x
      | |- refines _ (match ?x with _ => _ end) (match ?x with _ => _ end) => destruct x
      end ].

(** ** The interpreter *)

Section Step.
Context (rund : string -> M World unit) (run : string -> M Machine unit).
Context (Hrun : forall name, refines eq (rund name) (run name)).

Lemma execute_d_refines codeptr cursor op :
  refines eq (execute_d rund codeptr cursor op) (execute run codeptr cursor op).
Proof. unfold execute_d, execute. refines_struct. Qed.

Lemma step_d_refines codeptr cursor :
  refines eq (step_d rund codeptr cursor) (step run codeptr cursor).
Proof.
  unfold step_d, step. pose proof execute_d_refines. refines_struct.
Qed.

Lemma run_loop_d_refines fuel codeattr code cursor :
  refines eq (run_loop_d fuel rund codeattr code cursor)
             (run_loop fuel run codeattr code cursor).
Proof.
  revert cursor. induction fuel as [|fuel IH]; intros cursor; simpl.
  - apply refines_fail.
  - pose proof step_d_refines. refines_struct.
Qed.

End Step.

Lemma run_d_run depth name : refines eq (run_d depth name) (run depth name).
Proof.
  revert name. induction depth as [|depth IH]; intros name; cbn [run_d run].
  - apply refines_fail.
  - pose proof (run_loop_d_refines _ _ IH). refines_struct.
Qed.

(** A strict run that returns is a run of [Executor]. *)
Lemma run_d_Ok depth name w w' :
  run_d depth name w = Ok tt w' -> run depth name (machine w) = Ok tt (machine w').
Proof.
  intros H. pose proof (run_d_run depth name w) as Hr. rewrite H in Hr.
  inversion Hr as [a b w0 Hab E1 E2| |]. by destruct b.
Qed.

(** ** What the refinement gives *)

(** C19: The interpreter with the destructors refines the interpreter
    without: from the same machine, the strict [run] returns only where
    the plain [run] returns, ends in a fault only where the plain [run]
    ends in that fault, both times in the same state of the machine, or
    it has ended before in a fault of a destructor of a local entry. *)
Theorem run_d_refines depth name : refines eq (run_d depth name) (run depth name).
Proof. apply run_d_run. Qed.

(** The loop of the strict [run] ends within its fuel too. *)
Theorem run_d_never_LoopFuel depth name : faults_in not_LoopFuel (run_d depth name).
Proof.
  intros w f w' H. pose proof (run_d_run depth name w) as Hr. rewrite H in Hr.
  inversion Hr as [|g w0 E1 E2|g w0 o Hg E1 E2]; subst.
  - by eapply run_fuel.
  - intros ->. by destruct Hg as [|[|]].
Qed.
