(* ===== verification/Preserved.v ===== *)
(** * Preserved: what a run with the destructors leaves as it was

    Invariants of the strict interpreter that hold of every class file,
    each proved once for a relation on worlds that the liftings of
    [Strict] keep: the machine evolves as in [Store], the blocks other
    than [Action]s and strings of pool entries stay allocated in the
    form they were made in, and no [Action] is ever freed.  [Tight]
    adds the strings, for the class files the constructor returns. *)

From Stdlib Require Import ZArith List String Lia.
From stdpp Require Import base tactics option list strings gmap.
From coqutil Require Import Byte.
From S2P Require Import Prelude Stream ConstantPool Records ClassFile Executor.
From S2P Require Import Encode Hello Cursor Store Termination Opcodes Scenarios.
From S2P Require Import Heap Destructors Strict Lifetime.

#[local] Open Scope Z_scope.
#[local] Open Scope m_scope.

(** ** What a run does to the heap *)

(** The blocks [step] has no pointer to: all but the strings of the pool
    and the [Action]s. *)
Definition static (l : loc) : bool :=
  match l with
  | Utf8Block _ | ActionBlock _ => false
  | _ => true
  end.

(** [same_static h h']: the static blocks are the same in both heaps. *)
Definition same_static (h h' : Heap) : Prop :=
  forall l, static l = true -> live h' !! l = live h !! l.

(** A relation on heaps, as a relation on worlds. *)
Definition heap_rel (R : Heap -> Heap -> Prop) (w w' : World) : Prop :=
  R (heap w) (heap w').

#[export] Instance same_static_preorder : PreOrder same_static.
Proof.
  split.
  - by intros h l _.
  - intros h1 h2 h3 H12 H23 l Hl. rewrite H23, H12; done.
Qed.

#[export] Instance heap_rel_preorder R `{!PreOrder R} : PreOrder (heap_rel R).
Proof.
  split.
  - intros w. unfold heap_rel. reflexivity.
  - intros w1 w2 w3. unfold heap_rel. by etrans.
Qed.

Section HeapRel.
Context {A : Type} (R : Heap -> Heap -> Prop) `{!PreOrder R}.

Lemma keeps_lift (m : M Machine A) : keeps (heap_rel R) (lift m).
Proof.
  intros w. unfold lift, zoom, heap_rel.
  destruct (m (machine w)); simpl; reflexivity.
Qed.

Lemma keeps_on_heap (m : M Heap A) : keeps R m -> keeps (heap_rel R) (on_heap m).
Proof.
  intros H w. specialize (H (heap w)). unfold on_heap, zoom, heap_rel.
  by destruct (m (heap w)).
Qed.

Lemma keeps_expect k l : keeps R (expect k l).
Proof.
  intros h. unfold expect, bind, get.
  destruct (live h !! l); [case_decide|]; simpl; reflexivity.
Qed.

End HeapRel.

(** *** Relations that every run keeps *)

(** A relation on machines, as a relation on worlds. *)
Definition machine_rel (R : Machine -> Machine -> Prop) (w w' : World) : Prop :=
  R (machine w) (machine w').

#[export] Instance machine_rel_preorder R `{!PreOrder R} : PreOrder (machine_rel R).
Proof.
  split.
  - intros w. unfold machine_rel. reflexivity.
  - intros w1 w2 w3. unfold machine_rel. by etrans.
Qed.

Lemma local_pure pool idx : keeps (=) (local pool idx).
Proof. unfold local. keeps_with (@eq Machine). Qed.

#[export] Hint Resolve local_pure : zera.

Lemma resolve_d_pure idx : keeps (=) (resolve_d idx).
Proof. unfold resolve_d. keeps_with (@eq Machine). Qed.

#[export] Hint Resolve resolve_d_pure : zera.

(** The strict interpreter is made of three kinds of operation: those
    of [Executor], each of which keeps [evolves], [new_action], and the
    end of a block.  A preorder that these keep is kept by every run. *)
Section Invariant.
Context (R : World -> World -> Prop) `{!PreOrder R}.
Context (R_lift : forall A (m : M Machine A), keeps evolves m -> keeps R (lift m)).
Context (R_new : keeps R (on_heap new_action)).
Context (R_leave : forall locals, keeps R (on_heap (leave locals))).

(** Prove [keeps R md] along the structure of the strict operation [md]. *)
Ltac keeps_strict :=
  repeat first
    [ solve [ eauto with zera ]
    | apply R_lift; solve [ keeps_evolves ]
    | apply (keeps_bind R); [| intros ]
    | apply (keeps_ret R)
    | apply (keeps_fail R)
    | apply (keeps_or_ub R)
    | match goal with |- keeps _ (if ?x then _ else _) => destruct x end
    | match goal with |- keeps _ (match ?x with _ => _ end) => destruct x end ].

Section Step.
Context (rund : string -> M World unit).
Context (Hrun : forall name, keeps R (rund name)).

Lemma execute_d_keeps codeptr cursor op :
  keeps R (execute_d rund codeptr cursor op).
Proof. unfold execute_d, member. keeps_strict. Qed.

Lemma run_loop_d_keeps fuel codeattr code cursor :
  keeps R (run_loop_d fuel rund codeattr code cursor).
Proof.
  pose proof execute_d_keeps.
  revert cursor. induction fuel as [|fuel IH]; intros cursor; simpl.
  - apply keeps_fail, _.
  - unfold step_d. keeps_strict.
Qed.

End Step.

Lemma run_d_keeps depth name : keeps R (run_d depth name).
Proof.
  revert name. induction depth as [|depth IH]; intros name; cbn [run_d].
  - apply keeps_fail, _.
  - pose proof (run_loop_d_keeps _ IH). keeps_strict.
Qed.

End Invariant.

(** A relation on heaps that [new_action] and the release of a string
    keep is kept by every run. *)
Section HeapInvariant.
Context (R : Heap -> Heap -> Prop) `{!PreOrder R}.
Context (R_new : keeps R new_action).
Context (R_release : forall i, keeps R (release (Utf8Block i))).

Lemma destroy_keeps slot e : keeps R (ConstantPoolEntry_destroy slot e).
Proof.
  unfold ConstantPoolEntry_destroy, member, delete_scalar.
  pose proof (keeps_expect R Single (Utf8Block slot)).
  keeps_with R.
Qed.

Lemma leave_keeps locals : keeps R (leave locals).
Proof.
  induction locals as [|x rest IH]; simpl; [apply keeps_ret, _|].
  apply (keeps_bind R); [done|]. intros _. apply destroy_keeps.
Qed.

Lemma run_d_keeps_heap depth name : keeps (heap_rel R) (run_d depth name).
Proof.
  apply run_d_keeps.
  - apply _.
  - intros A m _. apply keeps_lift, _.
  - by apply keeps_on_heap.
  - intros locals. apply keeps_on_heap, leave_keeps.
Qed.

End HeapInvariant.

(** *** The class file *)

Lemma keeps_lift_machine {A} R (m : M Machine A) :
  keeps R m -> keeps (machine_rel R) (lift m).
Proof.
  intros H w. specialize (H (machine w)). unfold lift, zoom, machine_rel.
  by destruct (m (machine w)).
Qed.

Lemma keeps_on_heap_machine {A} R `{!Reflexive R} (m : M Heap A) :
  keeps (machine_rel R) (on_heap m).
Proof.
  intros w. unfold on_heap, zoom, machine_rel. destruct (m (heap w)); simpl; reflexivity.
Qed.

(** The strict [run] changes in the machine what [run] changes. *)
Lemma run_d_evolves depth name : keeps (machine_rel evolves) (run_d depth name).
Proof.
  apply run_d_keeps.
  - apply _.
  - intros A m. apply keeps_lift_machine.
  - apply keeps_on_heap_machine, _.
  - intros locals. apply keeps_on_heap_machine, _.
Qed.

(** *** The static blocks *)

Lemma new_action_static : keeps same_static new_action.
Proof. intros h l Hl. simpl. rewrite lookup_insert_ne; [done|]. by intros <-. Qed.

Lemma release_static i : keeps same_static (release (Utf8Block i)).
Proof. intros h l Hl. simpl. rewrite lookup_delete_ne; [done|]. by intros <-. Qed.

(** A run neither takes nor frees a block other than an [Action] and the
    string of a pool entry. *)
Lemma run_d_static depth name : keeps (heap_rel same_static) (run_d depth name).
Proof.
  apply run_d_keeps_heap; [apply _ | apply new_action_static | apply release_static].
Qed.

(** *** The [Action]s *)

(** Every [Action] allocated so far is live. *)
Definition actions_live (h : Heap) : Prop :=
  forall n, (n < actions h)%nat -> live h !! ActionBlock n = Some Single.

(** [grows h h']: no [Action] was freed between [h] and [h']. *)
Definition grows (h h' : Heap) : Prop :=
  (actions h <= actions h')%nat /\ (actions_live h -> actions_live h').

#[export] Instance grows_preorder : PreOrder grows.
Proof.
  split.
  - by intros h.
  - intros h1 h2 h3 [L12 A12] [L23 A23]. split; [lia | auto].
Qed.

Lemma new_action_grows : keeps grows new_action.
Proof.
  intros h. split; simpl; [lia|]. intros Hl n Hn. cbn [live actions] in *.
  destruct (decide (n = actions h)) as [->|Hne].
  - by rewrite lookup_insert_eq.
  - rewrite lookup_insert_ne by (by intros [=]). apply Hl. lia.
Qed.

Lemma release_grows i : keeps grows (release (Utf8Block i)).
Proof.
  intros h. rewrite release_Ok. split; simpl; [lia|]. intros Hl n Hn.
  unfold set_live in *. cbn [live actions] in *.
  rewrite lookup_delete_ne by done. by apply Hl.
Qed.

(** However a run ends, the [Action]s it allocated are all still there:
    [pop] drops the pointer and nothing deletes the object. *)
Lemma run_d_grows depth name : keeps (heap_rel grows) (run_d depth name).
Proof.
  apply run_d_keeps_heap; [apply _ | apply new_action_grows | apply release_grows].
Qed.

(** *** The blocks of the class file *)

Lemma attributes_blocks_erase o (l : list AttributeInfo.t) :
  attributes_blocks o (erase_attr <$> l) = attributes_blocks o l.
Proof. unfold attributes_blocks. by rewrite length_fmap. Qed.

Lemma elements_blocks_erase i (l : list MethodEntry.t) :
  elements_blocks OfMethod MethodEntry.attributes i (erase_method <$> l) =
  elements_blocks OfMethod MethodEntry.attributes i l.
Proof.
  revert i. induction l as [|me l IH]; intros i; [done|].
  cbn [fmap list_fmap elements_blocks erase_method MethodEntry.attributes].
  by rewrite attributes_blocks_erase, IH.
Qed.

(** The blocks of a class file are those of every similar class file:
    what [run] writes into a buffer does not move it. *)
#[export] Instance JavaClassFile_blocks_sim :
  Proper (klass_sim ==> eq) JavaClassFile_blocks.
Proof.
  apply member_sim. intros k. unfold JavaClassFile_blocks, erase.
  cbn [JavaClassFile.const_pool JavaClassFile.interfaces JavaClassFile.fields
       JavaClassFile.methods JavaClassFile.attributes].
  destruct (JavaClassFile.methods k) as [l|]; [|done].
  cbn [fmap option_fmap option_map from_option]. by rewrite elements_blocks_erase.
Qed.

(** [evolves_d w w']: [w'] is a later state of the world [w].  The
    machine has evolved; the static blocks are as they were; no
    [Action] was freed. *)
Definition evolves_d (w w' : World) : Prop :=
  evolves (machine w) (machine w') /\ same_static (heap w) (heap w') /\
  grows (heap w) (heap w').

#[export] Instance evolves_d_preorder : PreOrder evolves_d.
Proof.
  split.
  - intros w. split; [|split]; reflexivity.
  - intros w1 w2 w3 (M1 & S1 & G1) (M2 & S2 & G2). split; [|split]; by etrans.
Qed.

Lemma run_d_evolves_d depth name : keeps evolves_d (run_d depth name).
Proof.
  intros w. split; [|split].
  - apply (run_d_evolves depth name w).
  - apply (run_d_static depth name w).
  - apply (run_d_grows depth name w).
Qed.

(** The static blocks of the class file. *)
Definition static_blocks (k : JavaClassFile.t) : list loc :=
  filter (fun l => static l = true) (JavaClassFile_blocks k).

(** However a run ends, the static blocks of the class file it leaves
    are where they were before it. *)
Lemma blocks_after_run depth name w :
  holds (static_blocks (klass (machine w))) (heap w) ->
  holds (static_blocks (klass (machine (final (run_d depth name w)))))
        (heap (final (run_d depth name w))).
Proof.
  destruct (run_d_evolves_d depth name w) as ((Hk & _) & Hs & _).
  unfold static_blocks. rewrite <- Hk. unfold holds. rewrite !Forall_forall.
  intros Hh l Hl. rewrite (Hs l); [by apply Hh|].
  by apply list_elem_of_filter in Hl as [? _].
Qed.

(** ** What a run preserves *)

(** Every [Action] a run allocates is leaked: all of them are live when
    the run has ended, in whatever way. *)
Theorem run_d_leaks depth name w :
  actions_live (heap w) ->
  actions_live (heap (final (run_d depth name w))) /\
  (actions (heap w) <= actions (heap (final (run_d depth name w))))%nat.
Proof. intros H. destruct (run_d_grows depth name w) as [L A]. auto. Qed.
