(* ===== verification/Tight.v ===== *)
(** * Tight: where the strict run ends, against the plain one

    [Lifetime.refines] leaves open what a strict run that ends in a
    destructor has to do with the plain run.  On a class file as the
    constructor returns it, the entries of the pool are as [read] left
    them, and then the destructor of a local entry can end in one way
    only, the read of [Utf8.bytes] in an entry that holds a String.
    [tight] is the refinement that says so: a strict operation ends as
    the plain one does, in the same state of the machine, or it ends in
    that read, and then the plain operation goes on from the state in
    which the strict one stopped: what the strict one printed is the
    beginning of what the plain one prints.  On the way the heap keeps
    every block that is no [Action] ([kept]): nothing the constructor
    allocated is freed or allocated again while the interpreter runs. *)

From Stdlib Require Import ZArith List String Lia.
From stdpp Require Import base tactics option list strings gmap.
From coqutil Require Import Byte.
From S2P Require Import Prelude Stream ConstantPool Records ClassFile Executor.
From S2P Require Import Encode Hello Cursor Store Termination Opcodes Scenarios.
From S2P Require Import Heap Destructors Strict Lifetime Preserved.

#[local] Open Scope Z_scope.
#[local] Open Scope m_scope.

(** ** The pool as the constructor leaves it *)

Definition pool_ok (s : Machine) : Prop :=
  from_option pool_wf True (JavaClassFile.const_pool (klass s)).

#[export] Instance pool_ok_dec s : Decision (pool_ok s).
Proof. unfold pool_ok. destruct (JavaClassFile.const_pool _); apply _. Defined.

Lemma pool_ok_evolves s s' : evolves s s' -> pool_ok s -> pool_ok s'.
Proof. intros [Hk _]. unfold pool_ok. by rewrite (const_pool_sim _ _ Hk). Qed.

Lemma wf_pool_ok file st i : JavaClassFile.wf file -> pool_ok (mkMachine file st i).
Proof.
  unfold JavaClassFile.wf, pool_ok. cbn [klass]. destruct (JavaClassFile.ok file).
  - by intros (_ & (p & -> & ? & _) & _).
  - by intros [-> _].
Qed.

(** ** The blocks a run leaves alone *)

Definition no_action (l : loc) : Prop := forall n, l <> ActionBlock n.

(** [kept h h']: the blocks that are no [Action] are the same in both
    heaps, each in the form it was made in. *)
Definition kept (h h' : Heap) : Prop :=
  forall l, no_action l -> live h' !! l = live h !! l.

#[export] Instance kept_preorder : PreOrder kept.
Proof.
  split.
  - by intros h l _.
  - intros h1 h2 h3 H12 H23 l Hl. rewrite H23, H12; done.
Qed.

Lemma new_action_kept : keeps kept new_action.
Proof.
  intros h l Hl. simpl. rewrite lookup_insert_ne; [done|].
  intros E. by apply (Hl (actions h)).
Qed.

Lemma kept_holds ls h h' :
  Forall no_action ls -> kept h h' ->
  holds ls h -> holds ls h'.
Proof.
  unfold holds. rewrite !Forall_forall. intros Hn Hk Hh l Hl.
  rewrite Hk by auto. by apply Hh.
Qed.

(** ** The refinement *)

(** [tightly od o]: the strict outcome [od] against the plain [o]. *)
Inductive tightly {A} : outcome World A -> outcome Machine A -> Prop :=
| tightly_Ok a w : tightly (Ok a w) (Ok a (machine w))
| tightly_Fault f w : tightly (Fault f w) (Fault f (machine w))
| tightly_local w o :
    evolves (machine w) (final o) -> tightly (Fault (Undefined UnionMember) w) o.

Definition tight {A} (md : M World A) (m : M Machine A) : Prop :=
  forall w, pool_ok (machine w) ->
    tightly (md w) (m (machine w)) /\
    evolves (machine w) (final (m (machine w))) /\
    kept (heap w) (heap (final (md w))).

Lemma world_eta w : mkWorld (machine w) (heap w) = w.
Proof. by destruct w. Qed.

Section Rules.
Context {A B : Type}.

Lemma tight_ret (a : A) : tight (ret a) (ret a).
Proof. intros w _. split; [constructor | split; reflexivity]. Qed.

Lemma tight_fail f : tight (A := A) (fail f) (fail f).
Proof. intros w _. split; [constructor | split; reflexivity]. Qed.

Lemma tight_or_ub u (o : option A) : tight (or_ub u o) (or_ub u o).
Proof. intros w _. destruct o; (split; [constructor | split; reflexivity]). Qed.

Lemma tight_lift (m : M Machine A) : keeps evolves m -> tight (lift m) m.
Proof.
  intros Hm w _. split; [|split; [apply Hm|]]; unfold lift, zoom;
    destruct (m (machine w)) as [a s|f s]; try reflexivity.
  - apply (tightly_Ok a (mkWorld s (heap w))).
  - apply (tightly_Fault f (mkWorld s (heap w))).
Qed.

Lemma tight_bind md m (kd : A -> M World B) (k : A -> M Machine B) :
  tight md m -> (forall a, tight (kd a) (k a)) -> tight (bind md kd) (bind m k).
Proof.
  intros Hm Hk w Hw. destruct (Hm w Hw) as (Ht & He & Hh). unfold bind.
  inversion Ht as [a w1 E1 E2|f w1 E1 E2|w1 o Hl E1 E2];
    rewrite <- E1 in Hh; cbn [final] in Hh.
  - rewrite <- E2 in He. cbn [final] in He.
    destruct (Hk a w1 (pool_ok_evolves _ _ He Hw)) as (Ht' & He' & Hh').
    split; [done | split; by etrans].
  - rewrite <- E2 in He. by split; [constructor|].
  - destruct (m (machine w)) as [b s1|g s1]; cbn [final] in *.
    + destruct (Hk b (mkWorld s1 (heap w)) (pool_ok_evolves _ _ He Hw)) as (_ & He' & _).
      cbn [machine] in He'. split; [constructor | split]; [by etrans..| done].
    + by split; [constructor|].
Qed.

(** An operation that does not change the machine and returns more than
    its plain counterpart: [g] forgets the rest, [P] holds of what it
    returns. *)
Lemma tight_bind_pure {C} (g : C -> A) (P : C -> Prop)
    (md : M Machine C) (m : M Machine A) (kd : C -> M World B)
    (k : A -> M Machine B) :
  (forall s, m s = bind md (fun c => ret (g c)) s) -> keeps (=) md ->
  (forall s c s', pool_ok s -> md s = Ok c s' -> P c) ->
  (forall c, P c -> tight (kd c) (k (g c))) ->
  tight (bind (lift md) kd) (bind m k).
Proof.
  intros Hg Hp HP Hk w Hw. unfold bind. rewrite Hg.
  unfold bind, lift, zoom, ret.
  pose proof (Hp (machine w)) as Hs. pose proof (HP (machine w)) as HP'.
  destruct (md (machine w)) as [c s|f s]; cbn [final] in *; subst s.
  - rewrite world_eta. exact (Hk c (HP' c (machine w) Hw eq_refl) w Hw).
  - rewrite world_eta. by split; [constructor|].
Qed.

(** [new Action] has no counterpart and cannot fail. *)
Lemma tight_new_action (kd : loc -> M World B) (m : M Machine B) :
  (forall a, tight (kd a) m) -> tight (bind (on_heap new_action) kd) m.
Proof.
  intros Hk w Hw.
  destruct (Hk (ActionBlock (actions (heap w)))
              (mkWorld (machine w) (final (new_action (heap w)))) Hw)
    as (Ht & He & Hh).
  split; [done | split; [done|]]. etrans; [apply new_action_kept | exact Hh].
Qed.

End Rules.

(** ** The end of a block *)

(** The destructors of locals that hold entries of the pool do nothing,
    or end in the read of [Utf8.bytes]. *)
Lemma leave_wf locals h :
  Forall entry_wf (value <$> locals) ->
  leave locals h = Ok tt h \/ leave locals h = Fault (Undefined UnionMember) h.
Proof.
  induction locals as [|x rest IH]; [by left|].
  intros [Hx Hr]%Forall_cons. cbn [leave]. unfold bind at 1 2.
  destruct (IH Hr) as [-> | ->]; [|by right].
  rewrite ConstantPoolEntry_destroy_wf by done. destruct (tag_is _ _); auto.
Qed.

Lemma tight_leave {B} locals (kd : unit -> M World B) (m : M Machine B) :
  Forall entry_wf (value <$> locals) -> tight (kd tt) m ->
  tight (bind (on_heap (leave locals)) kd) m.
Proof.
  intros Hl Hk w Hw. destruct (Hk w Hw) as (Ht & He & Hh).
  unfold bind, on_heap, zoom. destruct (leave_wf locals (heap w) Hl) as [-> | ->];
    rewrite world_eta; [done|]. by split; [constructor|].
Qed.

(** ** The locals *)

Lemma the_pool_wf s pool s' : pool_ok s -> the_pool s = Ok pool s' -> pool_wf pool.
Proof.
  unfold pool_ok, the_pool, bind, get. intros Hw H.
  by destruct (JavaClassFile.const_pool (klass s)); inv H.
Qed.

Lemma local_wf pool idx (s : Machine) x s' :
  pool_wf pool -> local pool idx s = Ok x s' -> entry_wf (value x).
Proof.
  intros Hw H. unfold local in H. inv_bind H. inv H. cbn [value].
  apply or_ub_Ok_inv in Hm as [Hm _]. by eapply entry_at_wf.
Qed.

Lemma resolve_d_wf idx s r s' :
  pool_ok s -> resolve_d idx s = Ok r s' -> Forall entry_wf (value <$> declared r).
Proof.
  intros Hw H. unfold resolve_d in H. inv_bind H.
  match goal with H : the_pool _ = Ok _ _ |- _ =>
    pose proof (the_pool_wf _ _ _ Hw H) as Hp end.
  do 11 inv_bind H. inv H. cbn.
  repeat (apply Forall_cons; split; [by eapply (local_wf a) |]). constructor.
Qed.

Section Locals.
Context {B : Type}.

Lemma tight_bind_pool (kd : ConstantPool -> M World B) (k : ConstantPool -> M Machine B) :
  (forall pool, pool_wf pool -> tight (kd pool) (k pool)) ->
  tight (bind (lift the_pool) kd) (bind the_pool k).
Proof.
  apply (tight_bind_pure id pool_wf); [| apply the_pool_pure | apply the_pool_wf].
  intros s. by rewrite bind_ret_r.
Qed.

Lemma tight_bind_local pool idx (kd : Local -> M World B)
    (k : ConstantPoolEntry -> M Machine B) :
  pool_wf pool ->
  (forall x, entry_wf (value x) -> tight (kd x) (k (value x))) ->
  tight (bind (lift (local pool idx)) kd) (bind (pool_entry pool idx) k).
Proof.
  intros Hp. apply (tight_bind_pure value (fun x => entry_wf (value x)));
    [| apply local_pure | intros s c s' _; by apply local_wf].
  intros s. rewrite <- (bind_ret_r (pool_entry pool idx)). by apply bind_local.
Qed.

Lemma tight_bind_resolve idx (kd : Locals -> M World B) (k : Resolved -> M Machine B) :
  (forall r, Forall entry_wf (value <$> declared r) -> tight (kd r) (k (values r))) ->
  tight (bind (lift (resolve_d idx)) kd) (bind (resolve idx) k).
Proof.
  apply (tight_bind_pure values (fun r => Forall entry_wf (value <$> declared r)));
    [apply resolve_values | apply resolve_d_pure | apply resolve_d_wf].
Qed.

End Locals.

(** Prove [tight md m] for a strict operation written after the plain
    one. *)
Ltac tight_struct :=
  repeat first
    [ solve [ eauto with zera ]
    | apply tight_new_action; intros
    | apply tight_leave; [ solve [ eauto using Forall_cons_2, Forall_nil_2 ] |]
    | apply tight_lift; solve [ keeps_evolves ]
    | apply tight_or_ub
    | apply tight_fail
    | apply tight_ret
    | apply tight_bind_resolve; intros
    | apply tight_bind_pool; intros
    | apply tight_bind_local; [ assumption | intros ]
    | apply tight_bind; [| intros ]
    | match goal with
      | |- tight (if ?x then _ else _) (if ?x then _ else _) => destruct x
      | |- tight (match ?x with _ => _ end) (match ?x with _ => _ end) => destruct x
      end ].

(** ** The interpreter *)

Section Step.
Context (rund : string -> M World unit) (run : string -> M Machine unit).
Context (Hrun : forall name, tight (rund name) (run name)).

Lemma execute_d_tight codeptr cursor op :
  tight (execute_d rund codeptr cursor op) (execute run codeptr cursor op).
Proof. unfold execute_d, execute. tight_struct. Qed.

Lemma step_d_tight codeptr cursor :
  tight (step_d rund codeptr cursor) (step run codeptr cursor).
Proof. unfold step_d, step. pose proof execute_d_tight. tight_struct. Qed.

Lemma run_loop_d_tight fuel codeattr code cursor :
  tight (run_loop_d fuel rund codeattr code cursor)
        (run_loop fuel run codeattr code cursor).
Proof.
  revert cursor. induction fuel as [|fuel IH]; intros cursor; simpl.
  - apply tight_fail.
  - pose proof step_d_tight. tight_struct.
Qed.

End Step.

Lemma run_d_tight depth name : tight (run_d depth name) (run depth name).
Proof.
  revert name. induction depth as [|depth IH]; intros name; cbn [run_d run].
  - apply tight_fail.
  - pose proof (run_loop_d_tight _ _ IH). tight_struct.
Qed.

(** ** What the refinement gives *)

(** The three parts of [tight], for a run. *)
Lemma run_d_against depth name w :
  pool_ok (machine w) ->
  tightly (run_d depth name w) (run depth name (machine w)).
Proof. intros Hw. by destruct (run_d_tight depth name w Hw). Qed.

Lemma run_d_kept depth name w :
  pool_ok (machine w) -> kept (heap w) (heap (final (run_d depth name w))).
Proof. intros Hw. by destruct (run_d_tight depth name w Hw) as (_ & _ & ?). Qed.

(** The blocks of a class file: none is an [Action]. *)
Lemma utf8_blocks_static es : forall i, Forall no_action (utf8_blocks i es).
Proof.
  induction es as [|e es IH]; intros i; cbn [utf8_blocks]; [constructor|].
  destruct (tag_is _ _); cbn [app]; [constructor; [done|]|]; apply IH.
Qed.

Lemma attributes_blocks_static o (l : list AttributeInfo.t) :
  Forall no_action (attributes_blocks o l).
Proof.
  unfold attributes_blocks, info_blocks. constructor; [done|].
  apply Forall_fmap, Forall_forall. by intros x _ n.
Qed.

Lemma elements_blocks_static {A} own (att : A -> list AttributeInfo.t) l :
  forall i, Forall no_action (elements_blocks own att i l).
Proof.
  induction l as [|x l IH]; intros i; cbn [elements_blocks]; [constructor|].
  apply Forall_app. split; [apply attributes_blocks_static | apply IH].
Qed.

Lemma JavaClassFile_blocks_static k : Forall no_action (JavaClassFile_blocks k).
Proof.
  unfold JavaClassFile_blocks. constructor; [done|].
  repeat (apply Forall_app; split);
    match goal with |- Forall _ (from_option _ _ ?o) => destruct o; cbn [from_option] end;
    try apply attributes_blocks_static;
    repeat (constructor; [done|]);
    auto using utf8_blocks_static, attributes_blocks_static, elements_blocks_static,
      Forall_nil_2.
Qed.

(** C34: on a class file whose pool is as [read] left it, the strict
    [run] ends where the plain [run] ends, with the same result or the
    same fault and in the same state of the machine, or it ends in the
    destructor of a local entry, and that in one way: the read of
    [Utf8.bytes] in an entry that holds a String.  Then the plain [run]
    goes on from the state in which the strict one stopped: the class
    file is the same up to header swaps and the lines the strict run
    printed are the first of those the plain run prints. *)
Theorem run_d_ends depth name w :
  pool_ok (machine w) ->
  tightly (run_d depth name w) (run depth name (machine w)).
Proof. apply run_d_against. Qed.

(** C25: what a run with the destructors leaves as it was, however it
    ends, on a class file whose pool is as [read] left it.  In the
    machine: the class file but for the eight header bytes of method
    attributes, the stream and [cerr]; the lines on [cout] are still
    there, more lines after them.  In the heap: every block that is no
    [Action], in the form it was allocated in, so the stream, the pool,
    the strings of its entries and every array of the class file are
    where the constructor put them; and every [Action] allocated so far,
    the run's own among them. *)
Theorem run_d_preserves depth name w :
  pool_ok (machine w) ->
  evolves_d w (final (run_d depth name w)) /\
  kept (heap w) (heap (final (run_d depth name w))) /\
  (holds (JavaClassFile_blocks (klass (machine w))) (heap w) ->
   holds (JavaClassFile_blocks (klass (machine (final (run_d depth name w)))))
         (heap (final (run_d depth name w)))).
Proof.
  intros Hw. pose proof (run_d_evolves_d depth name w) as He.
  pose proof (run_d_kept depth name w Hw) as Hk.
  split; [done | split; [done|]]. destruct He as ((Hs & _) & _).
  rewrite <- Hs. apply kept_holds; [apply JavaClassFile_blocks_static | done].
Qed.

(** ** The theorems on the class [hello] *)

Definition hello_world : World := mkWorld hello_machine empty_heap.

Lemma hello_pool_ok : pool_ok (machine hello_world).
Proof. apply (bool_decide_unpack _). by vm_compute. Qed.

Lemma run_d_ends_witness :
  tightly (run_d 1 "main" hello_world) (run 1 "main" (machine hello_world)).
Proof. apply (run_d_ends 1 "main" hello_world). exact hello_pool_ok. Defined.

Lemma run_d_preserves_witness :
  evolves_d hello_world (final (run_d 1 "main" hello_world)) /\
  kept (heap hello_world) (heap (final (run_d 1 "main" hello_world))) /\
  (holds (JavaClassFile_blocks (klass (machine hello_world))) (heap hello_world) ->
   holds (JavaClassFile_blocks (klass (machine (final (run_d 1 "main" hello_world)))))
         (heap (final (run_d 1 "main" hello_world)))).
Proof. apply (run_d_preserves 1 "main" hello_world). exact hello_pool_ok. Defined.
