(* ===== verification/MainStrict.v ===== *)
(** * MainStrict: [main] with the destructors

    What the destructors change in the program as a whole: the block of
    LDC ends in the destructor of its local entry, and [return 0] runs
    the destructor of the class file, which deletes an array with
    [delete].  [ended] relates the strict [main] to the plain one, case
    by case: the same fault with the same output; the read of
    [Utf8.bytes] in the destructor of a local entry, after the first
    lines of the plain output; or, where the plain [main] returns 0,
    the [delete] of the array [entries], after all of the plain
    output. *)

From Stdlib Require Import ZArith List String Lia.
From stdpp Require Import base tactics option list strings gmap.
From coqutil Require Import Byte.
From S2P Require Import Prelude Stream ConstantPool Records ClassFile Executor.
From S2P Require Import Encode Hello Cursor Store Termination Opcodes Scenarios.
From S2P Require Import Heap Destructors Strict Lifetime Preserved Tight.

#[local] Open Scope Z_scope.
#[local] Open Scope m_scope.

(** ** LDC *)

(** The heap with one more [Action]. *)
Definition with_action (h : Heap) : Heap :=
  mkHeap (<[ActionBlock (actions h) := Single]> (live h)) (S (actions h)).

Lemma new_action_Ok h : new_action h = Ok (ActionBlock (actions h)) (with_action h).
Proof. reflexivity. Qed.

Lemma local_at pool idx e (s : Machine) :
  entry_at pool idx = Some e ->
  local pool idx s = Ok (mkLocal (Z.to_nat (idx - 1)) e) s.
Proof. intros H. unfold local. by rewrite (bind_Ok _ _ _ _ _ (pool_entry_at _ _ _ _ H)). Qed.

(** Run the next call of a strict branch whose result is known. *)
Ltac next_d :=
  first
    [ rewrite (bind_Ok _ _ _ _ _ (on_heap_Ok _ _ _ _ (new_action_Ok _)))
    | rewrite (bind_Ok _ _ _ _ _ (lift_Ok _ _ _ _ (push_Ok _ _)))
    | rewrite (bind_Ok _ _ _ _ _ (lift_Ok _ _ _ _ (print_Ok _ _)))
    | match goal with
      | H : ?m ?s = Ok _ _ |- context [bind (lift ?m) _ (mkWorld ?s _)] =>
          rewrite (bind_Ok _ _ _ _ _ (lift_Ok m (mkWorld s _) _ _ H))
      end ];
  cbn [machine heap].

Lemma execute_d_LDC_at run codeptr cursor s h idx pool e :
  code_byte codeptr (S cursor) s = Ok idx s ->
  JavaClassFile.const_pool (klass s) = Some pool ->
  entry_at pool idx = Some e -> entry_wf e ->
  execute_d run codeptr cursor 0x12 (mkWorld s h) =
  (if tag_is (tag e) CP_String then Fault (Undefined UnionMember) else Ok (S cursor))
    (mkWorld (pushed (ConstantAction CONSTANT e) s) (with_action h)).
Proof.
  intros H1 Hp%the_pool_at He%(local_at _ _ _ s) Hwf.
  unfold execute_d.
  change (op_is 0x12 GETSTATIC) with false. change (op_is 0x12 LDC) with true.
  cbv iota. do 5 next_d.
  unfold bind at 1, on_heap, zoom, leave. cbn [heap machine value slot].
  rewrite bind_ret_l, ConstantPoolEntry_destroy_wf by done.
  by destruct (tag_is _ _).
Qed.

(** ** [main] *)

(** The channels once [filename] was opened. *)
Definition opened (filename : string) (p : Process) : IO :=
  set_stream (from_option id [] (files p !! filename)) (pio p).

(** [goes_on i i']: from the channels [i] the program went on to [i']:
    it printed more lines on [cout] and did nothing else. *)
Definition goes_on (i i' : IO) : Prop :=
  stream i' = stream i /\ cout i `prefix_of` cout i' /\ cerr i' = cerr i.

#[export] Instance goes_on_dec i i' : Decision (goes_on i i').
Proof. unfold goes_on. apply _. Defined.

(** [ended od o]: how [main] ends with the destructors, [od], against
    how it ends without, [o]:
    - in the same fault, with the same output;
    - in the destructor of a local entry of [step], which reads
      [Utf8.bytes] in an entry that holds a String: the plain [main]
      goes on from there, however it ends;
    - where the plain [main] returns 0, in the destructor of [file],
      which deletes the array [entries] with [delete], with the same
      output. *)
Inductive ended : outcome Process Z -> outcome IO Z -> Prop :=
| ended_fault f p : ended (Fault f p) (Fault f (pio p))
| ended_local p o :
    goes_on (pio p) (final o) -> ended (Fault (Undefined UnionMember) p) o
| ended_return p : ended (Fault (Undefined MismatchedDelete) p) (Ok 0 (pio p)).

Lemma new_d_new filename p :
  JavaClassFile_new_d filename p =
  match JavaClassFile.new filename (opened filename p) with
  | Ok file i => Ok file (mkProcess (files p) i
                            (acquire (JavaClassFile_blocks file) (pheap p)))
  | Fault f i => Fault f (mkProcess (files p) i (pheap p))
  end.
Proof.
  unfold JavaClassFile_new_d, open, in_io, in_heap, zoom, bind, modify, opened.
  cbn [pio pheap files]. by destruct (JavaClassFile.new _ _).
Qed.

(** Without a method table no method is found. *)
Lemma run_initial depth name header1 st i :
  is_Ok (run depth name (mkMachine (JavaClassFile.initial header1) st i)) = false.
Proof. by destruct depth. Qed.

(** A class file that [run] returned on has a pool. *)
Lemma run_Ok_pool depth name file io s' :
  JavaClassFile.wf file ->
  run depth name (mkMachine file [] io) = Ok tt s' ->
  exists p, JavaClassFile.const_pool file = Some p /\
            JavaClassFile.const_pool (klass s') = Some p.
Proof.
  intros Hwf Hr. pose proof (keeps_Ok _ _ _ _ _ (run_evolves depth name) Hr) as (Hk & _).
  cbn [klass] in Hk. rewrite <- (const_pool_sim _ _ Hk).
  unfold JavaClassFile.wf in Hwf. destruct (JavaClassFile.ok file).
  - destruct Hwf as (_ & (p & -> & _) & _). eauto.
  - destruct Hwf as [E _]. rewrite E in Hr.
    by destruct (is_Ok_false _ _ _ _ (run_initial depth name _ [] io) Hr).
Qed.

(** When the strict [run] returns, the destructor of [file] finds the
    array [entries] where the constructor put it. *)
Lemma destroy_after_run depth name file io h w' :
  JavaClassFile.wf file ->
  run_d depth name (mkWorld (mkMachine file [] io) (acquire (JavaClassFile_blocks file) h))
    = Ok tt w' ->
  JavaClassFile_destroy (klass (machine w')) (heap w') =
  Fault (Undefined MismatchedDelete) (free_all [StreamBlock] (heap w')).
Proof.
  intros Hwf Hd. pose proof (run_d_Ok _ _ _ _ Hd) as Hr.
  destruct (run_Ok_pool _ _ _ _ _ Hwf Hr) as (p & Ep & Ep').
  pose proof (keeps_Ok _ _ _ _ _ (run_d_static depth name) Hd) as Hs.
  unfold heap_rel in Hs. cbn [heap] in Hs.
  destruct (pool_blocks file p Ep) as (H1 & H2 & H3).
  apply (JavaClassFile_destroy_pool _ p _ Ep');
    (rewrite Hs by done); by apply lookup_acquire.
Qed.

Lemma main_d_main depth a filename rest p :
  ended (main_d depth (a :: filename :: rest) p)
        (main depth (a :: filename :: rest) (opened filename p)).
Proof.
  unfold main_d, main.
  replace (Z.of_nat (length (a :: filename :: rest)) <? 2) with false
    by (symmetry; apply Z.ltb_ge; simpl length; lia).
  cbn [lookup list_lookup or_ub]. rewrite !bind_ret_l.
  unfold bind at 1 5. rewrite new_d_new.
  destruct (JavaClassFile.new filename (opened filename p)) as [file i|f i] eqn:En;
    [|apply (ended_fault f (mkProcess _ i _))].
  apply new_wf in En.
  unfold bind at 1 4, with_executor_d, with_executor. cbn [pio pheap files].
  destruct (run_d_tight depth "main"
    (mkWorld (mkMachine file [] i) (acquire (JavaClassFile_blocks file) (pheap p)))
    (wf_pool_ok file [] i En)) as [Hr _].
  pose proof (destroy_after_run depth "main" file i (pheap p)) as Hd.
  cbn [machine] in Hr.
  destruct (run_d depth "main" _) as [[] w'|f w'];
    inversion Hr as [x w0 E1 E2|g w0 E1 E2|w0 o (_ & Hs & Ho & He) E1 E2]; subst.
  - unfold JavaExecutor_destroy, in_heap, zoom, bind. cbn [pheap ret].
    rewrite (Hd w' En eq_refl). apply (ended_return (mkProcess _ _ _)).
  - apply (ended_fault f (mkProcess _ _ _)).
  - apply (ended_local (mkProcess _ _ _)). cbn [pio].
    by destruct (run depth "main" _) as [[] s|g s].
Qed.

(** A file that is not there is read as an empty one: the constructor
    ends in the read of the header, and nothing is written. *)
Lemma main_d_no_file depth a filename rest p :
  files p !! filename = None ->
  main_d depth (a :: filename :: rest) p =
  Fault (Undefined UninitializedRead)
        (mkProcess (files p) (set_stream [] (pio p)) (pheap p)).
Proof.
  intros Hf. unfold main_d.
  replace (Z.of_nat (length (a :: filename :: rest)) <? 2) with false
    by (symmetry; apply Z.ltb_ge; simpl length; lia).
  cbn [lookup list_lookup or_ub]. rewrite bind_ret_l.
  apply bind_Fault. rewrite new_d_new. unfold opened. rewrite Hf. cbn [from_option id].
  unfold JavaClassFile.new.
  by rewrite (bind_Fault _ _ _ _ _ (stream_read_short 10 (set_stream [] (pio p)) ltac:(unfold set_stream; simpl; lia))).
Qed.

(** ** What [main] does with the destructors *)

(** C18: [main] with the destructors against [main] without, on the same
    file, ends in one of three ways.  Both end in the same fault with
    the same output.  Or the strict one ends in the destructor of a
    local entry of [step], in the read of [Utf8.bytes] of an entry
    that holds a String, having printed the first lines of what the
    plain one prints.  Or the plain [main] returns 0, and the strict one
    has read and printed exactly the same and ends in the destructor of
    [file], which deletes the array [entries] with [delete]. *)
Theorem main_d_refines depth a filename rest p :
  ended (main_d depth (a :: filename :: rest) p)
        (main depth (a :: filename :: rest) (opened filename p)).
Proof. apply main_d_main. Qed.

(** C22: With the destructors, [main] returns only the status 1 of a
    command line without a file name: no run of the interpreter ends in
    [return 0]. *)
Theorem main_d_status depth argv p z p' :
  main_d depth argv p = Ok z p' -> z = 1 /\ (length argv < 2)%nat.
Proof.
  destruct argv as [|a [|filename rest]].
  - intros [= <- _]. simpl. split; [done | lia].
  - intros [= <- _]. simpl. split; [done | lia].
  - intros H. pose proof (main_d_main depth a filename rest p) as He.
    rewrite H in He. inversion He.
Qed.

(** C21: LDC pushes a copy of the pool entry and then destroys its own
    local copy: for an entry whose tag is String the destructor reads
    [Utf8.bytes], which is not the member [read] stored, so the
    instruction that loads a string constant has no defined behaviour;
    for every other entry the instruction ends as in [Executor], with
    one more [Action] on the heap. *)
Theorem execute_d_LDC run codeptr cursor s h idx pool e :
  code_byte codeptr (S cursor) s = Ok idx s ->
  JavaClassFile.const_pool (klass s) = Some pool ->
  entry_at pool idx = Some e -> entry_wf e ->
  execute_d run codeptr cursor 0x12 (mkWorld s h) =
  (if tag_is (tag e) CP_String then Fault (Undefined UnionMember) else Ok (S cursor))
    (mkWorld (pushed (ConstantAction CONSTANT e) s) (with_action h)).
Proof. apply execute_d_LDC_at. Qed.

(** C26: A file that cannot be opened: the stream delivers nothing, the
    constructor reads the header into memory it never filled, and no
    diagnostic is written; the test of the source for this case tests
    the pointer, not the stream. *)
Theorem main_d_missing_file depth a filename rest p :
  files p !! filename = None ->
  main_d depth (a :: filename :: rest) p =
  Fault (Undefined UninitializedRead)
        (mkProcess (files p) (set_stream [] (pio p)) (pheap p)).
Proof. apply main_d_no_file. Qed.

(** ** Examples *)

(** The files of a process that has the one file [Main.class]. *)
Definition disk (k : JavaClassFile.t) : gmap string (list byte) :=
  {[ "Main.class"%string := write_class k ]}.

(** What [main] does with the file of a class, destructors included. *)
Definition runs_d (k : JavaClassFile.t) : outcome Process Z :=
  main_d 3 argv (boot (disk k)).

(** The example of the specification: GETSTATIC, then LDC of the
    string constant, whose local copy cannot be destroyed; the line "Hi"
    is never written.  Two [Action]s were allocated by then. *)
Example hello_d :
  let o := runs_d hello in
  fault_of o = Some (Undefined UnionMember) /\
  cout (pio (final o)) = ["[main] Length of LVA: 1"%string] /\
  actions (pheap (final o)) = 2%nat.
Proof. by vm_compute. Qed.

(** A method of SIPUSH and RETURN runs to its end; the [Action] it
    pushed is still allocated when the destructor of [file] gives up,
    and so is every block of the class file but the stream. *)
Example sipush_d :
  let o := runs_d (calls [0x11; 1; 2; 0xB1] [0xB1]) in
  fault_of o = Some (Undefined MismatchedDelete) /\
  cout (pio (final o)) = ["[main] Length of LVA: 1"; "Number is: 258"; "Return!"]%string /\
  live (pheap (final o)) !! ActionBlock 0 = Some Single /\
  live (pheap (final o)) !! StreamBlock = None /\
  live (pheap (final o)) !! EntriesBlock = Some Many.
Proof. by vm_compute. Qed.

Lemma main_d_status_witness :
  main_d 3 ["zeravm"%string] (boot ∅) =
    Ok 1 (mkProcess ∅ (mkIO [] ["Too few arguments!"%string] []) empty_heap) /\
  (1 = 1 /\ (length ["zeravm"%string] < 2)%nat).
Proof.
  split; [reflexivity|].
  exact (main_d_status 3 ["zeravm"%string] (boot ∅) 1 _ eq_refl).
Defined.

Lemma execute_d_LDC_witness :
  execute_d (run_d 0) hello_code_ptr 3 0x12 (mkWorld hello_running empty_heap) =
  Fault (Undefined UnionMember)
    (mkWorld (pushed (ConstantAction CONSTANT (string_ 11)) hello_running)
             (with_action empty_heap)).
Proof.
  apply (execute_d_LDC (run_d 0) hello_code_ptr 3 hello_running empty_heap 12
           (mkPool hello_pool) (string_ 11)); by vm_compute.
Defined.

Lemma main_d_missing_file_witness :
  main_d 3 argv (boot ∅) =
  Fault (Undefined UninitializedRead) (boot ∅).
Proof. exact (main_d_missing_file 3 _ _ _ (boot ∅) eq_refl). Defined.
